(* ===== verification/_CoqProject ===== *)
-Q . S2P
Prelude.v
State.v
Mem.v
Pmm.v
Printf.v
Vm.v
UserMem.v
Kvm.v
Klog.v
Bio.v
Virtio.v
Blocks.v
Sched.v
Proc.v
Lifecycle.v
Growth.v
Forking.v
Log.v
Crash.v
Txn.v
Update.v
Fs.v
Layout.v
Inodes.v
Icache.v
Paths.v
Mkfs.v
Tree.v
Namei.v
Alloc.v
Slots.v
Writing.v
Store.v
File.v
Durable.v
Mount.v
Sysfile.v
Calls.v
Saving.v
Closing.v
Trap.v
Main.v
User.v
Init.v
Programs.v
Suite.v
Terminal.v
