(* ===== verification/Prelude.v ===== *)
(** * The riscvos kernel in Rocq

    A model of the C code of riscvos, a small teaching kernel for one RISC-V hart
    in the style of xv6, with the theorems that say its parts do what they are
    for.  The C functions are translated one by one into functions of the same
    name; the definitions of the kernel can be run by [vm_compute].

    ** How the code is modelled

    - The state.  [kstate] (State.v) has one field per global of the kernel, and
      the parts of the machine that the C code uses: physical memory byte by
      byte, the disk block by block, the bytes sent to the UART, the control
      registers and the values the time register will return.  There is one
      [Record] per C struct.  Integers are [Z], and every place where the C code
      wraps or converts says so ([u32], [i32], [u64], ...).  Signed overflow, which C
      leaves undefined, is so in the user programs ([signed]); the kernel's signed
      counters wrap ([i32]), as on the target.  A pointer to an
      element of a static array is its index; a pointer into allocated memory is
      its physical address, as the kernel maps memory one to one.
    - The code.  A function is in the monad [M kstate]: from a state it returns
      ([Ok]), panics ([Panic]), does what C leaves undefined ([Fault]), spins for
      ever ([Hang]), or calls [swtch] into the scheduler ([Switch], with what it
      does when it is scheduled again).  The kernel does not preempt itself, so a
      run between two switches is sequential.  Loops over a fixed range are folds
      ([for_each], [for_find]); the others take fuel, computed from the arguments
      where the code has a bound, so that [OutOfFuel] is never reached: the
      theorems say that the code returns, not only what holds if it does.
    - User programs are interaction trees (the library ITree) over the system
      calls: a program makes a call and goes on with whatever the kernel answers.
    - The proofs use [wpx] and [wp], weakest preconditions on this monad, or
      equations for the result where the code is deterministic in simple terms.

    ** The files

    - Prelude.v (this file): integers, bytes, outcomes, loops, [wp]; State.v: the
      structs and the globals (include/*.h); Mem.v: physical memory and the
      linker's symbols.
    - Pmm.v: kernel/pmm.c, the free list of pages.  The class [PageAllocator] is
      what it promises to its clients.
    - Vm.v: kernel/vm.c, page tables; UserMem.v: user memory as [copyin],
      [copyinstr] and [copyout] see it; Kvm.v: kernel/vm_init.c.
    - Printf.v: kernel/printf.c, console.c and the transmit side of uart.c;
      Klog.v: kernel/klog.c and timer.c.
    - Bio.v: kernel/bio.c, the buffer cache, over a disk that transfers blocks.
      Blocks.v: the class [BlockCache], the laws on which the log and the file
      system are built, and its instance for Bio.v.  Virtio.v: kernel/
      virtio_disk.c, the driver, which is proved to be that disk.
    - Log.v: kernel/log.c; Crash.v: what a crash leaves on the disk; Txn.v: the
      theorems about transactions and recovery; Update.v: how an operation of the
      file system changes a block inside a transaction.
    - Fs.v: kernel/fs.c.  Reading: Layout.v (inodes as bytes), Inodes.v (the
      contents of a file), Icache.v (the inode cache), Paths.v (directories and
      paths), Tree.v (the file system as a tree, and the image that mkfs makes),
      Namei.v (resolution of paths); Mkfs.v: mkfs/mkfs.c.  Writing: Alloc.v (the
      bitmap), Slots.v (the blocks a file owns), Writing.v ([bmap] and [writei]),
      Store.v (the tree under writes).  Mount.v: [binit], [fsinit], [fileinit].
    - File.v: kernel/file.c; Durable.v: a write of an open file as a transaction.
    - Sched.v and Proc.v: kernel/proc.c; Lifecycle.v: the scheduler, exit and
      wait; Growth.v: sbrk; Forking.v: fork.
    - Sysfile.v: kernel/syscall.c, sysfile.c and sysproc.c; Calls.v: a system call
      of a process, from the trap frame and back; Saving.v: [write] on a file;
      Closing.v: [close] of an unlinked file.
    - Trap.v: kernel/trap.c and exception.c; Main.v: [kmain] of kernel/main.c.
    - User.v: user/ulib.c, the library of user programs; Init.v: user/init.c, the
      first program.  Programs.v: a logic for user programs; Suite.v: the first
      program on any kernel; Terminal.v: the library on this kernel.

    The parts call each other as in the kernel: traps dispatch to system calls,
    these to files, processes and user memory, files to inodes, inodes to the log
    and the buffer cache, the cache to the driver; page tables and processes take
    pages from the allocator.  User programs meet the kernel at the system calls.

    ** What the theorems show

    - Crash safety: a crash after any disk write of a commit leaves a disk from
      which the next boot recovers all of the transaction or none of it, also
      when the recovery is interrupted ([end_op_crash_atomic],
      [recovery_installs_log], [recovery_idempotent], [end_op_installs],
      [logged_update], [boot_establishes_inv], [log_write_panics], [begin_op_runs],
      [sleeping_begin_op_deadlocks]); so a write of a file is on the disk as a
      whole or not at all ([write_crash_atomic]), and [write] stores the bytes of
      user memory in transactions of 512 bytes ([write_saves]).
    - The buffer cache shows the blocks of the disk, writes them once, recycles
      the least recently used buffer ([bread_shows_block],
      [block_update_reaches_disk], [bread_recycles_lru], [brelse_most_recent],
      [binit_empty_cache]); the virtio driver implements the transfer of a block
      ([virtio_disk_rw_refines]).
    - The file system: [kmain]'s mount recovers the log and establishes the
      invariant of the theorems about writes ([fsinit_mounts]); [namei] finds the
      inode a path denotes ([namei_resolves], [nameiparent_resolves]); [fileread]
      reads the bytes of the file ([fileread_reads]), those that were written
      ([filewrite_writes], [filewrite_fileread]); a write that reaches past the
      largest size of a file panics ([writei_past_end_panics]); [balloc] takes the
      first free block and [bfree] frees it ([balloc_first_fit],
      [bfree_clears_bit]); [iget] keeps one slot per inode ([iget_keeps_cache]);
      inodes survive the trip to the disk, in both directions
      ([dinode_roundtrip], [ilock_iupdate_keeps]); mkfs makes a file system with an
      exact bitmap ([mkfs_makes_file_system]); the last [close] of an unlinked
      file panics ([close_unlinked_panics]).
    - Memory: the allocator is a stack of pages that [pmm_init] fills
      ([pmm_refines_stack], [pmm_init_frees_all]); a page table is a map into
      which [map_page] inserts ([map_page_inserts],
      [map_page_exhausted_faults]); user copies go through it ([copyin_reads],
      [copyout_copyin_roundtrip], [copyinstr_reads]); [sbrk] ([sbrk_grows]).
    - Processes: the scheduler runs every runnable process in each round
      ([scheduler_runs_all]); a child of [fork] has a copy of its parent's memory
      and registers ([fork_copies]); a waiting parent gets the status of a child
      that exits ([exit_is_reaped]); [usertrapret] ([usertrapret_prepares]).
    - Output: [printf_renders], [printf_numerals_roundtrip],
      [klog_appends_record], [log_dump_shows_contents],
      [log_clear_keeps_its_message], [log_stats_usage]; a [write] to the console
      shows the bytes of user memory ([write_prints]).
    - User programs: [printf] of the user library, run on the kernel, shows what
      the kernel's would ([user_printf_prints_as_kernel]); on every kernel that
      gives new descriptors and lets a program read no more from one than the
      largest file holds, the first program ends, uses only descriptors that it has
      opened ([init_program_safe]), and says that all tests have passed
      ([init_reports_success]).

    ** Parameters and hypotheses

    The linker's and the build's choices are the class [Symbols]; the virtio
    device is a transition function with its documented behaviour as the record
    [virtio_device]; the processes of the scheduler's theorem are any that come
    back ([cooperative]).  Each theorem with a hypothesis has an instance
    (its name with [_witness]) at a concrete state.

    ** Bounds and fuel

    [bget] walks at most the [NBUF] buffers of a well-formed list; [readi] and
    [writei] take [n / BSIZE + 2] rounds; [dirlookup] one per entry; [namex] one
    per character of the path; [pmm_init] one per page of memory; [fork] one per
    page of the parent and one more; [sys_write] at most one per byte; the
    driver's polling takes as many polls as the device needs, a hypothesis of its
    theorem; [wait_process] and [scheduler] are given the number of rounds.  User
    programs need none: the loops that may not end are iterations of interaction
    trees.

    ** Not modelled

    The assembly (kernel/entry.S, kernelvec.S, trampoline.S, swtch.S, usys.S), which
    would need a semantics of the instructions, and with it the accessors of the
    control registers in riscv.h, whose effect is written where they are used; the
    effect of [satp] on the kernel's own accesses, which are mapped one to one; the
    wait for the UART's line status, which is time of the device; [timer_init],
    which nothing calls and which programs the timer by a call of the firmware;
    what mkfs says on the host's terminal; interrupts inside the kernel, where
    the timer handler does nothing.  Modelled, but not yet the subject of a
    theorem of its own: dirlink, itrunc, unlink and open, kill, [kvminit] and the
    whole of [kmain].  They can be run, as Closing.v runs [open], [unlink] and
    [close] on the image of mkfs. *)
From stdpp Require Export base numbers list gmap strings.
From Stdlib Require Export ZArith Lia.

#[global] Open Scope Z_scope.

(** ** Machine integers *)

(** C's unsigned types wrap modulo [2^w]; the signed types are two's
    complement, which is what the conversions of the target ABI do. *)
Definition u8 (x : Z) : Z := x mod 2 ^ 8.
Definition u16 (x : Z) : Z := x mod 2 ^ 16.
Definition u32 (x : Z) : Z := x mod 2 ^ 32.
Definition u64 (x : Z) : Z := x mod 2 ^ 64.
Definition i16 (x : Z) : Z := (x + 2 ^ 15) mod 2 ^ 16 - 2 ^ 15.
Definition i32 (x : Z) : Z := (x + 2 ^ 31) mod 2 ^ 32 - 2 ^ 31.
Definition i64 (x : Z) : Z := (x + 2 ^ 63) mod 2 ^ 64 - 2 ^ 63.

(** ** Byte sequences *)

(** A string literal as the list of its bytes; a C string is the list of its
    bytes before the terminating NUL. *)
Definition str (s : string) : list Z :=
  map (fun c => Z.of_N (Ascii.N_of_ascii c)) (String.list_ascii_of_string s).

(** Little-endian images of [n]-byte integers. *)
Fixpoint le_bytes (n : nat) (x : Z) : list Z :=
  match n with
  | O => []
  | S n' => (x mod 256) :: le_bytes n' (x / 256)
  end.

Fixpoint le_value (bs : list Z) : Z :=
  match bs with
  | [] => 0
  | b :: bs' => b + 256 * le_value bs'
  end.

(** [bytes_at off n d] is the [n] bytes of [d] at [off]; [splice off bs d]
    overwrites the bytes of [d] at [off] with [bs], as [memcpy] does. *)
Definition bytes_at (off n : nat) (d : list Z) : list Z := take n (drop off d).
Definition splice (off : nat) (bs d : list Z) : list Z :=
  take off d ++ bs ++ drop (off + length bs) d.

(** Reading and writing a little-endian field of a struct that lies in a byte
    buffer. *)
Definition get_le (n off : nat) (d : list Z) : Z := le_value (bytes_at off n d).
Definition put_le (n off : nat) (v : Z) (d : list Z) : list Z :=
  splice off (le_bytes n v) d.

(** ** Outcomes of kernel code

    A piece of kernel code run from a state ends in one of these ways.
    [Switch] is a call of [swtch] into the scheduler: the state the process
    leaves behind, and what it does when it is scheduled again. *)
Inductive outcome (St A : Type) : Type :=
| Ok (a : A) (s : St)
| Panic (msg : list Z) (s : St)
| Fault
| Hang (s : St)
| OutOfFuel
| Switch (s : St) (k : St -> outcome St A).

Arguments Ok {St A} a s.
Arguments Panic {St A} msg s.
Arguments Fault {St A}.
Arguments Hang {St A} s.
Arguments OutOfFuel {St A}.
Arguments Switch {St A} s k.

Definition M (St A : Type) : Type := St -> outcome St A.

Definition ret {St A} (a : A) : M St A := fun s => Ok a s.
Definition fault {St A} : M St A := fun _ => Fault.
Definition hang {St A} : M St A := fun s => Hang s.
Definition out_of_fuel {St A} : M St A := fun _ => OutOfFuel.
Definition get {St} : M St St := fun s => Ok s s.
Definition gets {St A} (f : St -> A) : M St A := fun s => Ok (f s) s.
Definition modify {St} (f : St -> St) : M St unit := fun s => Ok tt (f s).

Fixpoint obind {St A B} (o : outcome St A) (f : A -> M St B) : outcome St B :=
  match o with
  | Ok a s => f a s
  | Panic msg s => Panic msg s
  | Fault => Fault
  | Hang s => Hang s
  | OutOfFuel => OutOfFuel
  | Switch s k => Switch s (fun s' => obind (k s') f)
  end.

Definition bind {St A B} (m : M St A) (f : A -> M St B) : M St B :=
  fun s => obind (m s) f.

Declare Scope kern_scope.
Delimit Scope kern_scope with kern.
Notation "x <- m ;; k" := (bind m (fun x => k))
  (at level 100, m at next level, k at level 200, right associativity) : kern_scope.
Notation "'let!' p ':=' m 'in' k" := (bind m (fun x => match x with p => k end))
  (at level 10, p pattern, m at level 200, k at level 200) : kern_scope.
Notation "m ;; k" := (bind m (fun _ => k))
  (at level 100, k at level 200, right associativity) : kern_scope.
Open Scope kern_scope.

(** An optional value that the code dereferences: the C code has undefined
    behaviour when there is none. *)
Definition of_opt {St A} (o : option A) : M St A :=
  match o with Some a => ret a | None => fault end.

Definition when {St} (b : bool) (m : M St unit) : M St unit :=
  if b then m else ret tt.

(** [for(x in l) body]: the loops whose range does not change in the body. *)
Fixpoint for_each {St A} (l : list A) (body : A -> M St unit) : M St unit :=
  match l with
  | [] => ret tt
  | x :: l' => _ <- body x;; for_each l' body
  end.

(** The same with an early [return]: [Some r] leaves the loop. *)
Fixpoint for_find {St A R} (l : list A) (body : A -> M St (option R))
  : M St (option R) :=
  match l with
  | [] => ret None
  | x :: l' => o <- body x;;
               match o with Some r => ret (Some r) | None => for_find l' body end
  end.

(** Array accesses at an integer index: [None] out of bounds. *)
Definition lget {A} (i : Z) (l : list A) : option A :=
  if decide (0 <= i) then l !! Z.to_nat i else None.
Definition lset {A} (i : Z) (x : A) (l : list A) : option (list A) :=
  if decide (0 <= i < Z.of_nat (length l)) then Some (<[Z.to_nat i := x]> l) else None.

(** [0, 1, ..., n-1] as the values of a loop counter. *)
Definition upto (n : Z) : list Z := map Z.of_nat (seq 0 (Z.to_nat n)).

(** ** Weakest preconditions

    [wpx E m Q s]: run from [s], [m] returns with [Q], or panics with [E];
    it has no undefined behaviour, does not spin, does not run out of fuel and
    does not give the processor up.  [wp] forbids the panics too. *)
Definition wpx {St A} (E : list Z -> St -> Prop) (m : M St A)
    (Q : A -> St -> Prop) (s : St) : Prop :=
  match m s with
  | Ok a s' => Q a s'
  | Panic msg s' => E msg s'
  | _ => False
  end.

Definition no_panic {St} : list Z -> St -> Prop := fun _ _ => False.
Definition wp {St A} (m : M St A) (Q : A -> St -> Prop) (s : St) : Prop :=
  wpx no_panic m Q s.

(** * Lemmas *)

Create HintDb kern.

(** Linear arithmetic with [/], [mod] and [Z.rem] by constants. *)
Ltac mlia := zify; Z.to_euclidean_division_equations; lia.

(** ** The monad *)

Section monad.
Context {St : Type}.

Lemma bind_Ok {A B} (m : M St A) (f : A -> M St B) s a s' :
  m s = Ok a s' -> bind m f s = f a s'.
Proof. intros H. unfold bind. now rewrite H. Qed.

Lemma bind_Ok_inv {A B} (m : M St A) (f : A -> M St B) s b s'' :
  bind m f s = Ok b s'' -> exists a s', m s = Ok a s' /\ f a s' = Ok b s''.
Proof. unfold bind. destruct (m s); simpl; intros; try congruence; eauto. Qed.

Lemma wpx_ret {A} (a : A) E (Q : A -> St -> Prop) s : Q a s -> wpx E (ret a) Q s.
Proof. auto. Qed.

Lemma wpx_bind {A B} (m : M St A) (f : A -> M St B) E Q s :
  wpx E m (fun a => wpx E (f a) Q) s -> wpx E (bind m f) Q s.
Proof. unfold wpx, bind. destruct (m s); simpl; auto; contradiction. Qed.

Lemma wpx_mono {A} (m : M St A) (E E' : list Z -> St -> Prop) (Q Q' : A -> St -> Prop) s :
  wpx E m Q s ->
  (forall msg s', E msg s' -> E' msg s') ->
  (forall a s', Q a s' -> Q' a s') -> wpx E' m Q' s.
Proof. unfold wpx. destruct (m s); auto. Qed.

Lemma wpx_conseq {A} (m : M St A) E (Q Q' : A -> St -> Prop) s :
  wpx E m Q s -> (forall a s', Q a s' -> Q' a s') -> wpx E m Q' s.
Proof. intros H HQ. eapply wpx_mono; eauto. Qed.

Lemma wpx_gets {A} (f : St -> A) E (Q : A -> St -> Prop) s :
  Q (f s) s -> wpx E (gets f) Q s.
Proof. auto. Qed.

Lemma wpx_modify (f : St -> St) E (Q : unit -> St -> Prop) s :
  Q tt (f s) -> wpx E (modify f) Q s.
Proof. auto. Qed.

Lemma wpx_of_Ok {A} (m : M St A) E (Q : A -> St -> Prop) s a s' :
  m s = Ok a s' -> Q a s' -> wpx E m Q s.
Proof. unfold wpx. now intros ->. Qed.

Lemma wpx_assoc {A B C} (m : M St A) (f : A -> M St B) (g : B -> M St C) E Q s :
  wpx E (bind (bind m f) g) Q s -> wpx E (bind m (fun a => bind (f a) g)) Q s.
Proof. unfold wpx, bind. destruct (m s); auto. Qed.

(** Two computations with the same outcome. *)
Lemma wpx_eq {A} (m m' : M St A) E (Q : A -> St -> Prop) s s' :
  m s = m' s' -> wpx E m' Q s' -> wpx E m Q s.
Proof. unfold wpx. now intros ->. Qed.

Lemma wp_Ok {A} (m : M St A) (Q : A -> St -> Prop) s :
  wp m Q s <-> exists a s', m s = Ok a s' /\ Q a s'.
Proof.
  unfold wp, wpx, no_panic. split.
  - destruct (m s); try contradiction; eauto.
  - intros (a & s' & -> & H); auto.
Qed.

Lemma wp_weaken {A} (m : M St A) E (Q : A -> St -> Prop) s : wp m Q s -> wpx E m Q s.
Proof. intros H. eapply wpx_mono; [exact H | intros ? ? [] | auto]. Qed.

(** Loops: an invariant on what has been done and what is left. *)
Lemma wpx_for_each {A} (body : A -> M St unit) E (I : list A -> list A -> St -> Prop) :
  forall todo done s,
    (forall d x t s, I d (x :: t) s -> wpx E (body x) (fun _ => I (d ++ [x]) t) s) ->
    I done todo s ->
    wpx E (for_each todo body) (fun _ => I (done ++ todo) []) s.
Proof.
  induction todo as [|x t IH]; intros done s Hb Hi; simpl.
  - apply wpx_ret. now rewrite app_nil_r.
  - apply wpx_bind. eapply wpx_conseq; [apply Hb, Hi|].
    intros [] s' Hs'. rewrite cons_middle, app_assoc. now apply IH.
Qed.

Lemma wpx_for_find {A R} (body : A -> M St (option R)) E
    (I : list A -> list A -> St -> Prop) (Q : option R -> St -> Prop) :
  forall todo done s,
    (forall d x t s, I d (x :: t) s ->
       wpx E (body x) (fun o s' => match o with
                                   | Some r => Q (Some r) s'
                                   | None => I (d ++ [x]) t s' end) s) ->
    I done todo s ->
    (forall s, I (done ++ todo) [] s -> Q None s) ->
    wpx E (for_find todo body) Q s.
Proof.
  induction todo as [|x t IH]; intros done s Hb Hi Hend; simpl.
  - apply wpx_ret, Hend. now rewrite app_nil_r.
  - apply wpx_bind. eapply wpx_conseq; [apply Hb, Hi|].
    intros [r|] s' Hs'; [now apply wpx_ret|].
    apply (IH (done ++ [x]) s' Hb Hs').
    now rewrite <- app_assoc.
Qed.
End monad.

(** Steps through the primitive operations of a weakest precondition. *)
Ltac wstep_on m :=
  lazymatch m with
  | bind _ _ => apply wpx_bind
  | ret _ => apply wpx_ret
  | gets _ => apply wpx_gets
  | modify _ => apply wpx_modify
  end.
Ltac wstep :=
  cbn beta;
  lazymatch goal with
  | |- wpx _ ?m _ _ => wstep_on m
  | |- wp ?m _ _ => wstep_on m
  end.
Ltac wsteps := repeat (wstep; cbn beta iota zeta).

(** [wcall H as x s p]: the first operation of a sequence returns [x] in state
    [s] with the postcondition of [H], introduced with [p]; the hypotheses of
    [H] come first. *)
Tactic Notation "wcall" uconstr(H) "as" simple_intropattern(x) ident(s) simple_intropattern(p) :=
  cbn beta;
  try wstep;
  eapply wpx_conseq; [eapply H|intros x s; cbn beta; intros p].

(** ** Machine integers *)

Lemma u8_range x : 0 <= u8 x < 256.
Proof. apply Z.mod_pos_bound; lia. Qed.
Lemma u16_range x : 0 <= u16 x < 2 ^ 16.
Proof. apply Z.mod_pos_bound; lia. Qed.
Lemma u32_range x : 0 <= u32 x < 2 ^ 32.
Proof. apply Z.mod_pos_bound; lia. Qed.
Lemma u64_range x : 0 <= u64 x < 2 ^ 64.
Proof. apply Z.mod_pos_bound; lia. Qed.
Lemma u32_id x : 0 <= x < 2 ^ 32 -> u32 x = x.
Proof. apply Z.mod_small. Qed.
Lemma u64_id x : 0 <= x < 2 ^ 64 -> u64 x = x.
Proof. apply Z.mod_small. Qed.
Lemma i32_range x : - 2 ^ 31 <= i32 x < 2 ^ 31.
Proof. unfold i32. pose proof (Z.mod_pos_bound (x + 2 ^ 31) (2 ^ 32)). lia. Qed.
Lemma i32_id x : - 2 ^ 31 <= x < 2 ^ 31 -> i32 x = x.
Proof. intros H. unfold i32. rewrite Z.mod_small; lia. Qed.
Lemma i16_id x : - 2 ^ 15 <= x < 2 ^ 15 -> i16 x = x.
Proof. intros H. unfold i16. rewrite Z.mod_small; lia. Qed.
Lemma i16_u16 x : i16 (u16 x) = i16 x.
Proof. unfold i16, u16. f_equal. now rewrite Zplus_mod_idemp_l. Qed.
Lemma i32_u32 x : i32 (u32 x) = i32 x.
Proof. unfold i32, u32. f_equal. now rewrite Zplus_mod_idemp_l. Qed.

(** ** Little-endian fields *)

Lemma length_le_bytes n x : length (le_bytes n x) = n.
Proof. revert x; induction n; simpl; auto. Qed.

Lemma le_value_le_bytes n x : le_value (le_bytes n x) = x mod 256 ^ Z.of_nat n.
Proof.
  revert x; induction n as [|n IH]; intros x; [now rewrite Z.mod_1_r|].
  cbn [le_bytes le_value]. rewrite IH.
  rewrite Nat2Z.inj_succ, Z.pow_succ_r, Z.rem_mul_r by lia. reflexivity.
Qed.

Lemma length_splice off bs d :
  (off + length bs <= length d)%nat -> length (splice off bs d) = length d.
Proof.
  intros H. unfold splice. rewrite !length_app, length_take, length_drop. lia.
Qed.

Lemma bytes_at_splice_eq off bs d :
  (off + length bs <= length d)%nat -> bytes_at off (length bs) (splice off bs d) = bs.
Proof.
  intros H. unfold bytes_at, splice.
  rewrite drop_app_ge; rewrite length_take, Nat.min_l by lia; [|lia].
  rewrite Nat.sub_diag, drop_0. now rewrite take_app_length.
Qed.

Lemma bytes_at_splice_before off bs d off' n :
  (off + length bs <= length d)%nat -> (off' + n <= off)%nat ->
  bytes_at off' n (splice off bs d) = bytes_at off' n d.
Proof.
  intros H Hd. unfold bytes_at, splice.
  rewrite drop_app_le by (rewrite length_take; lia).
  rewrite take_app_le by (rewrite length_drop, length_take; lia).
  rewrite !take_drop_commute, take_take. now rewrite Nat.min_l by lia.
Qed.

Lemma bytes_at_splice_after off bs d off' n :
  (off + length bs <= length d)%nat -> (off + length bs <= off')%nat ->
  bytes_at off' n (splice off bs d) = bytes_at off' n d.
Proof.
  intros H Hd. unfold bytes_at, splice.
  rewrite app_assoc.
  rewrite drop_app_ge by (rewrite length_app, length_take; lia).
  rewrite length_app, length_take, Nat.min_l by lia.
  rewrite drop_drop. do 2 f_equal. lia.
Qed.

Lemma bytes_at_splice_ne off bs d off' n :
  (off + length bs <= length d)%nat ->
  (off' + n <= off \/ off + length bs <= off')%nat ->
  bytes_at off' n (splice off bs d) = bytes_at off' n d.
Proof.
  intros H [Hd|Hd]; auto using bytes_at_splice_before, bytes_at_splice_after.
Qed.

Lemma length_put_le n off v d :
  (off + n <= length d)%nat -> length (put_le n off v d) = length d.
Proof. intros H. apply length_splice. now rewrite length_le_bytes. Qed.

Lemma get_put_le_eq n off v d :
  (off + n <= length d)%nat -> get_le n off (put_le n off v d) = v mod 256 ^ Z.of_nat n.
Proof.
  intros H. unfold get_le, put_le.
  rewrite <- (length_le_bytes n v) at 1.
  rewrite bytes_at_splice_eq by now rewrite length_le_bytes.
  apply le_value_le_bytes.
Qed.

Lemma get_put_le_ne n off v d n' off' :
  (off + n <= length d)%nat -> (off' + n' <= off \/ off + n <= off')%nat ->
  get_le n' off' (put_le n off v d) = get_le n' off' d.
Proof.
  intros H Hd. unfold get_le, put_le.
  now rewrite bytes_at_splice_ne by now rewrite length_le_bytes.
Qed.

(** ** Lists *)

Lemma upto_S (n : nat) : upto (Z.of_nat (S n)) = upto (Z.of_nat n) ++ [Z.of_nat n].
Proof.
  unfold upto. rewrite !Nat2Z.id, seq_S, map_app. reflexivity.
Qed.

Lemma elem_of_upto n i : i ∈ upto n <-> 0 <= i < n.
Proof.
  unfold upto. rewrite list_elem_of_fmap. split.
  - intros (k & -> & Hk%elem_of_seq). lia.
  - intros H. exists (Z.to_nat i). rewrite elem_of_seq. lia.
Qed.

Lemma lget_Some {A} i (l : list A) x : lget i l = Some x <-> 0 <= i /\ l !! Z.to_nat i = Some x.
Proof. unfold lget. case_decide; intuition congruence. Qed.

Lemma lget_lt {A} i (l : list A) : 0 <= i < Z.of_nat (length l) -> is_Some (lget i l).
Proof. intros H. unfold lget. rewrite decide_True by lia. apply lookup_lt_is_Some. lia. Qed.

Lemma lset_Some {A} i x (l : list A) :
  0 <= i < Z.of_nat (length l) -> lset i x l = Some (<[Z.to_nat i := x]> l).
Proof. intros H. unfold lset. now rewrite decide_True. Qed.

(** The last [n] elements. *)
Definition keep_last {A} (n : nat) (l : list A) : list A := drop (length l - n) l.

Lemma length_keep_last {A} n (l : list A) : length (keep_last n l) = (length l `min` n)%nat.
Proof. unfold keep_last. rewrite length_drop. lia. Qed.

Lemma keep_last_small {A} n (l : list A) : (length l <= n)%nat -> keep_last n l = l.
Proof. intros H. unfold keep_last. now replace (length l - n)%nat with O by lia. Qed.

Lemma keep_last_app {A} n (l1 l2 : list A) :
  keep_last n (keep_last n l1 ++ l2) = keep_last n (l1 ++ l2).
Proof.
  unfold keep_last. rewrite !length_app, length_drop.
  destruct (decide (length l1 <= n)%nat) as [H|H].
  - replace (length l1 - n)%nat with O by lia. rewrite drop_0. f_equal. lia.
  - rewrite !drop_app, length_drop, drop_drop. f_equal; f_equal; lia.
Qed.

Lemma length_upto n : length (upto n) = Z.to_nat n.
Proof. unfold upto. now rewrite length_map, length_seq. Qed.

Lemma lookup_map_upto {A} (f : Z -> A) n i :
  map f (upto n) !! i = if decide (Z.of_nat i < n) then Some (f (Z.of_nat i)) else None.
Proof.
  rewrite list_lookup_fmap. unfold upto. rewrite list_lookup_fmap.
  case_decide as H.
  - rewrite lookup_seq_lt by lia. reflexivity.
  - rewrite lookup_seq_ge by lia. reflexivity.
Qed.

Lemma lookup_keep_last {A} n (l : list A) i :
  keep_last n l !! i = l !! (length l - n + i)%nat.
Proof. unfold keep_last. apply lookup_drop. Qed.

Lemma upto_succ t : 0 <= t -> upto (t + 1) = upto t ++ [t].
Proof.
  intros H. pose proof (upto_S (Z.to_nat t)) as E. rewrite Nat2Z.inj_succ, Z2Nat.id in E by lia.
  exact E.
Qed.

(** A counting loop: an invariant indexed by the counter. *)
Lemma wpx_upto {St} (body : Z -> M St unit) E (n : Z) (I : Z -> St -> Prop) s :
  (forall i s, 0 <= i < n -> I i s -> wpx E (body i) (fun _ => I (i + 1)) s) ->
  0 <= n -> I 0 s -> wpx E (for_each (upto n) body) (fun _ => I n) s.
Proof.
  intros Hb Hn Hi.
  assert (forall (m k : nat) s, Z.of_nat (k + m) = n -> I (Z.of_nat k) s ->
            wpx E (for_each (map Z.of_nat (seq k m)) body) (fun _ => I n) s) as H.
  { induction m as [|m IH]; intros k s' Hk HI; cbn [seq map for_each].
    - apply wpx_ret. now rewrite Nat.add_0_r in Hk; subst.
    - apply wpx_bind. eapply wpx_conseq; [apply Hb; [lia|exact HI]|].
      intros [] s'' HI'. apply IH; [lia|]. now rewrite Nat2Z.inj_succ. }
  apply (H (Z.to_nat n) O); [lia|exact Hi].
Qed.
