(* ===== verification/State.v ===== *)
(** * The data model: the structs of include/ and the kernel's globals

    One [Record] per C struct, with the C field names (prefixed where two
    structs share one), and [kstate], the kernel's static data together with
    the parts of the machine the C code reads and writes: physical memory, the
    disk, the UART and the control registers.  A pointer to an element of a
    static array is the index of the element; a null pointer is [None].  The
    operations of each component are in the file named after the component. *)
From S2P Require Import Prelude.

(** ** Constants of include/riscv.h, include/fs.h, include/proc.h *)
Definition PGSIZE : Z := 4096.
Definition PHYSTOP : Z := 0x88000000.
Definition BSIZE : Z := 1024.
Definition ROOTDEV : Z := 0.
Definition ROOTINO : Z := 1.
Definition FSSIZE : Z := 1000.
Definition FSMAGIC : Z := 0x10203040.
Definition NDIRECT : Z := 12.
Definition NINDIRECT : Z := BSIZE / 4.
Definition MAXFILE : Z := NDIRECT + NINDIRECT.
Definition T_DIR : Z := 1.
Definition T_FILE : Z := 2.
Definition T_DEV : Z := 3.
Definition NINODE : Z := 50.
Definition BPB : Z := BSIZE * 8.
Definition DIRSIZ : Z := 14.
Definition NOFILE : Z := 16.
Definition NFILE : Z := 100.
Definition FD_NONE : Z := 0.
Definition FD_INODE : Z := 1.
Definition FD_DEVICE : Z := 2.
Definition O_RDONLY : Z := 0.
Definition O_WRONLY : Z := 1.
Definition O_RDWR : Z := 2.
Definition O_CREATE : Z := 0x200.
Definition O_TRUNC : Z := 0x400.
Definition NPROC : Z := 64.
Definition MAXVA : Z := Z.shiftl 1 38.
Definition TRAMPOLINE : Z := MAXVA - PGSIZE.
Definition TRAPFRAME : Z := TRAMPOLINE - PGSIZE.
Definition NBUF : nat := 30.

(** ** Structs *)

(** [struct superblock] (include/fs.h). *)
Record superblock := mkSuperblock {
  sb_magic : Z; sb_size : Z; sb_nblocks : Z; sb_ninodes : Z;
  sb_nlog : Z; sb_logstart : Z; sb_inodestart : Z; sb_bmapstart : Z }.

(** [struct dinode] (include/fs.h): an inode on disk. *)
Record dinode := mkDinode {
  di_type : Z; di_major : Z; di_minor : Z; di_nlink : Z;
  di_size : Z; di_addrs : list Z }.

(** [struct inode] (include/fs.h): an inode in memory; [ip_d] is the part
    copied from disk, with the fields of [struct dinode]. *)
Record inode := mkInode {
  ip_dev : Z; ip_inum : Z; ip_ref : Z; ip_valid : Z; ip_d : dinode }.

(** [struct dirent] (include/fs.h). *)
Record dirent := mkDirent { de_inum : Z; de_name : list Z }.

(** [struct file] (include/fs.h). *)
Record file := mkFile {
  f_type : Z; f_ref : Z; f_readable : Z; f_writable : Z;
  f_ip : option nat; f_off : Z; f_major : Z }.

(** [struct buf] (include/buf.h).  The kernel never touches the field [lock].
    [b_prev] and [b_next] are indices in the buffer cache. *)
Record buf := mkBuf {
  b_valid : Z; b_disk : Z; b_dev : Z; b_blockno : Z;
  b_refcnt : Z; b_prev : nat; b_next : nat; b_data : list Z }.

(** [struct log] with its [struct logheader] (kernel/log.c). *)
Record log := mkLog {
  log_start : Z; log_size : Z; log_outstanding : Z; log_committing : Z;
  log_dev : Z; lh_n : Z; lh_block : list Z; log_lock : Z }.

(** [log_state] (kernel/klog.c). *)
Record klog_state := mkKlog {
  kl_buffer : list Z; kl_head : Z; kl_tail : Z; kl_count : Z;
  kl_total_logs : Z; kl_dropped : Z; kl_enabled : Z; kl_use_color : Z }.

(** [enum procstate] (include/proc.h). *)
Inductive procstate := UNUSED | USED | RUNNABLE | RUNNING | SLEEPING | ZOMBIE.

#[export] Instance procstate_eq_dec : EqDecision procstate.
Proof. solve_decision. Defined.

(** What a process can sleep on: [void *chan] is null, the address of the
    global [log], or the address of an element of the process table. *)
Inductive chan := ChanNull | ChanLog | ChanProc (i : nat).

#[export] Instance chan_eq_dec : EqDecision chan.
Proof. solve_decision. Defined.

(** [struct context] (include/proc.h): [ctx_s] holds [s0] to [s11]. *)
Record context := mkContext { ctx_ra : Z; ctx_sp : Z; ctx_s : list Z }.

(** [struct proc] (include/proc.h). *)
Record proc := mkProc {
  p_context : context; p_state : procstate; p_pid : Z; p_kstack : Z;
  p_name : list Z; p_parent : option nat; p_chan : chan; p_exit_code : Z;
  p_killed : Z; p_sz : Z; p_pagetable : Z; p_trapframe : Z;
  p_ofile : list (option nat) }.

(** The supervisor control registers the C code reads and writes. *)
Record csrs := mkCsrs {
  csr_stvec : Z; csr_sstatus : Z; csr_sepc : Z; csr_scause : Z;
  csr_stval : Z; csr_satp : Z; csr_sscratch : Z }.

(** ** The kernel's state

    - [ks_uart]: the bytes written to the UART so far, oldest first;
    - [ks_rdtime], [ks_reads]: what the [n]-th read of the time register will
      return, and how many reads there were;
    - [ks_csr]: the control registers;
    - [ks_mem], [ks_freelist]: physical memory, byte by byte (a byte that was
      never written reads as 0), and the head of the free page list;
    - [ks_kpagetable]: [kernel_pagetable];
    - [ks_proc], [ks_current], [ks_nextpid]: the process table, the running
      process and the pid counter;
    - [ks_disk], [ks_writes]: the disk as 1024-byte blocks, and the writes it
      has received, oldest first (a history variable: no code reads it);
    - [ks_bcache]: [bcache.buf] followed by [bcache.head];
    - [ks_log], [ks_sb], [ks_icache], [ks_ftable]: [log], [sb],
      [icache.inode], [ftable.file]. *)
Record kstate := mkKstate {
  ks_uart : list Z;
  ks_klog : klog_state;
  ks_rdtime : nat -> Z;
  ks_reads : nat;
  ks_csr : csrs;
  ks_mem : gmap Z Z;
  ks_freelist : Z;
  ks_kpagetable : Z;
  ks_proc : list proc;
  ks_current : option nat;
  ks_nextpid : Z;
  ks_disk : gmap Z (list Z);
  ks_writes : list (Z * list Z);
  ks_bcache : list buf;
  ks_log : log;
  ks_sb : superblock;
  ks_icache : list inode;
  ks_ftable : list file }.

(** ** Field updates: [upd_f g s] is [s.f = g(s.f)]; [set_f v s] is [s.f = v] *)
Definition upd_b_valid (f : Z -> Z) (r : buf) : buf :=
  mkBuf (f (b_valid r)) (b_disk r) (b_dev r) (b_blockno r) (b_refcnt r) (b_prev r) (b_next r)
    (b_data r).
Definition upd_b_disk (f : Z -> Z) (r : buf) : buf :=
  mkBuf (b_valid r) (f (b_disk r)) (b_dev r) (b_blockno r) (b_refcnt r) (b_prev r) (b_next r)
    (b_data r).
Definition upd_b_dev (f : Z -> Z) (r : buf) : buf :=
  mkBuf (b_valid r) (b_disk r) (f (b_dev r)) (b_blockno r) (b_refcnt r) (b_prev r) (b_next r)
    (b_data r).
Definition upd_b_blockno (f : Z -> Z) (r : buf) : buf :=
  mkBuf (b_valid r) (b_disk r) (b_dev r) (f (b_blockno r)) (b_refcnt r) (b_prev r) (b_next r)
    (b_data r).
Definition upd_b_refcnt (f : Z -> Z) (r : buf) : buf :=
  mkBuf (b_valid r) (b_disk r) (b_dev r) (b_blockno r) (f (b_refcnt r)) (b_prev r) (b_next r)
    (b_data r).
Definition upd_b_prev (f : nat -> nat) (r : buf) : buf :=
  mkBuf (b_valid r) (b_disk r) (b_dev r) (b_blockno r) (b_refcnt r) (f (b_prev r)) (b_next r)
    (b_data r).
Definition upd_b_next (f : nat -> nat) (r : buf) : buf :=
  mkBuf (b_valid r) (b_disk r) (b_dev r) (b_blockno r) (b_refcnt r) (b_prev r) (f (b_next r))
    (b_data r).
Definition upd_b_data (f : (list Z) -> (list Z)) (r : buf) : buf :=
  mkBuf (b_valid r) (b_disk r) (b_dev r) (b_blockno r) (b_refcnt r) (b_prev r) (b_next r)
    (f (b_data r)).
Definition upd_log_start (f : Z -> Z) (r : log) : log :=
  mkLog (f (log_start r)) (log_size r) (log_outstanding r) (log_committing r) (log_dev r)
    (lh_n r) (lh_block r) (log_lock r).
Definition upd_log_size (f : Z -> Z) (r : log) : log :=
  mkLog (log_start r) (f (log_size r)) (log_outstanding r) (log_committing r) (log_dev r)
    (lh_n r) (lh_block r) (log_lock r).
Definition upd_log_outstanding (f : Z -> Z) (r : log) : log :=
  mkLog (log_start r) (log_size r) (f (log_outstanding r)) (log_committing r) (log_dev r)
    (lh_n r) (lh_block r) (log_lock r).
Definition upd_log_committing (f : Z -> Z) (r : log) : log :=
  mkLog (log_start r) (log_size r) (log_outstanding r) (f (log_committing r)) (log_dev r)
    (lh_n r) (lh_block r) (log_lock r).
Definition upd_log_dev (f : Z -> Z) (r : log) : log :=
  mkLog (log_start r) (log_size r) (log_outstanding r) (log_committing r) (f (log_dev r))
    (lh_n r) (lh_block r) (log_lock r).
Definition upd_lh_n (f : Z -> Z) (r : log) : log :=
  mkLog (log_start r) (log_size r) (log_outstanding r) (log_committing r) (log_dev r)
    (f (lh_n r)) (lh_block r) (log_lock r).
Definition upd_lh_block (f : (list Z) -> (list Z)) (r : log) : log :=
  mkLog (log_start r) (log_size r) (log_outstanding r) (log_committing r) (log_dev r) (lh_n r)
    (f (lh_block r)) (log_lock r).
Definition upd_log_lock (f : Z -> Z) (r : log) : log :=
  mkLog (log_start r) (log_size r) (log_outstanding r) (log_committing r) (log_dev r) (lh_n r)
    (lh_block r) (f (log_lock r)).
Definition upd_kl_buffer (f : (list Z) -> (list Z)) (r : klog_state) : klog_state :=
  mkKlog (f (kl_buffer r)) (kl_head r) (kl_tail r) (kl_count r) (kl_total_logs r) (kl_dropped r)
    (kl_enabled r) (kl_use_color r).
Definition upd_kl_head (f : Z -> Z) (r : klog_state) : klog_state :=
  mkKlog (kl_buffer r) (f (kl_head r)) (kl_tail r) (kl_count r) (kl_total_logs r) (kl_dropped r)
    (kl_enabled r) (kl_use_color r).
Definition upd_kl_tail (f : Z -> Z) (r : klog_state) : klog_state :=
  mkKlog (kl_buffer r) (kl_head r) (f (kl_tail r)) (kl_count r) (kl_total_logs r) (kl_dropped r)
    (kl_enabled r) (kl_use_color r).
Definition upd_kl_count (f : Z -> Z) (r : klog_state) : klog_state :=
  mkKlog (kl_buffer r) (kl_head r) (kl_tail r) (f (kl_count r)) (kl_total_logs r) (kl_dropped r)
    (kl_enabled r) (kl_use_color r).
Definition upd_kl_total_logs (f : Z -> Z) (r : klog_state) : klog_state :=
  mkKlog (kl_buffer r) (kl_head r) (kl_tail r) (kl_count r) (f (kl_total_logs r)) (kl_dropped r)
    (kl_enabled r) (kl_use_color r).
Definition upd_kl_dropped (f : Z -> Z) (r : klog_state) : klog_state :=
  mkKlog (kl_buffer r) (kl_head r) (kl_tail r) (kl_count r) (kl_total_logs r) (f (kl_dropped r))
    (kl_enabled r) (kl_use_color r).
Definition upd_kl_enabled (f : Z -> Z) (r : klog_state) : klog_state :=
  mkKlog (kl_buffer r) (kl_head r) (kl_tail r) (kl_count r) (kl_total_logs r) (kl_dropped r)
    (f (kl_enabled r)) (kl_use_color r).
Definition upd_kl_use_color (f : Z -> Z) (r : klog_state) : klog_state :=
  mkKlog (kl_buffer r) (kl_head r) (kl_tail r) (kl_count r) (kl_total_logs r) (kl_dropped r)
    (kl_enabled r) (f (kl_use_color r)).
Definition upd_di_type (f : Z -> Z) (r : dinode) : dinode :=
  mkDinode (f (di_type r)) (di_major r) (di_minor r) (di_nlink r) (di_size r) (di_addrs r).
Definition upd_di_major (f : Z -> Z) (r : dinode) : dinode :=
  mkDinode (di_type r) (f (di_major r)) (di_minor r) (di_nlink r) (di_size r) (di_addrs r).
Definition upd_di_minor (f : Z -> Z) (r : dinode) : dinode :=
  mkDinode (di_type r) (di_major r) (f (di_minor r)) (di_nlink r) (di_size r) (di_addrs r).
Definition upd_di_nlink (f : Z -> Z) (r : dinode) : dinode :=
  mkDinode (di_type r) (di_major r) (di_minor r) (f (di_nlink r)) (di_size r) (di_addrs r).
Definition upd_di_size (f : Z -> Z) (r : dinode) : dinode :=
  mkDinode (di_type r) (di_major r) (di_minor r) (di_nlink r) (f (di_size r)) (di_addrs r).
Definition upd_di_addrs (f : (list Z) -> (list Z)) (r : dinode) : dinode :=
  mkDinode (di_type r) (di_major r) (di_minor r) (di_nlink r) (di_size r) (f (di_addrs r)).
Definition upd_ip_dev (f : Z -> Z) (r : inode) : inode :=
  mkInode (f (ip_dev r)) (ip_inum r) (ip_ref r) (ip_valid r) (ip_d r).
Definition upd_ip_inum (f : Z -> Z) (r : inode) : inode :=
  mkInode (ip_dev r) (f (ip_inum r)) (ip_ref r) (ip_valid r) (ip_d r).
Definition upd_ip_ref (f : Z -> Z) (r : inode) : inode :=
  mkInode (ip_dev r) (ip_inum r) (f (ip_ref r)) (ip_valid r) (ip_d r).
Definition upd_ip_valid (f : Z -> Z) (r : inode) : inode :=
  mkInode (ip_dev r) (ip_inum r) (ip_ref r) (f (ip_valid r)) (ip_d r).
Definition upd_ip_d (f : dinode -> dinode) (r : inode) : inode :=
  mkInode (ip_dev r) (ip_inum r) (ip_ref r) (ip_valid r) (f (ip_d r)).
Definition upd_f_type (f : Z -> Z) (r : file) : file :=
  mkFile (f (f_type r)) (f_ref r) (f_readable r) (f_writable r) (f_ip r) (f_off r) (f_major r).
Definition upd_f_ref (f : Z -> Z) (r : file) : file :=
  mkFile (f_type r) (f (f_ref r)) (f_readable r) (f_writable r) (f_ip r) (f_off r) (f_major r).
Definition upd_f_readable (f : Z -> Z) (r : file) : file :=
  mkFile (f_type r) (f_ref r) (f (f_readable r)) (f_writable r) (f_ip r) (f_off r) (f_major r).
Definition upd_f_writable (f : Z -> Z) (r : file) : file :=
  mkFile (f_type r) (f_ref r) (f_readable r) (f (f_writable r)) (f_ip r) (f_off r) (f_major r).
Definition upd_f_ip (f : (option nat) -> (option nat)) (r : file) : file :=
  mkFile (f_type r) (f_ref r) (f_readable r) (f_writable r) (f (f_ip r)) (f_off r) (f_major r).
Definition upd_f_off (f : Z -> Z) (r : file) : file :=
  mkFile (f_type r) (f_ref r) (f_readable r) (f_writable r) (f_ip r) (f (f_off r)) (f_major r).
Definition upd_f_major (f : Z -> Z) (r : file) : file :=
  mkFile (f_type r) (f_ref r) (f_readable r) (f_writable r) (f_ip r) (f_off r) (f (f_major r)).
Definition upd_p_context (f : context -> context) (r : proc) : proc :=
  mkProc (f (p_context r)) (p_state r) (p_pid r) (p_kstack r) (p_name r) (p_parent r) (p_chan r)
    (p_exit_code r) (p_killed r) (p_sz r) (p_pagetable r) (p_trapframe r) (p_ofile r).
Definition upd_p_state (f : procstate -> procstate) (r : proc) : proc :=
  mkProc (p_context r) (f (p_state r)) (p_pid r) (p_kstack r) (p_name r) (p_parent r) (p_chan r)
    (p_exit_code r) (p_killed r) (p_sz r) (p_pagetable r) (p_trapframe r) (p_ofile r).
Definition upd_p_pid (f : Z -> Z) (r : proc) : proc :=
  mkProc (p_context r) (p_state r) (f (p_pid r)) (p_kstack r) (p_name r) (p_parent r) (p_chan r)
    (p_exit_code r) (p_killed r) (p_sz r) (p_pagetable r) (p_trapframe r) (p_ofile r).
Definition upd_p_kstack (f : Z -> Z) (r : proc) : proc :=
  mkProc (p_context r) (p_state r) (p_pid r) (f (p_kstack r)) (p_name r) (p_parent r) (p_chan r)
    (p_exit_code r) (p_killed r) (p_sz r) (p_pagetable r) (p_trapframe r) (p_ofile r).
Definition upd_p_name (f : (list Z) -> (list Z)) (r : proc) : proc :=
  mkProc (p_context r) (p_state r) (p_pid r) (p_kstack r) (f (p_name r)) (p_parent r) (p_chan r)
    (p_exit_code r) (p_killed r) (p_sz r) (p_pagetable r) (p_trapframe r) (p_ofile r).
Definition upd_p_parent (f : (option nat) -> (option nat)) (r : proc) : proc :=
  mkProc (p_context r) (p_state r) (p_pid r) (p_kstack r) (p_name r) (f (p_parent r)) (p_chan r)
    (p_exit_code r) (p_killed r) (p_sz r) (p_pagetable r) (p_trapframe r) (p_ofile r).
Definition upd_p_chan (f : chan -> chan) (r : proc) : proc :=
  mkProc (p_context r) (p_state r) (p_pid r) (p_kstack r) (p_name r) (p_parent r) (f (p_chan r))
    (p_exit_code r) (p_killed r) (p_sz r) (p_pagetable r) (p_trapframe r) (p_ofile r).
Definition upd_p_exit_code (f : Z -> Z) (r : proc) : proc :=
  mkProc (p_context r) (p_state r) (p_pid r) (p_kstack r) (p_name r) (p_parent r) (p_chan r)
    (f (p_exit_code r)) (p_killed r) (p_sz r) (p_pagetable r) (p_trapframe r) (p_ofile r).
Definition upd_p_killed (f : Z -> Z) (r : proc) : proc :=
  mkProc (p_context r) (p_state r) (p_pid r) (p_kstack r) (p_name r) (p_parent r) (p_chan r)
    (p_exit_code r) (f (p_killed r)) (p_sz r) (p_pagetable r) (p_trapframe r) (p_ofile r).
Definition upd_p_sz (f : Z -> Z) (r : proc) : proc :=
  mkProc (p_context r) (p_state r) (p_pid r) (p_kstack r) (p_name r) (p_parent r) (p_chan r)
    (p_exit_code r) (p_killed r) (f (p_sz r)) (p_pagetable r) (p_trapframe r) (p_ofile r).
Definition upd_p_pagetable (f : Z -> Z) (r : proc) : proc :=
  mkProc (p_context r) (p_state r) (p_pid r) (p_kstack r) (p_name r) (p_parent r) (p_chan r)
    (p_exit_code r) (p_killed r) (p_sz r) (f (p_pagetable r)) (p_trapframe r) (p_ofile r).
Definition upd_p_trapframe (f : Z -> Z) (r : proc) : proc :=
  mkProc (p_context r) (p_state r) (p_pid r) (p_kstack r) (p_name r) (p_parent r) (p_chan r)
    (p_exit_code r) (p_killed r) (p_sz r) (p_pagetable r) (f (p_trapframe r)) (p_ofile r).
Definition upd_p_ofile (f : (list (option nat)) -> (list (option nat))) (r : proc) : proc :=
  mkProc (p_context r) (p_state r) (p_pid r) (p_kstack r) (p_name r) (p_parent r) (p_chan r)
    (p_exit_code r) (p_killed r) (p_sz r) (p_pagetable r) (p_trapframe r) (f (p_ofile r)).
Definition upd_csr_stvec (f : Z -> Z) (r : csrs) : csrs :=
  mkCsrs (f (csr_stvec r)) (csr_sstatus r) (csr_sepc r) (csr_scause r) (csr_stval r) (csr_satp r)
    (csr_sscratch r).
Definition upd_csr_sstatus (f : Z -> Z) (r : csrs) : csrs :=
  mkCsrs (csr_stvec r) (f (csr_sstatus r)) (csr_sepc r) (csr_scause r) (csr_stval r) (csr_satp r)
    (csr_sscratch r).
Definition upd_csr_sepc (f : Z -> Z) (r : csrs) : csrs :=
  mkCsrs (csr_stvec r) (csr_sstatus r) (f (csr_sepc r)) (csr_scause r) (csr_stval r) (csr_satp r)
    (csr_sscratch r).
Definition upd_csr_scause (f : Z -> Z) (r : csrs) : csrs :=
  mkCsrs (csr_stvec r) (csr_sstatus r) (csr_sepc r) (f (csr_scause r)) (csr_stval r) (csr_satp r)
    (csr_sscratch r).
Definition upd_csr_stval (f : Z -> Z) (r : csrs) : csrs :=
  mkCsrs (csr_stvec r) (csr_sstatus r) (csr_sepc r) (csr_scause r) (f (csr_stval r)) (csr_satp r)
    (csr_sscratch r).
Definition upd_csr_satp (f : Z -> Z) (r : csrs) : csrs :=
  mkCsrs (csr_stvec r) (csr_sstatus r) (csr_sepc r) (csr_scause r) (csr_stval r) (f (csr_satp r))
    (csr_sscratch r).
Definition upd_csr_sscratch (f : Z -> Z) (r : csrs) : csrs :=
  mkCsrs (csr_stvec r) (csr_sstatus r) (csr_sepc r) (csr_scause r) (csr_stval r) (csr_satp r)
    (f (csr_sscratch r)).
Definition upd_ks_uart (f : (list Z) -> (list Z)) (s : kstate) : kstate :=
  mkKstate (f (ks_uart s)) (ks_klog s) (ks_rdtime s) (ks_reads s) (ks_csr s) (ks_mem s)
    (ks_freelist s) (ks_kpagetable s) (ks_proc s) (ks_current s) (ks_nextpid s) (ks_disk s)
    (ks_writes s) (ks_bcache s) (ks_log s) (ks_sb s) (ks_icache s) (ks_ftable s).
Definition upd_ks_klog (f : klog_state -> klog_state) (s : kstate) : kstate :=
  mkKstate (ks_uart s) (f (ks_klog s)) (ks_rdtime s) (ks_reads s) (ks_csr s) (ks_mem s)
    (ks_freelist s) (ks_kpagetable s) (ks_proc s) (ks_current s) (ks_nextpid s) (ks_disk s)
    (ks_writes s) (ks_bcache s) (ks_log s) (ks_sb s) (ks_icache s) (ks_ftable s).
Definition upd_ks_rdtime (f : (nat -> Z) -> (nat -> Z)) (s : kstate) : kstate :=
  mkKstate (ks_uart s) (ks_klog s) (f (ks_rdtime s)) (ks_reads s) (ks_csr s) (ks_mem s)
    (ks_freelist s) (ks_kpagetable s) (ks_proc s) (ks_current s) (ks_nextpid s) (ks_disk s)
    (ks_writes s) (ks_bcache s) (ks_log s) (ks_sb s) (ks_icache s) (ks_ftable s).
Definition upd_ks_reads (f : nat -> nat) (s : kstate) : kstate :=
  mkKstate (ks_uart s) (ks_klog s) (ks_rdtime s) (f (ks_reads s)) (ks_csr s) (ks_mem s)
    (ks_freelist s) (ks_kpagetable s) (ks_proc s) (ks_current s) (ks_nextpid s) (ks_disk s)
    (ks_writes s) (ks_bcache s) (ks_log s) (ks_sb s) (ks_icache s) (ks_ftable s).
Definition upd_ks_csr (f : csrs -> csrs) (s : kstate) : kstate :=
  mkKstate (ks_uart s) (ks_klog s) (ks_rdtime s) (ks_reads s) (f (ks_csr s)) (ks_mem s)
    (ks_freelist s) (ks_kpagetable s) (ks_proc s) (ks_current s) (ks_nextpid s) (ks_disk s)
    (ks_writes s) (ks_bcache s) (ks_log s) (ks_sb s) (ks_icache s) (ks_ftable s).
Definition upd_ks_mem (f : (gmap Z Z) -> (gmap Z Z)) (s : kstate) : kstate :=
  mkKstate (ks_uart s) (ks_klog s) (ks_rdtime s) (ks_reads s) (ks_csr s) (f (ks_mem s))
    (ks_freelist s) (ks_kpagetable s) (ks_proc s) (ks_current s) (ks_nextpid s) (ks_disk s)
    (ks_writes s) (ks_bcache s) (ks_log s) (ks_sb s) (ks_icache s) (ks_ftable s).
Definition upd_ks_freelist (f : Z -> Z) (s : kstate) : kstate :=
  mkKstate (ks_uart s) (ks_klog s) (ks_rdtime s) (ks_reads s) (ks_csr s) (ks_mem s)
    (f (ks_freelist s)) (ks_kpagetable s) (ks_proc s) (ks_current s) (ks_nextpid s)
    (ks_disk s) (ks_writes s) (ks_bcache s) (ks_log s) (ks_sb s) (ks_icache s) (ks_ftable s).
Definition upd_ks_kpagetable (f : Z -> Z) (s : kstate) : kstate :=
  mkKstate (ks_uart s) (ks_klog s) (ks_rdtime s) (ks_reads s) (ks_csr s) (ks_mem s) (ks_freelist s)
    (f (ks_kpagetable s)) (ks_proc s) (ks_current s) (ks_nextpid s) (ks_disk s)
    (ks_writes s) (ks_bcache s) (ks_log s) (ks_sb s) (ks_icache s) (ks_ftable s).
Definition upd_ks_proc (f : (list proc) -> (list proc)) (s : kstate) : kstate :=
  mkKstate (ks_uart s) (ks_klog s) (ks_rdtime s) (ks_reads s) (ks_csr s) (ks_mem s) (ks_freelist s)
    (ks_kpagetable s) (f (ks_proc s)) (ks_current s) (ks_nextpid s) (ks_disk s)
    (ks_writes s) (ks_bcache s) (ks_log s) (ks_sb s) (ks_icache s) (ks_ftable s).
Definition upd_ks_current (f : (option nat) -> (option nat)) (s : kstate) : kstate :=
  mkKstate (ks_uart s) (ks_klog s) (ks_rdtime s) (ks_reads s) (ks_csr s) (ks_mem s) (ks_freelist s)
    (ks_kpagetable s) (ks_proc s) (f (ks_current s)) (ks_nextpid s) (ks_disk s)
    (ks_writes s) (ks_bcache s) (ks_log s) (ks_sb s) (ks_icache s) (ks_ftable s).
Definition upd_ks_nextpid (f : Z -> Z) (s : kstate) : kstate :=
  mkKstate (ks_uart s) (ks_klog s) (ks_rdtime s) (ks_reads s) (ks_csr s) (ks_mem s) (ks_freelist s)
    (ks_kpagetable s) (ks_proc s) (ks_current s) (f (ks_nextpid s)) (ks_disk s)
    (ks_writes s) (ks_bcache s) (ks_log s) (ks_sb s) (ks_icache s) (ks_ftable s).
Definition upd_ks_disk (f : (gmap Z (list Z)) -> (gmap Z (list Z))) (s : kstate) : kstate :=
  mkKstate (ks_uart s) (ks_klog s) (ks_rdtime s) (ks_reads s) (ks_csr s) (ks_mem s) (ks_freelist s)
    (ks_kpagetable s) (ks_proc s) (ks_current s) (ks_nextpid s) (f (ks_disk s))
    (ks_writes s) (ks_bcache s) (ks_log s) (ks_sb s) (ks_icache s) (ks_ftable s).
Definition upd_ks_writes (f : (list (Z * list Z)) -> (list (Z * list Z))) (s : kstate) : kstate :=
  mkKstate (ks_uart s) (ks_klog s) (ks_rdtime s) (ks_reads s) (ks_csr s) (ks_mem s) (ks_freelist s)
    (ks_kpagetable s) (ks_proc s) (ks_current s) (ks_nextpid s) (ks_disk s)
    (f (ks_writes s)) (ks_bcache s) (ks_log s) (ks_sb s) (ks_icache s) (ks_ftable s).
Definition upd_ks_bcache (f : (list buf) -> (list buf)) (s : kstate) : kstate :=
  mkKstate (ks_uart s) (ks_klog s) (ks_rdtime s) (ks_reads s) (ks_csr s) (ks_mem s) (ks_freelist s)
    (ks_kpagetable s) (ks_proc s) (ks_current s) (ks_nextpid s) (ks_disk s) (ks_writes s)
    (f (ks_bcache s)) (ks_log s) (ks_sb s) (ks_icache s) (ks_ftable s).
Definition upd_ks_log (f : log -> log) (s : kstate) : kstate :=
  mkKstate (ks_uart s) (ks_klog s) (ks_rdtime s) (ks_reads s) (ks_csr s) (ks_mem s) (ks_freelist s)
    (ks_kpagetable s) (ks_proc s) (ks_current s) (ks_nextpid s) (ks_disk s) (ks_writes s)
    (ks_bcache s) (f (ks_log s)) (ks_sb s) (ks_icache s) (ks_ftable s).
Definition upd_ks_sb (f : superblock -> superblock) (s : kstate) : kstate :=
  mkKstate (ks_uart s) (ks_klog s) (ks_rdtime s) (ks_reads s) (ks_csr s) (ks_mem s) (ks_freelist s)
    (ks_kpagetable s) (ks_proc s) (ks_current s) (ks_nextpid s) (ks_disk s) (ks_writes s)
    (ks_bcache s) (ks_log s) (f (ks_sb s)) (ks_icache s) (ks_ftable s).
Definition upd_ks_icache (f : (list inode) -> (list inode)) (s : kstate) : kstate :=
  mkKstate (ks_uart s) (ks_klog s) (ks_rdtime s) (ks_reads s) (ks_csr s) (ks_mem s) (ks_freelist s)
    (ks_kpagetable s) (ks_proc s) (ks_current s) (ks_nextpid s) (ks_disk s) (ks_writes s)
    (ks_bcache s) (ks_log s) (ks_sb s) (f (ks_icache s)) (ks_ftable s).
Definition upd_ks_ftable (f : (list file) -> (list file)) (s : kstate) : kstate :=
  mkKstate (ks_uart s) (ks_klog s) (ks_rdtime s) (ks_reads s) (ks_csr s) (ks_mem s) (ks_freelist s)
    (ks_kpagetable s) (ks_proc s) (ks_current s) (ks_nextpid s) (ks_disk s) (ks_writes s)
    (ks_bcache s) (ks_log s) (ks_sb s) (ks_icache s) (f (ks_ftable s)).

Abbreviation set_b_valid v := (upd_b_valid (fun _ => v)).
Abbreviation set_b_disk v := (upd_b_disk (fun _ => v)).
Abbreviation set_b_dev v := (upd_b_dev (fun _ => v)).
Abbreviation set_b_blockno v := (upd_b_blockno (fun _ => v)).
Abbreviation set_b_refcnt v := (upd_b_refcnt (fun _ => v)).
Abbreviation set_b_prev v := (upd_b_prev (fun _ => v)).
Abbreviation set_b_next v := (upd_b_next (fun _ => v)).
Abbreviation set_b_data v := (upd_b_data (fun _ => v)).
Abbreviation set_log_start v := (upd_log_start (fun _ => v)).
Abbreviation set_log_size v := (upd_log_size (fun _ => v)).
Abbreviation set_log_outstanding v := (upd_log_outstanding (fun _ => v)).
Abbreviation set_log_committing v := (upd_log_committing (fun _ => v)).
Abbreviation set_log_dev v := (upd_log_dev (fun _ => v)).
Abbreviation set_lh_n v := (upd_lh_n (fun _ => v)).
Abbreviation set_lh_block v := (upd_lh_block (fun _ => v)).
Abbreviation set_log_lock v := (upd_log_lock (fun _ => v)).
Abbreviation set_kl_buffer v := (upd_kl_buffer (fun _ => v)).
Abbreviation set_kl_head v := (upd_kl_head (fun _ => v)).
Abbreviation set_kl_tail v := (upd_kl_tail (fun _ => v)).
Abbreviation set_kl_count v := (upd_kl_count (fun _ => v)).
Abbreviation set_kl_total_logs v := (upd_kl_total_logs (fun _ => v)).
Abbreviation set_kl_dropped v := (upd_kl_dropped (fun _ => v)).
Abbreviation set_kl_enabled v := (upd_kl_enabled (fun _ => v)).
Abbreviation set_kl_use_color v := (upd_kl_use_color (fun _ => v)).
Abbreviation set_di_type v := (upd_di_type (fun _ => v)).
Abbreviation set_di_major v := (upd_di_major (fun _ => v)).
Abbreviation set_di_minor v := (upd_di_minor (fun _ => v)).
Abbreviation set_di_nlink v := (upd_di_nlink (fun _ => v)).
Abbreviation set_di_size v := (upd_di_size (fun _ => v)).
Abbreviation set_di_addrs v := (upd_di_addrs (fun _ => v)).
Abbreviation set_ip_dev v := (upd_ip_dev (fun _ => v)).
Abbreviation set_ip_inum v := (upd_ip_inum (fun _ => v)).
Abbreviation set_ip_ref v := (upd_ip_ref (fun _ => v)).
Abbreviation set_ip_valid v := (upd_ip_valid (fun _ => v)).
Abbreviation set_ip_d v := (upd_ip_d (fun _ => v)).
Abbreviation set_f_type v := (upd_f_type (fun _ => v)).
Abbreviation set_f_ref v := (upd_f_ref (fun _ => v)).
Abbreviation set_f_readable v := (upd_f_readable (fun _ => v)).
Abbreviation set_f_writable v := (upd_f_writable (fun _ => v)).
Abbreviation set_f_ip v := (upd_f_ip (fun _ => v)).
Abbreviation set_f_off v := (upd_f_off (fun _ => v)).
Abbreviation set_f_major v := (upd_f_major (fun _ => v)).
Abbreviation set_p_context v := (upd_p_context (fun _ => v)).
Abbreviation set_p_state v := (upd_p_state (fun _ => v)).
Abbreviation set_p_pid v := (upd_p_pid (fun _ => v)).
Abbreviation set_p_kstack v := (upd_p_kstack (fun _ => v)).
Abbreviation set_p_name v := (upd_p_name (fun _ => v)).
Abbreviation set_p_parent v := (upd_p_parent (fun _ => v)).
Abbreviation set_p_chan v := (upd_p_chan (fun _ => v)).
Abbreviation set_p_exit_code v := (upd_p_exit_code (fun _ => v)).
Abbreviation set_p_killed v := (upd_p_killed (fun _ => v)).
Abbreviation set_p_sz v := (upd_p_sz (fun _ => v)).
Abbreviation set_p_pagetable v := (upd_p_pagetable (fun _ => v)).
Abbreviation set_p_trapframe v := (upd_p_trapframe (fun _ => v)).
Abbreviation set_p_ofile v := (upd_p_ofile (fun _ => v)).
Abbreviation set_csr_stvec v := (upd_csr_stvec (fun _ => v)).
Abbreviation set_csr_sstatus v := (upd_csr_sstatus (fun _ => v)).
Abbreviation set_csr_sepc v := (upd_csr_sepc (fun _ => v)).
Abbreviation set_csr_scause v := (upd_csr_scause (fun _ => v)).
Abbreviation set_csr_stval v := (upd_csr_stval (fun _ => v)).
Abbreviation set_csr_satp v := (upd_csr_satp (fun _ => v)).
Abbreviation set_csr_sscratch v := (upd_csr_sscratch (fun _ => v)).
Abbreviation set_ks_uart v := (upd_ks_uart (fun _ => v)).
Abbreviation set_ks_klog v := (upd_ks_klog (fun _ => v)).
Abbreviation set_ks_rdtime v := (upd_ks_rdtime (fun _ => v)).
Abbreviation set_ks_reads v := (upd_ks_reads (fun _ => v)).
Abbreviation set_ks_csr v := (upd_ks_csr (fun _ => v)).
Abbreviation set_ks_mem v := (upd_ks_mem (fun _ => v)).
Abbreviation set_ks_freelist v := (upd_ks_freelist (fun _ => v)).
Abbreviation set_ks_kpagetable v := (upd_ks_kpagetable (fun _ => v)).
Abbreviation set_ks_proc v := (upd_ks_proc (fun _ => v)).
Abbreviation set_ks_current v := (upd_ks_current (fun _ => v)).
Abbreviation set_ks_nextpid v := (upd_ks_nextpid (fun _ => v)).
Abbreviation set_ks_disk v := (upd_ks_disk (fun _ => v)).
Abbreviation set_ks_writes v := (upd_ks_writes (fun _ => v)).
Abbreviation set_ks_bcache v := (upd_ks_bcache (fun _ => v)).
Abbreviation set_ks_log v := (upd_ks_log (fun _ => v)).
Abbreviation set_ks_sb v := (upd_ks_sb (fun _ => v)).
Abbreviation set_ks_icache v := (upd_ks_icache (fun _ => v)).
Abbreviation set_ks_ftable v := (upd_ks_ftable (fun _ => v)).

(** Computes the fields of an updated record. *)
Ltac fields := cbn [
  upd_b_valid b_valid upd_b_disk b_disk upd_b_dev b_dev upd_b_blockno b_blockno
  upd_b_refcnt b_refcnt upd_b_prev b_prev upd_b_next b_next upd_b_data b_data
  upd_log_start log_start upd_log_size log_size upd_log_outstanding log_outstanding
  upd_log_committing log_committing upd_log_dev log_dev upd_lh_n lh_n upd_lh_block
  lh_block upd_log_lock log_lock upd_kl_buffer kl_buffer upd_kl_head kl_head upd_kl_tail
  kl_tail upd_kl_count kl_count upd_kl_total_logs kl_total_logs upd_kl_dropped kl_dropped
  upd_kl_enabled kl_enabled upd_kl_use_color kl_use_color upd_di_type di_type upd_di_major
  di_major upd_di_minor di_minor upd_di_nlink di_nlink upd_di_size di_size upd_di_addrs
  di_addrs upd_ip_dev ip_dev upd_ip_inum ip_inum upd_ip_ref ip_ref upd_ip_valid ip_valid
  upd_ip_d ip_d upd_f_type f_type upd_f_ref f_ref upd_f_readable f_readable upd_f_writable
  f_writable upd_f_ip f_ip upd_f_off f_off upd_f_major f_major upd_p_context p_context
  upd_p_state p_state upd_p_pid p_pid upd_p_kstack p_kstack upd_p_name p_name upd_p_parent
  p_parent upd_p_chan p_chan upd_p_exit_code p_exit_code upd_p_killed p_killed upd_p_sz
  p_sz upd_p_pagetable p_pagetable upd_p_trapframe p_trapframe upd_p_ofile p_ofile
  upd_csr_stvec csr_stvec upd_csr_sstatus csr_sstatus upd_csr_sepc csr_sepc upd_csr_scause
  csr_scause upd_csr_stval csr_stval upd_csr_satp csr_satp upd_csr_sscratch csr_sscratch
  upd_ks_uart ks_uart upd_ks_klog ks_klog upd_ks_rdtime ks_rdtime upd_ks_reads ks_reads
  upd_ks_csr ks_csr upd_ks_mem ks_mem upd_ks_freelist ks_freelist upd_ks_kpagetable
  ks_kpagetable upd_ks_proc ks_proc upd_ks_current ks_current upd_ks_nextpid ks_nextpid
  upd_ks_disk ks_disk upd_ks_writes ks_writes upd_ks_bcache ks_bcache upd_ks_log ks_log
  upd_ks_sb ks_sb upd_ks_icache ks_icache upd_ks_ftable ks_ftable].
Ltac fields_in H := revert H; fields; intros H.

Abbreviation K A := (M kstate A).

(** ** The state after [clear_bss] (kernel/main.c)

    Every global is zero but those with an initialiser ([nextpid = 1]); the
    arguments are what the kernel finds in the machine. *)
Definition zero_dinode : dinode := mkDinode 0 0 0 0 0 (replicate 13 0).
Definition zero_inode : inode := mkInode 0 0 0 0 zero_dinode.
Definition zero_file : file := mkFile 0 0 0 0 None 0 0.
Definition zero_buf : buf := mkBuf 0 0 0 0 0 0 0 (replicate (Z.to_nat BSIZE) 0).
Definition zero_log : log := mkLog 0 0 0 0 0 0 (replicate 30 0) 0.
Definition zero_klog : klog_state :=
  mkKlog (replicate (Z.to_nat 4096) 0) 0 0 0 0 0 0 0.
Definition zero_proc : proc :=
  mkProc (mkContext 0 0 (replicate 12 0)) UNUSED 0 0 (replicate 16 0) None ChanNull 0 0 0 0 0
    (replicate 16 None).

Definition bss_state (rdtime : nat -> Z) (csr : csrs) (mem : gmap Z Z)
    (disk : gmap Z (list Z)) : kstate :=
  mkKstate [] zero_klog rdtime 0 csr mem 0 0
    (replicate (Z.to_nat NPROC) zero_proc) None 1
    disk [] (replicate (S NBUF) zero_buf) zero_log
    (mkSuperblock 0 0 0 0 0 0 0 0) (replicate (Z.to_nat NINODE) zero_inode)
    (replicate (Z.to_nat NFILE) zero_file).

(** A state to run the examples from: an empty machine whose clock stands at
    1234560000, with the kernel log enabled. *)
Definition demo_state : kstate :=
  upd_ks_klog (set_kl_enabled 1)
    (bss_state (fun _ => 1234560000) (mkCsrs 0 0 0 0 0 0 0) ∅ ∅).
