(* ===== verification/Mem.v ===== *)
(** * Physical memory and the linker's symbols

    The kernel runs with an identity mapping, so a pointer into allocated memory
    is a physical address: [load_le], [store_le], [load_bytes] and [store_bytes]
    are the accesses the C code makes through such pointers.  They are defined
    on the memory above the kernel image, [PGGROUNDUP(end)] to [PHYSTOP]; the
    kernel's own data is in the records of [kstate], and an access outside is a
    [Fault].  [Symbols] are the values the linker and the build give the code. *)
From S2P Require Import Prelude State.

(** [end], [trampoline], [uservec], [userret], [kernelvec]: symbols of the linker
    script and of the assembly files; [usertrap] and [usertrapret]: the addresses
    of the C functions; [init_bin]: the embedded user program; [stack_junk]: what
    the stack holds where [sys_open] and [sys_unlink] have their [name[DIRSIZ]]. *)
Class Symbols := {
  sym_end : Z;
  sym_trampoline : Z;
  sym_uservec : Z;
  sym_userret : Z;
  sym_kernelvec : Z;
  sym_usertrap : Z;
  sym_usertrapret : Z;
  init_bin : list Z;
  stack_junk : list Z }.

(** ** Model *)

(** [PGGROUNDUP] and [PGGROUNDDOWN] of include/riscv.h on [uint64_t]. *)
Definition PGGROUNDUP (sz : Z) : Z := Z.land (u64 (sz + PGSIZE - 1)) (Z.lnot (PGSIZE - 1)).
Definition PGGROUNDDOWN (a : Z) : Z := Z.land a (Z.lnot (PGSIZE - 1)).

(** The byte at address [a]. *)
Definition byte (s : kstate) (a : Z) : Z := default 0 (ks_mem s !! a).

Definition bytes (s : kstate) (a n : Z) : list Z := map (fun i => byte s (a + i)) (upto n).

Fixpoint put_bytes (a : Z) (bs : list Z) (m : gmap Z Z) : gmap Z Z :=
  match bs with
  | [] => m
  | b :: bs' => put_bytes (a + 1) bs' (<[a := b]> m)
  end.

Section mem.
Context `{Symbols}.

Definition mem_start : Z := PGGROUNDUP sym_end.
Definition in_ram (a n : Z) : bool := (mem_start <=? a) && (a + n <=? PHYSTOP).

Definition load_bytes (a n : Z) : K (list Z) :=
  if in_ram a n then gets (fun s => bytes s a n) else fault.
Definition store_bytes (a : Z) (bs : list Z) : K unit :=
  if in_ram a (Z.of_nat (length bs)) then modify (upd_ks_mem (put_bytes a bs)) else fault.

Definition load_le (n : nat) (a : Z) : K Z :=
  bs <- load_bytes a (Z.of_nat n);; ret (le_value bs).
Definition store_le (n : nat) (a v : Z) : K unit := store_bytes a (le_bytes n v).

Definition load64 (a : Z) : K Z := load_le 8 a.
Definition store64 (a v : Z) : K unit := store_le 8 a v.

(** ** Lemmas *)

(** The 64-bit word at [a]. *)
Definition word (s : kstate) (a : Z) : Z := le_value (bytes s a 8).

(** A page of the memory the kernel hands out. *)
Definition is_page (p : Z) : Prop := p mod PGSIZE = 0 /\ mem_start <= p /\ p + PGSIZE <= PHYSTOP.

(** The state [s'] has the memory of [s] outside of [P]. *)
Definition same_bytes (P : Z -> Prop) (s s' : kstate) : Prop :=
  forall a, ~ P a -> byte s' a = byte s a.

Lemma pgground_down a : PGGROUNDDOWN a = a - a mod PGSIZE.
Proof.
  unfold PGGROUNDDOWN. change (PGSIZE - 1) with (Z.ones 12). rewrite <- Z.ldiff_land.
  rewrite Z.ldiff_ones_r, Z.shiftr_div_pow2, Z.shiftl_mul_pow2 by lia.
  change (2 ^ 12) with PGSIZE. pose proof (Z.div_mod a PGSIZE). unfold PGSIZE in *. lia.
Qed.

Lemma pgground_up a : 0 <= a <= PHYSTOP -> PGGROUNDUP a = (a + 4095) / 4096 * 4096.
Proof.
  intros Ha. unfold PGGROUNDUP. change (Z.land ?x (Z.lnot (PGSIZE - 1))) with (PGGROUNDDOWN x).
  rewrite pgground_down. unfold PHYSTOP, PGSIZE in *. rewrite u64_id by lia. mlia.
Qed.

Lemma length_bytes s a n : length (bytes s a n) = Z.to_nat n.
Proof. unfold bytes. rewrite length_map. apply length_upto. Qed.

Lemma lookup_bytes s a n i :
  bytes s a n !! i = if decide (Z.of_nat i < n) then Some (byte s (a + Z.of_nat i)) else None.
Proof. apply lookup_map_upto. Qed.

Lemma bytes_ext s s' a n :
  (forall i, 0 <= i < n -> byte s' (a + i) = byte s (a + i)) -> bytes s' a n = bytes s a n.
Proof.
  intros Hb. apply list_eq. intros i. rewrite !lookup_bytes. case_decide; [|done].
  now rewrite Hb by lia.
Qed.

Lemma lookup_put_bytes bs : forall a m k,
  put_bytes a bs m !! k =
    if decide (a <= k < a + Z.of_nat (length bs)) then bs !! Z.to_nat (k - a) else m !! k.
Proof.
  induction bs as [|b bs IH]; intros a m k; cbn [put_bytes length].
  - rewrite decide_False by lia. reflexivity.
  - rewrite IH. destruct (decide (k = a)) as [->|Hne].
    + rewrite decide_False, lookup_insert, decide_True, decide_True by lia. now rewrite Z.sub_diag.
    + rewrite lookup_insert_ne by congruence. repeat case_decide; try lia; [|reflexivity].
      replace (Z.to_nat (k - a)) with (S (Z.to_nat (k - (a + 1)))) by lia. reflexivity.
Qed.

Lemma byte_put a bs s k :
  byte (upd_ks_mem (put_bytes a bs) s) k =
    if decide (a <= k < a + Z.of_nat (length bs)) then default 0 (bs !! Z.to_nat (k - a)) else byte s k.
Proof. unfold byte. fields. rewrite lookup_put_bytes. now case_decide. Qed.

Lemma bytes_put a bs s : bytes (upd_ks_mem (put_bytes a bs) s) a (Z.of_nat (length bs)) = bs.
Proof.
  apply list_eq. intros i. rewrite lookup_bytes, byte_put. case_decide as Hi.
  - rewrite decide_True by lia. replace (Z.to_nat (a + Z.of_nat i - a)) with i by lia.
    destruct (lookup_lt_is_Some_2 bs i) as [x Hx]; [lia|]. now rewrite Hx.
  - symmetry. apply lookup_ge_None. lia.
Qed.

Lemma same_bytes_put a bs s :
  same_bytes (fun k => a <= k < a + Z.of_nat (length bs)) s (upd_ks_mem (put_bytes a bs) s).
Proof. intros k Hk. rewrite byte_put. now rewrite decide_False. Qed.

Lemma in_ram_true a n : mem_start <= a -> a + n <= PHYSTOP -> in_ram a n = true.
Proof. intros H1 H2. apply andb_true_intro. split; apply Z.leb_le; assumption. Qed.

Lemma load_bytes_run a n s : in_ram a n = true -> load_bytes a n s = Ok (bytes s a n) s.
Proof. intros Hr. unfold load_bytes. now rewrite Hr. Qed.

Lemma store_bytes_run a bs s :
  in_ram a (Z.of_nat (length bs)) = true ->
  store_bytes a bs s = Ok tt (upd_ks_mem (put_bytes a bs) s).
Proof. intros Hr. unfold store_bytes. now rewrite Hr. Qed.

Lemma load64_run a s : in_ram a 8 = true -> load64 a s = Ok (word s a) s.
Proof. intros Hr. unfold load64, load_le, bind. change (Z.of_nat 8) with 8. now rewrite load_bytes_run. Qed.

Lemma store64_run a v s :
  in_ram a 8 = true -> store64 a v s = Ok tt (upd_ks_mem (put_bytes a (le_bytes 8 v)) s).
Proof. intros Hr. unfold store64, store_le. now apply store_bytes_run. Qed.

Lemma word_put a v s : 0 <= v < 2 ^ 64 -> word (upd_ks_mem (put_bytes a (le_bytes 8 v)) s) a = v.
Proof.
  intros Hv. unfold word. change 8 with (Z.of_nat (length (le_bytes 8 v))). rewrite bytes_put.
  rewrite le_value_le_bytes. apply Z.mod_small. exact Hv.
Qed.

Lemma word_ext s s' a :
  (forall k, a <= k < a + 8 -> byte s' k = byte s k) -> word s' a = word s a.
Proof. intros Hb. unfold word. f_equal. apply bytes_ext. intros i Hi. apply Hb. lia. Qed.

Lemma word_put_ne a v s k :
  k + 8 <= a \/ a + 8 <= k -> word (upd_ks_mem (put_bytes a (le_bytes 8 v)) s) k = word s k.
Proof.
  intros Hk. apply word_ext. intros j Hj. apply same_bytes_put.
  rewrite length_le_bytes. lia.
Qed.

Lemma is_page_ram p a n : is_page p -> p <= a -> a + n <= p + PGSIZE -> in_ram a n = true.
Proof. intros (_ & H1 & H2) Ha Hn. apply in_ram_true; lia. Qed.

(** Distinct pages do not overlap. *)
Lemma pages_apart p q : is_page p -> is_page q -> p <> q -> p + PGSIZE <= q \/ q + PGSIZE <= p.
Proof. unfold is_page, PGSIZE. intros (H1 & _) (H2 & _) Hne. mlia. Qed.
End mem.

(** A machine with sixteen free pages, for the examples. *)
Definition demo_symbols : Symbols := {|
  sym_end := PHYSTOP - 16 * PGSIZE - 100; sym_trampoline := 0x80202000;
  sym_uservec := 0x80202000; sym_userret := 0x80202090; sym_kernelvec := 0x80201000;
  sym_usertrap := 0x80203000; sym_usertrapret := 0x80203100;
  init_bin := [0x13; 0; 0; 0]; stack_junk := replicate 14 0xa5 |}.
