(* ===== verification/Pmm.v ===== *)
(** * The page allocator: kernel/pmm.c

    Free pages form a list linked through their first eight bytes.
    [PageAllocator] is what the clients rely on, the allocator as a stack of
    pages, and [pmm_pages] shows that the free list implements it: it refines
    the abstract stack. *)
From S2P Require Import Prelude State Mem.

(** ** Model *)

Section model.
Context `{Symbols}.

(** [struct run] is its one field, the next page, at offset 0. *)
Definition free_page (pa : Z) : K unit :=
  head <- gets ks_freelist;;
  _ <- store64 pa head;;
  modify (set_ks_freelist pa).

Fixpoint pmm_loop (fuel : nat) (pa : Z) : K unit :=
  if u64 (pa + PGSIZE) <=? PHYSTOP then
    match fuel with
    | O => out_of_fuel
    | S fuel' => _ <- free_page pa;; pmm_loop fuel' (u64 (pa + PGSIZE))
    end
  else ret tt.

(** The pages of the 128 MB above 0x80000000. *)
Definition PMM_FUEL : nat := Z.to_nat ((PHYSTOP - 0x80000000) / PGSIZE).

Definition pmm_init : K unit :=
  let start := PGGROUNDUP sym_end in
  pmm_loop PMM_FUEL start.

Definition alloc_page : K Z :=
  r <- gets ks_freelist;;
  if r =? 0 then ret 0
  else
    next <- load64 r;;
    _ <- modify (set_ks_freelist next);;
    ret r.

(** ** The interface *)

(** [pages l s]: the free pages are [l], the next one to be allocated first. *)
Class PageAllocator (pages : list Z -> kstate -> Prop) : Prop := {
  pages_ok : forall l s, pages l s -> NoDup l /\ Forall is_page l;
  pages_alloc : forall p l s,
    pages (p :: l) s -> exists next, alloc_page s = Ok p (set_ks_freelist next s) /\
                                     pages l (set_ks_freelist next s);
  pages_empty : forall s, pages [] s -> alloc_page s = Ok 0 s;
  pages_free : forall p l s,
    pages l s -> is_page p -> p ∉ l -> p <> 0 ->
    wp (free_page p) (fun _ s' => pages (p :: l) s' /\
      s' = set_ks_mem (ks_mem s') (set_ks_freelist (ks_freelist s') s) /\
      same_bytes (fun a => p <= a < p + PGSIZE) s s') s;
  pages_frame : forall l s s',
    pages l s -> ks_freelist s' = ks_freelist s ->
    (forall p a, p ∈ l -> p <= a < p + PGSIZE -> byte s' a = byte s a) -> pages l s' }.

(** ** The implementation *)

Fixpoint chain (s : kstate) (a : Z) (l : list Z) : Prop :=
  match l with
  | [] => a = 0
  | p :: l' => a = p /\ p <> 0 /\ chain s (word s p) l'
  end.

Record free_list (l : list Z) (s : kstate) : Prop := {
  fl_chain : chain s (ks_freelist s) l;
  fl_nodup : NoDup l;
  fl_pages : Forall is_page l }.

(** The pages [pmm_init] hands to the allocator, lowest address first. *)
Definition all_pages : list Z :=
  map (fun i => mem_start + i * PGSIZE) (upto ((PHYSTOP - mem_start) / PGSIZE)).

Lemma chain_ext s s' l : forall a,
  (forall p, p ∈ l -> word s' p = word s p) -> chain s a l -> chain s' a l.
Proof.
  induction l as [|p l IH]; intros a Hw Hc; [exact Hc|]. destruct Hc as (-> & Hp & Hc).
  cbn [chain]. split; [reflexivity|]. split; [exact Hp|].
  rewrite Hw by left. apply IH; [|exact Hc]. intros q Hq. apply Hw. now right.
Qed.

Lemma free_page_run p s :
  in_ram p 8 = true ->
  free_page p s =
    Ok tt (set_ks_freelist p (upd_ks_mem (put_bytes p (le_bytes 8 (ks_freelist s))) s)).
Proof. intros Hr. unfold free_page, gets, bind at 1. cbn [obind]. now rewrite (bind_Ok _ _ _ _ _ (store64_run _ _ _ Hr)). Qed.

Lemma free_list_frame l s s' :
  free_list l s -> ks_freelist s' = ks_freelist s ->
  (forall p a, p ∈ l -> p <= a < p + PGSIZE -> byte s' a = byte s a) -> free_list l s'.
Proof.
  intros [Hc Hnd Hp] Hf Hb. split; [|assumption..]. rewrite Hf. eapply chain_ext; [|exact Hc].
  intros p Hin. apply word_ext. intros k Hk. apply (Hb p); [exact Hin|unfold PGSIZE; lia].
Qed.

(** A valid head: the free list is null or a page. *)
Lemma free_list_head l s : free_list l s -> 0 <= mem_start -> 0 <= ks_freelist s < 2 ^ 64.
Proof.
  intros [Hc _ Hp] Hm. destruct l as [|p l]; cbn in Hc; [lia|]. destruct Hc as (-> & _).
  apply Forall_cons in Hp as [(_ & H1 & H2) _]. unfold PHYSTOP, PGSIZE in *. lia.
Qed.

Lemma free_list_free p l s :
  0 <= mem_start -> free_list l s -> is_page p -> p ∉ l -> p <> 0 ->
  free_list (p :: l) (set_ks_freelist p (upd_ks_mem (put_bytes p (le_bytes 8 (ks_freelist s))) s)).
Proof.
  intros Hm Hl Hp Hin Hne. pose proof (free_list_head _ _ Hl Hm) as Hh. destruct Hl as [Hc Hnd Hps].
  split; [|now constructor|now constructor]. split; [reflexivity|]. split; [exact Hne|].
  match goal with |- chain _ ?w _ => replace w with (ks_freelist s) by (symmetry; now apply word_put) end.
  eapply chain_ext; [|exact Hc]. intros q Hq. apply word_put_ne.
  rewrite Forall_forall in Hps. destruct (pages_apart p q); auto; unfold PGSIZE in *; [set_solver|lia..].
Qed.

(** The free list refines the stack of pages. *)
Lemma pmm_pages : 0 <= mem_start -> PageAllocator free_list.
Proof.
  intros Hm. split.
  - intros l s [_ Hnd Hp]. auto.
  - intros p l s [Hc Hnd Hp]. destruct Hc as (Ha & Hne & Hc). exists (word s p).
    apply NoDup_cons in Hnd as [Hnin Hnd]. apply Forall_cons in Hp as [Hp Hps]. split.
    + unfold alloc_page, gets, bind at 1. cbn [obind]. rewrite Ha.
      destruct (Z.eqb_spec p 0); [contradiction|].
      rewrite (bind_Ok _ _ _ _ _ (load64_run p s (is_page_ram p p 8 Hp ltac:(lia) ltac:(unfold PGSIZE; lia)))).
      reflexivity.
    + split; [|assumption..]. eapply chain_ext; [|exact Hc]. reflexivity.
  - intros s [Hc _ _]. cbn in Hc. unfold alloc_page, gets, bind. cbn [obind]. now rewrite Hc.
  - intros p l s Hl Hp Hnin Hne. apply wp_Ok. eexists _, _. split.
    { apply free_page_run. apply (is_page_ram p); [exact Hp|unfold PGSIZE; lia..]. }
    split; [now apply free_list_free|]. split; [reflexivity|].
    intros a Ha. apply same_bytes_put. rewrite length_le_bytes. unfold PGSIZE in Ha. lia.
  - exact free_list_frame.
Qed.

(** [pmm_init] from page [j] on: every page joins the list. *)
Lemma pmm_loop_run n : forall fuel j l s,
  (n <= fuel)%nat -> 0 < mem_start -> mem_start mod PGSIZE = 0 -> 0 <= j ->
  Z.of_nat n = (PHYSTOP - mem_start) / PGSIZE - j -> free_list l s ->
  (forall p, p ∈ l -> p < mem_start + j * PGSIZE) ->
  exists s', pmm_loop fuel (mem_start + j * PGSIZE) s = Ok tt s' /\
    free_list (rev (map (fun i => mem_start + i * PGSIZE) (map (fun i => j + i) (upto (Z.of_nat n)))) ++ l) s' /\
    s' = set_ks_mem (ks_mem s') (set_ks_freelist (ks_freelist s') s).
Proof.
  induction n as [|n IH]; intros fuel j l s Hfuel Hm Hal Hj Hn Hl Hlt.
  - exists s. split; [|split; [exact Hl|now destruct s]].
    assert ((u64 (mem_start + j * PGSIZE + PGSIZE) <=? PHYSTOP) = false) as Hend.
    { apply Z.leb_gt. unfold PGSIZE, PHYSTOP in *. rewrite u64_id; mlia. }
    destruct fuel; cbn [pmm_loop]; now rewrite Hend.
  - assert (mem_start + j * PGSIZE + PGSIZE <= PHYSTOP) as Hin by (unfold PGSIZE, PHYSTOP in *; mlia).
    destruct fuel as [|fuel]; [lia|].
    set (p := mem_start + j * PGSIZE) in *.
    assert (is_page p) as Hp by (unfold is_page, p, PGSIZE, PHYSTOP in *; split; [mlia|lia]).
    cbn [pmm_loop]. rewrite u64_id by (unfold p, PGSIZE, PHYSTOP in *; lia).
    destruct (Z.leb_spec (p + PGSIZE) PHYSTOP); [|lia].
    rewrite (bind_Ok _ _ _ _ _ (free_page_run p s (is_page_ram p p 8 Hp ltac:(lia) ltac:(unfold PGSIZE; lia)))).
    set (s1 := set_ks_freelist _ _).
    assert (free_list (p :: l) s1) as Hl1.
    { apply free_list_free; auto; [lia| |unfold p, PGSIZE in *; lia]. intros Hpl%Hlt. lia. }
    destruct (IH fuel (j + 1) (p :: l) s1) as (s' & Hrun & Hl' & Hs'); auto; [lia|lia|lia| |].
    { intros q [->|Hq%Hlt]%elem_of_cons; unfold p, PGSIZE in *; lia. }
    exists s'. split; [|split].
    + replace (p + PGSIZE) with (mem_start + (j + 1) * PGSIZE) by (unfold p; lia). exact Hrun.
    + revert Hl'. match goal with |- free_list ?a _ -> free_list ?b _ => replace a with b; [done|] end.
      unfold upto. rewrite !Nat2Z.id, (seq_app 1 n 0 : seq 0 (S n) = _), !map_app, rev_app_distr, <- app_assoc.
      change (0 + 1)%nat with 1%nat. cbn [seq map rev app]. f_equal; [|do 2 f_equal; unfold p; lia].
      f_equal. rewrite !map_map. rewrite <- seq_shift, map_map. apply map_ext. intros i. lia.
    + rewrite Hs'. reflexivity.
Qed.

(** ** The abstract allocator: a stack of pages *)

Inductive pmm_op := Alloc | Free (p : Z).

(** What a sequence of calls returns, abstractly: [None] if it frees something
    that is not an allocated page. *)
Fixpoint stack_run (ops : list pmm_op) (l : list Z) : option (list Z * list Z) :=
  match ops with
  | [] => Some ([], l)
  | Alloc :: ops' =>
      '(rs, l') ← stack_run ops' (tail l); Some (default 0 (head l) :: rs, l')
  | Free p :: ops' =>
      if decide (p ∈ all_pages /\ p ∉ l) then stack_run ops' (p :: l) else None
  end.

(** The same calls of the kernel's functions. *)
Fixpoint pmm_run (ops : list pmm_op) : K (list Z) :=
  match ops with
  | [] => ret []
  | Alloc :: ops' => p <- alloc_page;; rs <- pmm_run ops';; ret (p :: rs)
  | Free p :: ops' => _ <- free_page p;; pmm_run ops'
  end.

Lemma all_pages_page p : p ∈ all_pages -> mem_start mod PGSIZE = 0 -> is_page p.
Proof.
  intros (i & -> & Hi%elem_of_upto)%list_elem_of_fmap Hal.
  unfold is_page, PGSIZE, PHYSTOP in *. split; [mlia|mlia].
Qed.

Lemma mem_start_aligned : mem_start mod PGSIZE = 0.
Proof.
  unfold mem_start, PGGROUNDUP. change (Z.land ?x (Z.lnot (PGSIZE - 1))) with (PGGROUNDDOWN x).
  rewrite pgground_down. unfold PGSIZE. mlia.
Qed.

Context (Hend : 0x80000000 <= sym_end <= PHYSTOP).

Lemma mem_start_range : 0x80000000 <= mem_start <= PHYSTOP.
Proof. unfold mem_start, PHYSTOP in *. rewrite pgground_up by (unfold PHYSTOP; lia). mlia. Qed.
End model.


Lemma pmm_init_run `{Symbols} s :
  0x80000000 <= sym_end <= PHYSTOP -> ks_freelist s = 0 ->
  exists s', pmm_init s = Ok tt s' /\ free_list (rev all_pages) s' /\
    s' = set_ks_mem (ks_mem s') (set_ks_freelist (ks_freelist s') s).
Proof.
  intros Hend Hz. pose proof (mem_start_range Hend) as Hm. pose proof mem_start_aligned as Hal.
  destruct (pmm_loop_run (Z.to_nat ((PHYSTOP - mem_start) / PGSIZE)) PMM_FUEL 0 [] s)
    as (s' & Hrun & Hl & Hs'); auto; try lia.
  - apply Z2Nat.inj_le; unfold PHYSTOP, PGSIZE in *; mlia.
  - unfold PHYSTOP, PGSIZE in *; mlia.
  - split; [exact Hz|constructor..].
  - set_solver.
  - exists s'. split; [|split; [|exact Hs']].
    + unfold pmm_init. fold mem_start. rewrite <- Hrun. f_equal. lia.
    + revert Hl. rewrite app_nil_r, Z2Nat.id by (unfold PHYSTOP, PGSIZE in *; mlia).
      unfold all_pages. now rewrite (map_id (upto _) : map (fun i => 0 + i) _ = _).
Qed.

(** ** Properties *)

(** C36: [pmm_init] returns, and the free list then holds every whole page between
    the end of the kernel image and [PHYSTOP], each once. *)
Theorem pmm_init_frees_all `{Symbols} s :
  0x80000000 <= sym_end <= PHYSTOP -> ks_freelist s = 0 ->
  exists s', pmm_init s = Ok tt s' /\ free_list (rev all_pages) s' /\
    s' = set_ks_mem (ks_mem s') (set_ks_freelist (ks_freelist s') s).
Proof. apply pmm_init_run. Qed.

Lemma pmm_init_frees_all_witness :
  exists s', @pmm_init demo_symbols demo_state = Ok tt s' /\
    @free_list demo_symbols (rev (@all_pages demo_symbols)) s' /\
    s' = set_ks_mem (ks_mem s') (set_ks_freelist (ks_freelist s') demo_state).
Proof. apply pmm_init_frees_all; [split; discriminate|reflexivity]. Defined.

(** C26: refinement.  From any state whose free list is [l], a sequence of calls
    of [alloc_page] and [free_page] that frees allocated pages only returns what
    the abstract stack of pages returns, and leaves its stack. *)
Theorem pmm_refines_stack `{Symbols} ops l s rs l' :
  0x80000000 <= sym_end <= PHYSTOP -> free_list l s -> stack_run ops l = Some (rs, l') ->
  exists s', pmm_run ops s = Ok rs s' /\ free_list l' s'.
Proof.
  intros Hend. pose proof (mem_start_range Hend) as Hm. pose proof mem_start_aligned as Hal.
  assert (PageAllocator free_list) as HA by (apply pmm_pages; lia).
  revert l s rs l'. induction ops as [|[|p] ops IH]; intros l s rs l' Hl Hrun; cbn [stack_run] in Hrun; cbn [pmm_run].
  - injection Hrun as <- <-. eauto.
  - destruct (stack_run ops (tail l)) as [[rs1 l1]|] eqn:E; [|discriminate]. injection Hrun as <- <-.
    destruct l as [|p l]; cbn [tail head default] in *.
    + rewrite (bind_Ok _ _ _ _ _ (pages_empty s Hl)).
      destruct (IH _ _ _ _ Hl E) as (s' & Hr & Hl'). rewrite (bind_Ok _ _ _ _ _ Hr). eauto.
    + destruct (pages_alloc _ _ _ Hl) as (nxt & Ha & Hl1). rewrite (bind_Ok _ _ _ _ _ Ha).
      destruct (IH _ _ _ _ Hl1 E) as (s' & Hr & Hl'). rewrite (bind_Ok _ _ _ _ _ Hr). eauto.
  - case_decide as Hp; [|discriminate]. destruct Hp as [Hp Hnin]. apply all_pages_page in Hp; [|exact Hal].
    destruct (proj1 (wp_Ok _ _ _) (pages_free p l s Hl Hp Hnin ltac:(destruct Hp; lia)))
      as ([] & s1 & Hf & Hl1 & _).
    rewrite (bind_Ok _ _ _ _ _ Hf). eauto.
Qed.

(** A machine after [pmm_init]. *)
Definition demo_free : kstate :=
  match @pmm_init demo_symbols demo_state with Ok _ s => s | _ => demo_state end.

Lemma demo_free_list : @free_list demo_symbols (rev (@all_pages demo_symbols)) demo_free.
Proof.
  unfold demo_free. destruct (@pmm_init_run demo_symbols demo_state) as (s' & Hrun & Hl & _);
    [split; discriminate|reflexivity|]. now rewrite Hrun.
Qed.

Lemma pmm_refines_stack_witness :
  exists s', @pmm_run demo_symbols [Alloc; Alloc; Free (PHYSTOP - PGSIZE); Alloc] demo_free =
      Ok [PHYSTOP - PGSIZE; PHYSTOP - 2 * PGSIZE; PHYSTOP - PGSIZE] s' /\
    @free_list demo_symbols (tail (tail (rev (@all_pages demo_symbols)))) s'.
Proof.
  eapply (@pmm_refines_stack demo_symbols); [split; discriminate|exact demo_free_list|].
  vm_compute. reflexivity.
Defined.
