(* ===== verification/Printf.v ===== *)
(** * Console output: kernel/console.c and kernel/printf.c

    [uart_putc] appends to the bytes the UART has been sent; [printf] walks the
    format string and its [va_list] as the C code does.  The theorems relate
    what reaches the UART to a pure rendering of the format, and show that the
    numerals are right: they read back to the number printed and they fit in
    [printu]'s 32-byte buffer. *)
From S2P Require Import Prelude State.

(** ** Model *)

(** [uart_putc] (kernel/uart.c): wait for [LSR_THRE], then write the
    transmit register.  The wait only delays. *)
Definition uart_putc (c : Z) : K unit := modify (upd_ks_uart (fun u => u ++ [u8 c])).

(** [console_putc] and [console_puts] (kernel/console.c). *)
Definition console_putc (c : Z) : K unit :=
  _ <- (if c =? 10 then uart_putc 13 else ret tt);;
  uart_putc c.

Definition console_puts (s : list Z) : K unit := for_each s console_putc.

(** [uart_puts] (kernel/uart.c), and [clear_screen] (kernel/console.c): the escape
    sequences that clear the terminal and move to its first column. *)
Definition uart_puts (s : list Z) : K unit :=
  for_each s (fun c => _ <- (if c =? 10 then uart_putc 13 else ret tt);; uart_putc c).

Definition clear_screen : K unit := console_puts (27 :: str "[2J" ++ 27 :: str "[H").

(** The variable arguments: the 64-bit register or stack slot of an integer,
    or a pointer to a string. *)
Inductive arg := AInt (z : Z) | AStr (p : option (list Z)).

(** [va_arg] at an integer type and at [const char*]. *)
Definition va_int (ap : list arg) : K (Z * list arg) :=
  match ap with AInt z :: ap' => ret (z, ap') | _ => fault end.

Definition va_str (ap : list arg) : K (option (list Z) * list arg) :=
  match ap with AStr p :: ap' => ret (p, ap') | _ => fault end.

Definition outc (c cnt : Z) : K Z :=
  _ <- console_putc c;;
  ret (i32 (cnt + 1)).

Fixpoint outs (s : list Z) (cnt : Z) : K Z :=
  match s with
  | [] => ret cnt
  | c :: s' => cnt' <- outc c cnt;; outs s' cnt'
  end.

Definition prints (s : option (list Z)) (cnt : Z) : K Z :=
  outs (match s with Some s => s | None => str "(null)" end) cnt.

(** The character of one digit. *)
Definition digit (r : Z) : Z := if r <? 10 then 48 + r else 97 + (r - 10).

(** [while(x){ ... buf[i++] = ...; x /= base; }] with [char buf[32]]: the
    buffer holds the digits found so far. *)
Fixpoint printu_loop (fuel : nat) (x base : Z) (buf : list Z) : K (list Z) :=
  if x =? 0 then ret buf
  else match fuel with
       | O => out_of_fuel
       | S fuel' =>
           let r := x mod base in
           if decide (length buf < 32)%nat
           then printu_loop fuel' (x / base) base (buf ++ [digit r])
           else fault
       end.

(** [x] is an [unsigned long long]: with a base of 2 or more it has at most 64
    digits, so 64 rounds end the loop. *)
Definition printu (x base cnt : Z) : K Z :=
  if x =? 0 then outc 48 cnt
  else buf <- printu_loop 64 x base [];;
       outs (rev buf) cnt.

Definition printd (v cnt : Z) : K Z :=
  if v <? 0 then
    if v =? 0x80000000 then prints (Some (str "-2147483648")) cnt
    else cnt1 <- outc 45 cnt;;
         printu (u64 (- v)) 10 cnt1
  else printu (u64 v) 10 cnt.

(** One conversion: the [switch(f)]. *)
Definition printf_conv (f : Z) (ap : list arg) (n : Z) : K (Z * list arg) :=
  if f =? 100 (* 'd' *) then
    let! (z, ap') := va_int ap in n' <- printd (i32 z) n;; ret (n', ap')
  else if f =? 120 (* 'x' *) then
    let! (z, ap') := va_int ap in n' <- printu (u32 z) 16 n;; ret (n', ap')
  else if f =? 112 (* 'p' *) then
    let! (z, ap') := va_int ap in
    n1 <- prints (Some (str "0x")) n;;
    n2 <- printu (u64 z) 16 n1;;
    ret (n2, ap')
  else if f =? 115 (* 's' *) then
    let! (p, ap') := va_str ap in n' <- prints p n;; ret (n', ap')
  else if f =? 99 (* 'c' *) then
    let! (z, ap') := va_int ap in n' <- outc (u8 z) n;; ret (n', ap')
  else if f =? 37 (* '%' *) then
    n' <- outc 37 n;; ret (n', ap)
  else
    n1 <- outc 37 n;;
    n2 <- outc f n1;;
    ret (n2, ap).

Fixpoint printf_loop (fmt : list Z) (ap : list arg) (n : Z) : K Z :=
  match fmt with
  | [] => ret n
  | c :: fmt1 =>
      if negb (c =? 37) then n' <- outc c n;; printf_loop fmt1 ap n'
      else match fmt1 with
           | [] => ret n
           | f :: fmt2 =>
               let! (n', ap') := printf_conv f ap n in
               printf_loop fmt2 ap' n'
           end
  end.

Definition printf (fmt : list Z) (ap : list arg) : K Z := printf_loop fmt ap 0.

(** [panic] (kernel/trap.c): prints the message and stops the hart. *)
Definition panic {A} (msg : list Z) : K A :=
  _ <- printf (str "PANIC: %s" ++ [10]) [AStr (Some msg)];;
  (fun s => Panic msg s).

(** ** Specification *)

(** What the UART receives for a character: [console_putc] sends CR before LF. *)
Definition emit (t : list Z) : list Z :=
  concat (map (fun c => if c =? 10 then [13; 10] else [u8 c]) t).

(** The digits of [x], least significant first, and the numeral of [x]. *)
Fixpoint digits (fuel : nat) (x base : Z) : list Z :=
  if x =? 0 then []
  else match fuel with
       | O => []
       | S fuel' => digit (x mod base) :: digits fuel' (x / base) base
       end.

Definition numeral (base x : Z) : list Z :=
  if x =? 0 then [48] else rev (digits 64 x base).

Definition int_text (v : Z) : list Z :=
  if v <? 0 then 45 :: numeral 10 (- v) else numeral 10 v.

(** How a reader understands a numeral, and a signed decimal numeral. *)
Definition digit_value (c : Z) : Z := if c <? 97 then c - 48 else c - 97 + 10.
Definition read_num (base : Z) (t : list Z) : Z :=
  fold_left (fun acc c => acc * base + digit_value c) t 0.
Definition read_int (t : list Z) : Z :=
  match t with
  | c :: t' => if c =? 45 then - read_num 10 t' else read_num 10 t
  | [] => 0
  end.

(** The text of a format: [None] when the arguments do not fit the format. *)
Definition conv_text (f : Z) (ap : list arg) : option (list Z * list arg) :=
  if f =? 100 then
    match ap with AInt z :: ap' => Some (int_text (i32 z), ap') | _ => None end
  else if f =? 120 then
    match ap with AInt z :: ap' => Some (numeral 16 (u32 z), ap') | _ => None end
  else if f =? 112 then
    match ap with AInt z :: ap' => Some (str "0x" ++ numeral 16 (u64 z), ap') | _ => None end
  else if f =? 115 then
    match ap with
    | AStr p :: ap' => Some (match p with Some t => t | None => str "(null)" end, ap')
    | _ => None
    end
  else if f =? 99 then
    match ap with AInt z :: ap' => Some ([u8 z], ap') | _ => None end
  else if f =? 37 then Some ([37], ap)
  else Some ([37; f], ap).

Fixpoint fmt_text (fmt : list Z) (ap : list arg) : option (list Z) :=
  match fmt with
  | [] => Some []
  | c :: fmt1 =>
      if negb (c =? 37) then t ← fmt_text fmt1 ap; Some (c :: t)
      else match fmt1 with
           | [] => Some []
           | f :: fmt2 =>
               '(t1, ap') ← conv_text f ap;
               t2 ← fmt_text fmt2 ap';
               Some (t1 ++ t2)
           end
  end.

(** ** Theorems *)

Lemma emit_app t1 t2 : emit (t1 ++ t2) = emit t1 ++ emit t2.
Proof. unfold emit. now rewrite map_app, concat_app. Qed.

Lemma upd_uart_app t1 t2 s :
  upd_ks_uart (fun u => u ++ t2) (upd_ks_uart (fun u => u ++ t1) s)
  = upd_ks_uart (fun u => u ++ (t1 ++ t2)) s.
Proof. unfold upd_ks_uart. simpl. now rewrite app_assoc. Qed.

Lemma upd_uart_nil s : upd_ks_uart (fun u => u ++ []) s = s.
Proof. unfold upd_ks_uart. rewrite app_nil_r. now destruct s. Qed.

Lemma console_putc_emit c s :
  console_putc c s = Ok tt (upd_ks_uart (fun u => u ++ emit [c]) s).
Proof.
  unfold console_putc, emit. simpl. destruct (Z.eqb_spec c 10) as [->|Hc].
  - unfold bind, uart_putc, modify. simpl. now rewrite upd_uart_app.
  - reflexivity.
Qed.

Lemma outc_emit c n s :
  outc c n s = Ok (i32 (n + 1)) (upd_ks_uart (fun u => u ++ emit [c]) s).
Proof. unfold outc. now rewrite (bind_Ok _ _ _ _ _ (console_putc_emit c s)). Qed.

Lemma i32_add_l x y : i32 (i32 x + y) = i32 (x + y).
Proof.
  unfold i32. f_equal.
  replace ((x + 2 ^ 31) mod 2 ^ 32 - 2 ^ 31 + y + 2 ^ 31)
    with ((x + 2 ^ 31) mod 2 ^ 32 + y) by lia.
  rewrite Zplus_mod_idemp_l. f_equal. lia.
Qed.

(** Counters are written [i32 n], so that they compose. *)
Lemma outs_emit t n s :
  outs t (i32 n) s = Ok (i32 (n + Z.of_nat (length t)))
                       (upd_ks_uart (fun u => u ++ emit t) s).
Proof.
  revert n s; induction t as [|c t IH]; intros n s.
  - cbn [outs length]. unfold ret. rewrite Z.add_0_r. now rewrite upd_uart_nil.
  - cbn [outs]. rewrite (bind_Ok _ _ _ _ _ (outc_emit c _ s)), i32_add_l, IH.
    rewrite upd_uart_app, <- emit_app. cbn [length]. do 2 f_equal; lia.
Qed.

Lemma length_digits fuel x base k :
  2 <= base -> 0 <= x < base ^ Z.of_nat k -> (length (digits fuel x base) <= k)%nat.
Proof.
  intros Hb. revert x k; induction fuel as [|fuel IH]; intros x k Hx; simpl;
    destruct (Z.eqb_spec x 0); simpl; try lia.
  destruct k as [|k]; [simpl in Hx; lia|].
  apply le_n_S, IH. rewrite Nat2Z.inj_succ, Z.pow_succ_r in Hx by lia.
  split; [apply Z.div_pos; lia|]. apply Z.div_lt_upper_bound; lia.
Qed.

Lemma u64_numeral_fits x base :
  10 <= base -> 0 <= x < 2 ^ 64 -> (length (digits 64 x base) <= 20)%nat.
Proof.
  intros Hb Hx. apply length_digits; [lia|].
  split; [lia|]. apply Z.lt_le_trans with (10 ^ 20); [lia|].
  apply Z.pow_le_mono_l. lia.
Qed.

Lemma printu_loop_digits fuel x base buf s :
  2 <= base -> 0 <= x < base ^ Z.of_nat fuel ->
  (length buf + length (digits fuel x base) <= 32)%nat ->
  printu_loop fuel x base buf s = Ok (buf ++ digits fuel x base) s.
Proof.
  intros Hb. revert x buf; induction fuel as [|fuel IH]; intros x buf Hx Hl.
  - simpl in *. assert (x = 0) as -> by lia. simpl. now rewrite app_nil_r.
  - cbn [printu_loop digits] in *. destruct (Z.eqb_spec x 0).
    + unfold ret. now rewrite app_nil_r.
    + cbn [length] in Hl. rewrite decide_True by lia.
      rewrite Nat2Z.inj_succ, Z.pow_succ_r in Hx by lia.
      rewrite IH.
      * now rewrite <- app_assoc.
      * split; [apply Z.div_pos; lia|apply Z.div_lt_upper_bound; lia].
      * rewrite length_app. simpl. lia.
Qed.

Lemma printu_emit x base n s :
  10 <= base -> 0 <= x < 2 ^ 64 ->
  printu x base (i32 n) s = Ok (i32 (n + Z.of_nat (length (numeral base x))))
                              (upd_ks_uart (fun u => u ++ emit (numeral base x)) s).
Proof.
  intros Hb Hx. unfold printu, numeral. destruct (Z.eqb_spec x 0).
  - rewrite outc_emit, i32_add_l. reflexivity.
  - rewrite (bind_Ok _ _ _ (digits 64 x base) s), outs_emit; [reflexivity|].
    rewrite printu_loop_digits; [reflexivity|lia| |].
    + split; [lia|]. apply Z.lt_le_trans with (2 ^ 64); [lia|].
      apply Z.pow_le_mono_l. lia.
    + pose proof (u64_numeral_fits x base Hb Hx). cbn [length]. lia.
Qed.

Lemma printd_emit v n s :
  - 2 ^ 31 <= v < 2 ^ 31 ->
  printd v (i32 n) s = Ok (i32 (n + Z.of_nat (length (int_text v))))
                         (upd_ks_uart (fun u => u ++ emit (int_text v)) s).
Proof.
  intros Hv. unfold printd, int_text. destruct (Z.ltb_spec v 0).
  - destruct (Z.eqb_spec v 0x80000000); [lia|].
    rewrite (bind_Ok _ _ _ _ _ (outc_emit _ _ _)), i32_add_l.
    rewrite u64_id, printu_emit by lia.
    rewrite upd_uart_app, <- emit_app. cbn [length app]. do 2 f_equal. lia.
  - rewrite u64_id by lia. apply printu_emit; lia.
Qed.

Lemma conv_emit f ap n s :
  printf_conv f ap (i32 n) s =
  match conv_text f ap with
  | Some (t, ap') => Ok (i32 (n + Z.of_nat (length t)), ap')
                       (upd_ks_uart (fun u => u ++ emit t) s)
  | None => Fault
  end.
Proof.
  unfold printf_conv, conv_text, prints, va_int, va_str, bind, ret, fault.
  repeat match goal with
  | |- context [if ?b then _ else _] =>
      lazymatch b with Z.eqb f _ => destruct b end
  end; try (destruct ap as [|[z|p] ap]; cbn [obind]; try reflexivity).
  - rewrite printd_emit by apply i32_range. reflexivity.
  - rewrite printu_emit by (pose proof (u32_range z); lia). reflexivity.
  - rewrite outs_emit. cbn [obind].
    rewrite printu_emit by (pose proof (u64_range z); lia). cbn [obind].
    rewrite upd_uart_app, <- emit_app, length_app. do 3 f_equal. lia.
  - now rewrite outs_emit.
  - now rewrite outc_emit, i32_add_l.
  - now rewrite outc_emit, i32_add_l.
  - now rewrite outc_emit, i32_add_l.
  - now rewrite outc_emit, i32_add_l.
  - rewrite outc_emit, i32_add_l. cbn [obind]. rewrite outc_emit, i32_add_l. cbn [obind].
    rewrite upd_uart_app, <- emit_app. cbn [length app]. do 3 f_equal. lia.
  - rewrite outc_emit, i32_add_l. cbn [obind]. rewrite outc_emit, i32_add_l. cbn [obind].
    rewrite upd_uart_app, <- emit_app. cbn [length app]. do 3 f_equal. lia.
  - rewrite outc_emit, i32_add_l. cbn [obind]. rewrite outc_emit, i32_add_l. cbn [obind].
    rewrite upd_uart_app, <- emit_app. cbn [length app]. do 3 f_equal. lia.
Qed.

Lemma printf_loop_emit fmt : forall ap n s,
  printf_loop fmt ap (i32 n) s =
  match fmt_text fmt ap with
  | Some t => Ok (i32 (n + Z.of_nat (length t))) (upd_ks_uart (fun u => u ++ emit t) s)
  | None => Fault
  end.
Proof.
  induction fmt as [fmt IH] using (induction_ltof1 _ (@length Z)).
  unfold ltof in IH. intros ap n s. destruct fmt as [|c fmt].
  { cbn. now rewrite Z.add_0_r, upd_uart_nil. }
  cbn [printf_loop fmt_text]. destruct (negb (c =? 37)).
  - rewrite (bind_Ok _ _ _ _ _ (outc_emit _ _ _)), i32_add_l.
    rewrite IH by (cbn [length]; lia).
    destruct (fmt_text fmt ap) as [t|]; cbn [mbind option_bind]; [|reflexivity].
    rewrite upd_uart_app, <- emit_app. cbn [length app]. do 2 f_equal. lia.
  - destruct fmt as [|f fmt]; [cbn; now rewrite Z.add_0_r, upd_uart_nil|].
    unfold bind at 1. rewrite conv_emit.
    destruct (conv_text f ap) as [[t1 ap']|]; cbn [mbind option_bind obind]; [|reflexivity].
    rewrite IH by (cbn [length]; lia).
    destruct (fmt_text fmt ap'); cbn [mbind option_bind]; [|reflexivity].
    rewrite upd_uart_app, <- emit_app, length_app. do 2 f_equal. lia.
Qed.

Lemma panic_run {A} msg s :
  @panic A msg s = Panic msg (upd_ks_uart (fun u => u ++ emit (str "PANIC: " ++ msg ++ [10])) s).
Proof.
  unfold panic, printf, bind. rewrite (printf_loop_emit _ _ 0).
  change (fmt_text _ _) with (Some (str "PANIC: " ++ msg ++ [10])). reflexivity.
Qed.

(** C39: [printf] sends the UART exactly the text of its format, with
    CR before LF, and returns the number of characters of the text (as an
    [int]); it has undefined behaviour exactly when the arguments do not fit
    the format. *)
Theorem printf_renders fmt ap s :
  printf fmt ap s =
  match fmt_text fmt ap with
  | Some t => Ok (i32 (Z.of_nat (length t))) (upd_ks_uart (fun u => u ++ emit t) s)
  | None => Fault
  end.
Proof. exact (printf_loop_emit fmt ap 0 s). Qed.

Lemma digit_value_digit r : 0 <= r < 16 -> digit_value (digit r) = r.
Proof.
  intros H. unfold digit_value, digit.
  destruct (Z.ltb_spec r 10); [destruct (Z.ltb_spec (48 + r) 97); lia|].
  destruct (Z.ltb_spec (97 + (r - 10)) 97); lia.
Qed.

Lemma read_digits fuel x base :
  2 <= base <= 16 -> 0 <= x < base ^ Z.of_nat fuel ->
  fold_right (fun c acc => acc * base + digit_value c) 0 (digits fuel x base) = x.
Proof.
  intros Hb. revert x; induction fuel as [|fuel IH]; intros x Hx; simpl digits.
  - simpl in Hx. destruct (Z.eqb_spec x 0); simpl; lia.
  - destruct (Z.eqb_spec x 0); [now subst|]. cbn [fold_right].
    rewrite Nat2Z.inj_succ, Z.pow_succ_r in Hx by lia.
    rewrite IH, digit_value_digit.
    + pose proof (Z.div_mod x base). lia.
    + pose proof (Z.mod_pos_bound x base). lia.
    + split; [apply Z.div_pos; lia|apply Z.div_lt_upper_bound; lia].
Qed.

Lemma read_numeral base x :
  10 <= base <= 16 -> 0 <= x < 2 ^ 64 -> read_num base (numeral base x) = x.
Proof.
  intros Hb Hx. unfold read_num, numeral. destruct (Z.eqb_spec x 0); [now subst|].
  rewrite <- fold_left_rev_right, rev_involutive, read_digits; [reflexivity|lia|].
  split; [lia|]. apply Z.lt_le_trans with (2 ^ 64); [lia|].
  apply Z.pow_le_mono_l. lia.
Qed.

Lemma digit_no_control fuel x base :
  1 <= base <= 16 -> Forall (fun c => 48 <= c < 128) (digits fuel x base).
Proof.
  intros Hb. revert x; induction fuel as [|fuel IH]; intros x; simpl;
    destruct (x =? 0); constructor; auto.
  pose proof (Z.mod_pos_bound x base). unfold digit.
  destruct (Z.ltb_spec (x mod base) 10); lia.
Qed.

Lemma numeral_chars base x :
  1 <= base <= 16 -> Forall (fun c => 48 <= c < 128) (numeral base x).
Proof.
  intros Hb. unfold numeral. destruct (x =? 0); [repeat constructor; lia|].
  apply Forall_rev, digit_no_control; lia.
Qed.

Lemma emit_plain t : Forall (fun c => 11 <= c < 256) t -> emit t = t.
Proof.
  induction 1 as [|c t Hc Ht IH]; [reflexivity|].
  unfold emit in *. cbn [map concat]. rewrite IH.
  destruct (Z.eqb_spec c 10); [lia|].
  unfold u8. now rewrite Z.mod_small by lia.
Qed.

Lemma read_int_text v : - 2 ^ 31 <= v < 2 ^ 31 -> read_int (int_text v) = v.
Proof.
  intros Hv. unfold int_text. destruct (Z.ltb_spec v 0).
  - unfold read_int. rewrite Z.eqb_refl, read_numeral; lia.
  - pose proof (numeral_chars 10 v ltac:(lia)) as Hc.
    pose proof (read_numeral 10 v ltac:(lia) ltac:(lia)) as Hr.
    destruct (numeral 10 v) as [|c t]; [exact Hr|].
    apply Forall_cons in Hc as [Hc _]. unfold read_int.
    destruct (Z.eqb_spec c 45); [lia|exact Hr].
Qed.

Lemma emit_int_text v : emit (int_text v) = int_text v.
Proof.
  apply emit_plain. unfold int_text.
  destruct (v <? 0); [constructor; [lia|]|];
    (eapply Forall_impl; [apply numeral_chars; lia|simpl; lia]).
Qed.

Lemma emit_numeral base x : 1 <= base <= 16 -> emit (numeral base x) = numeral base x.
Proof.
  intros Hb. apply emit_plain.
  eapply Forall_impl; [apply numeral_chars; lia|simpl; lia].
Qed.

(** The numerals [printf] prints read back to the numbers: [%d] to the
    [int] of the argument (including [INT_MIN], for which the special case in
    [printd] is never taken), [%x] to its [unsigned int]. *)
Theorem printf_numerals_roundtrip z s :
  (exists t, printf (str "%d") [AInt z] s =
               Ok (Z.of_nat (length t)) (upd_ks_uart (fun u => u ++ t) s)
             /\ read_int t = i32 z /\ (length t <= 21)%nat)
  /\ (exists t, printf (str "%x") [AInt z] s =
               Ok (Z.of_nat (length t)) (upd_ks_uart (fun u => u ++ t) s)
             /\ read_num 16 t = u32 z /\ (length t <= 20)%nat).
Proof.
  pose proof (i32_range z) as Hi. pose proof (u32_range z) as Hu.
  assert (forall base x, 10 <= base -> 0 <= x < 2 ^ 64 ->
            (length (numeral base x) <= 20)%nat) as Hl.
  { intros base x ? ?. unfold numeral. destruct (x =? 0); [simpl; lia|].
    rewrite length_rev. now apply u64_numeral_fits. }
  split.
  - exists (int_text (i32 z)). rewrite printf_renders.
    change (fmt_text (str "%d") [AInt z]) with (Some (int_text (i32 z) ++ [])).
    rewrite app_nil_r, emit_int_text, read_int_text by lia.
    assert (length (int_text (i32 z)) <= 21)%nat.
    { unfold int_text. destruct (i32 z <? 0) eqn:E; cbn [length];
        [specialize (Hl 10 (- i32 z))|specialize (Hl 10 (i32 z))]; lia. }
    rewrite i32_id by lia. auto.
  - exists (numeral 16 (u32 z)). rewrite printf_renders.
    change (fmt_text (str "%x") [AInt z]) with (Some (numeral 16 (u32 z) ++ [])).
    rewrite app_nil_r, emit_numeral, read_numeral by lia.
    specialize (Hl 16 (u32 z)). rewrite i32_id by lia. repeat split; lia.
Qed.
