(* ===== verification/Vm.v ===== *)
(** * Page tables and user memory: kernel/vm.c

    A page table is a tree of three levels of 512 entries in physical memory.
    [translate s root va] is the map it stands for.  [map_page] refines the
    insertion into this map, whatever tables it has to create on the way;
    [copyin], [copyinstr] and [copyout] read and write user memory through it. *)
From S2P Require Import Prelude State Mem Pmm Printf.

(** ** Model *)

Definition PTE_V : Z := Z.shiftl 1 0.
Definition PTE_R : Z := Z.shiftl 1 1.
Definition PTE_W : Z := Z.shiftl 1 2.
Definition PTE_X : Z := Z.shiftl 1 3.
Definition PTE_U : Z := Z.shiftl 1 4.

Definition PTE_PA (pte : Z) : Z := u64 (Z.shiftl (Z.shiftr pte 10) 12).
Definition PA_PTE (pa : Z) : Z := u64 (Z.shiftl (Z.shiftr pa 12) 10).
Definition VPN_SHIFT (level : Z) : Z := 12 + 9 * level.
Definition VPN_MASK (va level : Z) : Z := Z.land (Z.shiftr va (VPN_SHIFT level)) 0x1FF.

(** [pte & flag] as a condition. *)
Definition has (pte flag : Z) : bool := negb (Z.land pte flag =? 0).

(** [&pt[idx]]. *)
Definition entry (pt idx : Z) : Z := u64 (pt + 8 * idx).

Section model.
Context `{Symbols}.

(** [for(int i=0;i<512;i++) pt[i]=0]. *)
Definition clear_table (pt : Z) : K unit :=
  for_each (upto 512) (fun i => store64 (entry pt i) 0).

Fixpoint walk_create_loop (levels : list Z) (pt va : Z) : K Z :=
  match levels with
  | [] => ret pt
  | level :: levels' =>
      let idx := VPN_MASK va level in
      pte <- load64 (entry pt idx);;
      if has pte PTE_V then walk_create_loop levels' (PTE_PA pte) va
      else
        newpt <- alloc_page;;
        _ <- clear_table newpt;;
        _ <- store64 (entry pt idx) (Z.lor (PA_PTE newpt) PTE_V);;
        walk_create_loop levels' newpt va
  end.

Definition walk_create (pt va : Z) : K Z :=
  pt <- walk_create_loop [2; 1] pt va;;
  ret (entry pt (VPN_MASK va 0)).

(** [None] is the [return 0] inside the loop. *)
Fixpoint walk_lookup_loop (levels : list Z) (pt va : Z) : K (option Z) :=
  match levels with
  | [] => ret (Some pt)
  | level :: levels' =>
      pte <- load64 (entry pt (VPN_MASK va level));;
      if negb (has pte PTE_V) then ret None
      else walk_lookup_loop levels' (PTE_PA pte) va
  end.

Definition walk_lookup (pt va : Z) : K Z :=
  o <- walk_lookup_loop [2; 1] pt va;;
  match o with
  | None => ret 0
  | Some pt => ret (entry pt (VPN_MASK va 0))
  end.

Definition create_pagetable : K Z :=
  pt <- alloc_page;;
  _ <- clear_table pt;;
  ret pt.

Definition map_page (pt va pa perm : Z) : K Z :=
  pte <- walk_create pt va;;
  if pte =? 0 then ret (-1)
  else
    _ <- store64 pte (Z.lor (Z.lor (PA_PTE pa) (u64 perm)) PTE_V);;
    ret 0.

Definition permstr (pte : Z) : list Z :=
  [ if has pte PTE_V then 118 else 45; if has pte PTE_R then 114 else 45;
    if has pte PTE_W then 119 else 45; if has pte PTE_X then 120 else 45;
    if has pte PTE_U then 117 else 45 ].

(** [fuel] bounds the depth of the recursion, which decreases [level] to 0. *)
Fixpoint dump_pagetable (fuel : nat) (pagetable level va_base : Z) : K unit :=
  match fuel with
  | O => out_of_fuel
  | S fuel' =>
      for_each (upto 512) (fun i =>
        pte <- load64 (entry pagetable i);;
        if has pte PTE_V then
          let pa := PTE_PA pte in
          let va := Z.lor va_base (u64 (Z.shiftl i (12 + 9 * level))) in
          _ <- for_each (upto ((2 - level) * 2)) (fun _ => _ <- printf (str " ") [];; ret tt);;
          _ <- printf (str "L%d  VA:0x%x -> PA:0x%x %s" ++ [10])
                 [AInt level; AInt va; AInt pa; AStr (Some (permstr (i32 pte)))];;
          let flags := i32 (Z.land pte (Z.lor (Z.lor PTE_R PTE_W) PTE_X)) in
          if (flags =? 0) && (0 <? level) then dump_pagetable fuel' pa (level - 1) va
          else ret tt
        else ret tt)
  end.

Definition destroy_pagetable (pt : Z) : K unit := ret tt.

(** [pte == 0 || ( *pte & PTE_V) == 0 || ( *pte & PTE_U) == 0]. *)
Definition no_user_page (pte : Z) : K bool :=
  if pte =? 0 then ret true
  else v <- load64 pte;;
       if negb (has v PTE_V) then ret true
       else v <- load64 pte;; ret (negb (has v PTE_U)).

(** [copyin] returns its result and the bytes it has stored in [dst]. *)
Fixpoint copyin_loop (fuel : nat) (pagetable srcva len : Z) (dst : list Z) : K (Z * list Z) :=
  if len =? 0 then ret (0, dst)
  else match fuel with
  | O => out_of_fuel
  | S fuel' =>
      let va0 := PGGROUNDDOWN srcva in
      pte <- walk_lookup pagetable va0;;
      bad <- no_user_page pte;;
      if (bad : bool) then ret (-1, dst)
      else
        v <- load64 pte;;
        let pa0 := PTE_PA v in
        let n := u64 (PGSIZE - (srcva - va0)) in
        let n := if len <? n then len else n in
        bs <- load_bytes (u64 (pa0 + (srcva - va0))) n;;
        copyin_loop fuel' pagetable (u64 (va0 + PGSIZE)) (len - n) (dst ++ bs)
  end.

Definition copyin (pagetable srcva len : Z) : K (Z * list Z) :=
  copyin_loop (Z.to_nat len) pagetable srcva len [].

(** The inner loop of [copyinstr]: [got_null], the bytes in [dst] and [max]. *)
Fixpoint copyinstr_page (n : nat) (p max : Z) (dst : list Z) : K (bool * list Z * Z) :=
  match n with
  | O => ret (false, dst, max)
  | S n' =>
      c <- load_le 1 p;;
      if c =? 0 then ret (true, dst ++ [0], max)
      else copyinstr_page n' (u64 (p + 1)) (max - 1) (dst ++ [c])
  end.

Fixpoint copyinstr_loop (fuel : nat) (pagetable srcva max : Z) (dst : list Z) : K (Z * list Z) :=
  if max =? 0 then ret (-1, dst)
  else match fuel with
  | O => out_of_fuel
  | S fuel' =>
      let va0 := PGGROUNDDOWN srcva in
      pte <- walk_lookup pagetable va0;;
      bad <- no_user_page pte;;
      if (bad : bool) then ret (-1, dst)
      else
        v <- load64 pte;;
        let pa0 := PTE_PA v in
        let n := u64 (PGSIZE - (srcva - va0)) in
        let n := if max <? n then max else n in
        let! (got_null, dst, max) := copyinstr_page (Z.to_nat n) (u64 (pa0 + (srcva - va0))) max dst in
        if (got_null : bool) then ret (0, dst)
        else copyinstr_loop fuel' pagetable (u64 (va0 + PGSIZE)) max dst
  end.

Definition copyinstr (pagetable srcva max : Z) : K (Z * list Z) :=
  copyinstr_loop (Z.to_nat max) pagetable srcva max [].

(** [src]: the bytes from the pointer on. *)
Fixpoint copyout_loop (fuel : nat) (pagetable dstva : Z) (src : list Z) (len : Z) : K Z :=
  if len =? 0 then ret 0
  else match fuel with
  | O => out_of_fuel
  | S fuel' =>
      let va0 := PGGROUNDDOWN dstva in
      pte <- walk_lookup pagetable va0;;
      bad <- no_user_page pte;;
      if (bad : bool) then ret (-1)
      else
        v <- load64 pte;;
        let pa0 := PTE_PA v in
        let n := u64 (PGSIZE - (dstva - va0)) in
        let n := if len <? n then len else n in
        if decide (n <= Z.of_nat (length src)) then
          _ <- store_bytes (u64 (pa0 + (dstva - va0))) (take (Z.to_nat n) src);;
          copyout_loop fuel' pagetable (u64 (va0 + PGSIZE)) (drop (Z.to_nat n) src) (len - n)
        else fault
  end.

Definition copyout (pagetable dstva : Z) (src : list Z) (len : Z) : K Z :=
  copyout_loop (Z.to_nat len) pagetable dstva src len.

(** ** The map a page table stands for *)

(** Entry [i] of the table at [pt]. *)
Definition pte_at (s : kstate) (pt i : Z) : Z := word s (pt + 8 * i).

(** The table reached from [root] along a path of indices. *)
Fixpoint table (s : kstate) (root : Z) (p : list Z) : option Z :=
  match p with
  | [] => Some root
  | i :: p' => if has (pte_at s root i) PTE_V then table s (PTE_PA (pte_at s root i)) p' else None
  end.

Definition vpath (va : Z) : list Z := [VPN_MASK va 2; VPN_MASK va 1].

Definition translate (s : kstate) (root va : Z) : option Z :=
  b ← table s root (vpath va);
  let pte := pte_at s b (VPN_MASK va 0) in
  if has pte PTE_V then Some pte else None.

(** Paths to the tables of a three-level tree. *)
Definition path (p : list Z) : Prop := (length p <= 2)%nat /\ Forall (fun i => 0 <= i < 512) p.

(** A page table is a tree: every table is a page of its own, none is free. *)
Record pt_wf (s : kstate) (root : Z) (free : list Z) : Prop := {
  pw_page : forall p a, path p -> table s root p = Some a -> is_page a /\ a ∉ free;
  pw_inj : forall p q a, path p -> path q -> table s root p = Some a -> table s root q = Some a -> p = q }.

(** *** Bits *)

Lemma vpn_range va level : 0 <= VPN_MASK va level < 512.
Proof.
  unfold VPN_MASK. change 0x1FF with (Z.ones 9). rewrite Z.land_ones by lia.
  apply Z.mod_pos_bound. lia.
Qed.

Lemma vpath_path va : path (vpath va).
Proof. split; [cbn; lia|]. repeat constructor; apply vpn_range. Qed.

Lemma has_V_bit x : has x PTE_V = Z.odd x.
Proof.
  unfold has, PTE_V. rewrite Z.shiftl_0_r. change 1 with (Z.ones 1). rewrite Z.land_ones by lia.
  change (2 ^ 1) with 2. rewrite Zmod_odd. now destruct (Z.odd x).
Qed.

Lemma has_lor_V x : has (Z.lor x PTE_V) PTE_V = true.
Proof. rewrite has_V_bit, <- Z.bit0_odd, Z.lor_spec. change (Z.testbit PTE_V 0) with true. apply orb_true_r. Qed.

Lemma page_bits a : is_page a -> 0 <= mem_start -> 0 <= a < 2 ^ 32 /\ a mod 4096 = 0.
Proof. unfold is_page, PGSIZE, PHYSTOP. lia. Qed.

(** The page an entry points to is the one it was made from, whatever its
    permission bits. *)
Lemma pte_pa_lor pa flags :
  0 <= pa < 2 ^ 54 -> 0 <= flags < 2 ^ 10 ->
  PTE_PA (Z.lor (PA_PTE pa) flags) = pa - pa mod 4096.
Proof.
  intros Hpa Hf. unfold PTE_PA, PA_PTE. rewrite !Z.shiftr_div_pow2, !Z.shiftl_mul_pow2 by lia.
  rewrite (u64_id (pa / 2 ^ 12 * 2 ^ 10)) by mlia.
  assert (Z.lor (pa / 2 ^ 12 * 2 ^ 10) flags / 2 ^ 10 = pa / 2 ^ 12) as ->.
  { rewrite <- Z.shiftr_div_pow2, Z.shiftr_lor, !Z.shiftr_div_pow2 by lia.
    rewrite Z.div_mul, (Z.div_small flags), Z.lor_0_r by lia. reflexivity. }
  rewrite u64_id by mlia. mlia.
Qed.

Lemma pte_pa_table a : is_page a -> 0 <= mem_start -> PTE_PA (Z.lor (PA_PTE a) PTE_V) = a.
Proof.
  intros Hp Hm. destruct (page_bits a Hp Hm) as [Ha Hal].
  rewrite pte_pa_lor; [lia|lia|now split].
Qed.

Lemma PTE_V_1 : PTE_V = 1.
Proof. reflexivity. Qed.

Lemma word64_lor_V x : 0 <= x < 2 ^ 64 -> 0 <= Z.lor x PTE_V < 2 ^ 64.
Proof.
  intros Hx. rewrite PTE_V_1. assert (0 <= Z.lor x 1) as H0 by (apply Z.lor_nonneg; lia).
  split; [exact H0|]. destruct (decide (Z.lor x 1 = 0)) as [->|Hne]; [lia|].
  apply Z.log2_lt_pow2; [lia|]. rewrite Z.log2_lor by lia. change (Z.log2 1) with 0.
  destruct (decide (x = 0)) as [->|]; [change (Z.log2 0) with 0; lia|].
  assert (Z.log2 x < 64) by (apply Z.log2_lt_pow2; lia). lia.
Qed.

(** *** Entries in memory *)

Lemma entry_id a i : is_page a -> 0 <= mem_start -> 0 <= i < 512 -> entry a i = a + 8 * i.
Proof. intros Hp Hm Hi. destruct (page_bits a Hp Hm). unfold entry. apply u64_id. lia. Qed.

Lemma entry_ram a i : is_page a -> 0 <= i < 512 -> in_ram (a + 8 * i) 8 = true.
Proof. intros Hp Hi. apply (is_page_ram a); [exact Hp|unfold PGSIZE; lia..]. Qed.

Lemma load_entry a i s :
  is_page a -> 0 <= mem_start -> 0 <= i < 512 -> load64 (entry a i) s = Ok (pte_at s a i) s.
Proof. intros Hp Hm Hi. rewrite entry_id by assumption. now apply load64_run, entry_ram. Qed.

Lemma store_entry a i v s :
  is_page a -> 0 <= mem_start -> 0 <= i < 512 ->
  store64 (entry a i) v s = Ok tt (upd_ks_mem (put_bytes (a + 8 * i) (le_bytes 8 v)) s).
Proof. intros Hp Hm Hi. rewrite entry_id by assumption. now apply store64_run, entry_ram. Qed.

Lemma pte_at_put a i v s b j :
  is_page a -> is_page b -> 0 <= i < 512 -> 0 <= j < 512 -> 0 <= v < 2 ^ 64 ->
  pte_at (upd_ks_mem (put_bytes (a + 8 * i) (le_bytes 8 v)) s) b j =
    if decide (b = a /\ j = i) then v else pte_at s b j.
Proof.
  intros Ha Hb Hi Hj Hv. unfold pte_at. case_decide as Hd; [destruct Hd as [-> ->]; now apply word_put|].
  apply word_put_ne. destruct (decide (b = a)) as [->|Hne]; [lia|].
  destruct (pages_apart b a Hb Ha Hne); unfold PGSIZE in *; lia.
Qed.

Lemma pte_at_same s s' b j P :
  same_bytes P s s' -> is_page b -> 0 <= j < 512 -> (forall a, P a -> ~ b <= a < b + PGSIZE) ->
  pte_at s' b j = pte_at s b j.
Proof.
  intros Hs Hb Hj Hd. apply word_ext. intros k Hk. apply Hs. intros HP. apply (Hd k HP).
  unfold PGSIZE. lia.
Qed.

(** *** Clearing a table *)

Lemma clear_table_spec n s :
  is_page n -> 0 <= mem_start ->
  wp (clear_table n) (fun _ s' => s' = set_ks_mem (ks_mem s') s /\
    same_bytes (fun a => n <= a < n + PGSIZE) s s' /\ forall j, 0 <= j < 512 -> pte_at s' n j = 0) s.
Proof.
  intros Hn Hm.
  eapply wpx_conseq.
  - apply (wpx_upto (fun i => store64 (entry n i) 0) no_panic 512
      (fun t s' => s' = set_ks_mem (ks_mem s') s /\
         same_bytes (fun a => n <= a < n + PGSIZE) s s' /\ forall j, 0 <= j < t -> pte_at s' n j = 0)).
    + intros i s1 Hi (Hs1 & Hb & Hz). eapply wpx_of_Ok; [now apply store_entry|]. split; [|split].
      * rewrite Hs1. reflexivity.
      * intros a Ha. rewrite byte_put, decide_False by (rewrite length_le_bytes; unfold PGSIZE in *; lia).
        now apply Hb.
      * intros j Hj. rewrite pte_at_put by (auto; lia). case_decide; [reflexivity|]. apply Hz. lia.
    + lia.
    + split; [now destruct s|]. split; [easy|lia].
  - intros [] s' Hs'. exact Hs'.
Qed.

Lemma table_snoc s root q i :
  table s root (q ++ [i]) =
    b ← table s root q; if has (pte_at s b i) PTE_V then Some (PTE_PA (pte_at s b i)) else None.
Proof.
  revert root. induction q as [|j q IH]; intros root; cbn [table app]; [reflexivity|].
  destruct (has (pte_at s root j) PTE_V); [apply IH|reflexivity].
Qed.

Lemma path_snoc q i : path (q ++ [i]) -> path q /\ (length q < 2)%nat /\ 0 <= i < 512.
Proof.
  intros [Hl Hf]. rewrite length_app in Hl. cbn in Hl. apply Forall_app in Hf as [Hf Hi].
  apply (proj1 (Forall_singleton _ _)) in Hi. cbn beta in Hi. split; [split; [lia|exact Hf]|lia].
Qed.

Lemma snoc_path q i : path q -> (length q < 2)%nat -> 0 <= i < 512 -> path (q ++ [i]).
Proof.
  intros [Hl Hf] Hq Hi. split; [rewrite length_app; cbn; lia|]. apply Forall_app. split; [exact Hf|].
  now constructor.
Qed.

(** *** A new table

    [walk_create] takes the page [n], clears it and enters it at index [idx] of
    the table [a], which is at [p]. *)
Section new_table.
Context (s s' : kstate) (root a n idx : Z) (p free : list Z).
Context (Hm : 0 <= mem_start) (Hwf : pt_wf s root (n :: free)) (Hnd : n ∉ free) (Hn : is_page n).
Context (Hp : path p) (Hlen : (length p < 2)%nat) (Ha : table s root p = Some a).
Context (Hidx : 0 <= idx < 512) (Hnone : has (pte_at s a idx) PTE_V = false).
Context (Hnew : forall j, 0 <= j < 512 -> pte_at s' n j = 0).
Context (Hother : forall b j, is_page b -> b <> n -> 0 <= j < 512 ->
  pte_at s' b j = if decide (b = a /\ j = idx) then Z.lor (PA_PTE n) PTE_V else pte_at s b j).

Lemma new_not_table q b : path q -> table s root q = Some b -> is_page b /\ b <> n /\ b ∉ free.
Proof.
  intros Hq Hb. destruct (pw_page _ _ _ Hwf q b Hq Hb) as [Hpg Hin]. set_solver.
Qed.

(** The tree afterwards: one more table, at [p ++ [idx]]. *)
Lemma new_table_at q :
  path q ->
  table s' root q =
    if decide (q = p ++ [idx]) then Some n
    else table s root q.
Proof.
  induction q as [|i q IH] using rev_ind; intros Hq.
  - rewrite decide_False; [reflexivity|]. intros E. apply (f_equal length) in E.
    rewrite length_app in E. cbn in E. lia.
  - destruct (path_snoc _ _ Hq) as (Hq' & Hlq & Hi). rewrite !table_snoc, IH by assumption. clear IH.
    destruct (decide (q = p ++ [idx])) as [->|Hne].
    + (* below the new table: nothing yet, and nothing before *)
      rewrite decide_False
        by (intros E; apply (f_equal length) in E; rewrite !length_app in E; cbn in E; lia).
      cbn [mbind option_bind]. rewrite Hnew by assumption. rewrite table_snoc, Ha.
      cbn [mbind option_bind]. now rewrite Hnone.
    + destruct (table s root q) as [b|] eqn:Hb; cbn [mbind option_bind].
      * destruct (new_not_table q b Hq' Hb) as (Hpb & Hbn & _).
        rewrite Hother by assumption. destruct (decide (q ++ [i] = p ++ [idx])) as [E|E].
        -- apply app_inj_tail in E as [-> ->]. rewrite Hb in Ha. injection Ha as ->.
           rewrite decide_True by auto. rewrite has_lor_V. now rewrite pte_pa_table.
        -- rewrite decide_False; [reflexivity|]. intros [-> ->]. apply E. f_equal.
           now apply (pw_inj _ _ _ Hwf q p a).
      * rewrite decide_False; [reflexivity|]. intros E. apply app_inj_tail in E as [-> ->].
        congruence.
Qed.

Lemma new_table_wf : pt_wf s' root free.
Proof.
  split.
  - intros q b Hq Hb. rewrite new_table_at in Hb by assumption. case_decide; [|].
    + injection Hb as <-. auto.
    + destruct (new_not_table q b Hq Hb) as (? & _ & ?). auto.
  - intros q r b Hq Hr Hbq Hbr. rewrite new_table_at in Hbq, Hbr by assumption.
    destruct (decide (q = p ++ [idx])) as [->|], (decide (r = p ++ [idx])) as [->|]; auto.
    + injection Hbq as <-. now destruct (new_not_table r n Hr Hbr) as (_ & [] & _).
    + injection Hbr as <-. now destruct (new_not_table q n Hq Hbq) as (_ & [] & _).
    + now apply (pw_inj _ _ _ Hwf q r b).
Qed.

Lemma new_table_translate va : translate s' root va = translate s root va.
Proof.
  unfold translate. rewrite new_table_at by apply vpath_path.
  case_decide as E.
  - cbn [mbind option_bind]. rewrite Hnew by apply vpn_range. rewrite E, table_snoc, Ha.
    cbn [mbind option_bind]. now rewrite Hnone.
  - destruct (table s root (vpath va)) as [b|] eqn:Hb; [|reflexivity]. cbn [mbind option_bind].
    destruct (new_not_table _ b (vpath_path va) Hb) as (Hpb & Hbn & _).
    rewrite Hother by (auto using vpn_range). rewrite decide_False; [reflexivity|].
    intros [-> _]. rewrite <- (pw_inj _ _ _ Hwf _ _ _ (vpath_path va) Hp Hb Ha) in Hlen.
    cbn in Hlen. lia.
Qed.
End new_table.

(** ** Walking and growing a page table *)

(** The tables of the tree, as a set of addresses. *)
Definition in_tables (s : kstate) (root k : Z) : Prop :=
  exists q b, path q /\ table s root q = Some b /\ b <= k < b + PGSIZE.

(** What [walk_create] does to the state: the same map, some free pages [l]
    less, and no change outside of the tables. *)
Record grows (pages : list Z -> kstate -> Prop) (root : Z) (l l' : list Z) (s s' : kstate) : Prop := {
  gr_pages : pages l' s';
  gr_wf : pt_wf s' root l';
  gr_translate : forall va, translate s' root va = translate s root va;
  gr_table : forall q b, path q -> table s root q = Some b -> table s' root q = Some b;
  gr_new : forall q b, path q -> table s' root q = Some b -> table s root q = Some b \/ b ∈ l;
  gr_sub : forall b, b ∈ l' -> b ∈ l;
  gr_same : same_bytes (in_tables s' root) s s';
  gr_rest : s' = set_ks_mem (ks_mem s') (set_ks_freelist (ks_freelist s') s) }.

(** The number of tables [walk_create] has to make. *)
Definition missing (s : kstate) (root va : Z) : nat :=
  match table s root (vpath va), table s root [VPN_MASK va 2] with
  | Some _, _ => 0
  | None, Some _ => 1
  | None, None => 2
  end.

Context (pages : list Z -> kstate -> Prop) {HA : PageAllocator pages} (Hm : 0 <= mem_start).

Lemma grows_refl root l s : pages l s -> pt_wf s root l -> grows pages root l l s s.
Proof. intros Hl Hwf. split; auto; [easy|]. now destruct s. Qed.

Lemma grows_trans root l1 l2 l3 s1 s2 s3 :
  grows pages root l1 l2 s1 s2 -> grows pages root l2 l3 s2 s3 -> grows pages root l1 l3 s1 s3.
Proof.
  intros [P1 W1 T1 B1 N1 U1 S1 R1] [P2 W2 T2 B2 N2 U2 S2 R2]. split; auto.
  - intros va. now rewrite T2.
  - intros q b Hq Hb. destruct (N2 q b Hq Hb); auto.
  - intros k Hk. rewrite S2 by exact Hk. apply S1. intros (q & b & Hq & Hb & Hin). apply Hk.
    exists q, b. auto.
  - rewrite R2, R1. reflexivity.
Qed.

(** One level of [walk_create] with the table there. *)
Lemma walk_have root free s va level levels p a :
  pt_wf s root free -> path p -> (length p < 2)%nat -> table s root p = Some a ->
  has (pte_at s a (VPN_MASK va level)) PTE_V = true ->
  exists a', table s root (p ++ [VPN_MASK va level]) = Some a' /\
    walk_create_loop (level :: levels) a va s = walk_create_loop levels a' va s.
Proof.
  intros Hwf Hp Hlen Ha Hhas. exists (PTE_PA (pte_at s a (VPN_MASK va level))). split.
  - rewrite table_snoc, Ha. cbn [mbind option_bind]. now rewrite Hhas.
  - cbn [walk_create_loop]. destruct (pw_page _ _ _ Hwf p a Hp Ha) as [Hpg _].
    rewrite (bind_Ok _ _ _ _ _ (load_entry a _ s Hpg Hm (vpn_range va level))). now rewrite Hhas.
Qed.

(** One level of [walk_create] with a new table. *)
Lemma walk_new root n free s va level levels p a :
  pages (n :: free) s -> pt_wf s root (n :: free) -> path p -> (length p < 2)%nat ->
  table s root p = Some a -> has (pte_at s a (VPN_MASK va level)) PTE_V = false ->
  exists s', grows pages root (n :: free) free s s' /\
    table s' root (p ++ [VPN_MASK va level]) = Some n /\
    (forall q, path q -> table s root q = None -> q <> p ++ [VPN_MASK va level] -> table s' root q = None) /\
    walk_create_loop (level :: levels) a va s = walk_create_loop levels n va s'.
Proof.
  intros Hl Hwf Hp Hlen Ha Hhas. set (idx := VPN_MASK va level) in *.
  pose proof (vpn_range va level : 0 <= idx < 512) as Hidx.
  destruct (pw_page _ _ _ Hwf p a Hp Ha) as [Hpa Hna].
  destruct (pages_ok _ _ Hl) as [Hnd Hpg]. apply NoDup_cons in Hnd as [Hnd _].
  apply Forall_cons in Hpg as [Hn Hpg].
  destruct (pages_alloc _ _ _ Hl) as (nxt & Halloc & Hl1).
  destruct (proj1 (wp_Ok _ _ _) (clear_table_spec n (set_ks_freelist nxt s) Hn Hm))
    as ([] & s1 & Hclear & Hs1 & Hb1 & Hz1).
  set (v := Z.lor (PA_PTE n) PTE_V).
  assert (0 <= v < 2 ^ 64) as Hv by (apply word64_lor_V, u64_range).
  set (s2 := upd_ks_mem (put_bytes (a + 8 * idx) (le_bytes 8 v)) s1).
  assert (a <> n) as Han by set_solver.
  assert (forall j, 0 <= j < 512 -> pte_at s2 n j = 0) as Hnew.
  { intros j Hj. unfold s2. rewrite pte_at_put by auto. rewrite decide_False by (intros [? _]; congruence).
    now apply Hz1. }
  assert (forall b j, is_page b -> b <> n -> 0 <= j < 512 ->
            pte_at s2 b j = if decide (b = a /\ j = idx) then v else pte_at s b j) as Hother.
  { intros b j Hb Hbn Hj. unfold s2. rewrite pte_at_put by auto. case_decide; [reflexivity|].
    rewrite (pte_at_same (set_ks_freelist nxt s) s1 b j _ Hb1 Hb Hj); [reflexivity|].
    intros k Hk. destruct (pages_apart b n Hb Hn Hbn); lia. }
  assert (forall q, path q -> table s2 root q = if decide (q = p ++ [idx]) then Some n else table s root q)
    as Htab by (intros q; eapply new_table_at; eauto).
  exists s2. split; [split|split; [|split]].
  - eapply pages_frame; [exact Hl1|unfold s2; fields; now rewrite Hs1|].
    intros q k Hq Hk. rewrite Forall_forall in Hpg. unfold s2. rewrite byte_put, decide_False; [apply Hb1|].
    + destruct (pages_apart q n (Hpg q Hq) Hn); [set_solver|lia..].
    + rewrite length_le_bytes. destruct (pages_apart q a (Hpg q Hq) Hpa); [set_solver|unfold PGSIZE in *; lia..].
  - eapply new_table_wf; eauto.
  - intros va'. eapply new_table_translate; eauto.
  - intros q b Hq Hb. rewrite Htab by exact Hq. case_decide as E; [|exact Hb].
    exfalso. subst q. rewrite table_snoc, Ha in Hb. cbn [mbind option_bind] in Hb. now rewrite Hhas in Hb.
  - intros q b Hq. rewrite Htab by exact Hq. case_decide; [|auto]. intros [= <-]. right. left.
  - intros b Hb. now right.
  - intros k Hk. unfold s2. rewrite byte_put, decide_False.
    + apply Hb1. intros Hin. apply Hk. exists (p ++ [idx]), n.
      assert (path (p ++ [idx])) by now apply snoc_path. rewrite Htab, decide_True by auto. auto.
    + intros Hin. apply Hk. exists p, a. split; [exact Hp|]. rewrite length_le_bytes in Hin.
      split; [|unfold PGSIZE; lia]. rewrite Htab, decide_False by (auto; intros E;
        apply (f_equal length) in E; rewrite length_app in E; cbn in E; lia). exact Ha.
  - unfold s2. rewrite Hs1. reflexivity.
  - now rewrite Htab, decide_True by (auto; now apply snoc_path).
  - intros q Hq Hqn Hne. now rewrite Htab, decide_False.
  - cbn [walk_create_loop]. fold idx.
    rewrite (bind_Ok _ _ _ _ _ (load_entry a idx s Hpa Hm Hidx)), Hhas.
    rewrite (bind_Ok _ _ _ _ _ Halloc), (bind_Ok _ _ _ _ _ Hclear).
    now rewrite (bind_Ok _ _ _ _ _ (store_entry a idx v s1 Hpa Hm Hidx)).
Qed.

Lemma root_path root : path [] /\ (length (@nil Z) < 2)%nat /\ forall s, table s root [] = Some root.
Proof. split; [split; [cbn; lia|constructor]|split; [cbn; lia|reflexivity]]. Qed.

Lemma vpn_path va level : path [VPN_MASK va level] /\ (length [VPN_MASK va level] < 2)%nat.
Proof. split; [|cbn; lia]. split; [cbn; lia|]. constructor; [apply vpn_range|constructor]. Qed.

(** Whether the entry for [va] is there, in terms of the tree. *)
Lemma entry_table s root va level p a :
  table s root p = Some a ->
  has (pte_at s a (VPN_MASK va level)) PTE_V =
    match table s root (p ++ [VPN_MASK va level]) with Some _ => true | None => false end.
Proof. intros Ha. rewrite table_snoc, Ha. cbn [mbind option_bind]. now destruct (has _ _). Qed.

Lemma walk_create_spec root va l s :
  pages l s -> pt_wf s root l -> (missing s root va <= length l)%nat ->
  exists b s', walk_create root va s = Ok (b + 8 * VPN_MASK va 0) s' /\
    grows pages root l (drop (missing s root va) l) s s' /\ table s' root (vpath va) = Some b.
Proof.
  intros Hl Hwf Hmiss. destruct (root_path root) as (Hp0 & Hl0 & Ht0).
  destruct (vpn_path va 2) as (Hp1 & Hl1).
  assert (forall b l' s' , grows pages root l l' s s' -> table s' root (vpath va) = Some b ->
            walk_create_loop [2; 1] root va s = Ok b s' -> l' = drop (missing s root va) l ->
            exists b s', walk_create root va s = Ok (b + 8 * VPN_MASK va 0) s' /\
              grows pages root l (drop (missing s root va) l) s s' /\ table s' root (vpath va) = Some b)
    as Hend.
  { intros b l' s' Hg Hb Hrun ->. exists b, s'. split; [|auto]. unfold walk_create.
    rewrite (bind_Ok _ _ _ _ _ Hrun). destruct (pw_page _ _ _ (gr_wf _ _ _ _ _ _ Hg) _ _ (vpath_path va) Hb) as [Hpg _].
    rewrite entry_id by (auto using vpn_range). reflexivity. }
  unfold missing in Hmiss. pose proof (entry_table s root va 2 [] root (Ht0 s)) as E2.
  change ([] ++ [VPN_MASK va 2]) with [VPN_MASK va 2] in E2.
  destruct (table s root [VPN_MASK va 2]) as [a1|] eqn:H1.
  - destruct (walk_have root l s va 2 [1] [] root Hwf Hp0 Hl0 (Ht0 s) E2) as (a1' & H1' & Hr1).
    change ([] ++ [VPN_MASK va 2]) with [VPN_MASK va 2] in H1'. rewrite H1 in H1'. injection H1' as <-.
    pose proof (entry_table s root va 1 _ a1 H1) as E1. change ([VPN_MASK va 2] ++ [VPN_MASK va 1]) with (vpath va) in E1.
    destruct (table s root (vpath va)) as [b|] eqn:H0.
    + destruct (walk_have root l s va 1 [] _ a1 Hwf Hp1 Hl1 H1 E1) as (b' & H0' & Hr0).
      change ([VPN_MASK va 2] ++ [VPN_MASK va 1]) with (vpath va) in H0'.
      apply (Hend b' l s); [now apply grows_refl|exact H0'|now rewrite Hr1, Hr0|].
      unfold missing. now rewrite H0.
    + destruct l as [|n l]; [cbn in Hmiss; lia|].
      destruct (walk_new root n l s va 1 [] _ a1 Hl Hwf Hp1 Hl1 H1 E1) as (s' & Hg & H0' & _ & Hr0).
      apply (Hend n l s'); [exact Hg|exact H0'|now rewrite Hr1, Hr0|].
      unfold missing. now rewrite H0, H1.
  - assert (table s root (vpath va) = None) as H0.
    { change (vpath va) with ([VPN_MASK va 2] ++ [VPN_MASK va 1]). now rewrite table_snoc, H1. }
    rewrite H0 in Hmiss. destruct l as [|n1 [|n2 l]]; [cbn in Hmiss; lia..|].
    destruct (walk_new root n1 (n2 :: l) s va 2 [1] [] root Hl Hwf Hp0 Hl0 (Ht0 s) E2)
      as (s1 & Hg1 & H1' & Hnone & Hr1).
    change ([] ++ [VPN_MASK va 2]) with [VPN_MASK va 2] in H1', Hnone.
    pose proof (entry_table s1 root va 1 _ n1 H1') as E1. change ([VPN_MASK va 2] ++ [VPN_MASK va 1]) with (vpath va) in E1.
    rewrite (Hnone (vpath va) (vpath_path va) H0 ltac:(discriminate)) in E1.
    destruct (walk_new root n2 l s1 va 1 [] _ n1 (gr_pages _ _ _ _ _ _ Hg1) (gr_wf _ _ _ _ _ _ Hg1) Hp1 Hl1 H1' E1)
      as (s2 & Hg2 & H0' & _ & Hr0).
    apply (Hend n2 l s2); [eapply grows_trans; eauto|exact H0'|now rewrite Hr1, Hr0|].
    unfold missing. now rewrite H0, H1.
Qed.

(** *** Looking up *)

Lemma walk_lookup_run s root va free :
  pt_wf s root free ->
  walk_lookup root va s =
    Ok (match table s root (vpath va) with Some b => b + 8 * VPN_MASK va 0 | None => 0 end) s.
Proof.
  intros Hwf. destruct (root_path root) as (Hp0 & Hl0 & Ht0). destruct (vpn_path va 2) as (Hp1 & Hl1).
  unfold walk_lookup, vpath. cbn [walk_lookup_loop table].
  destruct (pw_page _ _ _ Hwf [] root Hp0 (Ht0 s)) as [Hpg _].
  erewrite (bind_Ok _ _ s (table s root (vpath va)) s).
  - destruct (table s root (vpath va)) as [b|] eqn:Hb; cbn [vpath table] in Hb.
    + rewrite Hb. destruct (pw_page _ _ _ Hwf _ _ (vpath_path va) Hb) as [Hpb _].
      rewrite entry_id by (auto using vpn_range). reflexivity.
    + now rewrite Hb.
  - rewrite (bind_Ok _ _ _ _ _ (load_entry root _ s Hpg Hm (vpn_range va 2))). unfold vpath. cbn [table].
    destruct (has (pte_at s root (VPN_MASK va 2)) PTE_V) eqn:E2; [|reflexivity]. cbn [negb].
    assert (table s root [VPN_MASK va 2] = Some (PTE_PA (pte_at s root (VPN_MASK va 2)))) as H1
      by (cbn [table]; now rewrite E2).
    destruct (pw_page _ _ _ Hwf _ _ Hp1 H1) as [Hpg1 _].
    rewrite (bind_Ok _ _ _ _ _ (load_entry _ _ s Hpg1 Hm (vpn_range va 1))).
    now destruct (has (pte_at s (PTE_PA _) (VPN_MASK va 1)) PTE_V).
Qed.

(** *** The leaf *)

Definition vpn (va : Z) : list Z := vpath va ++ [VPN_MASK va 0].
Definition leaf (pa perm : Z) : Z := Z.lor (Z.lor (PA_PTE pa) (u64 perm)) PTE_V.

Lemma word64_lor x y : 0 <= x < 2 ^ 64 -> 0 <= y < 2 ^ 64 -> 0 <= Z.lor x y < 2 ^ 64.
Proof.
  intros Hx Hy. assert (0 <= Z.lor x y) as H0 by (apply Z.lor_nonneg; lia). split; [exact H0|].
  destruct (decide (Z.lor x y = 0)) as [->|Hne]; [lia|]. apply Z.log2_lt_pow2; [lia|].
  rewrite Z.log2_lor by lia. apply Z.max_lub_lt.
  - destruct (decide (x = 0)) as [->|]; [reflexivity|]. apply Z.log2_lt_pow2; lia.
  - destruct (decide (y = 0)) as [->|]; [reflexivity|]. apply Z.log2_lt_pow2; lia.
Qed.

Lemma leaf_range pa perm : 0 <= leaf pa perm < 2 ^ 64.
Proof. apply word64_lor_V, word64_lor; apply u64_range. Qed.

(** Writing an entry of a bottom table changes no table, and one translation. *)
Lemma table_leaf s root free va b v q :
  pt_wf s root free -> table s root (vpath va) = Some b -> 0 <= v < 2 ^ 64 -> path q ->
  table (upd_ks_mem (put_bytes (b + 8 * VPN_MASK va 0) (le_bytes 8 v)) s) root q = table s root q.
Proof.
  intros Hwf Hb Hv. destruct (pw_page _ _ _ Hwf _ _ (vpath_path va) Hb) as [Hpb _].
  induction q as [|i q IH] using rev_ind; intros Hq; [reflexivity|].
  destruct (path_snoc _ _ Hq) as (Hq' & Hlq & Hi). rewrite !table_snoc, IH by assumption.
  destruct (table s root q) as [a|] eqn:Ha; [|reflexivity]. cbn [mbind option_bind].
  destruct (pw_page _ _ _ Hwf _ _ Hq' Ha) as [Hpa _].
  rewrite pte_at_put by auto using vpn_range. rewrite decide_False; [reflexivity|].
  intros [-> _]. rewrite (pw_inj _ _ _ Hwf _ _ _ Hq' (vpath_path va) Ha Hb) in Hlq. cbn in Hlq. lia.
Qed.

Lemma vpath_vpn va va' : vpn va' = vpn va <-> vpath va' = vpath va /\ VPN_MASK va' 0 = VPN_MASK va 0.
Proof. unfold vpn, vpath. cbn [app]. split; [intros [= -> -> ->]; auto|intros [[= -> ->] ->]; reflexivity]. Qed.

Lemma translate_leaf s root free va b v va' :
  pt_wf s root free -> table s root (vpath va) = Some b -> 0 <= v < 2 ^ 64 -> has v PTE_V = true ->
  translate (upd_ks_mem (put_bytes (b + 8 * VPN_MASK va 0) (le_bytes 8 v)) s) root va' =
    if decide (vpn va' = vpn va) then Some v else translate s root va'.
Proof.
  intros Hwf Hb Hv Hhas. unfold translate.
  rewrite (table_leaf s root free va b v (vpath va')) by (auto using vpath_path).
  destruct (pw_page _ _ _ Hwf _ _ (vpath_path va) Hb) as [Hpb _].
  destruct (table s root (vpath va')) as [b'|] eqn:Hb'; cbn [mbind option_bind].
  - destruct (pw_page _ _ _ Hwf _ _ (vpath_path va') Hb') as [Hpb' _].
    rewrite pte_at_put by auto using vpn_range.
    destruct (decide (vpn va' = vpn va)) as [E|E]; rewrite vpath_vpn in E.
    + destruct E as [E1 E2]. rewrite E1, Hb in Hb'. injection Hb' as <-.
      rewrite decide_True by auto. now rewrite Hhas.
    + rewrite decide_False; [reflexivity|]. intros [-> E2]. apply E. split; [|exact E2].
      now apply (pw_inj _ _ _ Hwf _ _ b (vpath_path va') (vpath_path va)).
  - rewrite decide_False; [reflexivity|]. intros E%vpath_vpn. destruct E as [E _]. congruence.
Qed.

Context (Hpos : 0 < mem_start).

(** The state [map_page] leaves. *)
Record mapped (root va v : Z) (l l' : list Z) (s s' : kstate) : Prop := {
  mp_pages : pages l' s';
  mp_wf : pt_wf s' root l';
  mp_translate : forall va',
    translate s' root va' = if decide (vpn va' = vpn va) then Some v else translate s root va';
  mp_new : forall q b, path q -> table s' root q = Some b -> table s root q = Some b \/ b ∈ l;
  mp_sub : forall b, b ∈ l' -> b ∈ l;
  mp_same : same_bytes (in_tables s' root) s s';
  mp_rest : s' = set_ks_mem (ks_mem s') (set_ks_freelist (ks_freelist s') s) }.

Lemma map_page_spec root va pa perm l s :
  pages l s -> pt_wf s root l -> (missing s root va <= length l)%nat ->
  exists s', map_page root va pa perm s = Ok 0 s' /\
    mapped root va (leaf pa perm) l (drop (missing s root va) l) s s'.
Proof.
  intros Hl Hwf Hmiss. set (l' := drop (missing s root va) l).
  destruct (walk_create_spec root va l s Hl Hwf Hmiss) as (b & s1 & Hrun & [P1 W1 T1 B1 N1 U1 S1 R1] & Hb).
  fold l' in P1, W1. pose proof (leaf_range pa perm) as Hv.
  destruct (pw_page _ _ _ W1 _ _ (vpath_path va) Hb) as [Hpb Hnb]. pose proof (vpn_range va 0) as Hi.
  exists (upd_ks_mem (put_bytes (b + 8 * VPN_MASK va 0) (le_bytes 8 (leaf pa perm))) s1). split; [|split].
  - unfold map_page. rewrite (bind_Ok _ _ _ _ _ Hrun).
    destruct (Z.eqb_spec (b + 8 * VPN_MASK va 0) 0) as [E|E].
    { exfalso. destruct Hpb as (_ & H1 & _). lia. }
    rewrite (bind_Ok _ _ _ _ _ (store64_run _ _ _ (entry_ram b _ Hpb Hi))). reflexivity.
  - eapply pages_frame; [exact P1|reflexivity|]. intros q k Hq Hk.
    rewrite byte_put, decide_False; [reflexivity|]. rewrite length_le_bytes.
    destruct (pages_ok _ _ P1) as [_ Hpg]. rewrite Forall_forall in Hpg.
    destruct (pages_apart q b (Hpg q Hq) Hpb); [set_solver|unfold PGSIZE in *; lia..].
  - split; [intros q a Hq|intros q r a Hq Hr]; rewrite !(table_leaf s1 root l' va b _) by auto.
    + apply (pw_page _ _ _ W1 q a Hq).
    + apply (pw_inj _ _ _ W1 q r a Hq Hr).
  - intros va'. erewrite translate_leaf by (eauto using has_lor_V; apply has_lor_V). now rewrite T1.
  - intros q a Hq. rewrite (table_leaf s1 root l' va b) by auto. now apply N1.
  - exact U1.
  - intros k Hk.
    assert (~ in_tables s1 root k) as Hk1.
    { intros (q & a & Hq & Ha & Hin). apply Hk. exists q, a. split; [exact Hq|]. split; [|exact Hin].
      now rewrite (table_leaf s1 root l' va b). }
    rewrite byte_put, decide_False; [now apply S1|]. rewrite length_le_bytes. intros Hin. apply Hk1.
    exists (vpath va), b. split; [apply vpath_path|]. split; [exact Hb|unfold PGSIZE; lia].
  - rewrite R1. reflexivity.
Qed.

(** Memory that is in no table of the tree does not matter to the map. *)
Lemma same_tables s s' root l P :
  pt_wf s root l -> same_bytes P s s' -> (forall k, P k -> ~ in_tables s root k) ->
  (forall q, path q -> table s' root q = table s root q) /\
  (forall va, translate s' root va = translate s root va).
Proof.
  intros Hwf Hs HP.
  assert (forall q b j, path q -> table s root q = Some b -> 0 <= j < 512 -> pte_at s' b j = pte_at s b j) as Hpte.
  { intros q b j Hq Hb Hj. destruct (pw_page _ _ _ Hwf q b Hq Hb) as [Hpb _].
    apply (pte_at_same s s' b j P Hs Hpb Hj). intros k Hk Hin. apply (HP k Hk). exists q, b. auto. }
  assert (forall q, path q -> table s' root q = table s root q) as Ht.
  { induction q as [|i q IH] using rev_ind; intros Hq; [reflexivity|].
    destruct (path_snoc _ _ Hq) as (Hq' & Hlq & Hi). rewrite !table_snoc, IH by assumption.
    destruct (table s root q) as [b|] eqn:Hb; [|reflexivity]. cbn [mbind option_bind].
    now rewrite (Hpte q b i Hq' Hb Hi). }
  split; [exact Ht|]. intros va. unfold translate. rewrite Ht by apply vpath_path.
  destruct (table s root (vpath va)) as [b|] eqn:Hb; [|reflexivity]. cbn [mbind option_bind].
  now rewrite (Hpte _ b _ (vpath_path va) Hb (vpn_range va 0)).
Qed.

(** *** Fresh page tables *)

Lemma empty_table s root q :
  (forall j, 0 <= j < 512 -> pte_at s root j = 0) -> path q ->
  table s root q = if decide (q = []) then Some root else None.
Proof.
  intros Hz Hq. destruct q as [|i q]; [reflexivity|]. cbn [table].
  rewrite Hz; [reflexivity|]. destruct Hq as [_ Hf]. now apply Forall_cons in Hf as [? _].
Qed.

Lemma create_pagetable_spec n l s :
  pages (n :: l) s ->
  exists s', create_pagetable s = Ok n s' /\ pages l s' /\ pt_wf s' n l /\
    (forall va, translate s' n va = None) /\
    (forall q a, path q -> table s' n q = Some a -> a = n) /\
    same_bytes (fun a => n <= a < n + PGSIZE) s s' /\
    s' = set_ks_mem (ks_mem s') (set_ks_freelist (ks_freelist s') s).
Proof.
  intros Hl. destruct (pages_ok _ _ Hl) as [Hnd Hpg]. apply NoDup_cons in Hnd as [Hnd _].
  apply Forall_cons in Hpg as [Hn Hpg].
  destruct (pages_alloc _ _ _ Hl) as (nxt & Halloc & Hl1).
  destruct (proj1 (wp_Ok _ _ _) (clear_table_spec n (set_ks_freelist nxt s) Hn Hm))
    as ([] & s1 & Hclear & Hs1 & Hb1 & Hz1).
  exists s1. split; [|split; [|split; [|split; [|split; [|split]]]]].
  - unfold create_pagetable. now rewrite (bind_Ok _ _ _ _ _ Halloc), (bind_Ok _ _ _ _ _ Hclear).
  - eapply pages_frame; [exact Hl1|now rewrite Hs1|]. intros q k Hq Hk. apply Hb1.
    rewrite Forall_forall in Hpg. destruct (pages_apart q n (Hpg q Hq) Hn); [set_solver|lia..].
  - split.
    + intros q a Hq. rewrite empty_table by auto. case_decide; [|discriminate]. intros [= <-]. auto.
    + intros q r a Hq Hr. rewrite !empty_table by auto. repeat case_decide; congruence.
  - intros va. unfold translate. rewrite empty_table by auto using vpath_path. reflexivity.
  - intros q a Hq. rewrite empty_table by auto. case_decide; [|discriminate]. now intros [= <-].
  - exact Hb1.
  - rewrite Hs1. reflexivity.
Qed.
End model.

(** ** Properties *)

(** C20: refinement.  A page table is a finite map from virtual page numbers to
    entries; [map_page] is the insertion into this map.  It makes the tables that
    are missing out of free pages, keeps the tree well formed, and writes no
    memory outside of the tables. *)
Theorem map_page_inserts `{Symbols} pages `{!PageAllocator pages} root va pa perm l s :
  0 < mem_start -> pages l s -> pt_wf s root l -> (missing s root va <= length l)%nat ->
  exists s', map_page root va pa perm s = Ok 0 s' /\
    pages (drop (missing s root va) l) s' /\ pt_wf s' root (drop (missing s root va) l) /\
    (forall va', translate s' root va' =
       if decide (vpn va' = vpn va) then Some (leaf pa perm) else translate s root va') /\
    same_bytes (in_tables s' root) s s' /\
    s' = set_ks_mem (ks_mem s') (set_ks_freelist (ks_freelist s') s).
Proof.
  intros Hpos Hl Hwf Hmiss.
  destruct (map_page_spec pages (Z.lt_le_incl _ _ Hpos) Hpos root va pa perm l s Hl Hwf Hmiss)
    as (s' & Hrun & [? ? ? ? ? ? ?]).
  exists s'. auto 10.
Qed.

(** C37: [alloc_page] failing is not noticed: with no free page, [map_page] writes
    the table it needs at address 0. *)
Theorem map_page_exhausted_faults `{Symbols} pages `{!PageAllocator pages} root va pa perm s :
  0 < mem_start -> pages [] s -> pt_wf s root [] -> (0 < missing s root va)%nat ->
  map_page root va pa perm s = Fault.
Proof.
  intros Hpos Hl Hwf Hmiss. assert (0 <= mem_start) as Hm by lia.
  assert (forall level levels a, is_page a -> has (pte_at s a (VPN_MASK va level)) PTE_V = false ->
            walk_create_loop (level :: levels) a va s = Fault) as Hfault.
  { intros level levels a Ha Hhas. cbn [walk_create_loop].
    rewrite (bind_Ok _ _ _ _ _ (load_entry a _ s Ha Hm (vpn_range va level))), Hhas.
    rewrite (bind_Ok _ _ _ _ _ (pages_empty s Hl)). unfold bind at 1.
    replace (clear_table 0 s) with (@Fault kstate unit); [reflexivity|].
    unfold clear_table. change (upto 512) with (0 :: map Z.of_nat (seq 1 511)). cbn [for_each].
    unfold bind, store64, store_le, store_bytes. change (entry 0 0) with 0. unfold in_ram.
    destruct (Z.leb_spec mem_start 0); [lia|reflexivity]. }
  destruct (root_path root) as (Hp0 & Hl0 & Ht0). destruct (vpn_path va 2) as (Hp1 & Hl1).
  unfold map_page, walk_create, bind. unfold missing in Hmiss.
  destruct (table s root (vpath va)) as [b|] eqn:H0; [lia|].
  pose proof (entry_table s root va 2 [] root (Ht0 s)) as E2. change ([] ++ [VPN_MASK va 2]) with [VPN_MASK va 2] in E2.
  destruct (table s root [VPN_MASK va 2]) as [a1|] eqn:H1.
  - destruct (walk_have Hm root [] s va 2 [1] [] root Hwf Hp0 Hl0 (Ht0 s) E2) as (a1' & H1' & ->).
    change ([] ++ [VPN_MASK va 2]) with [VPN_MASK va 2] in H1'. rewrite H1 in H1'. injection H1' as <-.
    rewrite Hfault; [reflexivity|apply (pw_page _ _ _ Hwf _ _ Hp1 H1)|].
    rewrite (entry_table s root va 1 _ a1 H1). change ([VPN_MASK va 2] ++ [VPN_MASK va 1]) with (vpath va). now rewrite H0.
  - rewrite Hfault; [reflexivity|apply (pw_page _ _ _ Hwf _ _ Hp0 (Ht0 s))|exact E2].
Qed.

(** ** Examples: a fresh page table in the demo machine *)

Definition demo_top : Z := PHYSTOP - PGSIZE.
Definition demo_space : kstate :=
  match @create_pagetable demo_symbols demo_free with Ok _ s => s | _ => demo_free end.

Lemma demo_space_wf :
  @free_list demo_symbols (tail (rev (@all_pages demo_symbols))) demo_space /\
  @pt_wf demo_symbols demo_space demo_top (tail (rev (@all_pages demo_symbols))) /\
  forall va, translate demo_space demo_top va = None.
Proof.
  assert (0 < @mem_start demo_symbols) as Hpos by reflexivity.
  destruct (@create_pagetable_spec demo_symbols _ (@pmm_pages demo_symbols (Z.lt_le_incl _ _ Hpos)) (Z.lt_le_incl _ _ Hpos) Hpos
              demo_top (tail (rev (@all_pages demo_symbols))) demo_free) as (s' & Hrun & ? & ? & ? & _).
  { replace (demo_top :: _) with (rev (@all_pages demo_symbols)) by (vm_compute; reflexivity).
    exact demo_free_list. }
  unfold demo_space. rewrite Hrun. auto.
Qed.

Lemma map_page_inserts_witness :
  exists s', @map_page demo_symbols demo_top 0 (PHYSTOP - 2 * PGSIZE) 30 demo_space = Ok 0 s' /\
    @free_list demo_symbols (drop 3 (rev (@all_pages demo_symbols))) s' /\
    translate s' demo_top 0 = Some (leaf (PHYSTOP - 2 * PGSIZE) 30).
Proof.
  destruct demo_space_wf as (Hl & Hwf & Hn).
  assert (0 < @mem_start demo_symbols) as Hpos by reflexivity.
  destruct (@map_page_inserts demo_symbols _ (@pmm_pages demo_symbols (Z.lt_le_incl _ _ Hpos))
              demo_top 0 (PHYSTOP - 2 * PGSIZE) 30 _ demo_space Hpos Hl Hwf) as (s' & Hrun & Hl' & _ & Ht & _).
  - replace (missing demo_space demo_top 0) with 2%nat by (vm_compute; reflexivity).
    apply Nat.leb_le. vm_compute. reflexivity.
  - exists s'. split; [exact Hrun|]. split; [|rewrite Ht; now rewrite decide_True].
    revert Hl'. replace (missing demo_space demo_top 0) with 2%nat by (vm_compute; reflexivity).
    replace (drop 2 _) with (drop 3 (rev (@all_pages demo_symbols))) by (vm_compute; reflexivity). auto.
Defined.

Lemma pt_wf_exhausted `{Symbols} s root l : pt_wf s root l -> pt_wf (set_ks_freelist 0 s) root [].
Proof.
  intros Hwf. destruct (same_tables s (set_ks_freelist 0 s) root l (fun _ => False) Hwf) as [Ht _];
    [intros k _; reflexivity|intros k []|].
  split; [intros q a Hq|intros q r a Hq Hr]; rewrite !Ht by assumption.
  - intros Ha. split; [apply (pw_page _ _ _ Hwf q a Hq Ha)|set_solver].
  - apply (pw_inj _ _ _ Hwf q r a Hq Hr).
Qed.

Lemma free_list_nil `{Symbols} s : free_list [] (set_ks_freelist 0 s).
Proof. split; [reflexivity|constructor..]. Qed.

Lemma map_page_exhausted_faults_witness :
  @map_page demo_symbols demo_top 0 (PHYSTOP - 2 * PGSIZE) 30 (set_ks_freelist 0 demo_space) = Fault.
Proof.
  assert (0 < @mem_start demo_symbols) as Hpos by reflexivity. destruct demo_space_wf as (_ & Hwf & _).
  apply pt_wf_exhausted in Hwf. pose proof (@free_list_nil demo_symbols demo_space) as Hl.
  assert (0 < missing (set_ks_freelist 0%Z demo_space) demo_top 0%Z)%nat as Hmiss
    by (apply Nat.ltb_lt; vm_compute; reflexivity).
  exact (@map_page_exhausted_faults demo_symbols _ (@pmm_pages demo_symbols (Z.lt_le_incl _ _ Hpos))
           demo_top 0 (PHYSTOP - 2 * PGSIZE) 30 _ Hpos Hl Hwf Hmiss).
Defined.
