(* ===== verification/UserMem.v ===== *)
(** * User memory: [copyin], [copyinstr] and [copyout] of kernel/vm.c

    User memory is what the page table of a process maps with [PTE_U].
    [user_at s root va] is the physical address behind a user address; the three
    functions of kernel/vm.c read and write bytes through it, and refuse the
    ranges that are not mapped. *)
From S2P Require Import Prelude State Mem Pmm Vm.

Section user.
Context `{Symbols} (Hpos : 0 < mem_start).
Let Hm : 0 <= mem_start := Z.lt_le_incl _ _ Hpos.


(** The physical address of user address [va]. *)
Definition user_at (s : kstate) (root va : Z) : option Z :=
  pte ← translate s root va;
  if has pte PTE_U then Some (PTE_PA pte + va mod PGSIZE) else None.

Definition user_mapped (s : kstate) (root va n : Z) : Prop :=
  forall i, 0 <= i < n -> is_Some (user_at s root (va + i)).

Definition user_byte (s : kstate) (root va : Z) : Z :=
  match user_at s root va with Some p => byte s p | None => 0 end.
Definition user_bytes (s : kstate) (root va n : Z) : list Z :=
  map (fun i => user_byte s root (va + i)) (upto n).

(** An address space: a page table whose user pages are pages of their own. *)
Record space_ok (s : kstate) (root : Z) (l : list Z) : Prop := {
  sp_wf : pt_wf s root l;
  sp_page : forall va pte, translate s root va = Some pte -> has pte PTE_U = true ->
    is_page (PTE_PA pte) /\ (PTE_PA pte ∉ l) /\ (forall q, path q -> table s root q <> Some (PTE_PA pte));
  sp_inj : forall va va' pte pte', translate s root va = Some pte -> translate s root va' = Some pte' ->
    has pte PTE_U = true -> has pte' PTE_U = true -> PTE_PA pte = PTE_PA pte' -> vpn va = vpn va' }.

Lemma vpn_same va va' level : va / 4096 = va' / 4096 -> 0 <= level -> VPN_MASK va level = VPN_MASK va' level.
Proof.
  intros E Hl. unfold VPN_MASK, VPN_SHIFT. f_equal.
  rewrite <- !Z.shiftr_shiftr by lia. f_equal. rewrite !Z.shiftr_div_pow2 by lia. exact E.
Qed.

Lemma translate_same s root va va' : va / 4096 = va' / 4096 -> translate s root va = translate s root va'.
Proof.
  intros E. unfold translate, vpath. now rewrite !(vpn_same va va') by (assumption || lia).
Qed.

Lemma page_div va : (va - va mod PGSIZE) / 4096 = va / 4096.
Proof. unfold PGSIZE. mlia. Qed.

Lemma user_at_offset s root va i :
  0 <= i -> va mod PGSIZE + i < PGSIZE ->
  user_at s root (va + i) = (fun p => p + i) <$> user_at s root va.
Proof.
  intros Hi Hlt. unfold user_at. rewrite (translate_same s root (va + i) va) by (unfold PGSIZE in *; mlia).
  destruct (translate s root va) as [pte|]; [|reflexivity]. cbn [mbind option_bind].
  destruct (has pte PTE_U); [|reflexivity]. cbn. f_equal.
  replace ((va + i) mod PGSIZE) with (va mod PGSIZE + i) by (unfold PGSIZE in *; mlia). lia.
Qed.

(** The test the three functions make on each page they touch. *)
Lemma user_page_test s root l va :
  pt_wf s root l ->
  let va0 := PGGROUNDDOWN va in
  exists pte, walk_lookup root va0 s = Ok pte s /\
    no_user_page pte s = Ok (match user_at s root va with Some _ => false | None => true end) s /\
    (forall p, user_at s root va = Some p ->
       exists v, load64 pte s = Ok v s /\ translate s root va = Some v /\ has v PTE_U = true /\
         p = PTE_PA v + va mod PGSIZE).
Proof.
  intros Hwf va0. unfold va0. rewrite pgground_down.
  rewrite (walk_lookup_run Hm _ _ _ _ Hwf). eexists. split; [reflexivity|].
  assert (translate s root va = translate s root (va - va mod PGSIZE)) as Et.
  { apply translate_same. symmetry. apply page_div. }
  unfold user_at. rewrite Et. unfold translate.
  destruct (table s root (vpath (va - va mod PGSIZE))) as [b|] eqn:Hb; cbn [mbind option_bind].
  - destruct (pw_page _ _ _ Hwf _ _ (vpath_path _) Hb) as [Hpb _].
    set (i := VPN_MASK (va - va mod PGSIZE) 0) in *. pose proof (vpn_range (va - va mod PGSIZE) 0 : 0 <= i < 512) as Hi.
    pose proof (load64_run _ s (entry_ram b i Hpb Hi)) as Hload. fold (pte_at s b i) in Hload.
    assert (b + 8 * i <> 0) as Hnz by (destruct Hpb as (_ & ? & _); lia).
    unfold no_user_page. destruct (Z.eqb_spec (b + 8 * i) 0); [contradiction|].
    rewrite (bind_Ok _ _ _ _ _ Hload).
    destruct (has (pte_at s b i) PTE_V) eqn:HV; cbn [negb].
    + rewrite (bind_Ok _ _ _ _ _ Hload). cbn [mbind option_bind].
      destruct (has (pte_at s b i) PTE_U) eqn:HU; (split; [reflexivity|]); [|discriminate].
      intros p [= <-]. eauto.
    + split; [reflexivity|discriminate].
  - split; [reflexivity|discriminate].
Qed.

(** The length of the piece of [len] bytes that lies on the page of [va]. *)
Definition piece (va len : Z) : Z := Z.min len (PGSIZE - va mod PGSIZE).

Lemma piece_eq va len :
  0 <= va < 2 ^ 64 -> 0 < len ->
  (let n := u64 (PGSIZE - (va - PGGROUNDDOWN va)) in if len <? n then len else n) = piece va len /\
  0 < piece va len <= len /\ va mod PGSIZE + piece va len <= PGSIZE.
Proof.
  intros Hva Hlen. rewrite pgground_down. replace (va - (va - va mod PGSIZE)) with (va mod PGSIZE) by lia.
  unfold piece. pose proof (Z.mod_pos_bound va PGSIZE) as Hb. unfold PGSIZE in *. cbv zeta.
  rewrite u64_id by lia. split; [|lia]. destruct (Z.ltb_spec len (4096 - va mod 4096)); lia.
Qed.

Lemma next_page va len :
  0 <= va -> va + len <= 2 ^ 64 -> 0 < len -> piece va len < len ->
  u64 (PGGROUNDDOWN va + PGSIZE) = va + piece va len.
Proof.
  intros Hva Hend Hlen Hp. rewrite pgground_down. unfold piece in *.
  pose proof (Z.mod_pos_bound va PGSIZE) as Hb. unfold PGSIZE in *. rewrite u64_id by lia. lia.
Qed.

Lemma user_bytes_app s root va n m :
  0 <= n -> 0 <= m -> user_bytes s root va (n + m) = user_bytes s root va n ++ user_bytes s root (va + n) m.
Proof.
  intros Hn Hm'. apply list_eq. intros i. unfold user_bytes. rewrite lookup_app, !lookup_map_upto, length_map, length_upto.
  destruct (decide (Z.of_nat i < n)).
  - rewrite decide_True by lia. reflexivity.
  - case_decide; case_decide; try lia; [|reflexivity]. f_equal. f_equal. lia.
Qed.

(** Reading the piece on one page. *)
Lemma load_piece s root l va n p :
  space_ok s root l -> user_at s root va = Some p -> 0 < n -> va mod PGSIZE + n <= PGSIZE ->
  u64 p = p /\ in_ram p n = true /\ bytes s p n = user_bytes s root va n /\ user_mapped s root va n.
Proof.
  intros Hsp Hu Hn Hlt. assert (is_page (p - va mod PGSIZE)) as Hpg.
  { unfold user_at in Hu. destruct (translate s root va) as [pte|] eqn:Et; [|discriminate].
    cbn [mbind option_bind] in Hu. destruct (has pte PTE_U) eqn:HU; [|discriminate]. injection Hu as <-.
    destruct (sp_page _ _ _ Hsp va pte Et HU) as [Hpg _].
    now replace (PTE_PA pte + va mod PGSIZE - va mod PGSIZE) with (PTE_PA pte) by lia. }
  pose proof (Z.mod_pos_bound va PGSIZE) as Hb. split; [|split; [|split]].
  - destruct (page_bits _ Hpg Hm). apply u64_id. unfold PGSIZE in *. lia.
  - apply (is_page_ram _ _ _ Hpg); unfold PGSIZE in *; lia.
  - apply list_eq. intros i. rewrite lookup_bytes. unfold user_bytes. rewrite lookup_map_upto.
    case_decide; [|reflexivity]. unfold user_byte. rewrite user_at_offset, Hu by lia. reflexivity.
  - intros i Hi. rewrite user_at_offset, Hu by lia. eauto.
Qed.

Lemma copyin_loop_run s root l fuel : forall va len acc,
  space_ok s root l -> 0 <= va -> 0 <= len -> va + len <= 2 ^ 64 -> (Z.to_nat len <= fuel)%nat ->
  exists r dst, copyin_loop fuel root va len acc s = Ok (r, dst) s /\
    (user_mapped s root va len -> r = 0 /\ dst = acc ++ user_bytes s root va len) /\
    (~ user_mapped s root va len -> r = -1).
Proof.
  induction fuel as [|fuel IH]; intros va len acc Hsp Hva Hlen Hend Hfuel; cbn [copyin_loop].
  - assert (len = 0) as -> by lia. exists 0, acc. split; [reflexivity|]. unfold user_bytes. cbn.
    rewrite app_nil_r. split; [auto|]. intros H0. destruct H0. intros i Hi. lia.
  - destruct (Z.eqb_spec len 0) as [->|Hne].
    { exists 0, acc. split; [reflexivity|]. unfold user_bytes. cbn. rewrite app_nil_r. split; [auto|].
      intros H0. destruct H0. intros i Hi. lia. }
    destruct (user_page_test s root l va (sp_wf _ _ _ Hsp)) as (pte & Hw & Ht & Hv).
    rewrite (bind_Ok _ _ _ _ _ Hw), (bind_Ok _ _ _ _ _ Ht).
    destruct (user_at s root va) as [p|] eqn:Hu.
    + destruct (Hv p eq_refl) as (v & Hload & Htr & HU & Ep). rewrite (bind_Ok _ _ _ _ _ Hload).
      destruct (piece_eq va len) as (En & Hp & Hpl); [lia|lia|]. cbv zeta in En |- *. rewrite En.
      destruct (load_piece s root l va (piece va len) p Hsp Hu) as (Eu & Hram & Hbs & Hmap); [lia|lia|].
      replace (va - PGGROUNDDOWN va) with (va mod PGSIZE) by (rewrite pgground_down; lia).
      rewrite <- Ep, Eu, (bind_Ok _ _ _ _ _ (load_bytes_run p _ s Hram)), Hbs.
      assert (user_mapped s root va len <-> user_mapped s root (va + piece va len) (len - piece va len)) as Hiff.
      { split; intros Hmp i Hi.
        - rewrite <- Z.add_assoc. apply Hmp. lia.
        - destruct (decide (i < piece va len)); [apply Hmap; lia|].
          replace (va + i) with (va + piece va len + (i - piece va len)) by lia. apply Hmp. lia. }
      assert (user_bytes s root va len = user_bytes s root va (piece va len) ++
                user_bytes s root (va + piece va len) (len - piece va len)) as Eb.
      { rewrite <- user_bytes_app by lia. f_equal. lia. }
      destruct (decide (piece va len = len)) as [Eall|Hmore].
      * rewrite Eall, Z.sub_diag. destruct (IH (u64 (PGGROUNDDOWN va + PGSIZE)) 0 (acc ++ user_bytes s root va len))
          as (r & dst & Hrun & H1 & H2); auto; try lia; [apply u64_range|pose proof (u64_range (PGGROUNDDOWN va + PGSIZE)); lia|].
        exists r, dst. split; [exact Hrun|]. unfold user_bytes in H1 at 2. cbn in H1. rewrite app_nil_r in H1.
        split; [intros _; apply H1; intros i Hi; lia|]. intros Hn. destruct Hn. rewrite <- Eall. exact Hmap.
      * rewrite (next_page va len) by lia.
        destruct (IH (va + piece va len) (len - piece va len) (acc ++ user_bytes s root va (piece va len)))
          as (r & dst & Hrun & H1 & H2); auto; try lia.
        exists r, dst. split; [exact Hrun|]. rewrite Hiff, Eb, app_assoc. auto.
    + exists (-1), acc. split; [reflexivity|]. split; [|auto].
      intros Hmp. destruct (Hmp 0) as [p Hp]; [lia|]. rewrite Z.add_0_r, Hu in Hp. discriminate.
Qed.


(** *** Writing user memory *)

Lemma space_same s s' root l P :
  space_ok s root l -> same_bytes P s s' -> (forall k, P k -> ~ in_tables s root k) -> space_ok s' root l.
Proof.
  intros [Hwf Hpg Hinj] Hs HP. destruct (same_tables s s' root l P Hwf Hs HP) as [Ht Htr]. split.
  - split; [intros q a Hq|intros q r a Hq Hr]; rewrite !Ht by assumption.
    + apply (pw_page _ _ _ Hwf q a Hq).
    + apply (pw_inj _ _ _ Hwf q r a Hq Hr).
  - intros va pte. rewrite Htr. intros Hp HU. destruct (Hpg va pte Hp HU) as (? & ? & Hn).
    split; [assumption|]. split; [assumption|]. intros q Hq. rewrite Ht by exact Hq. auto.
  - intros va va' pte pte'. rewrite !Htr. apply Hinj.
Qed.

Lemma user_at_page s root l va p :
  space_ok s root l -> user_at s root va = Some p ->
  exists pte, translate s root va = Some pte /\ has pte PTE_U = true /\ p = PTE_PA pte + va mod PGSIZE /\
    is_page (PTE_PA pte).
Proof.
  intros Hsp Hu. unfold user_at in Hu. destruct (translate s root va) as [pte|] eqn:Et; [|discriminate].
  cbn [mbind option_bind] in Hu. destruct (has pte PTE_U) eqn:HU; [|discriminate]. injection Hu as <-.
  exists pte. destruct (sp_page _ _ _ Hsp va pte Et HU). auto.
Qed.

(** User memory is not in the tables. *)
Lemma user_not_table s root l va p :
  space_ok s root l -> user_at s root va = Some p -> ~ in_tables s root p.
Proof.
  intros Hsp Hu. destruct (user_at_page s root l va p Hsp Hu) as (pte & Et & HU & -> & Hpg).
  intros (q & b & Hq & Hb & Hin). destruct (sp_page _ _ _ Hsp va pte Et HU) as (_ & _ & Hn).
  destruct (pw_page _ _ _ (sp_wf _ _ _ Hsp) q b Hq Hb) as [Hpb _].
  pose proof (Z.mod_pos_bound va PGSIZE) as Hbd.
  destruct (pages_apart (PTE_PA pte) b Hpg Hpb); [|unfold PGSIZE in *; lia..].
  intros E. apply (Hn q Hq). now rewrite Hb, E.
Qed.

Lemma vpn_split va :
  va mod 2 ^ 39 = VPN_MASK va 2 * 2 ^ 30 + VPN_MASK va 1 * 2 ^ 21 + VPN_MASK va 0 * 2 ^ 12 + va mod 2 ^ 12.
Proof.
  unfold VPN_MASK, VPN_SHIFT. change 0x1FF with (Z.ones 9). rewrite !Z.land_ones, !Z.shiftr_div_pow2 by lia.
  change (12 + 9 * 2) with 30. change (12 + 9 * 1) with 21. change (12 + 9 * 0) with 12. mlia.
Qed.

(** Two user addresses share a byte only if they agree in the 39 bits that the
    page table looks at. *)
Lemma user_at_inj s root l va va' p :
  space_ok s root l -> user_at s root va = Some p -> user_at s root va' = Some p ->
  va mod 2 ^ 39 = va' mod 2 ^ 39.
Proof.
  intros Hsp Hu Hu'.
  destruct (user_at_page s root l va p Hsp Hu) as (pte & Et & HU & Ep & Hpg).
  destruct (user_at_page s root l va' p Hsp Hu') as (pte' & Et' & HU' & Ep' & Hpg').
  assert (PTE_PA pte = PTE_PA pte' /\ va mod PGSIZE = va' mod PGSIZE) as [E1 E2].
  { destruct Hpg as (H1 & _), Hpg' as (H2 & _). unfold PGSIZE in *. mlia. }
  pose proof (sp_inj _ _ _ Hsp va va' pte pte' Et Et' HU HU' E1) as Ev.
  unfold vpn, vpath in Ev. injection Ev as E3 E4 E5. rewrite !vpn_split, E3, E4, E5.
  change (2 ^ 12) with PGSIZE. now rewrite E2.
Qed.

Lemma user_at_same s s' root :
  (forall va, translate s' root va = translate s root va) -> forall va, user_at s' root va = user_at s root va.
Proof. intros Ht va. unfold user_at. now rewrite Ht. Qed.

Lemma user_mapped_same s s' root va n :
  (forall va, translate s' root va = translate s root va) -> user_mapped s' root va n <-> user_mapped s root va n.
Proof.
  intros Ht. unfold user_mapped. split; intros Hmp i Hi; specialize (Hmp i Hi);
    rewrite (user_at_same s s' root Ht) in *; exact Hmp.
Qed.

Lemma user_mapped_piece s root l va len p :
  space_ok s root l -> 0 <= va < 2 ^ 64 -> 0 < len -> user_at s root va = Some p ->
  user_mapped s root va len <-> user_mapped s root (va + piece va len) (len - piece va len).
Proof.
  intros Hsp Hva Hlen Hu. destruct (piece_eq va len Hva Hlen) as (_ & Hp & Hpl).
  destruct (load_piece s root l va (piece va len) p Hsp Hu) as (_ & _ & _ & Hmap); [lia|lia|].
  split; intros Hmp i Hi.
  - rewrite <- Z.add_assoc. apply Hmp. lia.
  - destruct (decide (i < piece va len)); [apply Hmap; lia|].
    replace (va + i) with (va + piece va len + (i - piece va len)) by lia. apply Hmp. lia.
Qed.

(** The effect of [copyout] on the state. *)
Record wrote (root va len : Z) (s s' : kstate) : Prop := {
  wt_rest : s' = set_ks_mem (ks_mem s') s;
  wt_translate : forall va', translate s' root va' = translate s root va';
  wt_same : same_bytes (fun k => exists i, 0 <= i < len /\ user_at s root (va + i) = Some k) s s' }.

(** One piece of [copyout]. *)
Lemma store_piece s root l va n p src :
  space_ok s root l -> user_at s root va = Some p -> 0 < n -> va mod PGSIZE + n <= PGSIZE ->
  n <= Z.of_nat (length src) ->
  exists s', store_bytes (u64 p) (take (Z.to_nat n) src) s = Ok tt s' /\ wrote root va n s s' /\
    space_ok s' root l /\ user_bytes s' root va n = take (Z.to_nat n) src.
Proof.
  intros Hsp Hu Hn Hlt Hlen.
  destruct (load_piece s root l va n p Hsp Hu Hn Hlt) as (Eu & Hram & _ & _).
  assert (Z.of_nat (length (take (Z.to_nat n) src)) = n) as El by (rewrite length_take; lia).
  set (s' := upd_ks_mem (put_bytes p (take (Z.to_nat n) src)) s).
  assert (same_bytes (fun k => exists i, 0 <= i < n /\ user_at s root (va + i) = Some k) s s') as Hsame.
  { intros k Hk. apply same_bytes_put. intros Hin. apply Hk. exists (k - p). rewrite El in Hin.
    split; [lia|]. rewrite user_at_offset, Hu by lia. cbn. f_equal. lia. }
  assert (forall k, (exists i, 0 <= i < n /\ user_at s root (va + i) = Some k) -> ~ in_tables s root k) as Hnt.
  { intros k (i & _ & Hk). eapply user_not_table; eauto. }
  destruct (same_tables s s' root l _ (sp_wf _ _ _ Hsp) Hsame Hnt) as [_ Htr].
  pose proof (space_same s s' root l _ Hsp Hsame Hnt) as Hsp'.
  exists s'. split; [rewrite Eu; apply store_bytes_run; now rewrite El|].
  split; [split; [reflexivity|exact Htr|exact Hsame]|]. split; [exact Hsp'|].
  assert (user_at s' root va = Some p) as Hu' by (rewrite (user_at_same s s' root Htr); exact Hu).
  destruct (load_piece s' root l va n p Hsp' Hu' Hn Hlt) as (_ & _ & <- & _).
  pose proof (bytes_put p (take (Z.to_nat n) src) s) as Eb. rewrite El in Eb. exact Eb.
Qed.

(** A later piece does not touch an earlier one. *)
Lemma wrote_apart s s' root l va n va2 len2 :
  space_ok s root l -> wrote root va2 len2 s s' ->
  (forall i j, 0 <= i < n -> 0 <= j < len2 -> (va + i) mod 2 ^ 39 <> (va2 + j) mod 2 ^ 39) ->
  user_bytes s' root va n = user_bytes s root va n.
Proof.
  intros Hsp [_ Htr Hs] Hd. apply list_eq. intros i. unfold user_bytes. rewrite !lookup_map_upto.
  case_decide as Hi; [|reflexivity]. f_equal. unfold user_byte. rewrite (user_at_same s s' root Htr).
  destruct (user_at s root (va + Z.of_nat i)) as [p|] eqn:Hu; [|reflexivity]. apply Hs.
  intros (j & Hj & Hu2). apply (Hd (Z.of_nat i) j); [lia|lia|]. eapply user_at_inj; eauto.
Qed.

Lemma wrote_trans root va n len s s1 s2 :
  0 <= n <= len -> wrote root va n s s1 -> wrote root (va + n) (len - n) s1 s2 -> wrote root va len s s2.
Proof.
  intros Hn [R1 T1 S1] [R2 T2 S2]. split.
  - rewrite R2, R1. reflexivity.
  - intros va'. now rewrite T2.
  - intros k Hk. rewrite S2.
    + apply S1. intros (i & Hi & Hu). apply Hk. exists i. split; [lia|exact Hu].
    + intros (i & Hi & Hu). apply Hk. exists (n + i). split; [lia|].
      rewrite (user_at_same s s1 root T1) in Hu. now rewrite Z.add_assoc.
Qed.

Lemma wrote_nothing root va s : wrote root va 0 s s.
Proof. split; [now destruct s|easy|easy]. Qed.

Lemma copyout_loop_run root l fuel : forall va len src s,
  space_ok s root l -> 0 <= va -> 0 <= len <= 2 ^ 39 -> va + len <= 2 ^ 64 ->
  (Z.to_nat len <= fuel)%nat -> len <= Z.of_nat (length src) ->
  exists r s', copyout_loop fuel root va src len s = Ok r s' /\ wrote root va len s s' /\
    space_ok s' root l /\
    (user_mapped s root va len -> r = 0 /\ user_bytes s' root va len = take (Z.to_nat len) src) /\
    (~ user_mapped s root va len -> r = -1).
Proof.
  induction fuel as [|fuel IH]; intros va len src s Hsp Hva Hlen Hend Hfuel Hsrc; cbn [copyout_loop];
    (destruct (Z.eqb_spec len 0) as [->|Hne];
      [exists 0, s; split; [reflexivity|]; split; [apply wrote_nothing|]; split; [exact Hsp|];
       split; [auto|intros H0; destruct H0; intros i Hi; lia]|]); [lia|].
  destruct (user_page_test s root l va (sp_wf _ _ _ Hsp)) as (pte & Hw & Ht & Hv).
  rewrite (bind_Ok _ _ _ _ _ Hw), (bind_Ok _ _ _ _ _ Ht).
  destruct (user_at s root va) as [p|] eqn:Hu.
  - destruct (Hv p eq_refl) as (v & Hload & Htr & HU & Ep). rewrite (bind_Ok _ _ _ _ _ Hload).
    destruct (piece_eq va len) as (En & Hp & Hpl); [lia|lia|]. cbv zeta in En |- *. rewrite En.
    set (n := piece va len) in *. rewrite decide_True by lia.
    replace (va - PGGROUNDDOWN va) with (va mod PGSIZE) by (rewrite pgground_down; lia). rewrite <- Ep.
    destruct (store_piece s root l va n p src Hsp Hu) as (s1 & Hst & Hw1 & Hsp1 & Hb1); [lia|lia|lia|].
    rewrite (bind_Ok _ _ _ _ _ Hst).
    pose proof (user_mapped_piece s root l va len p Hsp ltac:(lia) ltac:(lia) Hu) as Hpc. fold n in Hpc.
    assert (u64 (PGGROUNDDOWN va + PGSIZE) = va + n \/ len - n = 0) as Hnext.
    { destruct (decide (n = len)); [right; lia|left]. apply next_page; lia. }
    destruct (IH (u64 (PGGROUNDDOWN va + PGSIZE)) (len - n) (drop (Z.to_nat n) src) s1)
      as (r & s2 & Hrun & Hw2 & Hsp2 & H1 & H2); auto;
      [apply u64_range|lia|destruct Hnext as [->|E]; [lia|rewrite E; pose proof (u64_range (PGGROUNDDOWN va + PGSIZE)); lia]
      |lia|rewrite length_drop; lia|].
    assert (wrote root (va + n) (len - n) s1 s2) as Hw2'.
    { destruct Hnext as [<-|E]; [exact Hw2|]. rewrite E in Hw2 |- *. destruct Hw2 as [R2 T2 S2].
      split; auto. intros k Hk. apply S2. intros (i & Hi & _). lia. }
    assert (user_mapped s root (va + n) (len - n) <->
            user_mapped s1 root (u64 (PGGROUNDDOWN va + PGSIZE)) (len - n)) as Hiff.
    { rewrite (user_mapped_same s s1 root) by apply Hw1. destruct Hnext as [->|E]; [reflexivity|].
      rewrite E. split; intros _ i Hi; lia. }
    exists r, s2. split; [exact Hrun|]. split; [eapply wrote_trans; eauto; lia|]. split; [exact Hsp2|].
    rewrite Hpc, Hiff. split; [|exact H2]. intros Hmp. destruct (H1 Hmp) as [-> Hb2]. split; [reflexivity|].
    replace len with (n + (len - n)) at 1 by lia. rewrite user_bytes_app by lia.
    rewrite (wrote_apart s1 s2 root l va n _ _ Hsp1 Hw2'), Hb1.
    + destruct Hnext as [E|E]; [rewrite <- E, Hb2|rewrite E; cbn [upto user_bytes]].
      * rewrite take_take_drop. f_equal. lia.
      * unfold user_bytes. cbn. rewrite app_nil_r. f_equal. lia.
    + intros i j Hi Hj E. mlia.
  - exists (-1), s. split; [reflexivity|]. split; [split; [now destruct s|easy|easy]|]. split; [exact Hsp|].
    split; [|auto]. intros Hmp. destruct (Hmp 0) as [p Hp]; [lia|]. rewrite Z.add_0_r, Hu in Hp. discriminate.
Qed.

(** *** Strings *)

(** The NUL-terminated string at user address [va], if it ends within [n] bytes. *)
Fixpoint user_cstr (s : kstate) (root : Z) (n : nat) (va : Z) : option (list Z) :=
  match n with
  | O => None
  | S n' =>
      p ← user_at s root va;
      if byte s p =? 0 then Some [] else t ← user_cstr s root n' (va + 1); Some (byte s p :: t)
  end.

Lemma load_byte s p : in_ram p 1 = true -> load_le 1 p s = Ok (byte s p) s.
Proof.
  intros Hr. unfold load_le. change (Z.of_nat 1) with 1. rewrite (bind_Ok _ _ _ _ _ (load_bytes_run p 1 s Hr)).
  unfold ret. f_equal. change (bytes s p 1) with [byte s (p + 0)]. unfold le_value. rewrite Z.mul_0_r, !Z.add_0_r. reflexivity.
Qed.

(** Within one page, the inner loop finds the end of the string or copies the
    [n] bytes. *)
Lemma copyinstr_page_run s root l n : forall va p max dst,
  space_ok s root l -> user_at s root va = Some p -> va mod PGSIZE + Z.of_nat n <= PGSIZE ->
  (exists t max', copyinstr_page n p max dst s = Ok (true, dst ++ t ++ [0], max') s /\
     forall m, (n <= m)%nat -> user_cstr s root m va = Some t) \/
  (exists bs, copyinstr_page n p max dst s = Ok (false, dst ++ bs, max - Z.of_nat n) s /\
     forall m, user_cstr s root (n + m) va = (fun t => bs ++ t) <$> user_cstr s root m (va + Z.of_nat n)).
Proof.
  induction n as [|n IH]; intros va p max dst Hsp Hu Hlt; cbn [copyinstr_page].
  - right. exists []. rewrite app_nil_r, Z.sub_0_r. split; [reflexivity|]. intros m.
    change (Z.of_nat 0) with 0. rewrite Z.add_0_r. cbn [Nat.add]. now destruct (user_cstr s root m va).
  - destruct (load_piece s root l va 1 p Hsp Hu) as (Eu & Hram & _ & _); [lia|lia|].
    rewrite (bind_Ok _ _ _ _ _ (load_byte s p Hram)).
    destruct (Z.eqb_spec (byte s p) 0) as [E|E].
    + left. exists [], max. split; [reflexivity|]. intros m Hmn. destruct m as [|m]; [lia|]. cbn [user_cstr].
      rewrite Hu. cbn [mbind option_bind]. now rewrite E.
    + assert (forall m, user_cstr s root (S m) va = (fun t => byte s p :: t) <$> user_cstr s root m (va + 1)) as Hstep.
      { intros m. cbn [user_cstr]. rewrite Hu. cbn [mbind option_bind].
        destruct (Z.eqb_spec (byte s p) 0); [contradiction|]. now destruct (user_cstr s root m (va + 1)). }
      destruct n as [|n'].
      * right. exists [byte s p]. cbn [copyinstr_page]. split; [do 2 f_equal; lia|]. intros m.
        cbn [Nat.add]. rewrite Hstep. change (Z.of_nat 1) with 1. now destruct (user_cstr s root m (va + 1)).
      * assert (user_at s root (va + 1) = Some (p + 1)) as Hu1 by (rewrite user_at_offset, Hu by lia; reflexivity).
        destruct (load_piece s root l (va + 1) 1 (p + 1) Hsp Hu1) as (Eu1 & _); [lia|unfold PGSIZE in *; mlia|].
        rewrite Eu1. destruct (IH (va + 1) (p + 1) (max - 1) (dst ++ [byte s p]) Hsp Hu1)
          as [(t & max' & Hrun & Ht)|(bs & Hrun & Ht)]; [unfold PGSIZE in *; mlia|left|right].
        -- exists (byte s p :: t), max'. rewrite Hrun, <- app_assoc. split; [reflexivity|]. intros m Hmn.
           destruct m as [|m]; [lia|]. now rewrite Hstep, Ht by lia.
        -- exists (byte s p :: bs). rewrite Hrun, <- app_assoc. split; [do 2 f_equal; lia|]. intros m.
           change (S (S n') + m)%nat with (S (S n' + m)). rewrite Hstep, Ht.
           replace (va + Z.of_nat (S (S n'))) with (va + 1 + Z.of_nat (S n')) by lia.
           now destruct (user_cstr s root m _).
Qed.

Lemma copyinstr_loop_run s root l fuel : forall va max dst,
  space_ok s root l -> 0 <= va -> 0 <= max -> va + max <= 2 ^ 64 -> (Z.to_nat max <= fuel)%nat ->
  match user_cstr s root (Z.to_nat max) va with
  | Some t => copyinstr_loop fuel root va max dst s = Ok (0, dst ++ t ++ [0]) s
  | None => exists dst', copyinstr_loop fuel root va max dst s = Ok (-1, dst') s
  end.
Proof.
  induction fuel as [|fuel IH]; intros va max dst Hsp Hva Hmax Hend Hfuel; cbn [copyinstr_loop].
  - assert (max = 0) as -> by lia. exists dst. reflexivity.
  - destruct (Z.eqb_spec max 0) as [->|Hne]; [exists dst; reflexivity|].
    destruct (user_page_test s root l va (sp_wf _ _ _ Hsp)) as (pte & Hw & Ht & Hv).
    rewrite (bind_Ok _ _ _ _ _ Hw), (bind_Ok _ _ _ _ _ Ht).
    destruct (user_at s root va) as [p|] eqn:Hu.
    + destruct (Hv p eq_refl) as (v & Hload & Htr & HU & Ep). rewrite (bind_Ok _ _ _ _ _ Hload).
      destruct (piece_eq va max) as (En & Hp & Hpl); [lia|lia|]. cbv zeta in En |- *. rewrite En.
      destruct (load_piece s root l va (piece va max) p Hsp Hu) as (Eu & _); [lia|lia|].
      replace (va - PGGROUNDDOWN va) with (va mod PGSIZE) by (rewrite pgground_down; lia). rewrite <- Ep, Eu.
      replace (Z.to_nat max) with (Z.to_nat (piece va max) + Z.to_nat (max - piece va max))%nat by lia.
      destruct (copyinstr_page_run s root l (Z.to_nat (piece va max)) va p max dst Hsp Hu)
        as [(t & max' & Hrun & Hc)|(bs & Hrun & Hc)]; [lia|..]; rewrite (bind_Ok _ _ _ _ _ Hrun), Hc by lia.
      * reflexivity.
      * rewrite Z2Nat.id by lia. destruct (decide (piece va max = max)) as [Eall|Hmore].
        -- rewrite Eall, Z.sub_diag. cbn [Z.to_nat user_cstr fmap option_fmap option_map].
           exists (dst ++ bs). now destruct fuel.
        -- rewrite (next_page va max) by lia.
           specialize (IH (va + piece va max) (max - piece va max) (dst ++ bs) Hsp).
           destruct (user_cstr s root _ (va + piece va max)) as [t|]; cbn [fmap option_fmap option_map].
           ++ rewrite IH by lia. now rewrite !app_assoc.
           ++ apply IH; lia.
    + destruct (Z.to_nat max) as [|m] eqn:Em; [lia|]. cbn [user_cstr]. rewrite Hu. exists dst. reflexivity.
Qed.

(** *** Address spaces grow *)

Lemma space_fresh s root l : pt_wf s root l -> (forall va, translate s root va = None) -> space_ok s root l.
Proof. intros Hwf Hn. split; [exact Hwf|..]; intros *; rewrite !Hn; discriminate. Qed.

Lemma leaf_pa m perm : is_page m -> 0 <= perm < 2 ^ 10 -> PTE_PA (leaf m perm) = m.
Proof.
  intros Hpg Hp. destruct (page_bits m Hpg Hm) as [Hb Hal]. unfold leaf. rewrite <- Z.lor_assoc.
  rewrite pte_pa_lor; [lia|lia|]. rewrite u64_id by lia.
  assert (0 <= Z.lor perm PTE_V) as H0 by (rewrite PTE_V_1; apply Z.lor_nonneg; lia).
  split; [exact H0|]. destruct (decide (Z.lor perm PTE_V = 0)) as [->|Hne]; [lia|].
  apply Z.log2_lt_pow2; [lia|]. rewrite PTE_V_1, Z.log2_lor by lia. change (Z.log2 1) with 0.
  destruct (decide (perm = 0)) as [->|]; [change (Z.log2 0) with 0; lia|].
  assert (Z.log2 perm < 10) by (apply Z.log2_lt_pow2; lia). lia.
Qed.

(** Mapping a page of its own keeps an address space one. *)
Lemma space_map pages `{!PageAllocator pages} s s' root va m perm l l' :
  space_ok s root l -> mapped pages root va (leaf m perm) l l' s s' -> 0 <= perm < 2 ^ 10 ->
  is_page m -> m ∉ l -> (forall q, path q -> table s root q <> Some m) ->
  (forall va' pte, translate s root va' = Some pte -> has pte PTE_U = true -> PTE_PA pte <> m) ->
  space_ok s' root l'.
Proof.
  intros [Hwf Hpg Hinj] Hmp Hperm Hm1 Hm2 Hm3 Hm4. pose proof (leaf_pa m perm Hm1 Hperm) as El.
  pose proof (mp_translate _ _ _ _ _ _ _ _ Hmp) as Htr. split.
  - apply Hmp.
  - intros va' pte. rewrite Htr.
    assert (forall q b, path q -> table s' root q = Some b -> is_page b /\ ((table s root q = Some b) \/ b ∈ l)) as Hnew.
    { intros q b Hq Hb. split; [apply (pw_page _ _ _ (mp_wf _ _ _ _ _ _ _ _ Hmp) q b Hq Hb)|].
      apply (mp_new _ _ _ _ _ _ _ _ Hmp q b Hq Hb). }
    case_decide as E.
    + intros [= <-] _. rewrite El. split; [exact Hm1|]. split.
      * intros Hin%(mp_sub _ _ _ _ _ _ _ _ Hmp). contradiction.
      * intros q Hq Hb. destruct (Hnew q m Hq Hb) as [_ [Hb'|Hb']]; [now apply (Hm3 q Hq)|contradiction].
    + intros Ht HU. destruct (Hpg va' pte Ht HU) as (H1 & H2 & H3). split; [exact H1|]. split.
      * intros Hin%(mp_sub _ _ _ _ _ _ _ _ Hmp). contradiction.
      * intros q Hq Hb. destruct (Hnew q _ Hq Hb) as [_ [Hb'|Hb']]; [now apply (H3 q Hq)|contradiction].
  - intros v1 v2 pte1 pte2. rewrite !Htr. repeat case_decide; try congruence.
    + intros [= <-] Ht _ HU Epa. rewrite El in Epa. exfalso. eapply Hm4; eauto.
    + intros Ht [= <-] HU _ Epa. rewrite El in Epa. exfalso. eapply Hm4; eauto.
    + intros. eapply Hinj; eauto.
Qed.

(** The head of the free list is not part of the tables. *)
Lemma table_freelist s v root q : table (set_ks_freelist v s) root q = table s root q.
Proof.
  revert root. induction q as [|i q IH]; intros root; [reflexivity|]. cbn [table].
  change (pte_at (set_ks_freelist v s)) with (pte_at s). destruct (has _ _); [apply IH|reflexivity].
Qed.

Lemma translate_freelist s v root va : translate (set_ks_freelist v s) root va = translate s root va.
Proof. unfold translate. now rewrite table_freelist. Qed.

Lemma missing_freelist s v root va : missing (set_ks_freelist v s) root va = missing s root va.
Proof. unfold missing. now rewrite !table_freelist. Qed.

Lemma space_freelist s v root l : space_ok s root l -> space_ok (set_ks_freelist v s) root l.
Proof.
  intros Hsp. apply (space_same s (set_ks_freelist v s) root l (fun _ => False)); [exact Hsp| |intros k []].
  intros k _. reflexivity.
Qed.

(** Taking a free page and mapping it, as [sbrk], [fork] and [user_init] do. *)
Definition grown (pages : list Z -> kstate -> Prop) (s : kstate) (root va pte : Z) (l' : list Z) (s' : kstate) : Prop :=
  pages l' s' /\ space_ok s' root l' /\
  (forall va', translate s' root va' = if decide (vpn va' = vpn va) then Some pte else translate s root va') /\
  same_bytes (in_tables s' root) s s' /\
  s' = set_ks_mem (ks_mem s') (set_ks_freelist (ks_freelist s') s).

Lemma space_not_free s root l l' : (forall x, x ∈ l' -> x ∈ l) -> space_ok s root l -> space_ok s root l'.
Proof.
  intros Hsub [Hwf Hpg Hinj]. split; [split|..].
  - intros q a Hq Ha. destruct (pw_page _ _ _ Hwf q a Hq Ha). auto.
  - apply (pw_inj _ _ _ Hwf).
  - intros va pte Ht HU. destruct (Hpg va pte Ht HU) as (? & ? & ?). split_and!; auto.
  - exact Hinj.
Qed.

Lemma map_new_page pages `{!PageAllocator pages} s root va m perm l :
  pages l s -> space_ok s root (m :: l) -> m ∉ l -> is_page m ->
  (forall va' pte, translate s root va' = Some pte -> has pte PTE_U = true -> PTE_PA pte <> m) ->
  (missing s root va <= length l)%nat -> 0 <= perm < 2 ^ 10 ->
  exists s', map_page root va m perm s = Ok 0 s' /\
    grown pages s root va (leaf m perm) (drop (missing s root va) l) s'.
Proof.
  intros Hl Hsp Hm1 Hpg Hm4 Hmiss Hperm.
  assert (space_ok s root l) as Hsp' by (eapply space_not_free; [|exact Hsp]; intros x Hx; now right).
  destruct (map_page_spec pages Hm Hpos root va m perm l s Hl (sp_wf _ _ _ Hsp') Hmiss) as (s' & Hrun & Hmp).
  exists s'. split; [exact Hrun|]. split; [apply Hmp|]. split; [|split; [|split]]; try apply Hmp.
  eapply space_map; eauto. intros q Hq Ha.
  destruct (pw_page _ _ _ (sp_wf _ _ _ Hsp) q m Hq Ha) as [_ Hn]. apply Hn. left.
Qed.

Lemma map_first_page pages `{!PageAllocator pages} s root va m perm l :
  pages (m :: l) s -> space_ok s root (m :: l) -> (missing s root va <= length l)%nat -> 0 <= perm < 2 ^ 10 ->
  (forall va' pte, translate s root va' = Some pte -> has pte PTE_U = true -> PTE_PA pte <> m) ->
  exists s', (m <- alloc_page;; map_page root va m perm) s = Ok 0 s' /\
    grown pages s root va (leaf m perm) (drop (missing s root va) l) s'.
Proof.
  intros Hl Hsp Hmiss Hperm Hm4. destruct (pages_ok _ _ Hl) as [Hnd Hpg].
  apply NoDup_cons in Hnd as [Hnd _]. apply Forall_cons in Hpg as [Hpg _].
  destruct (pages_alloc _ _ _ Hl) as (nxt & Halloc & Hl1).
  destruct (map_new_page pages (set_ks_freelist nxt s) root va m perm l Hl1 (space_freelist _ _ _ _ Hsp) Hnd Hpg)
    as (s' & Hrun & H1 & H2 & H3 & H4 & H5); [|now rewrite missing_freelist|exact Hperm|].
  - intros va' pte. rewrite translate_freelist. apply Hm4.
  - exists s'. rewrite (bind_Ok _ _ _ _ _ Halloc). split; [exact Hrun|]. rewrite missing_freelist in H1, H2.
    split; [exact H1|]. split; [exact H2|]. split; [|split; [exact H4|rewrite H5; reflexivity]].
    intros va'. now rewrite H3, translate_freelist.
Qed.
End user.

(** Address spaces live in the memory. *)
Lemma table_mem s s' root q : ks_mem s' = ks_mem s -> table s' root q = table s root q.
Proof.
  intros Em. assert (forall b i, pte_at s' b i = pte_at s b i) as Hp.
  { intros b i. apply word_ext. intros k _. unfold byte. now rewrite Em. }
  revert root. induction q as [|i q IH]; intros root; [reflexivity|]. cbn [table]. rewrite !Hp.
  destruct (has _ _); [apply IH|reflexivity].
Qed.

Lemma user_at_mem s s' root va : ks_mem s' = ks_mem s -> user_at s' root va = user_at s root va.
Proof.
  intros Em. apply user_at_same. intros a. unfold translate. rewrite (table_mem s s') by exact Em.
  destruct (table s root _) as [b|]; [|reflexivity]. cbn [mbind option_bind].
  assert (pte_at s' b (VPN_MASK a 0) = pte_at s b (VPN_MASK a 0)) as ->; [|reflexivity].
  apply word_ext. intros k _. unfold byte. now rewrite Em.
Qed.

Lemma user_bytes_mem s s' root va n : ks_mem s' = ks_mem s -> user_bytes s' root va n = user_bytes s root va n.
Proof.
  intros Em. apply map_ext. intros i. unfold user_byte. rewrite (user_at_mem s s') by exact Em.
  unfold byte. now rewrite Em.
Qed.

Lemma user_mapped_mem s s' root va n : ks_mem s' = ks_mem s -> user_mapped s' root va n <-> user_mapped s root va n.
Proof.
  intros Em. unfold user_mapped. split; intros Hm i Hi; specialize (Hm i Hi);
    rewrite (user_at_mem s s') in * by exact Em; exact Hm.
Qed.

(** ** Properties *)

(** C18: [copyin] returns 0 and the bytes of the range, across page boundaries, if
    the whole range is user memory, and -1 otherwise. *)
Theorem copyin_reads `{Symbols} s root l va len :
  0 < mem_start -> space_ok s root l -> 0 <= va -> 0 <= len -> va + len <= 2 ^ 64 ->
  exists r dst, copyin root va len s = Ok (r, dst) s /\
    (user_mapped s root va len -> r = 0 /\ dst = user_bytes s root va len) /\
    (~ user_mapped s root va len -> r = -1).
Proof. intros Hpos Hsp Hva Hlen Hend. exact (copyin_loop_run Hpos s root l _ va len [] Hsp Hva Hlen Hend (le_n _)). Qed.

(** C19: what [copyout] has written, [copyin] reads back; no other user byte
    changes. *)
Theorem copyout_copyin_roundtrip `{Symbols} s root l va src :
  let len := Z.of_nat (length src) in
  0 < mem_start -> space_ok s root l -> 0 <= va -> len <= 2 ^ 39 -> va + len <= 2 ^ 64 ->
  user_mapped s root va len ->
  exists s', copyout root va src len s = Ok 0 s' /\ space_ok s' root l /\
    copyin root va len s' = Ok (0, src) s' /\
    (forall va' p, user_at s root va' = Some p ->
       (forall i, 0 <= i < len -> va' mod 2 ^ 39 <> (va + i) mod 2 ^ 39) ->
       user_byte s' root va' = user_byte s root va').
Proof.
  intros len Hpos Hsp Hva Hlen Hend Hmp. assert (0 <= len) as Hnn by lia.
  destruct (copyout_loop_run Hpos root l (Z.to_nat len) va len src s Hsp Hva (conj Hnn Hlen) Hend (le_n _) (Z.le_refl _))
    as (r & s' & Hrun & Hw & Hsp' & H1 & _).
  destruct (H1 Hmp) as [-> Hb]. exists s'. split; [exact Hrun|]. split; [exact Hsp'|]. split.
  - destruct (copyin_loop_run Hpos s' root l (Z.to_nat len) va len [] Hsp' Hva Hnn Hend (le_n _))
      as (r & dst & Hin & H2 & _).
    destruct H2 as [-> ->]; [rewrite (user_mapped_same s s' root) by apply Hw; exact Hmp|].
    etransitivity; [exact Hin|]. cbn [app]. rewrite Hb. unfold len. now rewrite Nat2Z.id, firstn_all.
  - intros va' p Hu Hne. destruct Hw as [_ Htr Hs]. unfold user_byte. rewrite (user_at_same s s' root Htr), Hu.
    apply Hs. intros (i & Hi & Hu2). exact (Hne i Hi (user_at_inj s root l _ _ p Hsp Hu Hu2)).
Qed.

(** C35: [copyinstr] finds the string that ends within [max] bytes of user memory
    and copies it with its NUL; it returns -1 when there is none. *)
Theorem copyinstr_reads `{Symbols} s root l va max :
  0 < mem_start -> space_ok s root l -> 0 <= va -> 0 <= max -> va + max <= 2 ^ 64 ->
  match user_cstr s root (Z.to_nat max) va with
  | Some t => copyinstr root va max s = Ok (0, t ++ [0]) s
  | None => exists dst, copyinstr root va max s = Ok (-1, dst) s
  end.
Proof. intros Hpos Hsp Hva Hmax Hend. exact (copyinstr_loop_run Hpos s root l _ va max [] Hsp Hva Hmax Hend (le_n _)). Qed.

(** ** Examples: one page of user memory at address 0 *)

Definition demo_page : Z := PHYSTOP - 2 * PGSIZE.
Definition demo_user : kstate :=
  match (m <- @alloc_page demo_symbols;; @map_page demo_symbols demo_top 0 m 30) demo_space with
  | Ok _ s => s | _ => demo_space end.

Lemma demo_mem_start : 0 < @mem_start demo_symbols.
Proof. reflexivity. Qed.

Lemma demo_user_space :
  @free_list demo_symbols (drop 4 (rev (@all_pages demo_symbols))) demo_user /\
  @space_ok demo_symbols demo_user demo_top (drop 4 (rev (@all_pages demo_symbols))) /\
  translate demo_user demo_top 0 = Some (leaf demo_page 30).
Proof.
  destruct demo_space_wf as (Hl & Hwf & Hn). set (l := rev (@all_pages demo_symbols)) in *.
  pose proof (@pmm_pages demo_symbols (Z.lt_le_incl _ _ demo_mem_start)) as HA.
  assert (tail l = demo_page :: drop 2 l) as El by (vm_compute; reflexivity). rewrite El in Hl, Hwf.
  assert (missing demo_space demo_top 0 = 2%nat) as Emiss by (vm_compute; reflexivity).
  assert (2 <= length (drop 2 l))%nat as Hlen by (apply Nat.leb_le; vm_compute; reflexivity).
  pose proof (@space_fresh demo_symbols _ _ _ Hwf Hn) as Hsp.
  assert (forall va' pte, translate demo_space demo_top va' = Some pte -> has pte PTE_U = true ->
            PTE_PA pte <> demo_page) as Hno by (intros va' pte; rewrite Hn; discriminate).
  rewrite <- Emiss in Hlen. assert (0 <= 30 < 2 ^ 10) as Hperm by lia.
  destruct (@map_first_page demo_symbols demo_mem_start _ HA demo_space demo_top 0 demo_page 30 (drop 2 l)
    Hl Hsp Hlen Hperm Hno) as (s' & Hrun & H1 & H2 & H3 & _).
  rewrite Emiss, drop_drop in H1, H2. unfold demo_user. rewrite Hrun.
  split; [exact H1|]. split; [exact H2|]. now rewrite H3, decide_True.
Qed.

Lemma demo_user_at va : 0 <= va < PGSIZE -> user_at demo_user demo_top va = Some (demo_page + va).
Proof.
  intros Hva. assert (va / 4096 = 0 / 4096) as E by (unfold PGSIZE in *; mlia).
  destruct demo_user_space as (_ & _ & Ht). unfold user_at. rewrite (translate_same demo_user demo_top va 0 E), Ht.
  cbn [mbind option_bind]. replace (has (leaf demo_page 30) PTE_U) with true by (vm_compute; reflexivity).
  rewrite (@leaf_pa demo_symbols demo_mem_start).
  - now rewrite Z.mod_small.
  - split; [reflexivity|]. split; discriminate.
  - lia.
Qed.

Lemma demo_mapped n : n <= PGSIZE -> user_mapped demo_user demo_top 0 n.
Proof. intros Hn i Hi. rewrite demo_user_at by lia. eauto. Qed.

Lemma copyin_reads_witness :
  @copyin demo_symbols demo_top 0 4 demo_user = Ok (0, [0; 0xd0; 0xff; 0x87]) demo_user.
Proof.
  destruct demo_user_space as (_ & Hsp & _).
  destruct (@copyin_reads demo_symbols demo_user demo_top _ 0 4 demo_mem_start Hsp) as (r & dst & Hrun & H1 & _); [lia..|].
  destruct (H1 (demo_mapped 4 ltac:(unfold PGSIZE; lia))) as [-> ->]. rewrite Hrun.
  reflexivity.
Defined.

Lemma copyout_copyin_roundtrip_witness :
  exists s', @copyout demo_symbols demo_top 1000 [1; 2; 3] 3 demo_user = Ok 0 s' /\
    @copyin demo_symbols demo_top 1000 3 s' = Ok (0, [1; 2; 3]) s'.
Proof.
  destruct demo_user_space as (_ & Hsp & _).
  destruct (@copyout_copyin_roundtrip demo_symbols demo_user demo_top _ 1000 [1; 2; 3] demo_mem_start Hsp)
    as (s' & Hrun & _ & Hin & _).
  - lia.
  - change (Z.of_nat (length [1; 2; 3])) with 3. lia.
  - change (Z.of_nat (length [1; 2; 3])) with 3. lia.
  - intros i Hi. change (Z.of_nat (length [1; 2; 3])) with 3 in Hi.
    rewrite demo_user_at by (unfold PGSIZE; lia). eauto.
  - exists s'. auto.
Defined.

Lemma copyinstr_reads_witness :
  @copyinstr demo_symbols demo_top 1 128 demo_user = Ok (0, [0xd0; 0xff; 0x87; 0]) demo_user.
Proof.
  destruct demo_user_space as (_ & Hsp & _).
  pose proof (@copyinstr_reads demo_symbols demo_user demo_top _ 1 128 demo_mem_start Hsp) as Hc.
  assert (user_cstr demo_user demo_top (Z.to_nat 128) 1 = Some [0xd0; 0xff; 0x87]) as E by (vm_compute; reflexivity).
  rewrite E in Hc. apply Hc; lia.
Defined.
