(* ===== verification/Kvm.v ===== *)
(** * The kernel's page table: kernel/vm_init.c

    The kernel maps its memory and its devices one to one. *)
From S2P Require Import Prelude State Mem Pmm Vm.

(** ** Model *)

Definition VIRTIO0 : Z := 0x10001000.

Section model.
Context `{Symbols}.

(** [for(; a <= last; a += PGSIZE, pa += PGSIZE) map_page(pt, a, pa, perm)]. *)
Fixpoint map_region_loop (fuel : nat) (pt a pa last perm : Z) : K unit :=
  if a <=? last then
    match fuel with
    | O => out_of_fuel
    | S fuel' =>
        _ <- map_page pt a pa perm;;
        map_region_loop fuel' pt (u64 (a + PGSIZE)) (u64 (pa + PGSIZE)) last perm
    end
  else ret tt.

Definition map_region (pt va pa size perm : Z) : K unit :=
  let a := PGGROUNDDOWN va in
  let last := PGGROUNDUP (u64 (va + size - 1)) in
  map_region_loop (Z.to_nat (size / PGSIZE + 2)) pt a pa last perm.

Definition kvminit : K unit :=
  pt <- create_pagetable;;
  _ <- modify (set_ks_kpagetable pt);;
  _ <- map_region pt 0x80200000 0x80200000 (PHYSTOP - 0x80200000) (Z.lor (Z.lor PTE_R PTE_W) PTE_X);;
  _ <- map_page pt 0x10000000 0x10000000 (Z.lor PTE_R PTE_W);;
  _ <- map_region pt 0x80000000 0x80000000 0x200000 (Z.lor PTE_R PTE_X);;
  _ <- map_page pt TRAMPOLINE sym_trampoline (Z.lor PTE_R PTE_X);;
  _ <- map_page pt VIRTIO0 VIRTIO0 (Z.lor PTE_R PTE_W);;
  ret tt.

(** [sfence.vma] has no effect on the modelled state. *)
Definition kvminithart : K unit :=
  pt <- gets ks_kpagetable;;
  let satp_val := Z.lor (u64 (Z.shiftl 8 60)) (Z.shiftr pt 12) in
  modify (upd_ks_csr (set_csr_satp satp_val)).
End model.
