(* ===== verification/Klog.v ===== *)
(** * The kernel log: kernel/klog.c

    A ring of 4096 bytes that keeps the last 4095 bytes written; [klog] formats
    its message both to the console and to the ring.  [contents] abstracts the
    ring to the bytes a dump shows, and the theorems say what each operation
    does to them. *)
From S2P Require Import Prelude State Printf.

(** ** Model *)

Definition LOG_DEBUG : Z := 0.
Definition LOG_INFO : Z := 1.
Definition LOG_WARN : Z := 2.
Definition LOG_ERROR : Z := 3.
Definition LOG_LEVEL : Z := LOG_DEBUG.
Definition LOG_BUFSIZE : Z := 4096.

Definition level_names : list (list Z) :=
  [str "DEBUG"; str "INFO "; str "WARN "; str "ERROR"].

(** The ANSI colours: ESC is 27. *)
Definition level_colors : list (list Z) :=
  [27 :: str "[36m"; 27 :: str "[32m"; 27 :: str "[33m"; 27 :: str "[31m"].
Definition color_reset : list Z := 27 :: str "[0m".

(** [get_time] (kernel/timer.c) reads the time register. *)
Definition get_time : K Z :=
  s <- get;;
  _ <- modify (upd_ks_reads S);;
  ret (u64 (ks_rdtime s (ks_reads s))).

Definition get_timestamp : K Z := t <- get_time;; ret (t / 10000).

Definition log_putc (c : Z) : K unit :=
  st <- gets ks_klog;;
  buffer <- of_opt (lset (kl_head st) (u8 c) (kl_buffer st));;
  let head := Z.rem (kl_head st + 1) LOG_BUFSIZE in
  let st1 := set_kl_head head (set_kl_buffer buffer st) in
  modify (set_ks_klog
    (if head =? kl_tail st1
     then upd_kl_dropped (fun d => i32 (d + 1))
            (set_kl_tail (Z.rem (kl_tail st1 + 1) LOG_BUFSIZE) st1)
     else st1)).

Definition log_puts (s : list Z) : K unit := for_each s log_putc.

(** The [while(n > 0) buf[i++] = '0' + n % 10; n /= 10] loops, with a local
    buffer of [size] characters. *)
Fixpoint digits_loop (fuel size : nat) (n : Z) (buf : list Z) : K (list Z) :=
  if 0 <? n then
    match fuel with
    | O => out_of_fuel
    | S fuel' =>
        if decide (length buf < size)%nat
        then digits_loop fuel' size (n / 10) (buf ++ [48 + n mod 10])
        else fault
    end
  else ret buf.

Definition log_print_num (n : Z) : K unit :=
  if n =? 0 then log_putc 48
  else buf <- digits_loop 64 20 n [];;
       log_puts (rev buf).

(** One conversion of [klog]. *)
Definition klog_conv (f : Z) (ap : list arg) : K (list arg) :=
  if f =? 100 (* 'd' *) then
    let! (z, ap') := va_int ap in
    let val := i32 z in
    _ <- printf (str "%d") [AInt val];;
    val <- (if val <? 0 then _ <- log_putc 45;; ret (i32 (- val)) else ret val);;
    buf <- digits_loop 32 16 val (if val =? 0 then [48] else []);;
    _ <- log_puts (rev buf);;
    ret ap'
  else if f =? 120 (* 'x' *) then
    let! (z, ap') := va_int ap in
    _ <- printf (str "%x") [AInt (u32 z)];;
    ret ap'
  else if f =? 115 (* 's' *) then
    let! (p, ap') := va_str ap in
    let s := match p with Some s => s | None => str "(null)" end in
    _ <- printf (str "%s") [AStr (Some s)];;
    _ <- log_puts s;;
    ret ap'
  else if f =? 99 (* 'c' *) then
    let! (z, ap') := va_int ap in
    _ <- printf (str "%c") [AInt (u8 z)];;
    _ <- log_putc (u8 z);;
    ret ap'
  else if f =? 37 (* '%' *) then
    _ <- printf (str "%%") [];;
    _ <- log_putc 37;;
    ret ap
  else
    _ <- printf (str "%%%c") [AInt f];;
    _ <- log_putc 37;;
    _ <- log_putc f;;
    ret ap.

Fixpoint klog_loop (fmt : list Z) (ap : list arg) : K unit :=
  match fmt with
  | [] => ret tt
  | c :: fmt1 =>
      if negb (c =? 37) then
        _ <- printf (str "%c") [AInt c];;
        _ <- log_putc c;;
        klog_loop fmt1 ap
      else match fmt1 with
           | [] => ret tt
           | f :: fmt2 => ap' <- klog_conv f ap;; klog_loop fmt2 ap'
           end
  end.

Definition klog (level : Z) (fmt : list Z) (ap : list arg) : K unit :=
  st <- gets ks_klog;;
  if kl_enabled st =? 0 then ret tt
  else if level <? LOG_LEVEL then ret tt
  else
    _ <- modify (upd_ks_klog (upd_kl_total_logs (fun n => i32 (n + 1))));;
    ts <- get_timestamp;;
    color <- of_opt (lget level level_colors);;
    name <- of_opt (lget level level_names);;
    _ <- (if kl_use_color st =? 0 then ret 0
          else printf (str "%s") [AStr (Some color)]);;
    _ <- printf (str "[%d] [%s] ") [AInt (i32 ts); AStr (Some name)];;
    _ <- (if kl_use_color st =? 0 then ret 0
          else printf (str "%s") [AStr (Some color_reset)]);;
    _ <- log_putc 91;;
    _ <- log_print_num ts;;
    _ <- log_puts (str "] [");;
    _ <- log_puts name;;
    _ <- log_puts (str "] ");;
    _ <- klog_loop fmt ap;;
    modify (upd_ks_klog (upd_kl_count (fun n => i32 (n + 1)))).

Definition LOG_I (fmt : list Z) (ap : list arg) : K unit := klog LOG_INFO fmt ap.
Definition LOG_E (fmt : list Z) (ap : list arg) : K unit := klog LOG_ERROR fmt ap.

Definition log_init : K unit :=
  _ <- modify (upd_ks_klog (fun st =>
         set_kl_use_color 1 (set_kl_enabled 1 (set_kl_dropped 0
           (set_kl_total_logs 0 (set_kl_count 0 (set_kl_tail 0 (set_kl_head 0 st))))))));;
  LOG_I (str "Kernel log system initialized" ++ [10]) [].

(** The scan from [tail] to [head]: it takes at most 4096 rounds. *)
Fixpoint log_dump_loop (fuel : nat) (pos : Z) : K unit :=
  st <- gets ks_klog;;
  if pos =? kl_head st then ret tt
  else match fuel with
       | O => out_of_fuel
       | S fuel' =>
           c <- of_opt (lget pos (kl_buffer st));;
           _ <- printf (str "%c") [AInt c];;
           log_dump_loop fuel' (Z.rem (pos + 1) LOG_BUFSIZE)
       end.

Definition log_dump : K unit :=
  _ <- printf ([10] ++ str "=== Log Buffer Dump ===" ++ [10]) [];;
  st <- gets ks_klog;;
  _ <- log_dump_loop (Z.to_nat LOG_BUFSIZE) (kl_tail st);;
  _ <- printf ([10] ++ str "=== End of Log ===" ++ [10]) [];;
  ret tt.

Definition log_clear : K unit :=
  _ <- modify (upd_ks_klog (fun st => set_kl_count 0 (set_kl_tail 0 (set_kl_head 0 st))));;
  LOG_I (str "Log buffer cleared" ++ [10]) [].

Definition log_stats : K unit :=
  st <- gets ks_klog;;
  _ <- printf ([10] ++ str "=== Log Statistics ===" ++ [10]) [];;
  _ <- printf (str "Total logs:   %d" ++ [10]) [AInt (kl_total_logs st)];;
  _ <- printf (str "Buffer count: %d" ++ [10]) [AInt (kl_count st)];;
  _ <- printf (str "Dropped:      %d" ++ [10]) [AInt (kl_dropped st)];;
  _ <- printf (str "Buffer usage: %d / %d bytes" ++ [10])
         [AInt (Z.rem (kl_head st - kl_tail st + LOG_BUFSIZE) LOG_BUFSIZE);
          AInt LOG_BUFSIZE];;
  _ <- printf (str "======================" ++ [10]) [];;
  ret tt.

(** ** Specification *)

(** The ring is well formed, and the bytes it holds, oldest first. *)
Definition kl_ok (st : klog_state) : Prop :=
  Z.of_nat (length (kl_buffer st)) = LOG_BUFSIZE /\
  0 <= kl_head st < LOG_BUFSIZE /\ 0 <= kl_tail st < LOG_BUFSIZE.

Definition used (st : klog_state) : nat :=
  Z.to_nat ((kl_head st - kl_tail st) mod LOG_BUFSIZE).

Definition contents (st : klog_state) : list Z :=
  map (fun i => kl_buffer st !!! Z.to_nat ((kl_tail st + i) mod LOG_BUFSIZE))
      (upto (Z.of_nat (used st))).

Definition CAPACITY : nat := Z.to_nat (LOG_BUFSIZE - 1).

(** [log_putc] as a function of the ring. *)
Definition kl_push (st : klog_state) (c : Z) : klog_state :=
  let st1 := set_kl_head (Z.rem (kl_head st + 1) LOG_BUFSIZE)
               (set_kl_buffer (<[Z.to_nat (kl_head st) := u8 c]> (kl_buffer st)) st) in
  if kl_head st1 =? kl_tail st1
  then upd_kl_dropped (fun d => i32 (d + 1))
         (set_kl_tail (Z.rem (kl_tail st1 + 1) LOG_BUFSIZE) st1)
  else st1.

Definition kl_puts (t : list Z) (st : klog_state) : klog_state := fold_left kl_push t st.

(** The effect of code that writes [tc] to the console and [tb] to the ring. *)
Definition logs (tc tb : list Z) (s : kstate) : kstate :=
  upd_ks_klog (kl_puts tb) (upd_ks_uart (fun u => u ++ emit tc) s).

(** What one conversion and a whole format write to the console and to the
    ring: [%x] leaves no trace in the ring. *)
Definition ring_int (v : Z) : list Z :=
  if v <? 0 then 45 :: (if v =? - 2 ^ 31 then [] else numeral 10 (- v))
  else numeral 10 v.

Definition klog_conv_text (f : Z) (ap : list arg) : option (list Z * list Z * list arg) :=
  if f =? 100 then
    match ap with
    | AInt z :: ap' => Some (int_text (i32 z), ring_int (i32 z), ap')
    | _ => None
    end
  else if f =? 120 then
    match ap with AInt z :: ap' => Some (numeral 16 (u32 z), [], ap') | _ => None end
  else if f =? 115 then
    match ap with
    | AStr p :: ap' => let t := match p with Some t => t | None => str "(null)" end in
                       Some (t, t, ap')
    | _ => None
    end
  else if f =? 99 then
    match ap with AInt z :: ap' => Some ([u8 z], [u8 z], ap') | _ => None end
  else if f =? 37 then Some ([37], [37], ap)
  else Some ([37; u8 f], [37; f], ap).

Fixpoint klog_text (fmt : list Z) (ap : list arg) : option (list Z * list Z) :=
  match fmt with
  | [] => Some ([], [])
  | c :: fmt1 =>
      if negb (c =? 37) then
        '(tc, tb) ← klog_text fmt1 ap; Some (u8 c :: tc, c :: tb)
      else match fmt1 with
           | [] => Some ([], [])
           | f :: fmt2 =>
               '(tc1, tb1, ap') ← klog_conv_text f ap;
               '(tc2, tb2) ← klog_text fmt2 ap';
               Some (tc1 ++ tc2, tb1 ++ tb2)
           end
  end.

(** The console line and the ring record of [klog level fmt]: [ts] is the
    time stamp, [tc] and [tb] what the format writes to each. *)
Definition level_name (level : Z) : list Z := level_names !!! Z.to_nat level.
Definition level_color (level : Z) : list Z := level_colors !!! Z.to_nat level.

Definition console_line (color : bool) (level ts : Z) (tc : list Z) : list Z :=
  (if color then level_color level else []) ++
  [91] ++ int_text (i32 ts) ++ str "] [" ++ level_name level ++ str "] " ++
  (if color then color_reset else []) ++ tc.

Definition ring_record (level ts : Z) (tb : list Z) : list Z :=
  [91] ++ numeral 10 ts ++ str "] [" ++ level_name level ++ str "] " ++ tb.

(** The time stamp of the next read of the clock. *)
Definition stamp (s : kstate) : Z := u64 (ks_rdtime s (ks_reads s)) / 10000.

Definition klogged (level : Z) (tc tb : list Z) (s : kstate) : kstate :=
  upd_ks_klog (upd_kl_count (fun n => i32 (n + 1)))
    (logs (console_line (negb (kl_use_color (ks_klog s) =? 0)) level (stamp s) tc)
          (ring_record level (stamp s) tb)
       (upd_ks_reads S (upd_ks_klog (upd_kl_total_logs (fun n => i32 (n + 1))) s))).

(** Two states that differ at most in the console, the ring and the number of
    clock reads: what logging may change. *)
Definition logging_only (s s' : kstate) : Prop :=
  s' = set_ks_uart (ks_uart s') (set_ks_klog (ks_klog s') (set_ks_reads (ks_reads s') s)).

(** ** Theorems: the ring *)

Lemma kl_push_ok st c : kl_ok st -> kl_ok (kl_push st c).
Proof.
  unfold kl_ok, kl_push, LOG_BUFSIZE. intros (Hl & Hh & Ht).
  rewrite !Z.rem_mod_nonneg by lia.
  pose proof (Z.mod_pos_bound (kl_head st + 1) 4096).
  pose proof (Z.mod_pos_bound (kl_tail st + 1) 4096).
  fields. destruct (_ =? _); fields; rewrite length_insert; repeat split; try lia.
  all: rewrite Z.rem_mod_nonneg by lia; lia.
Qed.

Lemma kl_puts_ok t st : kl_ok st -> kl_ok (kl_puts t st).
Proof. revert st; induction t; simpl; auto using kl_push_ok. Qed.

Lemma used_le st : (used st <= CAPACITY)%nat.
Proof.
  unfold used, CAPACITY, LOG_BUFSIZE.
  pose proof (Z.mod_pos_bound (kl_head st - kl_tail st) 4096). lia.
Qed.

Lemma length_contents st : length (contents st) = used st.
Proof. unfold contents. rewrite length_map, length_upto. lia. Qed.

Lemma lookup_contents st i :
  contents st !! i =
  if decide (i < used st)%nat
  then Some (kl_buffer st !!! Z.to_nat ((kl_tail st + Z.of_nat i) mod LOG_BUFSIZE))
  else None.
Proof.
  unfold contents. rewrite lookup_map_upto. do 2 case_decide; try lia; reflexivity.
Qed.

(** Whether the ring is full, in terms of its indices. *)
Lemma full_iff st :
  kl_ok st -> (Z.rem (kl_head st + 1) LOG_BUFSIZE =? kl_tail st) = bool_decide (used st = CAPACITY).
Proof.
  unfold kl_ok, used, CAPACITY, LOG_BUFSIZE. intros (_ & Hh & Ht).
  rewrite Z.rem_mod_nonneg by lia. case_bool_decide; mlia.
Qed.

(** One more byte in a ring that is not full, and in a full one. *)
Lemma used_push st c :
  kl_ok st ->
  used (kl_push st c) = if bool_decide (used st = CAPACITY) then CAPACITY else S (used st).
Proof.
  intros Hok. pose proof (full_iff st Hok) as Hfull. destruct Hok as (Hl & Hh & Ht).
  unfold kl_push. fields. rewrite Hfull.
  unfold CAPACITY, LOG_BUFSIZE, used in *.
  rewrite !Z.rem_mod_nonneg in * by lia.
  case_bool_decide; fields; unfold LOG_BUFSIZE in *; rewrite ?Z.rem_mod_nonneg by lia; mlia.
Qed.

Lemma contents_push st c :
  kl_ok st -> contents (kl_push st c) = keep_last CAPACITY (contents st ++ [u8 c]).
Proof.
  intros Hok. pose proof (full_iff st Hok) as Hfull. pose proof (used_le st) as Hle.
  pose proof (used_push st c Hok) as Hused.
  assert (Z.of_nat (used st) = (kl_head st - kl_tail st) mod 4096) as Hu.
  { unfold used, LOG_BUFSIZE. rewrite Z2Nat.id; [reflexivity|].
    apply Z.mod_pos_bound. lia. }
  destruct Hok as (Hl & Hh & Ht). apply list_eq. intros i.
  rewrite lookup_keep_last, length_app, length_contents, lookup_contents, Hused.
  rewrite lookup_app, length_contents, lookup_contents.
  unfold kl_push. fields. rewrite Hfull. cbn [length].
  unfold CAPACITY, LOG_BUFSIZE in *. rewrite !Z.rem_mod_nonneg in * by lia.
  case_bool_decide as Hf; fields.
  - rewrite ?Z.rem_mod_nonneg by lia. rewrite Zplus_mod_idemp_l, Hf in *.
    replace (Z.to_nat (4096 - 1) + 1 - Z.to_nat (4096 - 1) + i)%nat with (S i) by lia.
    repeat case_decide; try lia.
    + f_equal. rewrite list_lookup_total_insert_ne by mlia. do 3 f_equal. lia.
    + replace (S i - Z.to_nat (4096 - 1))%nat with O by lia. simpl. f_equal.
      replace (Z.to_nat _) with (Z.to_nat (kl_head st)) by mlia.
      now rewrite list_lookup_total_insert_eq by lia.
    + symmetry. apply lookup_ge_None_2. simpl. lia.
  - replace (used st + 1 - Z.to_nat (4096 - 1) + i)%nat with i by lia.
    repeat case_decide; try lia.
    + f_equal. rewrite list_lookup_total_insert_ne by mlia. reflexivity.
    + replace (i - used st)%nat with O by lia. simpl. f_equal.
      replace (Z.to_nat _) with (Z.to_nat (kl_head st)) by mlia.
      now rewrite list_lookup_total_insert_eq by lia.
    + symmetry. apply lookup_ge_None_2. simpl. lia.
Qed.

Lemma contents_puts t st :
  kl_ok st ->
  contents (kl_puts t st) = keep_last CAPACITY (contents st ++ map u8 t).
Proof.
  revert st; induction t as [|c t IH]; intros st Hok; simpl.
  - rewrite app_nil_r, keep_last_small; [reflexivity|].
    rewrite length_contents. apply used_le.
  - rewrite IH, contents_push, keep_last_app by auto using kl_push_ok.
    now rewrite <- app_assoc.
Qed.

(** ** Theorems: what the operations write *)

Lemma logs_logs tc1 tb1 tc2 tb2 s :
  logs tc2 tb2 (logs tc1 tb1 s) = logs (tc1 ++ tc2) (tb1 ++ tb2) s.
Proof.
  unfold logs, kl_puts, upd_ks_uart, upd_ks_klog. fields.
  now rewrite emit_app, <- app_assoc, fold_left_app.
Qed.

Lemma logs_nil s : logs [] [] s = s.
Proof. unfold logs, upd_ks_uart, upd_ks_klog. fields. rewrite app_nil_r. now destruct s. Qed.

Lemma logs_ok tc tb s : kl_ok (ks_klog s) -> kl_ok (ks_klog (logs tc tb s)).
Proof. intros H. unfold logs. fields. now apply kl_puts_ok. Qed.
#[export] Hint Resolve logs_ok : kern.

Lemma log_putc_logs c s :
  kl_ok (ks_klog s) -> log_putc c s = Ok tt (logs [] [c] s).
Proof.
  intros (Hl & Hh & Ht). unfold log_putc, bind, gets. cbn [obind].
  rewrite lset_Some by lia. cbn [of_opt obind]. unfold ret, modify, logs.
  unfold upd_ks_uart. cbn [emit map concat]. rewrite app_nil_r. now destruct s.
Qed.

Lemma log_puts_logs t s :
  kl_ok (ks_klog s) -> log_puts t s = Ok tt (logs [] t s).
Proof.
  unfold log_puts. revert s; induction t as [|c t IH]; intros s Hok; cbn [for_each].
  - now rewrite logs_nil.
  - rewrite (bind_Ok _ _ _ _ _ (log_putc_logs c s Hok)), IH by auto with kern.
    now rewrite logs_logs.
Qed.

Lemma printf_logs fmt ap t s :
  fmt_text fmt ap = Some t ->
  printf fmt ap s = Ok (i32 (Z.of_nat (length t))) (logs t [] s).
Proof.
  intros H. etransitivity; [exact (printf_loop_emit fmt ap 0 s)|].
  rewrite H. unfold logs. now destruct s.
Qed.

Lemma digits_loop_digits fuel size n buf s :
  0 <= n < 10 ^ Z.of_nat fuel ->
  (length buf + length (digits fuel n 10) <= size)%nat ->
  digits_loop fuel size n buf s = Ok (buf ++ digits fuel n 10) s.
Proof.
  revert n buf; induction fuel as [|fuel IH]; intros n buf Hn Hl.
  - simpl in *. assert (n = 0) as -> by lia. simpl. now rewrite app_nil_r.
  - cbn [digits_loop digits] in *.
    destruct (Z.ltb_spec 0 n), (Z.eqb_spec n 0); try lia.
    + cbn [length] in Hl. rewrite decide_True by lia.
      rewrite Nat2Z.inj_succ, Z.pow_succ_r in Hn by lia.
      rewrite IH.
      * rewrite <- app_assoc. unfold digit.
        destruct (Z.ltb_spec (n mod 10) 10); [reflexivity|mlia].
      * split; [apply Z.div_pos; lia|apply Z.div_lt_upper_bound; lia].
      * rewrite length_app. cbn [length]. lia.
    + unfold ret. now rewrite app_nil_r.
Qed.

(** The number of rounds does not matter once it is enough. *)
Lemma digits_fuel f1 f2 n base :
  2 <= base -> 0 <= n < base ^ Z.of_nat f1 -> n < base ^ Z.of_nat f2 ->
  digits f1 n base = digits f2 n base.
Proof.
  intros Hb. revert f2 n; induction f1 as [|f1 IH]; intros [|f2] n H1 H2; cbn [digits];
    destruct (Z.eqb_spec n 0); try reflexivity; try (simpl in *; lia).
  rewrite !Nat2Z.inj_succ, !Z.pow_succ_r in * by lia. f_equal. apply IH.
  - split; [apply Z.div_pos; lia|apply Z.div_lt_upper_bound; lia].
  - apply Z.div_lt_upper_bound; lia.
Qed.

Lemma log_print_num_logs n s :
  kl_ok (ks_klog s) -> 0 <= n < 2 ^ 64 ->
  log_print_num n s = Ok tt (logs [] (numeral 10 n) s).
Proof.
  intros Hok Hn. unfold log_print_num, numeral.
  destruct (n =? 0); [now apply log_putc_logs|].
  rewrite (bind_Ok _ _ _ (digits 64 n 10) s); [now apply log_puts_logs|].
  rewrite digits_loop_digits; [reflexivity|lia|].
  pose proof (u64_numeral_fits n 10 ltac:(lia) Hn). cbn [length]. lia.
Qed.

(** The [%d] case: the sign, the digits, and nothing for [-INT_MIN]. *)
Lemma ring_int_digits v s :
  - 2 ^ 31 <= v < 2 ^ 31 ->
  let v' := if v <? 0 then i32 (- v) else v in
  digits_loop 32 16 v' (if v' =? 0 then [48] else []) s
  = Ok (rev (if v =? - 2 ^ 31 then [] else numeral 10 (Z.abs v))) s.
Proof.
  intros Hv. cbn zeta. destruct (Z.eqb_spec v (- 2 ^ 31)) as [->|Hm]; [reflexivity|].
  assert ((if v <? 0 then i32 (- v) else v) = Z.abs v) as ->.
  { destruct (Z.ltb_spec v 0); [rewrite i32_id|]; lia. }
  unfold numeral. destruct (Z.eqb_spec (Z.abs v) 0) as [E|E]; [now rewrite E|].
  rewrite rev_involutive, digits_loop_digits; [|lia|].
  - now rewrite (digits_fuel 32 64) by lia.
  - pose proof (length_digits 32 (Z.abs v) 10 10 ltac:(lia) ltac:(lia)).
    cbn [length]. lia.
Qed.

Lemma klog_conv_logs f ap s :
  kl_ok (ks_klog s) ->
  klog_conv f ap s =
  match klog_conv_text f ap with
  | Some (tc, tb, ap') => Ok ap' (logs tc tb s)
  | None => Fault
  end.
Proof.
  intros Hok. unfold klog_conv, klog_conv_text, va_int, va_str, bind, ret, fault.
  destruct (f =? 100); [|destruct (f =? 120); [|destruct (f =? 115);
    [|destruct (f =? 99); [|destruct (f =? 37)]]]].
  1-4: destruct ap as [|[z|p] ap]; cbn [obind]; try reflexivity.
  - erewrite printf_logs by reflexivity. cbn [obind].
    pose proof (i32_range z) as Hv. rewrite (i32_id (i32 z)), app_nil_r by lia.
    pose proof (fun s => ring_int_digits (i32 z) s Hv) as Hd. cbn zeta in Hd.
    unfold ring_int. revert Hd. destruct (Z.ltb_spec (i32 z) 0); intros Hd.
    + rewrite log_putc_logs by auto with kern. cbn [obind].
      rewrite Hd. cbn [obind]. rewrite rev_involutive, log_puts_logs by auto with kern.
      cbn [obind]. rewrite !logs_logs, app_nil_r, Z.abs_neq by lia. reflexivity.
    + cbn [obind]. rewrite Hd. cbn [obind]. rewrite rev_involutive, log_puts_logs by auto with kern.
      cbn [obind]. rewrite !logs_logs, app_nil_r, Z.abs_eq by lia.
      now destruct (Z.eqb_spec (i32 z) (- 2 ^ 31)); [lia|].
  - erewrite printf_logs by reflexivity. cbn [obind].
    pose proof (u32_range z). rewrite (u32_id (u32 z)), app_nil_r by lia. reflexivity.
  - erewrite printf_logs by reflexivity. cbn [obind].
    rewrite log_puts_logs by auto with kern. cbn [obind].
    now rewrite logs_logs, !app_nil_r.
  - erewrite printf_logs by reflexivity. cbn [obind].
    rewrite log_putc_logs by auto with kern. cbn [obind].
    pose proof (u8_range z). rewrite logs_logs. unfold u8. now rewrite Z.mod_mod by lia.
  - erewrite printf_logs by reflexivity. cbn [obind].
    rewrite log_putc_logs by auto with kern. cbn [obind]. now rewrite logs_logs.
  - erewrite printf_logs by reflexivity. cbn [obind].
    do 2 (rewrite log_putc_logs by auto with kern; cbn [obind]). now rewrite !logs_logs.
Qed.

Lemma klog_loop_logs fmt : forall ap s,
  kl_ok (ks_klog s) ->
  klog_loop fmt ap s =
  match klog_text fmt ap with
  | Some (tc, tb) => Ok tt (logs tc tb s)
  | None => Fault
  end.
Proof.
  induction fmt as [fmt IH] using (induction_ltof1 _ (@length Z)).
  unfold ltof in IH. intros ap s Hok. destruct fmt as [|c fmt].
  { cbn. now rewrite logs_nil. }
  cbn [klog_loop klog_text]. destruct (negb (c =? 37)).
  - unfold bind. erewrite printf_logs by reflexivity. cbn [obind].
    rewrite log_putc_logs by auto with kern. cbn [obind].
    rewrite IH by (auto with kern; cbn [length]; lia).
    destruct (klog_text fmt ap) as [[tc tb]|]; [|reflexivity].
    cbn [mbind option_bind]. now rewrite !logs_logs.
  - destruct fmt as [|f fmt]; [cbn; now rewrite logs_nil|].
    unfold bind. rewrite klog_conv_logs by auto.
    destruct (klog_conv_text f ap) as [[[tc1 tb1] ap']|]; cbn [mbind option_bind obind];
      [|reflexivity].
    rewrite IH by (auto with kern; cbn [length]; lia).
    destruct (klog_text fmt ap') as [[tc tb]|]; [|reflexivity].
    cbn [mbind option_bind]. now rewrite logs_logs.
Qed.

Lemma color_logs b t s :
  (if b =? 0 then ret 0 else printf (str "%s") [AStr (Some t)]) s
  = Ok (if b =? 0 then 0 else i32 (Z.of_nat (length t)))
       (logs (if negb (b =? 0) then t else []) [] s).
Proof.
  destruct (b =? 0); cbn [negb]; [now rewrite logs_nil|].
  rewrite (printf_logs _ _ (t ++ [])) by reflexivity. now rewrite app_nil_r.
Qed.

Lemma stamp_range s : 0 <= stamp s < 2 ^ 64.
Proof. unfold stamp. pose proof (u64_range (ks_rdtime s (ks_reads s))). mlia. Qed.

Lemma klog_run level fmt ap s :
  kl_ok (ks_klog s) -> kl_enabled (ks_klog s) <> 0 -> 0 <= level < 4 ->
  klog level fmt ap s =
  match klog_text fmt ap with
  | Some (tc, tb) => Ok tt (klogged level tc tb s)
  | None => Fault
  end.
Proof.
  intros Hok He Hl. unfold klog, gets, bind at 1. cbn [obind].
  destruct (Z.eqb_spec (kl_enabled (ks_klog s)) 0); [lia|].
  unfold LOG_LEVEL, LOG_DEBUG. destruct (Z.ltb_spec level 0); [lia|].
  unfold bind, modify, get_timestamp, get_time, bind, get, ret, modify. cbn [obind].
  fields.
  assert (lget level level_colors = Some (level_color level)) as ->.
  { apply lget_Some. split; [lia|]. apply list_lookup_lookup_total_lt. simpl. lia. }
  assert (lget level level_names = Some (level_name level)) as ->.
  { apply lget_Some. split; [lia|]. apply list_lookup_lookup_total_lt. simpl. lia. }
  cbn [of_opt obind ret]. change (u64 _ / 10000) with (stamp s).
  set (s1 := upd_ks_reads S _).
  assert (kl_ok (ks_klog s1)) as Hok1 by exact Hok.
  pose proof (color_logs (kl_use_color (ks_klog s))) as Hc.
  unfold ret in Hc. rewrite Hc. cbn [obind].
  rewrite (printf_logs _ _ ([91] ++ int_text (i32 (i32 (stamp s))) ++ str "] [" ++
             level_name level ++ str "] ")) by reflexivity. cbn [obind].
  rewrite Hc. cbn [obind]. rewrite log_putc_logs by auto with kern. cbn [obind].
  rewrite log_print_num_logs by auto using stamp_range with kern. cbn [obind].
  do 3 (rewrite log_puts_logs by auto with kern; cbn [obind]).
  rewrite !logs_logs, klog_loop_logs by auto with kern.
  destruct (klog_text fmt ap) as [[tc tb]|]; [|reflexivity]. cbn [obind].
  unfold klogged, console_line, ring_record. rewrite !logs_logs.
  pose proof (i32_range (stamp s)). rewrite (i32_id (i32 (stamp s))) by lia.
  do 3 f_equal; rewrite ?app_nil_r; rewrite <- ?app_assoc; reflexivity.
Qed.

Lemma contents_logs tc tb s :
  kl_ok (ks_klog s) ->
  contents (ks_klog (logs tc tb s)) = keep_last CAPACITY (contents (ks_klog s) ++ map u8 tb).
Proof. intros H. unfold logs. fields. now apply contents_puts. Qed.

Lemma klogged_ok level tc tb s :
  kl_ok (ks_klog s) -> kl_ok (ks_klog (klogged level tc tb s)).
Proof. intros H. apply (logs_ok _ _ (upd_ks_reads S _)), H. Qed.

Lemma klogged_logging_only level tc tb s : logging_only s (klogged level tc tb s).
Proof. reflexivity. Qed.

(** Writing bytes leaves the other fields alone. *)
Lemma kl_puts_frame t st :
  kl_total_logs (kl_puts t st) = kl_total_logs st /\
  kl_count (kl_puts t st) = kl_count st /\
  kl_enabled (kl_puts t st) = kl_enabled st /\
  kl_use_color (kl_puts t st) = kl_use_color st.
Proof.
  revert st; induction t as [|c t IH]; intros st; [now cbn|].
  cbn [kl_puts fold_left]. change (fold_left kl_push t) with (kl_puts t).
  destruct (IH (kl_push st c)) as (-> & -> & -> & ->).
  unfold kl_push. now destruct (_ =? _).
Qed.

(** The [dropped] counter counts the bytes that fell out of the ring. *)
Lemma dropped_push st c :
  kl_ok st ->
  kl_dropped (kl_push st c) =
    if bool_decide (used st = CAPACITY) then i32 (kl_dropped st + 1) else kl_dropped st.
Proof.
  intros Hok. pose proof (full_iff st Hok) as Hf. unfold kl_push. fields. rewrite Hf.
  now case_bool_decide.
Qed.

Lemma dropped_puts t st n :
  kl_ok st -> kl_dropped st = i32 n ->
  kl_dropped (kl_puts t st) =
    i32 (n + Z.of_nat (used st + length t - CAPACITY)).
Proof.
  revert st n; induction t as [|c t IH]; intros st n Hok Hd; cbn [kl_puts fold_left].
  - pose proof (used_le st). cbn [length]. rewrite Hd. f_equal. lia.
  - pose proof (used_le st) as Hle. pose proof (dropped_push st c Hok) as Hp.
    pose proof (used_push st c Hok) as Hu. change (fold_left kl_push t) with (kl_puts t).
    case_bool_decide as Hf.
    + rewrite (IH _ (n + 1)); [|now apply kl_push_ok|].
      * rewrite Hu, Hf. cbn [length]. f_equal. lia.
      * now rewrite Hp, Hd, i32_add_l.
    + rewrite (IH _ n); [|now apply kl_push_ok|congruence].
      rewrite Hu. cbn [length]. f_equal. lia.
Qed.

(** [klog] appends the record [[stamp] [LEVEL] message] to the ring, which
    keeps the last 4095 bytes it was given and adds to [dropped] the number of
    bytes that fell out; it prints the same line on the console (coloured, and
    with the [%x] arguments that the ring omits), counts one log, reads the
    clock once and changes nothing else.  Its only other outcome is undefined
    behaviour, when the arguments do not fit the format. *)
Theorem klog_appends_record level fmt ap s :
  kl_ok (ks_klog s) -> kl_enabled (ks_klog s) <> 0 -> 0 <= level < 4 ->
  kl_dropped (ks_klog s) = i32 (kl_dropped (ks_klog s)) ->
  match klog_text fmt ap with
  | None => klog level fmt ap s = Fault
  | Some (tc, tb) =>
      exists s', klog level fmt ap s = Ok tt s' /\
        let st := ks_klog s in
        let st' := ks_klog s' in
        let record := map u8 (ring_record level (stamp s) tb) in
        logging_only s s' /\ kl_ok st' /\
        contents st' = keep_last CAPACITY (contents st ++ record) /\
        kl_dropped st' = i32 (kl_dropped st +
          Z.of_nat (length (contents st ++ record) - CAPACITY)) /\
        kl_total_logs st' = i32 (kl_total_logs st + 1) /\
        ks_uart s' = ks_uart s ++
          emit (console_line (negb (kl_use_color st =? 0)) level (stamp s) tc) /\
        ks_reads s' = S (ks_reads s)
  end.
Proof.
  intros Hok He Hl Hd. pose proof (klog_run level fmt ap s Hok He Hl) as Hr.
  destruct (klog_text fmt ap) as [[tc tb]|]; [|exact Hr].
  exists (klogged level tc tb s). split; [exact Hr|]. cbn zeta.
  split; [apply klogged_logging_only|]. split; [now apply klogged_ok|].
  unfold klogged. fields. split; [|split; [|split; [|now split]]].
  - change (contents (upd_kl_count _ ?st)) with (contents st).
    now rewrite contents_logs by exact Hok.
  - unfold logs. fields.
    rewrite (dropped_puts _ _ (kl_dropped (ks_klog s))) by (try exact Hok; exact Hd).
    rewrite length_app, length_contents, length_map. reflexivity.
  - unfold logs. fields. now rewrite (proj1 (kl_puts_frame _ _)).
Qed.

Lemma log_dump_loop_shows k : forall fuel i s,
  kl_ok (ks_klog s) -> (i + k)%nat = used (ks_klog s) -> (k <= fuel)%nat ->
  log_dump_loop fuel ((kl_tail (ks_klog s) + Z.of_nat i) mod LOG_BUFSIZE) s =
  Ok tt (logs (map u8 (drop i (contents (ks_klog s)))) [] s).
Proof.
  induction k as [|k IH]; intros fuel i s Hok Hi Hf.
  - pose proof Hok as (Hl & Hh & Ht). unfold used, LOG_BUFSIZE in *.
    assert ((kl_tail (ks_klog s) + Z.of_nat i) mod 4096 = kl_head (ks_klog s)) as -> by mlia.
    rewrite drop_ge by (rewrite length_contents; unfold used, LOG_BUFSIZE; lia).
    destruct fuel; cbn [log_dump_loop]; unfold bind, gets; cbn [obind];
      rewrite Z.eqb_refl; now rewrite logs_nil.
  - destruct fuel as [|fuel]; [lia|]. pose proof Hok as (Hl & Hh & Ht).
    cbn [log_dump_loop]. unfold bind at 1, gets. cbn [obind].
    destruct (Z.eqb_spec ((kl_tail (ks_klog s) + Z.of_nat i) mod LOG_BUFSIZE)
                (kl_head (ks_klog s))) as [E|_].
    { exfalso. unfold used, LOG_BUFSIZE in *. mlia. }
    assert (contents (ks_klog s) !! i = Some (kl_buffer (ks_klog s) !!!
              Z.to_nat ((kl_tail (ks_klog s) + Z.of_nat i) mod LOG_BUFSIZE))) as Hc.
    { rewrite lookup_contents. now rewrite decide_True by lia. }
    assert (lget ((kl_tail (ks_klog s) + Z.of_nat i) mod LOG_BUFSIZE)
              (kl_buffer (ks_klog s)) = contents (ks_klog s) !! i) as ->.
    { rewrite Hc. apply lget_Some. unfold LOG_BUFSIZE in *.
      split; [mlia|]. apply list_lookup_lookup_total_lt. mlia. }
    rewrite Hc. cbn [of_opt]. unfold bind, ret. cbn [obind].
    rewrite (printf_logs _ _ [u8 (contents (ks_klog s) !!! i)]); cycle 1.
    { rewrite (list_lookup_total_correct _ _ _ Hc). reflexivity. }
    cbn [obind].
    replace (Z.rem _ _) with
      ((kl_tail (ks_klog s) + Z.of_nat (S i)) mod LOG_BUFSIZE).
    2: { unfold LOG_BUFSIZE. rewrite Z.rem_mod_nonneg by mlia.
         rewrite Zplus_mod_idemp_l. f_equal. lia. }
    set (s1 := logs _ [] s). assert (ks_klog s1 = ks_klog s) as E by reflexivity.
    specialize (IH fuel (S i) s1). rewrite E in IH.
    rewrite IH by (auto; lia). subst s1.
    now rewrite logs_logs, (drop_S _ _ _ Hc), (list_lookup_total_correct _ _ _ Hc).
Qed.

(** [log_dump] prints exactly the bytes the ring holds, oldest first, between
    its two banner lines; it ends for every ring and changes nothing else. *)
Theorem log_dump_shows_contents s :
  kl_ok (ks_klog s) ->
  log_dump s = Ok tt (upd_ks_uart (fun u => u ++
    emit ([10] ++ str "=== Log Buffer Dump ===" ++ [10] ++
          map u8 (contents (ks_klog s)) ++
          [10] ++ str "=== End of Log ===" ++ [10])) s).
Proof.
  intros Hok. unfold log_dump, bind.
  rewrite (printf_logs _ _ ([10] ++ str "=== Log Buffer Dump ===" ++ [10])) by reflexivity.
  unfold gets. cbn [obind].
  set (s1 := logs _ [] s). assert (ks_klog s1 = ks_klog s) as E by reflexivity.
  pose proof (log_dump_loop_shows (used (ks_klog s)) (Z.to_nat LOG_BUFSIZE) O s1) as Hl.
  rewrite E in Hl. pose proof Hok as (_ & _ & Ht). pose proof (used_le (ks_klog s)) as Hu.
  rewrite Z.add_0_r, Z.mod_small in Hl by exact Ht.
  rewrite E, Hl; [|exact Hok|reflexivity|unfold CAPACITY, LOG_BUFSIZE in *; lia].
  cbn [obind]. rewrite (printf_logs _ _ ([10] ++ str "=== End of Log ===" ++ [10]))
    by reflexivity.
  subst s1. rewrite !logs_logs, drop_0. unfold ret, logs.
  rewrite <- !app_assoc. now destruct s.
Qed.

(** [log_clear] leaves in the ring only the record of its own message. *)
Theorem log_clear_keeps_its_message s :
  kl_ok (ks_klog s) -> kl_enabled (ks_klog s) <> 0 ->
  exists s', log_clear s = Ok tt s' /\ logging_only s s' /\ kl_ok (ks_klog s') /\
    contents (ks_klog s') =
      map u8 (ring_record LOG_INFO (stamp s) (str "Log buffer cleared" ++ [10])) /\
    kl_count (ks_klog s') = 1.
Proof.
  intros (Hl & _ & _) He. unfold log_clear, bind, modify. cbn [obind].
  set (s1 := upd_ks_klog _ s).
  assert (kl_ok (ks_klog s1)) as Hok1 
    by (unfold kl_ok, s1; fields; unfold LOG_BUFSIZE in *; lia).
  unfold LOG_I. rewrite klog_run by (auto; unfold LOG_INFO; lia).
  change (klog_text _ _) with
    (Some (map u8 (str "Log buffer cleared" ++ [10]), str "Log buffer cleared" ++ [10])).
  eexists. split; [reflexivity|]. split; [reflexivity|].
  split; [now apply klogged_ok|]. split.
  - unfold klogged.
    change (contents (ks_klog (upd_ks_klog (upd_kl_count ?f) ?s)))
      with (contents (ks_klog s)).
    rewrite contents_logs by exact Hok1.
    change (contents (ks_klog (upd_ks_reads _ _))) with (@nil Z).
    change (stamp s1) with (stamp s). cbn [app]. apply keep_last_small.
    rewrite length_map. unfold ring_record. rewrite !length_app. cbn [length].
    pose proof (stamp_range s). unfold numeral, CAPACITY, LOG_BUFSIZE.
    change (length (level_name _)) with 5%nat. change (length (str "] [")) with 3%nat.
    change (length (str "] ")) with 2%nat.
    change (length (str "Log buffer cleared")) with 18%nat.
    destruct (stamp s =? 0); [cbn [length]; lia|]. rewrite length_rev.
    pose proof (u64_numeral_fits (stamp s) 10). lia.
  - unfold klogged, logs. fields.
    now rewrite (proj1 (proj2 (kl_puts_frame _ _))).
Qed.

(** the usage that [log_stats] prints is the number of bytes in the ring. *)
Theorem log_stats_usage s :
  kl_ok (ks_klog s) ->
  exists t, log_stats s = Ok tt (upd_ks_uart (fun u => u ++ emit t) s) /\
    exists t1 t2, t = t1 ++ str "Buffer usage: " ++
      int_text (Z.of_nat (length (contents (ks_klog s)))) ++ str " / 4096 bytes" ++ [10] ++ t2.
Proof.
  intros Hok. unfold log_stats, bind, gets. cbn [obind].
  assert (Z.rem (kl_head (ks_klog s) - kl_tail (ks_klog s) + LOG_BUFSIZE) LOG_BUFSIZE
          = Z.of_nat (length (contents (ks_klog s)))) as ->.
  { destruct Hok as (_ & Hh & Ht). rewrite length_contents.
    unfold used, LOG_BUFSIZE in *. rewrite Z.rem_mod_nonneg by lia. mlia. }
  do 4 (erewrite printf_logs by reflexivity; cbn [obind]).
  rewrite (printf_logs _ _ (str "Buffer usage: " ++
    int_text (i32 (Z.of_nat (length (contents (ks_klog s))))) ++
    str " / 4096 bytes" ++ [10])) by reflexivity. cbn [obind].
  erewrite printf_logs by reflexivity. cbn [obind].
  rewrite !logs_logs, <- !app_assoc.
  match goal with |- context [logs (?a ++ ?b ++ ?c ++ ?d ++ _ ++ _ ++ _ ++ _ ++ ?e) _ s] =>
    set (before := a ++ b ++ c ++ d); set (after := e)
  end.
  exists (before ++ (str "Buffer usage: " ++
    int_text (i32 (Z.of_nat (length (contents (ks_klog s))))) ++
    str " / 4096 bytes" ++ [10]) ++ after).
  split; [unfold logs, ret, before; rewrite <- !app_assoc; now destruct s|].
  rewrite length_contents. pose proof (used_le (ks_klog s)) as Hu.
  rewrite (i32_id (Z.of_nat _)) by (unfold CAPACITY, LOG_BUFSIZE in *; lia).
  exists before, after. now rewrite <- !app_assoc.
Qed.

(** ** The theorems on a concrete run *)

Lemma demo_klog_ok : kl_ok (ks_klog demo_state).
Proof. unfold kl_ok. vm_compute. intuition congruence. Qed.

Lemma klog_appends_record_witness :
  exists s', klog LOG_WARN (str "n=%d,%x" ++ [10]) [AInt (-5); AInt 255] demo_state = Ok tt s' /\
    contents (ks_klog s') = str "[123456] [WARN ] n=-5," ++ [10] /\
    ks_uart s' = str "[123456] [WARN ] n=-5,ff" ++ [13; 10].
Proof.
  destruct (klog_appends_record LOG_WARN (str "n=%d,%x" ++ [10]) [AInt (-5); AInt 255]
              demo_state demo_klog_ok ltac:(discriminate) ltac:(unfold LOG_WARN; lia)
              ltac:(reflexivity)) as (s' & H & _ & _ & Hc & _ & _ & Hu & _).
  exists s'. split; [exact H|]. rewrite Hc, Hu. split; vm_compute; reflexivity.
Defined.

Lemma log_dump_shows_contents_witness :
  exists s', log_dump demo_state = Ok tt s' /\
    ks_uart s' = emit ([10] ++ str "=== Log Buffer Dump ===" ++ [10; 10] ++
                       str "=== End of Log ===" ++ [10]).
Proof.
  eexists. split; [exact (log_dump_shows_contents demo_state demo_klog_ok)|].
  vm_compute. reflexivity.
Defined.

Lemma log_clear_keeps_its_message_witness :
  exists s', log_clear demo_state = Ok tt s' /\
    contents (ks_klog s') = str "[123456] [INFO ] Log buffer cleared" ++ [10].
Proof.
  destruct (log_clear_keeps_its_message demo_state demo_klog_ok ltac:(discriminate))
    as (s' & H & _ & _ & Hc & _).
  exists s'. split; [exact H|]. rewrite Hc. vm_compute. reflexivity.
Defined.

Lemma log_stats_usage_witness :
  exists t, log_stats demo_state = Ok tt (upd_ks_uart (fun u => u ++ emit t) demo_state).
Proof.
  destruct (log_stats_usage demo_state demo_klog_ok) as (t & H & _). now exists t.
Defined.
