(* ===== verification/Bio.v ===== *)
(** * The buffer cache: kernel/bio.c

    Thirty buffers on a circular doubly linked list, most recently used first.
    The links are modelled as the code has them: [b_prev] and [b_next] are
    indices of [ks_bcache], in which [HEAD] is the list head.

    The specification is the logical disk: what [bread] shows of a block is the
    cached copy if there is one and the disk's otherwise ([lblk]).  The cache
    invariant [cache held] says the list is a permutation of the buffers, no
    block is cached twice, reference counts count the holders [held], and a
    buffer that may be recycled agrees with the disk. *)
From S2P Require Import Prelude State Printf.

(** ** Model *)

Definition HEAD : nat := NBUF.

(** Reading and updating the buffer [b] points to. *)
Definition getbuf (b : nat) : K buf := s <- get;; of_opt (ks_bcache s !! b).

Definition modbuf (b : nat) (f : buf -> buf) : K unit :=
  s <- get;;
  _ <- of_opt (ks_bcache s !! b);;
  modify (upd_ks_bcache (alter f b)).

(** The contract of [virtio_disk_rw] (kernel/virtio_disk.c): transfer the
    buffer's block, and clear [b->disk] on completion.  The sector number is
    computed in 32 bits, and the driver ignores the status the device returns:
    a block that is not on the disk transfers nothing. *)
Definition disk_rw (b : nat) (write : bool) : K unit :=
  s <- get;;
  bb <- getbuf b;;
  let k := u32 (b_blockno bb * (BSIZE / 512)) / 2 in
  _ <- match ks_disk s !! k with
       | None => ret tt
       | Some d =>
           if write
           then modify (fun s => upd_ks_disk (<[k := b_data bb]>)
                                   (upd_ks_writes (fun w => w ++ [(k, b_data bb)]) s))
           else modbuf b (set_b_data d)
       end;;
  modbuf b (set_b_disk 0).

(** The four assignments that put [b] behind the list head, in [binit] and in
    [brelse], and the two that take it out of the list, in [brelse]. *)
Definition insert_head (b : nat) : K unit :=
  h <- getbuf HEAD;;
  _ <- modbuf b (set_b_next (b_next h));;
  _ <- modbuf b (set_b_prev HEAD);;
  h <- getbuf HEAD;;
  _ <- modbuf (b_next h) (set_b_prev b);;
  modbuf HEAD (set_b_next b).

Definition unlink_buf (b : nat) : K unit :=
  bb <- getbuf b;;
  _ <- modbuf (b_next bb) (set_b_prev (b_prev bb));;
  bb <- getbuf b;;
  modbuf (b_prev bb) (set_b_next (b_next bb)).

Definition binit_buf (b : nat) : K unit :=
  _ <- insert_head b;;
  _ <- modbuf b (set_b_valid 0);;
  _ <- modbuf b (set_b_disk 0);;
  modbuf b (set_b_refcnt 0).

Definition binit : K unit :=
  _ <- modbuf HEAD (set_b_prev HEAD);;
  _ <- modbuf HEAD (set_b_next HEAD);;
  _ <- for_each (seq 0 NBUF) binit_buf;;
  _ <- printf (str "binit: buffer cache initialized" ++ [10]) [];;
  ret tt.

(** The two scans of [bget].  The loops change nothing before they return, so
    one that has made more than [NBUF] steps without meeting the head is
    caught in a cycle. *)
Fixpoint bget_hit (fuel : nat) (dev blockno : Z) (b : nat) : K (option nat) :=
  if decide (b = HEAD) then ret None
  else match fuel with
       | O => hang
       | S fuel' =>
           bb <- getbuf b;;
           if (b_dev bb =? dev) && (b_blockno bb =? blockno) then
             _ <- modbuf b (upd_b_refcnt (fun n => u32 (n + 1)));;
             ret (Some b)
           else bget_hit fuel' dev blockno (b_next bb)
       end.

Fixpoint bget_lru (fuel : nat) (dev blockno : Z) (b : nat) : K (option nat) :=
  if decide (b = HEAD) then ret None
  else match fuel with
       | O => hang
       | S fuel' =>
           bb <- getbuf b;;
           if (b_refcnt bb =? 0) && (b_disk bb =? 0) then
             _ <- modbuf b (fun bb => set_b_refcnt 1 (set_b_valid 0
                                        (set_b_blockno blockno (set_b_dev dev bb))));;
             ret (Some b)
           else bget_lru fuel' dev blockno (b_prev bb)
       end.

Definition bget (dev blockno : Z) : K nat :=
  h <- getbuf HEAD;;
  hit <- bget_hit NBUF dev blockno (b_next h);;
  match hit with
  | Some b => ret b
  | None =>
      h <- getbuf HEAD;;
      victim <- bget_lru NBUF dev blockno (b_prev h);;
      match victim with
      | Some b => ret b
      | None => panic (str "bget: no buffers")
      end
  end.

Definition bread (dev blockno : Z) : K nat :=
  b <- bget dev blockno;;
  bb <- getbuf b;;
  _ <- (if b_valid bb =? 0 then
          _ <- disk_rw b false;;
          _ <- modbuf b (set_b_valid 1);;
          modbuf b (set_b_disk 0)
        else ret tt);;
  ret b.

Definition bwrite (b : nat) : K unit := disk_rw b true.

Definition brelse (b : nat) : K unit :=
  _ <- modbuf b (upd_b_refcnt (fun n => u32 (n - 1)));;
  bb <- getbuf b;;
  if b_refcnt bb =? 0 then
    _ <- unlink_buf b;;
    insert_head b
  else ret tt.

(** Code of other files that writes into [b->data]. *)
Definition bdata (b : nat) : K (list Z) := bb <- getbuf b;; ret (b_data bb).
Definition set_bdata (b : nat) (d : list Z) : K unit := modbuf b (set_b_data d).

(** ** Specification *)

(** *** The list *)

(** From [a], [n] leads forwards through [l] to [z], and [p] leads back. *)
Fixpoint dchain (n p : nat -> nat) (a : nat) (l : list nat) (z : nat) : Prop :=
  match l with
  | [] => n a = z /\ p z = a
  | x :: l' => n a = x /\ p x = a /\ dchain n p x l' z
  end.

Definition nx (bc : list buf) (i : nat) : nat :=
  match bc !! i with Some b => b_next b | None => HEAD end.
Definition pv (bc : list buf) (i : nat) : nat :=
  match bc !! i with Some b => b_prev b | None => HEAD end.

(** [bc] is a ring of all the buffers, [lru] from the most to the least
    recently used. *)
Definition ring (bc : list buf) (lru : list nat) : Prop :=
  length bc = S NBUF /\ lru ≡ₚ seq 0 NBUF /\ dchain (nx bc) (pv bc) HEAD lru HEAD.

(** *** The contents *)

(** Buffer [i] caches block [k]. *)
Definition at_buf (s : kstate) (i : nat) (k : Z) : Prop :=
  (i < NBUF)%nat /\
  exists b, ks_bcache s !! i = Some b /\ b_valid b <> 0 /\ b_blockno b = k.

(** The contents of block [k] that [bread] shows. *)
Definition lblk (s : kstate) (k : Z) : option (list Z) :=
  match list_find (fun b => b_valid b <> 0 /\ b_blockno b = k)
          (take NBUF (ks_bcache s)) with
  | Some (_, b) => Some (b_data b)
  | None => ks_disk s !! k
  end.

(** Block [k] has been given to the log and not installed yet. *)
Definition dirty (s : kstate) (k : Z) : Prop :=
  exists i b, (i < NBUF)%nat /\ ks_bcache s !! i = Some b /\ b_blockno b = k /\ b_disk b <> 0.

(** The part of the invariant about one buffer: [held] lists the blocks that
    callers hold, one entry per reference. *)
Record buf_ok (held : list Z) (disk : gmap Z (list Z)) (b : buf) : Prop := {
  bo_dev : b_dev b = 0;
  bo_len : length (b_data b) = Z.to_nat BSIZE;
  bo_ref : b_refcnt b = Z.of_nat (count_occ Z.eq_dec held (b_blockno b));
  bo_invalid : b_valid b = 0 -> b_blockno b = 0 /\ b_disk b = 0;
  bo_valid : b_valid b <> 0 -> 0 < b_blockno b < 2 ^ 31 /\ is_Some (disk !! b_blockno b);
  bo_clean : b_valid b <> 0 -> b_refcnt b = 0 -> b_disk b = 0 ->
             disk !! b_blockno b = Some (b_data b) }.

Record cache (held : list Z) (s : kstate) : Prop := {
  ca_ring : exists lru, ring (ks_bcache s) lru;
  ca_bufs : forall i b, (i < NBUF)%nat -> ks_bcache s !! i = Some b ->
              buf_ok held (ks_disk s) b;
  ca_uniq : forall i j bi bj, (i < NBUF)%nat -> (j < NBUF)%nat ->
              ks_bcache s !! i = Some bi -> ks_bcache s !! j = Some bj ->
              b_blockno bi = b_blockno bj -> b_blockno bi <> 0 -> i = j;
  ca_held : forall k, k ∈ held -> exists i, at_buf s i k;
  ca_disk : forall k d, ks_disk s !! k = Some d -> length d = Z.to_nat BSIZE;
  ca_few : Z.of_nat (length held) < 2 ^ 31 }.

(** There are fewer than [NBUF] blocks held or dirty, so that one buffer can be
    recycled. *)
Definition room (held : list Z) (s : kstate) : Prop :=
  exists l, (length l < NBUF)%nat /\ forall k, k ∈ held \/ dirty s k -> k ∈ l.

(** Two states that differ at most in the cache. *)
Definition cache_only (s s' : kstate) : Prop := s' = set_ks_bcache (ks_bcache s') s.

(** ** Lemmas: the ring *)

Definition fupd (f : nat -> nat) (i v : nat) : nat -> nat :=
  fun j => if decide (j = i) then v else f j.

(** Decides the points of [fupd]s by equalities and memberships in context. *)
Ltac fupds := unfold fupd; repeat case_decide; subst; try congruence; try set_solver.

Lemma dchain_app n p a l1 x l2 z :
  dchain n p a (l1 ++ x :: l2) z <-> dchain n p a l1 x /\ dchain n p x l2 z.
Proof. revert a; induction l1 as [|y l1 IH]; intros a; cbn; [tauto|]. rewrite IH. tauto. Qed.

Lemma dchain_ext n p n' p' a l z :
  (forall i, i ∈ a :: l -> n i = n' i) -> (forall i, i ∈ l ++ [z] -> p i = p' i) ->
  dchain n p a l z -> dchain n' p' a l z.
Proof.
  revert a; induction l as [|x l IH]; intros a Hn Hp; cbn.
  - rewrite Hn, Hp by set_solver. auto.
  - rewrite Hn, Hp by set_solver. intros (H1 & H2 & H). split; [auto|]. split; [auto|].
    apply IH; [| |exact H]; intros i Hi; [apply Hn|apply Hp]; set_solver.
Qed.

(** Redirecting the end of a chain from [z] to [z']. *)
Lemma dchain_retarget n p a l z z' :
  NoDup (a :: l) -> z' ∉ l -> dchain n p a l z ->
  dchain (fupd n (p z) z') (fupd p z' (p z)) a l z' /\ p z ∈ a :: l.
Proof.
  revert a; induction l as [|x l IH]; intros a Hnd Hz; cbn.
  - intros [H1 H2]. rewrite H2. fupds.
  - intros (H1 & H2 & H). apply NoDup_cons in Hnd as [Ha Hnd].
    destruct (IH x) as [IH1 IH2]; [exact Hnd|set_solver|exact H|].
    split; [|set_solver]. split; [|split]; [fupds..|exact IH1].
Qed.

Lemma dchain_unlink n p l1 b l2 :
  NoDup (HEAD :: l1 ++ b :: l2) -> dchain n p HEAD (l1 ++ b :: l2) HEAD ->
  dchain (fupd n (p b) (n b)) (fupd p (n b) (p b)) HEAD (l1 ++ l2) HEAD.
Proof.
  intros Hnd H. apply dchain_app in H as [H1 H2].
  rewrite NoDup_cons, NoDup_app, NoDup_cons in Hnd.
  destruct Hnd as (Hh & Hnd1 & Hd & Hb & Hnd2).
  assert (NoDup (HEAD :: l1)) as Hnd' by (apply NoDup_cons; set_solver).
  destruct l2 as [|y l2].
  - cbn in H2. destruct H2 as [E1 E2]. rewrite E1, app_nil_r.
    apply dchain_retarget; [exact Hnd'|set_solver|exact H1].
  - cbn in H2. destruct H2 as (E1 & E2 & H2). rewrite E1. apply dchain_app.
    destruct (dchain_retarget n p HEAD l1 b y) as [H3 H4];
      [exact Hnd'|set_solver|exact H1|]. split; [exact H3|].
    apply NoDup_cons in Hnd2 as [Hy Hnd2].
    assert (p b ∉ y :: l2) as Hp.
    { apply elem_of_cons in H4 as [->|H4]; [set_solver|].
      specialize (Hd _ H4). set_solver. }
    eapply dchain_ext; [| |exact H2]; intros i Hi; unfold fupd; case_decide; set_solver.
Qed.

Lemma dchain_push n p l b :
  NoDup (HEAD :: b :: l) -> dchain n p HEAD l HEAD ->
  dchain (fupd (fupd n b (n HEAD)) HEAD b) (fupd (fupd p b HEAD) (n HEAD) b)
    HEAD (b :: l) HEAD.
Proof.
  rewrite !NoDup_cons. intros (Hh & Hb & Hnd) H.
  assert (b <> HEAD) by set_solver.
  destruct l as [|x l]; cbn in *.
  - destruct H as [H1 H2]. rewrite H1. split; [fupds|]. split; [fupds|]. split; fupds.
  - destruct H as (H1 & H2 & H). rewrite H1. apply NoDup_cons in Hnd as [Hx Hnd].
    repeat split; try fupds.
    eapply dchain_ext; [| |exact H]; intros i Hi; fupds.
Qed.

(** *** Updates of one buffer *)

(** A buffer without its links. *)
Definition payload (b : buf) : buf := set_b_prev O (set_b_next O b).

(** The two caches differ in the links only. *)
Definition same_payload (bc bc' : list buf) : Prop :=
  forall i, payload <$> bc !! i = payload <$> bc' !! i.

Lemma getbuf_run s i b : ks_bcache s !! i = Some b -> getbuf i s = Ok b s.
Proof. intros H. unfold getbuf, bind, get. cbn [obind]. now rewrite H. Qed.

Lemma modbuf_run s i f :
  (i < length (ks_bcache s))%nat -> modbuf i f s = Ok tt (set_ks_bcache (alter f i (ks_bcache s)) s).
Proof.
  intros [b H]%lookup_lt_is_Some. unfold modbuf, bind, get. cbn [obind]. now rewrite H.
Qed.

Lemma lookup_alter_buf f (bc : list buf) i j :
  alter f i bc !! j = if decide (i = j) then f <$> bc !! j else bc !! j.
Proof. case_decide; subst; [apply list_lookup_alter_eq|now apply list_lookup_alter_ne]. Qed.

(** Tactics for caches built with [alter]. *)
Ltac bufs := repeat
  (rewrite lookup_alter_buf || rewrite length_alter).

Lemma nx_set_next v i bc j :
  (i < length bc)%nat -> nx (alter (set_b_next v) i bc) j = fupd (nx bc) i v j.
Proof.
  intros [b H]%lookup_lt_is_Some. unfold nx, fupd. bufs.
  repeat case_decide; subst; try congruence. now rewrite H.
Qed.

Lemma pv_set_prev v i bc j :
  (i < length bc)%nat -> pv (alter (set_b_prev v) i bc) j = fupd (pv bc) i v j.
Proof.
  intros [b H]%lookup_lt_is_Some. unfold pv, fupd. bufs.
  repeat case_decide; subst; try congruence. now rewrite H.
Qed.

Lemma nx_alter f i bc j :
  (forall b, b_next (f b) = b_next b) -> nx (alter f i bc) j = nx bc j.
Proof. intros Hf. unfold nx. bufs. case_decide; [|done]. destruct (bc !! j); cbn; auto. Qed.

Lemma pv_alter f i bc j :
  (forall b, b_prev (f b) = b_prev b) -> pv (alter f i bc) j = pv bc j.
Proof. intros Hf. unfold pv. bufs. case_decide; [|done]. destruct (bc !! j); cbn; auto. Qed.

Lemma nx_Some bc i b : bc !! i = Some b -> b_next b = nx bc i.
Proof. unfold nx. now intros ->. Qed.
Lemma pv_Some bc i b : bc !! i = Some b -> b_prev b = pv bc i.
Proof. unfold pv. now intros ->. Qed.

Lemma same_payload_links f i bc :
  (forall b, payload (f b) = payload b) -> same_payload (alter f i bc) bc.
Proof. intros Hf j. bufs. case_decide; [|done]. destruct (bc !! j); cbn; [now rewrite Hf|done]. Qed.

#[export] Instance same_payload_equiv : Equivalence same_payload.
Proof.
  split; [intros bc i; reflexivity|intros b1 b2 H i; now rewrite H|].
  intros b1 b2 b3 H1 H2 i. now rewrite H1.
Qed.

Lemma ring_alter f i bc lru :
  (forall b, b_next (f b) = b_next b) -> (forall b, b_prev (f b) = b_prev b) ->
  ring bc lru -> ring (alter f i bc) lru.
Proof.
  intros Hn Hp (Hl & Hperm & H). split; [now rewrite length_alter|]. split; [exact Hperm|].
  eapply dchain_ext; [..|exact H]; intros; symmetry; [now apply nx_alter|now apply pv_alter].
Qed.

Lemma ring_NoDup bc lru : ring bc lru -> NoDup (HEAD :: lru).
Proof.
  intros (_ & Hp & _). apply NoDup_cons. split.
  - rewrite Hp, elem_of_seq. unfold HEAD. lia.
  - rewrite Hp. apply NoDup_seq.
Qed.

Lemma ring_elem bc lru i : ring bc lru -> i ∈ lru <-> (i < NBUF)%nat.
Proof. intros (_ & Hp & _). rewrite Hp, elem_of_seq. lia. Qed.

(** The neighbours of a node of a chain are nodes of it. *)
Lemma dchain_bounds n p a l z :
  dchain n p a l z -> forall x, x ∈ l -> n x ∈ l ++ [z] /\ p x ∈ a :: l.
Proof.
  revert a; induction l as [|y l IH]; intros a; cbn; [set_solver|].
  intros (H1 & H2 & H) x [->|Hx]%elem_of_cons.
  - split; [|set_solver]. destruct l as [|w l]; cbn in H; set_solver.
  - destruct (IH _ H x Hx). set_solver.
Qed.

(** *** [brelse] *)

Lemma set_bcache_set bc1 bc2 s :
  set_ks_bcache bc2 (set_ks_bcache bc1 s) = set_ks_bcache bc2 s.
Proof. reflexivity. Qed.

(** Unlinking [i] and putting it first, on caches. *)
Definition unlink (i : nat) (bc : list buf) : list buf :=
  let bc := alter (set_b_prev (pv bc i)) (nx bc i) bc in
  alter (set_b_next (nx bc i)) (pv bc i) bc.

Definition push_front (i : nat) (bc : list buf) : list buf :=
  let bc := alter (set_b_prev HEAD) i (alter (set_b_next (nx bc HEAD)) i bc) in
  alter (set_b_next i) HEAD (alter (set_b_prev i) (nx bc HEAD) bc).

Lemma ring_next_prev bc lru i :
  ring bc lru -> (i < NBUF)%nat ->
  (i < length bc)%nat /\ (HEAD < length bc)%nat /\
  (nx bc i < length bc)%nat /\ (pv bc i < length bc)%nat /\
  (nx bc HEAD < length bc)%nat /\ nx bc i <> i /\ pv bc i <> i.
Proof.
  intros Hr Hi. pose proof (ring_NoDup _ _ Hr) as Hnd.
  assert (i ∈ lru) as Hin by now apply (ring_elem _ _ _ Hr).
  assert (forall x, x ∈ HEAD :: lru -> (x < S NBUF)%nat) as Hb.
  { intros x [->|Hx]%elem_of_cons; [unfold HEAD; lia|].
    apply (ring_elem _ _ _ Hr) in Hx. lia. }
  destruct Hr as (Hl & _ & Hc). rewrite Hl.
  destruct (dchain_bounds _ _ _ _ _ Hc i Hin) as [Hn Hp].
  apply list_elem_of_split in Hin as (l1 & l2 & ->).
  apply dchain_app in Hc as [Hc1 Hc2].
  rewrite NoDup_cons, NoDup_app, NoDup_cons in Hnd.
  destruct Hnd as (Hh & Hnd1 & Hd & Hi2 & Hnd2).
  split; [apply Hb; set_solver|]. split; [unfold HEAD; lia|].
  split; [apply Hb; set_solver|]. split; [apply Hb; set_solver|]. split; [|split].
  - destruct l1 as [|x l1]; cbn in Hc1; [destruct Hc1 as [-> _]|destruct Hc1 as (-> & _)];
      apply Hb; set_solver.
  - destruct l2 as [|x l2]; cbn in Hc2; [destruct Hc2 as [-> _]|destruct Hc2 as (-> & _)];
      set_solver.
  - assert (pv bc i ∈ HEAD :: l1) as Hx.
    { apply (dchain_retarget _ _ _ _ _ i) in Hc1; [apply Hc1|apply NoDup_cons; set_solver|].
      intros ?. eapply Hd; set_solver. }
    intros E. rewrite E in Hx. apply elem_of_cons in Hx as [->|Hx]; [set_solver|].
    eapply Hd; set_solver.
Qed.

Lemma unlink_chain bc l1 i l2 :
  ring bc (l1 ++ i :: l2) ->
  dchain (nx (unlink i bc)) (pv (unlink i bc)) HEAD (l1 ++ l2) HEAD.
Proof.
  intros Hr. pose proof (ring_NoDup _ _ Hr) as Hnd.
  assert (i < NBUF)%nat as Hi by (apply (ring_elem _ _ _ Hr); set_solver).
  destruct (ring_next_prev _ _ _ Hr Hi) as (H1 & H2 & H3 & H4 & H5 & H6 & H7).
  destruct Hr as (_ & _ & Hc). apply dchain_unlink in Hc; [|exact Hnd].
  unfold unlink. cbn zeta. rewrite nx_alter by done.
  assert (pv (alter (set_b_prev (pv bc i)) (nx bc i) bc) i = pv bc i) as ->.
  { rewrite pv_set_prev by done. unfold fupd. now rewrite decide_False by congruence. }
  eapply dchain_ext; [..|exact Hc]; intros j _.
  - rewrite nx_set_next by (rewrite length_alter; lia).
    unfold fupd. case_decide; [done|]. now rewrite nx_alter.
  - rewrite (pv_alter (set_b_next _)) by done. now rewrite pv_set_prev.
Qed.

Lemma push_front_chain bc l i :
  NoDup (HEAD :: i :: l) -> (i < length bc)%nat -> (HEAD < length bc)%nat ->
  (nx bc HEAD < length bc)%nat ->
  dchain (nx bc) (pv bc) HEAD l HEAD ->
  dchain (nx (push_front i bc)) (pv (push_front i bc)) HEAD (i :: l) HEAD.
Proof.
  intros Hnd Hi Hh Hn Hc. apply (dchain_push _ _ _ i) in Hc; [|exact Hnd].
  assert (i <> HEAD) by (apply NoDup_cons in Hnd; set_solver).
  unfold push_front. cbn zeta.
  set (bc1 := alter (set_b_next (nx bc HEAD)) i bc).
  assert (nx (alter (set_b_prev HEAD) i bc1) HEAD = nx bc HEAD) as ->.
  { rewrite nx_alter by done. unfold bc1. rewrite nx_set_next by done. fupds. }
  eapply dchain_ext; [..|exact Hc]; intros j _.
  - rewrite nx_set_next by (unfold bc1; rewrite !length_alter; lia).
    unfold fupd at 1. unfold fupd at 2. case_decide; [done|].
    rewrite !(nx_alter (set_b_prev _)) by done. unfold bc1. now rewrite nx_set_next.
  - rewrite (pv_alter (set_b_next _)) by done.
    rewrite pv_set_prev by (unfold bc1; rewrite !length_alter; lia).
    unfold fupd at 1. unfold fupd at 2. case_decide; [done|].
    rewrite pv_set_prev by (unfold bc1; rewrite length_alter; lia).
    unfold fupd. case_decide; [done|]. unfold bc1. now rewrite (pv_alter (set_b_next _)).
Qed.

Lemma getbuf_links s i :
  (i < length (ks_bcache s))%nat ->
  exists b, getbuf i s = Ok b s /\ ks_bcache s !! i = Some b /\
            b_next b = nx (ks_bcache s) i /\ b_prev b = pv (ks_bcache s) i.
Proof.
  intros [b H]%lookup_lt_is_Some. exists b. split; [now apply getbuf_run|].
  split; [exact H|]. split; [now apply nx_Some|now apply pv_Some].
Qed.

(** Executes the next [getbuf] or [modbuf], with the side condition on indices
    by [tac]. *)
Ltac read_links b Hb tac :=
  let Hg := fresh in let Hn := fresh in let Hp := fresh in
  match goal with
  | |- bind (getbuf ?i) _ ?s = _ =>
      destruct (getbuf_links s i) as (b & Hg & Hb & Hn & Hp); [tac|];
      rewrite (bind_Ok _ _ _ _ _ Hg); clear Hg; rewrite ?Hn, ?Hp; clear Hn Hp
  end.
Ltac write_links tac :=
  match goal with
  | |- bind (modbuf ?i ?f) _ ?s = _ =>
      rewrite (bind_Ok _ _ _ _ _ (modbuf_run s i f ltac:(tac)));
      rewrite ?set_bcache_set; fields
  end.

Lemma ring_unlink_lengths i bc : length (unlink i bc) = length bc.
Proof. unfold unlink. cbn zeta. now rewrite !length_alter. Qed.

Lemma ring_move bc l1 i l2 :
  ring bc (l1 ++ i :: l2) -> ring (push_front i (unlink i bc)) (i :: l1 ++ l2).
Proof.
  intros Hr. pose proof (unlink_chain _ _ _ _ Hr) as Hu.
  pose proof (ring_NoDup _ _ Hr) as Hnd.
  assert (HEAD :: i :: l1 ++ l2 ≡ₚ HEAD :: l1 ++ i :: l2) as Hperm
    by now rewrite Permutation_middle.
  destruct Hr as (Hl & Hp & _). split; [|split].
  - unfold push_front, unlink. cbn zeta. now rewrite !length_alter.
  - rewrite <- Hp. now rewrite Permutation_middle.
  - assert (i < NBUF)%nat as Hi.
    { assert (i ∈ seq 0 NBUF) as Hi by (rewrite <- Hp; set_solver).
      apply elem_of_seq in Hi. lia. }
    rewrite <- Hperm in Hnd.
    apply push_front_chain; rewrite ?ring_unlink_lengths, ?Hl; unfold HEAD in *;
      [exact Hnd|lia|lia| |exact Hu].
    assert (forall x, x ∈ (l1 ++ l2) ++ [NBUF] -> (x < S NBUF)%nat) as Hb.
    { intros x [Hx|Hx%list_elem_of_singleton]%elem_of_app; [|lia].
      assert (x ∈ seq 0 NBUF) as Hx' by (rewrite <- Hp; set_solver).
      apply elem_of_seq in Hx'. lia. }
    destruct (l1 ++ l2) as [|y l]; cbn in Hu; destruct Hu as (-> & _); apply Hb; set_solver.
Qed.

Lemma same_payload_move i bc : same_payload (push_front i (unlink i bc)) bc.
Proof.
  unfold push_front, unlink. cbn zeta.
  repeat (etransitivity; [apply same_payload_links; reflexivity|]). reflexivity.
Qed.

Lemma unlink_buf_run s i :
  let bc := ks_bcache s in
  (i < length bc)%nat -> (nx bc i < length bc)%nat -> (pv bc i < length bc)%nat ->
  nx bc i <> i -> unlink_buf i s = Ok tt (set_ks_bcache (unlink i bc) s).
Proof.
  intros bc Hi Hn Hp Hne. unfold unlink_buf.
  read_links b0 Hb0 ltac:(exact Hi). write_links ltac:(exact Hn).
  read_links b1 Hb1 ltac:(fields; rewrite length_alter; exact Hi). fields.
  rewrite modbuf_run; [reflexivity|]. fields. rewrite length_alter.
  rewrite pv_set_prev by exact Hn. unfold fupd. now rewrite decide_False.
Qed.

Lemma insert_head_run s i :
  let bc := ks_bcache s in
  (i < length bc)%nat -> (HEAD < length bc)%nat -> (nx bc HEAD < length bc)%nat ->
  i <> HEAD -> insert_head i s = Ok tt (set_ks_bcache (push_front i bc) s).
Proof.
  intros bc Hi Hh Hn Hne. unfold insert_head.
  read_links b0 Hb0 ltac:(exact Hh). write_links ltac:(exact Hi).
  write_links ltac:(fields; rewrite length_alter; exact Hi).
  read_links b1 Hb1 ltac:(fields; rewrite !length_alter; exact Hh). fields.
  write_links ltac:(fields; rewrite !length_alter, nx_alter, nx_set_next by done;
                    unfold fupd; case_decide; [congruence|exact Hn]).
  rewrite modbuf_run; [reflexivity|]. fields. now rewrite !length_alter.
Qed.

(** What [brelse] does: one reference less; the last one moves the buffer to
    the front of the list. *)
Lemma brelse_run s i b l1 l2 :
  ring (ks_bcache s) (l1 ++ i :: l2) -> ks_bcache s !! i = Some b ->
  let bc1 := alter (upd_b_refcnt (fun n => u32 (n - 1))) i (ks_bcache s) in
  brelse i s = Ok tt (set_ks_bcache
    (if u32 (b_refcnt b - 1) =? 0 then push_front i (unlink i bc1) else bc1) s).
Proof.
  intros Hr Hb bc1.
  assert (i < NBUF)%nat as Hi by (apply (ring_elem _ _ _ Hr); set_solver).
  assert (ring bc1 (l1 ++ i :: l2)) as Hr1 by now apply ring_alter.
  destruct (ring_next_prev _ _ _ Hr1 Hi) as (H1 & H2 & H3 & H4 & H5 & H6 & H7).
  pose proof (proj1 Hr1) as Hl1. pose proof (proj1 Hr) as Hl.
  unfold brelse. write_links ltac:(rewrite Hl; lia). fold bc1.
  assert (bc1 !! i = Some (upd_b_refcnt (fun n => u32 (n - 1)) b)) as Hb1.
  { unfold bc1. bufs. now rewrite decide_True, Hb by done. }
  rewrite (bind_Ok _ _ _ _ _ (getbuf_run (set_ks_bcache bc1 s) _ _ Hb1)). fields.
  destruct (u32 (b_refcnt b - 1) =? 0); [|reflexivity].
  rewrite (bind_Ok _ _ _ _ _ (unlink_buf_run (set_ks_bcache bc1 s) i H1 H3 H4 H6)). fields.
  rewrite set_bcache_set, (insert_head_run (set_ks_bcache (unlink i bc1) s) i);
    fields; rewrite ?ring_unlink_lengths; [reflexivity|exact H1|exact H2| |unfold HEAD; lia].
  pose proof (unlink_chain _ _ _ _ Hr1) as Hu. rewrite Hl1.
  assert (forall x, x ∈ l1 ++ l2 -> (x < S NBUF)%nat) as Hx.
  { intros x Hx. apply Nat.lt_lt_succ_r, (ring_elem _ _ _ Hr1). set_solver. }
  destruct (l1 ++ l2) as [|y l]; cbn in Hu; destruct Hu as (-> & _); [unfold HEAD; lia|].
  apply Hx. set_solver.
Qed.

(** *** The scans of [bget] *)

Lemma dchain_rev n p a l z : dchain n p a l z -> dchain p n z (rev l) a.
Proof.
  revert a; induction l as [|x l IH]; intros a; cbn; [tauto|].
  intros (H1 & H2 & H%IH). apply dchain_app. cbn. tauto.
Qed.

Lemma elem_of_rev (i : nat) l : i ∈ rev l <-> i ∈ l.
Proof. rewrite !list_elem_of_In. symmetry. apply in_rev. Qed.

Definition links_ok (l : list nat) (s : kstate) : Prop :=
  forall i, i ∈ l -> (i < NBUF)%nat /\ (i < length (ks_bcache s))%nat.

Lemma bget_hit_run s p dev k fuel l a :
  dchain (nx (ks_bcache s)) p a l HEAD -> links_ok l s -> (length l <= fuel)%nat ->
  (exists i b, i ∈ l /\ ks_bcache s !! i = Some b /\ b_dev b = dev /\ b_blockno b = k /\
     bget_hit fuel dev k (nx (ks_bcache s) a) s = Ok (Some i)
       (set_ks_bcache (alter (upd_b_refcnt (fun n => u32 (n + 1))) i (ks_bcache s)) s)) \/
  ((forall i b, i ∈ l -> ks_bcache s !! i = Some b -> ~ (b_dev b = dev /\ b_blockno b = k)) /\
   bget_hit fuel dev k (nx (ks_bcache s) a) s = Ok None s).
Proof.
  revert fuel a; induction l as [|i l IH]; intros fuel a Hc Hl Hf.
  - right. split; [set_solver|]. destruct Hc as [-> _]. destruct fuel; reflexivity.
  - destruct Hc as (-> & _ & Hc). destruct (Hl i) as [Hi Hlt]; [set_solver|].
    destruct fuel as [|fuel]; cbn [length] in Hf; [lia|]. cbn [bget_hit].
    rewrite decide_False by (unfold HEAD; lia).
    destruct (getbuf_links s i Hlt) as (b & Hg & Hb & Hn & _).
    rewrite (bind_Ok _ _ _ _ _ Hg), Hn.
    destruct (Z.eqb_spec (b_dev b) dev) as [Hd|Hd]; cbn [andb];
      [destruct (Z.eqb_spec (b_blockno b) k) as [Hk|Hk]|].
    1: { left. exists i, b. rewrite (bind_Ok _ _ _ _ _ (modbuf_run s i _ Hlt)). set_solver. }
    all: destruct (IH fuel i Hc) as [(j & bj & Hj & H)|[H1 H2]];
      [intros j Hj; apply Hl; set_solver|lia|left; exists j, bj; set_solver|].
    all: right; split; [|exact H2]; intros j bj [->|Hj]%elem_of_cons Hbj;
      [replace bj with b by congruence; tauto|eauto].
Qed.

Lemma bget_lru_run s n dev k fuel l a :
  dchain (pv (ks_bcache s)) n a l HEAD -> links_ok l s -> (length l <= fuel)%nat ->
  (exists l1 i l2 b, l = l1 ++ i :: l2 /\ ks_bcache s !! i = Some b /\
     b_refcnt b = 0 /\ b_disk b = 0 /\
     (forall j bj, j ∈ l1 -> ks_bcache s !! j = Some bj -> ~ (b_refcnt bj = 0 /\ b_disk bj = 0)) /\
     bget_lru fuel dev k (pv (ks_bcache s) a) s = Ok (Some i)
       (set_ks_bcache (alter (fun bb => set_b_refcnt 1 (set_b_valid 0
                          (set_b_blockno k (set_b_dev dev bb)))) i (ks_bcache s)) s)) \/
  ((forall j bj, j ∈ l -> ks_bcache s !! j = Some bj -> ~ (b_refcnt bj = 0 /\ b_disk bj = 0)) /\
   bget_lru fuel dev k (pv (ks_bcache s) a) s = Ok None s).
Proof.
  revert fuel a; induction l as [|i l IH]; intros fuel a Hc Hl Hf.
  - right. split; [set_solver|]. destruct Hc as [-> _]. destruct fuel; reflexivity.
  - destruct Hc as (-> & _ & Hc). destruct (Hl i) as [Hi Hlt]; [set_solver|].
    destruct fuel as [|fuel]; cbn [length] in Hf; [lia|]. cbn [bget_lru].
    rewrite decide_False by (unfold HEAD; lia).
    destruct (getbuf_links s i Hlt) as (b & Hg & Hb & _ & Hp).
    rewrite (bind_Ok _ _ _ _ _ Hg), Hp.
    destruct (Z.eqb_spec (b_refcnt b) 0) as [Hd|Hd]; cbn [andb];
      [destruct (Z.eqb_spec (b_disk b) 0) as [Hk|Hk]|].
    1: { left. exists [], i, l, b. rewrite (bind_Ok _ _ _ _ _ (modbuf_run s i _ Hlt)).
         set_solver. }
    all: destruct (IH fuel i Hc) as [(l1 & j & l2 & bj & -> & H1 & H2 & H3 & H4 & H5)|[H1 H2]];
      [intros j Hj; apply Hl; set_solver|lia| |].
    1,3: left; exists (i :: l1), j, l2, bj; repeat split; try assumption; try reflexivity;
      intros j' bj' [->|Hj']%elem_of_cons Hbj'; [replace bj' with b by congruence; tauto|eauto].
    all: right; split; [|exact H2]; intros j bj [->|Hj]%elem_of_cons Hbj;
      [replace bj with b by congruence; tauto|eauto].
Qed.

(** *** Contents *)

(** A valid buffer, by index and contents. *)
Definition cached (s : kstate) (i : nat) (b : buf) : Prop :=
  (i < NBUF)%nat /\ ks_bcache s !! i = Some b /\ b_valid b <> 0.

Lemma cached_at s i b : cached s i b -> at_buf s i (b_blockno b).
Proof. intros (H1 & H2 & H3). split; eauto. Qed.

Lemma at_cached s i k : at_buf s i k <-> exists b, cached s i b /\ b_blockno b = k.
Proof. unfold at_buf, cached. firstorder. Qed.

Lemma cached_pos held s i b : cache held s -> cached s i b -> 0 < b_blockno b < 2 ^ 31.
Proof.
  intros Hc (Hi & Hb & Hv). destruct (ca_bufs _ _ Hc i b Hi Hb). naive_solver.
Qed.

Lemma cached_uniq held s i j bi bj :
  cache held s -> cached s i bi -> cached s j bj -> b_blockno bi = b_blockno bj -> i = j.
Proof.
  intros Hc Ci Cj He. pose proof (cached_pos _ _ _ _ Hc Ci).
  destruct Ci as (? & ? & ?), Cj as (? & ? & ?).
  eapply (ca_uniq _ _ Hc i j bi bj); auto; lia.
Qed.

Lemma lookup_buf held s i :
  cache held s -> (i < NBUF)%nat -> exists b, ks_bcache s !! i = Some b.
Proof.
  intros Hc Hi. destruct (ca_ring _ _ Hc) as (lru & Hl & _).
  apply lookup_lt_is_Some. rewrite Hl. lia.
Qed.

Lemma lblk_at held s i b :
  cache held s -> cached s i b -> lblk s (b_blockno b) = Some (b_data b).
Proof.
  intros Hc Ci. unfold lblk.
  destruct (list_find _ _) as [[j bj]|] eqn:E.
  - apply list_find_Some in E as (E & [Hv Hk] & _).
    apply lookup_take_Some in E as [E Hj].
    assert (i = j) as <- by (eapply cached_uniq; [exact Hc|exact Ci|repeat split; eauto|congruence]).
    destruct Ci as (_ & Ci & _). congruence.
  - apply list_find_None in E. rewrite Forall_lookup in E.
    destruct Ci as (Hi & Hb & Hv). destruct (E i b); [|auto].
    rewrite lookup_take_lt; assumption.
Qed.

Lemma lblk_out s k :
  (forall i b, cached s i b -> b_blockno b <> k) -> lblk s k = ks_disk s !! k.
Proof.
  intros H. unfold lblk. destruct (list_find _ _) as [[j bj]|] eqn:E; [|reflexivity].
  apply list_find_Some in E as (E & [Hv Hk] & _). apply lookup_take_Some in E as [E Hj].
  destruct (H j bj); [repeat split; auto|exact Hk].
Qed.

(** What block [k] shows, by cases on whether it is cached. *)
Lemma lblk_cases held s k :
  cache held s ->
  (exists i b, cached s i b /\ b_blockno b = k /\ lblk s k = Some (b_data b)) \/
  ((forall i b, cached s i b -> b_blockno b <> k) /\ lblk s k = ks_disk s !! k).
Proof.
  intros Hc.
  destruct (list_find (fun b => b_valid b <> 0 /\ b_blockno b = k) (take NBUF (ks_bcache s)))
    as [[j bj]|] eqn:E.
  - left. apply list_find_Some in E as (E & [Hv Hk] & _).
    apply lookup_take_Some in E as [E Hj].
    assert (cached s j bj) as Cj by (repeat split; auto).
    exists j, bj. split; [exact Cj|]. split; [exact Hk|]. subst k. eapply lblk_at; eauto.
  - right. apply list_find_None in E. rewrite Forall_lookup in E.
    assert (forall i b, cached s i b -> b_blockno b <> k) as H.
    { intros i b (Hi & Hb & Hv) Hk. apply (E i b); [|auto].
      rewrite lookup_take_lt; assumption. }
    split; [exact H|]. now apply lblk_out.
Qed.

(** A dirty block is in exactly one buffer. *)
Lemma dirty_cached held s k :
  cache held s ->
  dirty s k <-> exists i b, cached s i b /\ b_blockno b = k /\ b_disk b <> 0.
Proof.
  intros Hc. unfold dirty, cached. split.
  - intros (i & b & Hi & Hb & Hk & Hd). exists i, b. repeat split; auto.
    intros Hv. destruct (ca_bufs _ _ Hc i b Hi Hb). naive_solver.
  - intros (i & b & (Hi & Hb & Hv) & Hk & Hd). eauto 10.
Qed.

(** *** Changing one buffer *)

Lemma cached_alter s i f j b' :
  cached (set_ks_bcache (alter f i (ks_bcache s)) s) j b' <->
  (j < NBUF)%nat /\ exists b, ks_bcache s !! j = Some b /\
     b' = (if decide (i = j) then f b else b) /\ b_valid b' <> 0.
Proof.
  unfold cached. fields. rewrite lookup_alter_buf. split.
  - intros (Hj & Hb & Hv). split; [exact Hj|]. case_decide.
    + apply fmap_Some in Hb as (b & ? & ->). eauto.
    + eauto.
  - intros (Hj & b & Hb & -> & Hv). split; [exact Hj|]. split; [|exact Hv].
    case_decide; rewrite Hb; reflexivity.
Qed.

Section change.
Context (held held' : list Z) (s : kstate) (i : nat) (b : buf) (f : buf -> buf).
Context (Hc : cache held s) (Hi : (i < NBUF)%nat) (Hb : ks_bcache s !! i = Some b).
Abbreviation s' := (set_ks_bcache (alter f i (ks_bcache s)) s).

Lemma cache_change :
  (forall x, b_next (f x) = b_next x) -> (forall x, b_prev (f x) = b_prev x) ->
  buf_ok held' (ks_disk s) (f b) ->
  (forall j bj, j <> i -> (j < NBUF)%nat -> ks_bcache s !! j = Some bj ->
     buf_ok held' (ks_disk s) bj /\ (b_blockno bj = b_blockno (f b) -> b_blockno bj = 0)) ->
  (forall k, k ∈ held' -> (b_valid (f b) <> 0 /\ b_blockno (f b) = k) \/
                          (exists j, j <> i /\ at_buf s j k)) ->
  Z.of_nat (length held') < 2 ^ 31 -> cache held' s'.
Proof.
  intros Hn Hp Hok Hothers Hheld Hfew. split; fields; try assumption.
  - destruct (ca_ring _ _ Hc) as (lru & Hr). exists lru. now apply ring_alter.
  - intros j bj Hj. rewrite lookup_alter_buf. case_decide; subst.
    + rewrite Hb. intros [= <-]. exact Hok.
    + intros Hbj. apply (Hothers j bj); auto.
  - intros j k bj bk Hj Hk. rewrite !lookup_alter_buf. repeat case_decide; subst; auto.
    + rewrite Hb. intros [= <-] Hbk E Hz. destruct (Hothers k bk) as [_ Hx]; auto. rewrite E in Hz. now destruct Hz; apply Hx.
    + rewrite Hb. intros Hbj [= <-] E Hz. destruct (Hothers j bj) as [_ Hx]; auto. now destruct Hz; apply Hx.
    + apply (ca_uniq _ _ Hc); auto.
  - intros k [[Hv Hk]|(j & Hj & Hj' & bj & H1 & H2 & H3)]%Hheld.
    + exists i. split; [exact Hi|]. exists (f b). fields.
      rewrite lookup_alter_buf, decide_True, Hb by done. auto.
    + exists j. split; [exact Hj'|]. exists bj. fields.
      rewrite lookup_alter_buf, decide_False by done. auto.
  - apply (ca_disk _ _ Hc).
Qed.

(** What the change does to the logical disk and to the dirty blocks. *)
Lemma lblk_change k :
  cache held' s' -> b_valid (f b) <> 0 ->
  lblk s' k = if decide (k = b_blockno (f b)) then Some (b_data (f b))
              else if decide (k = b_blockno b) then ks_disk s !! k else lblk s k.
Proof.
  intros Hc' Hv. case_decide as Hk; [|case_decide as Hk'].
  - subst k. apply (lblk_at held' _ i); [exact Hc'|]. apply cached_alter.
    split; [exact Hi|]. exists b. rewrite decide_True by done. auto.
  - apply (lblk_out s'). intros j bj (Hj & bj0 & Hbj & -> & Hvj)%cached_alter.
    case_decide as Eij; [congruence|]. intros E. destruct Eij.
    assert (cached s j bj0) as Cj by (repeat split; auto).
    pose proof (cached_pos _ _ _ _ Hc Cj).
    apply (ca_uniq _ _ Hc i j b bj0); [exact Hi|exact Hj|exact Hb|exact Hbj|lia|lia].
  - destruct (lblk_cases _ s k Hc) as [(j & bj & (Hj & Hbj & Hvj) & <- & ->)|[Ho ->]].
    + apply (lblk_at held' _ j); [exact Hc'|]. apply cached_alter. split; [exact Hj|].
      exists bj. rewrite decide_False by congruence. auto.
    + apply (lblk_out s'). intros j bj (Hj & bj0 & Hbj & -> & Hvj)%cached_alter.
      case_decide; [congruence|]. apply (Ho j). repeat split; auto.
Qed.

Lemma dirty_change k :
  cache held' s' ->
  dirty s' k <-> (k = b_blockno (f b) /\ b_disk (f b) <> 0) \/ (k <> b_blockno b /\ dirty s k).
Proof.
  intros Hc'. unfold dirty. fields. split.
  - intros (j & bj & Hj & Hbj & Hk & Hd). rewrite lookup_alter_buf in Hbj. case_decide as E.
    + subst j. rewrite Hb in Hbj. injection Hbj as <-. auto.
    + right. split; [|eauto 10]. intros ->.
      assert (exists i0 b0, cached s i0 b0 /\ b_blockno b0 = b_blockno bj /\ b_disk b0 <> 0)
        as (i0 & b0 & C0 & E0 & D0) by (apply (dirty_cached _ _ _ Hc); unfold dirty; eauto 10).
      pose proof (cached_pos _ _ _ _ Hc C0). destruct E.
      apply (ca_uniq _ _ Hc i j b bj); auto; lia.
  - intros [[-> Hd]|[Hk (j & bj & Hj & Hbj & Hk' & Hd)]].
    + exists i, (f b). rewrite lookup_alter_buf, decide_True, Hb by done. auto.
    + exists j, bj. rewrite lookup_alter_buf, decide_False by congruence. auto.
Qed.

Lemma at_buf_change j k :
  at_buf s j k -> (j = i -> b_valid (f b) <> 0 /\ b_blockno (f b) = b_blockno b) ->
  at_buf s' j k.
Proof.
  intros (Hj & bj & Hbj & Hv & Hk) Hf. split; [exact Hj|]. fields.
  rewrite lookup_alter_buf. case_decide as E; [subst j|eauto].
  rewrite Hb in Hbj |- *. injection Hbj as ->. exists (f bj). destruct (Hf eq_refl) as [? ->]. auto.
Qed.
End change.

(** *** Reading a block *)

(** The blocks, as [bread] and the log see them, are the same in both states. *)
Record same_blocks (s s' : kstate) : Prop := {
  sm_only : cache_only s s';
  sm_lblk : forall k, lblk s' k = lblk s k;
  sm_dirty : forall k, dirty s' k <-> dirty s k }.

(** The buffers of the blocks in [held] stay where they are. *)
Definition keeps (held : list Z) (s s' : kstate) : Prop :=
  forall i k, k ∈ held -> at_buf s i k -> at_buf s' i k.

Lemma alter_alter f g i (bc : list buf) : alter f i (alter g i bc) = alter (fun b => f (g b)) i bc.
Proof. apply list_eq. intros j. bufs. case_decide; [|done]. now destruct (bc !! j). Qed.

Lemma disk_rw_read_run s i b k d :
  ks_bcache s !! i = Some b -> b_blockno b = k -> 0 <= k < 2 ^ 31 -> ks_disk s !! k = Some d ->
  disk_rw i false s =
  Ok tt (set_ks_bcache (alter (fun b => set_b_disk 0 (set_b_data d b)) i (ks_bcache s)) s).
Proof.
  intros Hb Hk Hr Hd. unfold disk_rw, bind at 1, get. cbn [obind].
  rewrite (bind_Ok _ _ _ _ _ (getbuf_run s i b Hb)).
  assert (u32 (b_blockno b * (BSIZE / 512)) / 2 = k) as ->.
  { rewrite Hk. change (BSIZE / 512) with 2. rewrite u32_id by lia. now apply Z.div_mul. }
  rewrite Hd. assert (i < length (ks_bcache s))%nat as Hi by (eapply lookup_lt_Some; eauto).
  rewrite (bind_Ok _ _ _ _ _ (modbuf_run s i _ Hi)).
  rewrite modbuf_run by (fields; now rewrite length_alter). fields.
  rewrite set_bcache_set. now rewrite alter_alter.
Qed.

Lemma held_valid held s i b :
  cache held s -> (i < NBUF)%nat -> ks_bcache s !! i = Some b -> b_blockno b ∈ held ->
  cached s i b.
Proof.
  intros Hc Hi Hb Hh. repeat split; auto. intros Hv.
  destruct (ca_bufs _ _ Hc i b Hi Hb) as [_ _ _ Hinv _ _]. destruct (Hinv Hv) as [E _].
  destruct (ca_held _ _ Hc _ Hh) as (j & (bj & Cj & Ej)%at_cached).
  pose proof (cached_pos _ _ _ _ Hc Cj). lia.
Qed.

(** A buffer that cannot be recycled caches a held or a dirty block. *)
Lemma busy_block held s i b :
  cache held s -> (i < NBUF)%nat -> ks_bcache s !! i = Some b ->
  ~ (b_refcnt b = 0 /\ b_disk b = 0) ->
  cached s i b /\ (b_blockno b ∈ held \/ dirty s (b_blockno b)).
Proof.
  intros Hc Hi Hb Hbusy. pose proof (ca_bufs _ _ Hc i b Hi Hb) as Hok.
  destruct (decide (b_disk b = 0)) as [Hd|Hd].
  - assert (b_blockno b ∈ held) as Hh.
    { apply list_elem_of_In, (count_occ_In Z.eq_dec).
      pose proof (bo_ref _ _ _ Hok). lia. }
    split; [eapply held_valid; eauto|auto].
  - split; [|right; exists i, b; auto]. repeat split; auto.
    intros Hv. now destruct (bo_invalid _ _ _ Hok Hv).
Qed.

(** With fewer than [NBUF] blocks held or dirty, some buffer can be recycled. *)
Lemma room_free held s :
  cache held s -> room held s ->
  ~ (forall i b, (i < NBUF)%nat -> ks_bcache s !! i = Some b -> ~ (b_refcnt b = 0 /\ b_disk b = 0)).
Proof.
  intros Hc (l & Hl & Hin) Hall.
  set (blk i := match ks_bcache s !! i with Some b => b_blockno b | None => 0 end).
  assert (forall i, (i < NBUF)%nat -> exists b, cached s i b /\ blk i = b_blockno b /\ blk i ∈ l)
    as Hblk.
  { intros i Hi. destruct (lookup_buf _ _ _ Hc Hi) as (b & Hb).
    destruct (busy_block _ _ _ _ Hc Hi Hb) as [Cb Hk]; [eauto|]. exists b. split; [exact Cb|].
    unfold blk. rewrite Hb. split; [reflexivity|]. now apply Hin. }
  assert (map blk (seq 0 NBUF) ⊆+ l) as Hsub.
  { apply NoDup_submseteq.
    - apply NoDup_fmap_2_strong; [|apply NoDup_seq].
      intros i j Hi%elem_of_seq Hj%elem_of_seq E.
      destruct (Hblk i) as (bi & Ci & Ei & _); [lia|].
      destruct (Hblk j) as (bj & Cj & Ej & _); [lia|].
      eapply cached_uniq; eauto. congruence.
    - intros k (i & -> & Hi%elem_of_seq)%list_elem_of_fmap.
      destruct (Hblk i) as (b & _ & _ & H); [lia|exact H]. }
  apply submseteq_length in Hsub. rewrite length_map, length_seq in Hsub. lia.
Qed.

(** A recycled buffer after [bread]. *)
Definition load (k : Z) (d : list Z) (b : buf) : buf :=
  mkBuf 1 0 0 k 1 (b_prev b) (b_next b) d.

Definition is_cached (s : kstate) (k : Z) : Prop := exists i, at_buf s i k.

Lemma ring_links_ok s lru : ring (ks_bcache s) lru -> links_ok lru s.
Proof. intros Hr i Hi%(ring_elem _ _ _ Hr). split; [exact Hi|]. rewrite (proj1 Hr). lia. Qed.

(** [bget] finds the block, or takes the least recently used free buffer, or
    panics. *)
Lemma bget_run held s k lru :
  cache held s -> 0 < k -> ring (ks_bcache s) lru ->
  (exists i b, cached s i b /\ b_blockno b = k /\ bget 0 k s = Ok i
     (set_ks_bcache (alter (upd_b_refcnt (fun n => u32 (n + 1))) i (ks_bcache s)) s)) \/
  (~ is_cached s k /\ exists l1 i l2 b, lru = l1 ++ i :: l2 /\ (i < NBUF)%nat /\
     ks_bcache s !! i = Some b /\ b_refcnt b = 0 /\ b_disk b = 0 /\
     (forall j bj, j ∈ l2 -> ks_bcache s !! j = Some bj -> ~ (b_refcnt bj = 0 /\ b_disk bj = 0)) /\
     bget 0 k s = Ok i (set_ks_bcache (alter (fun bb => set_b_refcnt 1 (set_b_valid 0
       (set_b_blockno k (set_b_dev 0 bb)))) i (ks_bcache s)) s)) \/
  (~ is_cached s k /\
   (forall i b, (i < NBUF)%nat -> ks_bcache s !! i = Some b -> ~ (b_refcnt b = 0 /\ b_disk b = 0)) /\
   bget 0 k s = panic (str "bget: no buffers") s).
Proof.
  intros Hc Hk Hr. pose proof (ring_links_ok _ _ Hr) as Hlinks. pose proof Hr as (Hl & Hperm & Hch).
  assert (length lru <= NBUF)%nat as Hlen by now rewrite Hperm, length_seq.
  assert (HEAD < length (ks_bcache s))%nat as Hh by (rewrite Hl; unfold HEAD; lia).
  destruct (getbuf_links s HEAD Hh) as (h & Hg & Hbh & Hn & Hp).
  unfold bget. rewrite (bind_Ok _ _ _ _ _ Hg), Hn.
  destruct (bget_hit_run s _ 0 k NBUF lru HEAD Hch Hlinks Hlen)
    as [(i & b & Hi & Hb & _ & Hbk & Hhit)|[Hmiss Hhit]]; rewrite (bind_Ok _ _ _ _ _ Hhit).
  - left. exists i, b. split; [|auto]. split; [now apply Hlinks|]. split; [exact Hb|].
    intros Hv. destruct (Hlinks _ Hi) as [Hi' _].
    destruct (bo_invalid _ _ _ (ca_bufs _ _ Hc i b Hi' Hb) Hv). lia.
  - right. rewrite (bind_Ok _ _ _ _ _ Hg), Hp. apply dchain_rev in Hch.
    assert (links_ok (rev lru) s) as Hlinks'.
    { intros i Hi. apply Hlinks. now apply elem_of_rev. }
    assert (~ is_cached s k) as Hout.
    { intros (j & Hj & bj & Hbj & _ & E). apply (Hmiss j bj); auto.
      - now apply (ring_elem _ _ _ Hr).
      - split; [apply (bo_dev _ _ _ (ca_bufs _ _ Hc j bj Hj Hbj))|exact E]. }
    destruct (bget_lru_run s _ 0 k NBUF (rev lru) HEAD Hch Hlinks')
      as [(l1 & i & l2 & b & E & Hb & Hrf & Hdk & Hbusy & Hlru)|[Hnone Hlru]];
      [now rewrite length_rev| |]; rewrite (bind_Ok _ _ _ _ _ Hlru).
    + left. split; [exact Hout|]. apply (f_equal (@rev nat)) in E.
      rewrite rev_involutive, rev_app_distr in E. cbn in E. rewrite <- app_assoc in E.
      exists (rev l2), i, (rev l1), b. split; [exact E|].
      split; [apply Hlinks; rewrite E; set_solver|].
      do 3 (split; [assumption|]). split; [|reflexivity].
      intros j bj Hj. exact (Hbusy j bj (proj1 (elem_of_rev _ _) Hj)).
    + right. split; [exact Hout|]. split; [|reflexivity]. intros i b Hi Hb.
      apply (Hnone i b); [|exact Hb]. apply elem_of_rev. now apply (ring_elem _ _ _ Hr).
Qed.

(** The rest of [bread], on a buffer just recycled for block [k]. *)
Lemma bread_fill s i b k d f :
  bget 0 k s = Ok i (set_ks_bcache (alter f i (ks_bcache s)) s) ->
  (i < length (ks_bcache s))%nat -> ks_bcache s !! i = Some b -> 0 < k < 2 ^ 31 ->
  ks_disk s !! k = Some d -> b_valid (f b) = 0 -> b_blockno (f b) = k ->
  bread 0 k s = Ok i (set_ks_bcache (alter (fun b => set_b_disk 0 (set_b_valid 1
                        (set_b_disk 0 (set_b_data d (f b))))) i (ks_bcache s)) s).
Proof.
  intros Hget Hlt Hb Hk Hd Hv Hbk. unfold bread. rewrite (bind_Ok _ _ _ _ _ Hget).
  erewrite bind_Ok by (apply getbuf_run; fields;
    rewrite lookup_alter_buf, decide_True, Hb by done; reflexivity).
  rewrite Hv. cbn [Z.eqb]. unfold bind at 1.
  erewrite bind_Ok by (eapply disk_rw_read_run with (k := k) (d := d); fields;
    [rewrite lookup_alter_buf, decide_True, Hb by done; reflexivity|exact Hbk|lia|exact Hd]).
  fields. rewrite set_bcache_set, alter_alter.
  erewrite bind_Ok by (apply modbuf_run; fields; rewrite length_alter; exact Hlt). fields.
  rewrite modbuf_run by (fields; rewrite !length_alter; exact Hlt). fields.
  rewrite !set_bcache_set, !alter_alter. reflexivity.
Qed.

(** [bread] either finds the block, or loads it into a free buffer. *)
Lemma bread_run held s k d :
  cache held s -> 0 < k < 2 ^ 31 -> ks_disk s !! k = Some d ->
  room held s \/ is_cached s k ->
  exists i b, (i < NBUF)%nat /\ ks_bcache s !! i = Some b /\
    ((cached s i b /\ b_blockno b = k /\ bread 0 k s = Ok i
        (set_ks_bcache (alter (upd_b_refcnt (fun n => u32 (n + 1))) i (ks_bcache s)) s)) \/
     (~ is_cached s k /\ b_refcnt b = 0 /\ b_disk b = 0 /\
      bread 0 k s = Ok i (set_ks_bcache (alter (load k d) i (ks_bcache s)) s))).
Proof.
  intros Hc Hk Hd Hroom. destruct (ca_ring _ _ Hc) as (lru & Hr). destruct (bget_run held s k lru Hc)
    as [(i & b & Ci & Hbk & Hget)|[(Hout & l1 & i & l2 & b & _ & Hi & Hb & Hrf & Hdk & _ & Hget)
                                  |(Hout & Hfull & _)]]; [lia|exact Hr|..].
  - exists i, b. split; [apply Ci|]. split; [apply Ci|]. left. split; [exact Ci|].
    split; [exact Hbk|]. unfold bread. rewrite (bind_Ok _ _ _ _ _ Hget).
    destruct Ci as (Hi & Hb & Hv). apply Z.eqb_neq in Hv.
    erewrite bind_Ok by (apply getbuf_run; fields;
      rewrite lookup_alter_buf, decide_True, Hb by done; reflexivity).
    fields. now rewrite Hv.
  - exists i, b. do 2 (split; [assumption|]). right. do 3 (split; [assumption|]).
    assert (i < length (ks_bcache s))%nat as Hlt by (rewrite (proj1 Hr); lia).
    rewrite (bread_fill s i b k d _ Hget Hlt Hb Hk Hd eq_refl eq_refl). reflexivity.
  - exfalso. destruct Hroom as [Hroom|?]; [|tauto]. exact (room_free _ _ Hc Hroom Hfull).
Qed.

Lemma count_occ_cons_ne held k k' :
  k' <> k -> count_occ Z.eq_dec (k :: held) k' = count_occ Z.eq_dec held k'.
Proof. intros. now apply count_occ_cons_neq. Qed.

(** A change that gives block [k] to one more holder leaves the other buffers
    well-formed. *)
Lemma buf_ok_hold held disk k b :
  buf_ok held disk b -> b_blockno b <> k -> buf_ok (k :: held) disk b.
Proof.
  intros [? ? Hr ? ? ?] Hk. split; auto. now rewrite count_occ_cons_ne.
Qed.

Lemma count_occ_le (held : list Z) k : (count_occ Z.eq_dec held k <= length held)%nat.
Proof. apply count_occ_bound. Qed.

Section bread_cache.
Context (held : list Z) (s : kstate) (i : nat) (b : buf) (k : Z).
Context (Hc : cache held s) (Hk : 0 < k < 2 ^ 31) (Hi : (i < NBUF)%nat).
Context (Hb : ks_bcache s !! i = Some b) (Hfew : Z.of_nat (S (length held)) < 2 ^ 31).

Lemma cache_hit :
  cached s i b -> b_blockno b = k ->
  cache (k :: held)
    (set_ks_bcache (alter (upd_b_refcnt (fun n => u32 (n + 1))) i (ks_bcache s)) s).
Proof.
  intros Ci Hbk. pose proof (ca_bufs _ _ Hc i b Hi Hb) as [Hdv Hln Hrf Hin Hvl Hcl].
  pose proof (count_occ_le held (b_blockno b)) as Hcnt.
  apply (cache_change held (k :: held) s i b); try assumption; try reflexivity.
  - split; fields; auto.
    + rewrite u32_id by lia. rewrite count_occ_cons_eq by congruence. lia.
    + intros _. rewrite u32_id by lia. lia.
  - intros j bj Hj Hjn Hbj. fields.
    assert (b_blockno bj <> k) as Hne.
    { intros E. apply Hj. apply (ca_uniq _ _ Hc j i bj b); auto; lia. }
    split; [|congruence]. apply buf_ok_hold; [|exact Hne].
    now apply (ca_bufs _ _ Hc j).
  - intros k' Hk'. destruct (decide (k' = k)) as [->|Hne].
    + left. split; [apply Ci|exact Hbk].
    + right. apply elem_of_cons in Hk' as [?|Hk']; [congruence|].
      destruct (ca_held _ _ Hc _ Hk') as (j & (bj & Cj & Ej)%at_cached).
      exists j. split; [|apply at_cached; eauto]. intros ->.
      destruct Ci as (_ & Ci & _), Cj as (_ & Cj & _). congruence.
Qed.

Lemma cache_load d :
  ~ is_cached s k -> b_refcnt b = 0 -> b_disk b = 0 -> ks_disk s !! k = Some d ->
  cache (k :: held) (set_ks_bcache (alter (load k d) i (ks_bcache s)) s).
Proof.
  intros Hout Hrf Hdk Hd.
  assert (forall j bj, cached s j bj -> b_blockno bj <> k) as Hout'.
  { intros j bj Cj E. apply Hout. exists j. apply at_cached. eauto. }
  assert (k ∉ held) as Hnk by (intros Hin; now apply Hout, (ca_held _ _ Hc)).
  apply (cache_change held (k :: held) s i b); try assumption; try reflexivity.
  - split; cbn; try lia.
    + apply (ca_disk _ _ Hc k d Hd).
    + destruct (Z.eq_dec k k); [|congruence].
      rewrite (proj1 (count_occ_not_In Z.eq_dec held k)); [reflexivity|].
      now rewrite <- list_elem_of_In.
    + intros _. split; [exact Hk|eauto].
  - intros j bj Hj Hjn Hbj. pose proof (ca_bufs _ _ Hc j bj Hjn Hbj) as Hok.
    assert (b_blockno bj <> k) as Hne.
    { destruct (decide (b_valid bj = 0)) as [Hv|Hv]; [|apply (Hout' j); repeat split; auto].
      destruct (bo_invalid _ _ _ Hok Hv). lia. }
    split; [|cbn; congruence]. now apply buf_ok_hold.
  - intros k' [->|Hk']%elem_of_cons; [left; cbn; lia|]. right.
    destruct (ca_held _ _ Hc _ Hk') as (j & Hat). exists j. split; [|exact Hat].
    intros ->. destruct Hat as (_ & bj & Hbj & Hv & E).
    assert (bj = b) as -> by congruence.
    pose proof (bo_ref _ _ _ (ca_bufs _ _ Hc i b Hi Hb)) as Href.
    rewrite Hrf in Href. apply (list_elem_of_In), (count_occ_In Z.eq_dec) in Hk'. subst k'. lia.
Qed.
End bread_cache.

Lemma cache_only_set bc s : cache_only s (set_ks_bcache bc s).
Proof. reflexivity. Qed.

(** Dirty blocks do not change when a buffer changes neither its block nor its
    dirty mark, or is given a block while it is clean. *)
Lemma dirty_index held s i b :
  cache held s -> (i < NBUF)%nat -> ks_bcache s !! i = Some b ->
  dirty s (b_blockno b) -> b_disk b <> 0.
Proof.
  intros Hc Hi Hb (j & bj & Cj & E & Hd)%(dirty_cached _ _ _ Hc).
  pose proof (cached_pos _ _ _ _ Hc Cj). destruct Cj as (Hj & Hbj & _).
  assert (j = i) as -> by (apply (ca_uniq _ _ Hc j i bj b); auto; lia). congruence.
Qed.

Lemma dirty_change_same held held' s i b f k :
  cache held s -> (i < NBUF)%nat -> ks_bcache s !! i = Some b ->
  cache held' (set_ks_bcache (alter f i (ks_bcache s)) s) ->
  b_disk (f b) = b_disk b -> b_blockno (f b) = b_blockno b \/ b_disk b = 0 ->
  dirty (set_ks_bcache (alter f i (ks_bcache s)) s) k <-> dirty s k.
Proof.
  intros Hc Hi Hb Hc' Hd Hk. rewrite (dirty_change _ _ _ _ _ _ Hc Hi Hb k Hc'), Hd. split.
  - intros [[-> Hd']|[_ H]]; [|exact H]. destruct Hk as [->|]; [exists i, b; auto|congruence].
  - intros H. destruct (decide (k = b_blockno b)) as [->|]; [left|auto].
    pose proof (dirty_index _ _ _ _ Hc Hi Hb H). destruct Hk; [auto|congruence].
Qed.

Lemma view_hit held held' s i b f k :
  cache held s -> cached s i b -> b_blockno b = k ->
  cache held' (set_ks_bcache (alter f i (ks_bcache s)) s) ->
  b_valid (f b) = b_valid b -> b_disk (f b) = b_disk b -> b_blockno (f b) = b_blockno b ->
  b_data (f b) = b_data b ->
  let s' := set_ks_bcache (alter f i (ks_bcache s)) s in
  same_blocks s s' /\ keeps held s s' /\ at_buf s' i k.
Proof.
  intros Hc Ci Hbk Hc' Ev Ed Ek Edata s'. pose proof Ci as (Hi & Hb & Hv).
  split; [split; [reflexivity|intros k'..]|split].
  - unfold s'. rewrite (lblk_change _ _ _ _ _ _ Hc Hi Hb k' Hc') by congruence.
    rewrite Ek, Edata. case_decide; [|reflexivity]. subst k'. symmetry. eapply lblk_at; eauto.
  - eapply dirty_change_same; eauto.
  - intros j k' _ Hat. apply (at_buf_change _ _ b); auto. intros _. split; congruence.
  - apply (at_buf_change _ _ b); auto; [apply at_cached; eauto|]. intros _. split; congruence.
Qed.

Lemma view_load held s i b k d :
  cache held s -> (i < NBUF)%nat -> ks_bcache s !! i = Some b -> 0 < k ->
  ~ is_cached s k -> b_refcnt b = 0 -> b_disk b = 0 -> ks_disk s !! k = Some d ->
  let s' := set_ks_bcache (alter (load k d) i (ks_bcache s)) s in
  cache (k :: held) s' -> same_blocks s s' /\ keeps held s s' /\ at_buf s' i k.
Proof.
  intros Hc Hi Hb Hk Hout Hrf Hdk Hd s' Hc'. pose proof (ca_bufs _ _ Hc i b Hi Hb) as Hok.
  split; [split; [reflexivity|intros k'..]|split].
  - unfold s'. rewrite (lblk_change _ _ _ _ _ _ Hc Hi Hb k' Hc') by (cbn; lia). cbn.
    case_decide as E; [subst k'|case_decide as E']; [| |reflexivity].
    + rewrite lblk_out; [now rewrite Hd|]. intros j bj Cj E. apply Hout. exists j.
      apply at_cached; eauto.
    + subst k'. destruct (decide (b_valid b = 0)) as [Hv|Hv].
      * destruct (bo_invalid _ _ _ Hok Hv) as [-> _].
        symmetry. apply lblk_out. intros j bj Cj. pose proof (cached_pos _ _ _ _ Hc Cj). lia.
      * rewrite (lblk_at held s i b Hc) by (repeat split; auto).
        apply (bo_clean _ _ _ Hok); auto.
  - eapply dirty_change_same; eauto; cbn; congruence.
  - intros j k' Hk' Hat. apply (at_buf_change _ _ b); auto. intros ->. exfalso.
    destruct Hat as (_ & bj & Hbj & Hv & E). assert (bj = b) as -> by congruence.
    pose proof (bo_ref _ _ _ Hok) as Href.
    rewrite Hrf in Href. apply list_elem_of_In, (count_occ_In Z.eq_dec) in Hk'. subst k'. lia.
  - split; [exact Hi|]. unfold s'. fields. rewrite lookup_alter_buf, decide_True, Hb by done.
    exists (load k d b). cbn. auto.
Qed.

(** [bread] gives the caller a reference to a buffer with the block, and
    changes no block. *)
Lemma bread_spec held s k :
  cache held s -> 0 < k < 2 ^ 31 -> is_Some (ks_disk s !! k) ->
  Z.of_nat (S (length held)) < 2 ^ 31 -> room held s \/ is_cached s k ->
  wp (bread 0 k) (fun i s' => cache (k :: held) s' /\ same_blocks s s' /\
                              keeps held s s' /\ at_buf s' i k) s.
Proof.
  intros Hc Hk [d Hd] Hfew Hroom. apply wp_Ok.
  destruct (bread_run _ _ _ _ Hc Hk Hd Hroom)
    as (i & b & Hi & Hb & [(Ci & Hbk & Hrun)|(Hout & Hrf & Hdk & Hrun)]);
    eexists _, _; (split; [exact Hrun|]).
  - pose proof (cache_hit _ _ _ _ _ Hc Hk Hi Hb Hfew Ci Hbk) as Hc'.
    split; [exact Hc'|]. eapply view_hit; eauto.
  - pose proof (cache_load _ _ _ _ _ Hc Hk Hi Hb Hfew _ Hout Hrf Hdk Hd) as Hc'.
    split; [exact Hc'|]. eapply view_load; eauto. lia.
Qed.

(** *** Changing a block that is held *)

Lemma held_ref held s i b :
  cache held s -> cached s i b -> b_blockno b ∈ held -> b_refcnt b <> 0.
Proof.
  intros Hc (Hi & Hb & _) Hk. rewrite (bo_ref _ _ _ (ca_bufs _ _ Hc i b Hi Hb)).
  apply list_elem_of_In, (count_occ_In Z.eq_dec) in Hk. lia.
Qed.

Section touch.
Context (held : list Z) (s : kstate) (i : nat) (b : buf) (k : Z).
Context (Hc : cache held s) (Ci : cached s i b) (Hk : k ∈ held) (Hbk : b_blockno b = k).

(** Writing the data or the dirty mark of a held buffer. *)
Lemma cache_touch f :
  (forall x, b_next (f x) = b_next x /\ b_prev (f x) = b_prev x /\ b_dev (f x) = b_dev x /\
             b_valid (f x) = b_valid x /\ b_blockno (f x) = b_blockno x /\
             b_refcnt (f x) = b_refcnt x) ->
  length (b_data (f b)) = Z.to_nat BSIZE ->
  cache held (set_ks_bcache (alter f i (ks_bcache s)) s).
Proof.
  intros Hf Hlen. pose proof Ci as (Hi & Hb & Hv). destruct (Hf b) as (E1 & E2 & E3 & E4 & E5 & E6).
  pose proof (ca_bufs _ _ Hc i b Hi Hb) as [Hdv Hln Hrf Hin Hvl Hcl].
  rewrite <- Hbk in Hk. pose proof (held_ref _ _ _ _ Hc Ci Hk).
  apply (cache_change held held s i b); try assumption; try apply Hf.
  - split; rewrite ?E3, ?E4, ?E5, ?E6; auto; congruence.
  - intros j bj Hj Hjn Hbj. split; [now apply (ca_bufs _ _ Hc j)|]. rewrite E5. intros E.
    destruct (decide (b_blockno bj = 0)); [assumption|].
    destruct Hj. now apply (ca_uniq _ _ Hc j i bj b).
  - intros k' Hk'. destruct (decide (k' = b_blockno b)) as [->|Hne].
    + left. split; congruence.
    + right. destruct (ca_held _ _ Hc _ Hk') as (j & (bj & Cj & Ej)%at_cached).
      exists j. split; [|apply at_cached; eauto]. intros ->.
      destruct Cj as (_ & Cj & _). congruence.
  - apply (ca_few _ _ Hc).
Qed.

Lemma bdata_run : bdata i s = Ok (b_data b) s.
Proof. unfold bdata. now rewrite (bind_Ok _ _ _ _ _ (getbuf_run s i b (proj1 (proj2 Ci)))). Qed.

Lemma touch_run f :
  modbuf i f s = Ok tt (set_ks_bcache (alter f i (ks_bcache s)) s).
Proof. apply modbuf_run. destruct Ci as (_ & Hb & _). eapply lookup_lt_Some; eauto. Qed.

Lemma touch_keeps f :
  (forall x, b_valid (f x) = b_valid x /\ b_blockno (f x) = b_blockno x) ->
  keeps held s (set_ks_bcache (alter f i (ks_bcache s)) s).
Proof.
  intros Hf j k' _ Hat. apply (at_buf_change _ _ b); auto; [apply Ci|].
  intros _. destruct (Hf b) as [-> ->]. split; [apply Ci|reflexivity].
Qed.
End touch.

(** The data of a buffer is the contents of its block. *)
Lemma bdata_spec held s i k :
  cache held s -> at_buf s i k ->
  exists d, bdata i s = Ok d s /\ lblk s k = Some d /\ length d = Z.to_nat BSIZE.
Proof.
  intros Hc (b & Ci & <-)%at_cached. exists (b_data b). split; [now apply bdata_run|].
  split; [eapply lblk_at; eauto|]. destruct Ci as (Hi & Hb & _).
  apply (ca_bufs _ _ Hc i b Hi Hb).
Qed.

(** Writing the data of a held buffer changes this block only. *)
Lemma set_bdata_spec held s i k d :
  cache held s -> at_buf s i k -> k ∈ held -> length d = Z.to_nat BSIZE ->
  wp (set_bdata i d) (fun _ s' => cache held s' /\ cache_only s s' /\ keeps held s s' /\
       (forall k', lblk s' k' = if decide (k' = k) then Some d else lblk s k') /\
       (forall k', dirty s' k' <-> dirty s k')) s.
Proof.
  intros Hc (b & Ci & Hbk)%at_cached Hk Hd. apply wp_Ok. eexists _, _.
  split; [apply (touch_run _ _ _ Ci)|]. pose proof Ci as (Hi & Hb & Hv).
  pose proof (cache_touch _ _ _ _ _ Hc Ci Hk Hbk (set_b_data d) (fun _ => ltac:(repeat split)) Hd)
    as Hc'.
  split; [exact Hc'|]. split; [reflexivity|].
  split; [now eapply touch_keeps; eauto; intros; split|]. split; intros k'.
  - rewrite (lblk_change _ _ _ _ _ _ Hc Hi Hb k' Hc') by exact Hv. fields. rewrite Hbk.
    now case_decide.
  - eapply dirty_change_same; eauto.
Qed.

(** Setting and clearing the dirty mark, which [log_write] and the driver do. *)
Lemma set_disk_spec held s i k v :
  cache held s -> at_buf s i k -> k ∈ held ->
  wp (modbuf i (set_b_disk v)) (fun _ s' => cache held s' /\ cache_only s s' /\ keeps held s s' /\
       (forall k', lblk s' k' = lblk s k') /\
       (forall k', dirty s' k' <-> (k' = k /\ v <> 0) \/ (k' <> k /\ dirty s k'))) s.
Proof.
  intros Hc (b & Ci & Hbk)%at_cached Hk. apply wp_Ok. eexists _, _.
  split; [apply (touch_run _ _ _ Ci)|]. pose proof Ci as (Hi & Hb & Hv).
  pose proof (cache_touch _ _ _ _ _ Hc Ci Hk Hbk (set_b_disk v) (fun _ => ltac:(repeat split)))
    as Hc'. specialize (Hc' (bo_len _ _ _ (ca_bufs _ _ Hc i b Hi Hb))).
  split; [exact Hc'|]. split; [reflexivity|].
  split; [now eapply touch_keeps; eauto; intros; split|]. split; intros k'.
  - rewrite (lblk_change _ _ _ _ _ _ Hc Hi Hb k' Hc') by exact Hv. fields. rewrite Hbk.
    case_decide; [subst k'; subst k; symmetry; eapply lblk_at; eauto|reflexivity].
  - rewrite (dirty_change _ _ _ _ _ _ Hc Hi Hb k' Hc'). fields. now rewrite Hbk.
Qed.

(** *** [bwrite] *)

(** What the disk sees of a write. *)
Definition write_block (k : Z) (d : list Z) (s : kstate) : kstate :=
  upd_ks_disk (<[k := d]>) (upd_ks_writes (fun w => w ++ [(k, d)]) s).

Lemma cache_write_block held s i b k :
  cache held s -> cached s i b -> b_blockno b = k -> k ∈ held ->
  cache held (write_block k (b_data b) s).
Proof.
  intros Hc Ci <- Hk. pose proof Ci as (Hi & Hb & Hv).
  pose proof (ca_bufs _ _ Hc i b Hi Hb) as Hok. unfold write_block. split; fields.
  - apply Hc.
  - intros j bj Hj Hbj. destruct (ca_bufs _ _ Hc j bj Hj Hbj) as [? ? Hr ? Hvl Hcl].
    split; auto; fields.
    + intros Hvj. destruct (Hvl Hvj) as [? Hs]. split; [assumption|]. rewrite lookup_insert_is_Some'.
      auto.
    + intros Hvj Hrj Hdj. rewrite lookup_insert_ne; [auto|]. intros E.
      assert (cached s j bj) as Cj by (repeat split; auto).
      rewrite E in Hk. now apply (held_ref _ _ _ _ Hc Cj Hk).
  - apply Hc.
  - intros k Hk'. apply (ca_held _ _ Hc k Hk').
  - intros k d. rewrite lookup_insert_Some. intros [[_ <-]|[_ H]]; [apply Hok|].
    eapply ca_disk; eauto.
  - apply Hc.
Qed.

Lemma lblk_write_block held s i b k k' :
  cache held s -> cached s i b -> b_blockno b = k -> k ∈ held ->
  lblk (write_block k (b_data b) s) k' = lblk s k'.
Proof.
  intros Hc Ci Hbk Hk. pose proof (cache_write_block _ _ _ _ _ Hc Ci Hbk Hk) as Hc'.
  destruct (lblk_cases _ s k' Hc) as [(j & bj & Cj & <- & ->)|[Ho ->]].
  - apply (lblk_at held _ j); [exact Hc'|exact Cj].
  - rewrite (lblk_out (write_block k (b_data b) s)) by exact Ho. cbn.
    apply lookup_insert_ne. intros <-. exact (Ho _ _ Ci Hbk).
Qed.

(** [bwrite] sends the block to the disk, where it is no longer dirty. *)
Lemma bwrite_spec held s i k d :
  cache held s -> at_buf s i k -> k ∈ held -> lblk s k = Some d ->
  wp (bwrite i) (fun _ s' => cache held s' /\ keeps held s s' /\
       (exists bc, s' = set_ks_bcache bc (write_block k d s)) /\
       (forall k', lblk s' k' = lblk s k') /\
       (forall k', dirty s' k' <-> k' <> k /\ dirty s k')) s.
Proof.
  intros Hc Hat Hk Hd. pose proof Hat as (b & Ci & Hbk)%at_cached. pose proof Ci as (Hi & Hb & Hv).
  assert (b_data b = d) as Ed.
  { rewrite <- Hbk, (lblk_at _ _ _ _ Hc Ci) in Hd. congruence. }
  pose proof (cached_pos _ _ _ _ Hc Ci) as Hpos. rewrite Hbk in Hpos.
  destruct (bo_valid _ _ _ (ca_bufs _ _ Hc i b Hi Hb) Hv) as [_ [d0 Hd0]]. rewrite Hbk in Hd0.
  pose proof (cache_write_block _ _ _ _ _ Hc Ci Hbk Hk) as Hc1.
  assert (bwrite i s = modbuf i (set_b_disk 0) (write_block k d s)) as Hrun.
  { unfold bwrite, disk_rw, bind at 1, get. cbn [obind].
    rewrite (bind_Ok _ _ _ _ _ (getbuf_run s i b Hb)).
    assert (u32 (b_blockno b * (BSIZE / 512)) / 2 = k) as ->.
    { rewrite Hbk. change (BSIZE / 512) with 2. rewrite u32_id by lia. now apply Z.div_mul. }
    rewrite Hd0, Ed. reflexivity. }
  unfold wp, wpx. rewrite Hrun. subst d.
  eapply wpx_conseq; [eapply (set_disk_spec held (write_block k (b_data b) s)); eauto|].
  intros [] s' (Hc' & Honly & Hkeep & Hl & Hdirty). split; [exact Hc'|].
  split; [intros j k' Hk' Hat'; now apply Hkeep|]. split; [exists (ks_bcache s'); exact Honly|].
  split; intros k'.
  - rewrite Hl. eapply lblk_write_block; eauto.
  - rewrite Hdirty. assert (dirty (write_block k (b_data b) s) k' <-> dirty s k') by reflexivity.
    intuition lia.
Qed.

(** *** [brelse] *)

Lemma payload_lookup bc bc' i b :
  same_payload bc' bc -> bc !! i = Some b -> exists b', bc' !! i = Some b' /\ payload b' = payload b.
Proof.
  intros H Hb. specialize (H i). rewrite Hb in H. cbn in H.
  destruct (bc' !! i) as [b'|]; [|discriminate]. exists b'. split; [reflexivity|].
  exact (Some_inj _ _ H).
Qed.

(** The cache does not depend on the order of the list. *)
Lemma same_payload_cached s bc' i b :
  same_payload bc' (ks_bcache s) -> cached s i b ->
  exists b', cached (set_ks_bcache bc' s) i b' /\ payload b' = payload b.
Proof.
  intros H (Hi & Hb & Hv). destruct (payload_lookup _ _ _ _ H Hb) as (b' & Hb' & E).
  exists b'. split; [|exact E]. split; [exact Hi|]. split; [exact Hb'|].
  now replace (b_valid b') with (b_valid b) by (apply (f_equal b_valid) in E; now fields_in E).
Qed.

Lemma payload_fields b b' :
  payload b' = payload b ->
  b_valid b' = b_valid b /\ b_disk b' = b_disk b /\ b_dev b' = b_dev b /\
  b_blockno b' = b_blockno b /\ b_refcnt b' = b_refcnt b /\ b_data b' = b_data b.
Proof.
  intros E. repeat split; [apply (f_equal b_valid) in E|apply (f_equal b_disk) in E|
    apply (f_equal b_dev) in E|apply (f_equal b_blockno) in E|apply (f_equal b_refcnt) in E|
    apply (f_equal b_data) in E]; exact E.
Qed.

Lemma buf_ok_payload held disk b b' :
  payload b' = payload b -> buf_ok held disk b -> buf_ok held disk b'.
Proof.
  intros (E1 & E2 & E3 & E4 & E5 & E6)%payload_fields [? ? ? ? ? ?].
  split; rewrite ?E1, ?E2, ?E3, ?E4, ?E5, ?E6; assumption.
Qed.

Lemma cache_reorder held s bc' lru :
  cache held s -> ring bc' lru -> same_payload bc' (ks_bcache s) ->
  cache held (set_ks_bcache bc' s).
Proof.
  intros Hc Hr Hsp. pose proof (symmetry Hsp) as Hsp'. split; fields; try apply Hc.
  - now exists lru.
  - intros i b' Hi Hb'. destruct (payload_lookup _ _ _ _ Hsp' Hb') as (b & Hb & E).
    eapply buf_ok_payload; [symmetry; exact E|]. now apply (ca_bufs _ _ Hc i).
  - intros i j bi' bj' Hi Hj Hbi' Hbj'.
    destruct (payload_lookup _ _ _ _ Hsp' Hbi') as (bi & Hbi & Ei).
    destruct (payload_lookup _ _ _ _ Hsp' Hbj') as (bj & Hbj & Ej).
    apply payload_fields in Ei as (_ & _ & _ & <- & _), Ej as (_ & _ & _ & <- & _).
    now apply (ca_uniq _ _ Hc).
  - intros k Hk. destruct (ca_held _ _ Hc k Hk) as (i & (b & Ci & <-)%at_cached).
    destruct (same_payload_cached _ _ _ _ Hsp Ci) as (b' & Ci' & E).
    exists i. apply at_cached. exists b'. split; [exact Ci'|]. now apply payload_fields in E.
Qed.

Lemma reorder_at_buf s bc' i k :
  same_payload bc' (ks_bcache s) -> at_buf s i k -> at_buf (set_ks_bcache bc' s) i k.
Proof.
  intros Hsp (b & Ci & <-)%at_cached.
  destruct (same_payload_cached _ _ _ _ Hsp Ci) as (b' & Ci' & E).
  apply at_cached. exists b'. split; [exact Ci'|]. now apply payload_fields in E.
Qed.

Lemma reorder_blocks held s bc' lru :
  cache held s -> ring bc' lru -> same_payload bc' (ks_bcache s) ->
  same_blocks s (set_ks_bcache bc' s).
Proof.
  intros Hc Hr Hsp. pose proof (cache_reorder _ _ _ _ Hc Hr Hsp) as Hc'.
  pose proof (symmetry Hsp) as Hsp'. split; [reflexivity|intros k..].
  - destruct (lblk_cases _ s k Hc) as [(i & b & Ci & <- & ->)|[Ho ->]].
    + destruct (same_payload_cached _ _ _ _ Hsp Ci) as (b' & Ci' & E).
      apply payload_fields in E as (_ & _ & _ & <- & _ & <-). eapply lblk_at; eauto.
    + apply (lblk_out (set_ks_bcache bc' s)). intros i b' (Hi & Hb' & Hv).
      destruct (payload_lookup _ _ _ _ Hsp' Hb') as (b & Hb & E).
      apply payload_fields in E as (E & _ & _ & <- & _). apply (Ho i). repeat split; congruence.
  - unfold dirty. fields. split; intros (i & b & Hi & Hb & Hk & Hd).
    + destruct (payload_lookup _ _ _ _ Hsp' Hb) as (b' & Hb' & E).
      apply payload_fields in E as (_ & ? & _ & ? & _). exists i, b'. repeat split; congruence.
    + destruct (payload_lookup _ _ _ _ Hsp Hb) as (b' & Hb' & E).
      apply payload_fields in E as (_ & ? & _ & ? & _). exists i, b'. repeat split; congruence.
Qed.

(** One holder less. *)
Lemma cache_drop held s i b k :
  cache (k :: held) s -> cached s i b -> b_blockno b = k ->
  k ∈ held \/ b_disk b <> 0 \/ lblk s k = ks_disk s !! k ->
  cache held
    (set_ks_bcache (alter (upd_b_refcnt (fun n => u32 (n - 1))) i (ks_bcache s)) s).
Proof.
  intros Hc Ci Hbk Hclean. pose proof Ci as (Hi & Hb & Hv).
  pose proof (ca_bufs _ _ Hc i b Hi Hb) as [Hdv Hln Hrf Hin Hvl Hcl].
  pose proof (ca_few _ _ Hc) as Hfew. cbn [length] in Hfew.
  rewrite count_occ_cons_eq in Hrf by auto.
  pose proof (count_occ_le held (b_blockno b)) as Hcnt.
  apply (cache_change (k :: held) held s i b); try assumption; try reflexivity; [| | |lia].
  - split; fields; auto; [rewrite u32_id; lia|].
    intros _ Hr Hd. rewrite u32_id in Hr by lia. destruct Hclean as [Hh|[?|Hl]]; [|lia|].
    + apply list_elem_of_In, (count_occ_In Z.eq_dec) in Hh. subst k. lia.
    + subst k. now rewrite <- Hl, (lblk_at _ _ _ _ Hc Ci).
  - intros j bj Hj Hjn Hbj. fields. destruct (ca_bufs _ _ Hc j bj Hjn Hbj) as [? ? Hr ? ? ?].
    assert (b_blockno bj <> k) as Hne.
    { intros E. apply Hj. apply (ca_uniq _ _ Hc j i bj b); auto; [congruence|].
      pose proof (cached_pos _ _ _ _ Hc Ci). lia. }
    split; [|congruence]. split; auto. now rewrite Hr, count_occ_cons_ne.
  - intros k' Hk'. destruct (decide (k' = k)) as [->|Hne]; [left; split; auto|]. right.
    destruct (ca_held _ _ Hc k') as (j & (bj & Cj & Ej)%at_cached); [set_solver|].
    exists j. split; [|apply at_cached; eauto]. intros ->.
    destruct Cj as (_ & Cj & _). congruence.
Qed.

(** [brelse] gives a reference back and changes no block. The last holder of a
    block must leave it dirty or as it is on the disk. *)
Lemma brelse_spec held s i k :
  cache (k :: held) s -> at_buf s i k ->
  k ∈ held \/ dirty s k \/ lblk s k = ks_disk s !! k ->
  wp (brelse i) (fun _ s' => cache held s' /\ same_blocks s s' /\ keeps held s s') s.
Proof.
  intros Hc (b & Ci & Hbk)%at_cached Hclean. apply wp_Ok. pose proof Ci as (Hi & Hb & Hv).
  destruct (ca_ring _ _ Hc) as (lru & Hr).
  assert (i ∈ lru) as Hin by now apply (ring_elem _ _ _ Hr).
  apply list_elem_of_split in Hin as (l1 & l2 & ->).
  eexists _, _. split; [exact (brelse_run _ _ _ _ _ Hr Hb)|].
  set (bc1 := alter (upd_b_refcnt (fun n => u32 (n - 1))) i (ks_bcache s)).
  assert (cache held (set_ks_bcache bc1 s)) as Hc1.
  { eapply cache_drop; eauto. destruct Hclean as [?|[H|?]]; [auto| |auto].
    right; left. eapply dirty_index; eauto. now rewrite Hbk. }
  destruct (view_hit _ _ _ _ _ (upd_b_refcnt (fun n => u32 (n - 1))) _ Hc Ci Hbk Hc1)
    as (Hb1 & Hk1 & _); [reflexivity..|]. fold bc1 in Hb1, Hk1.
  destruct (u32 (b_refcnt b - 1) =? 0).
  - assert (ring (push_front i (unlink i bc1)) (i :: l1 ++ l2)) as Hr2.
    { apply ring_move. now apply ring_alter. }
    pose proof (same_payload_move i bc1) as Hsp.
    split; [eapply (cache_reorder held (set_ks_bcache bc1 s)); eauto|].
    destruct (reorder_blocks held (set_ks_bcache bc1 s) _ _ Hc1 Hr2 Hsp) as [_ Hl Hd].
    destruct Hb1 as [_ Hl1 Hd1]. split; [split; [reflexivity|intros k'..]|].
    + rewrite <- Hl1. apply Hl.
    + rewrite <- Hd1. apply Hd.
    + intros j k' Hk' Hat. apply (reorder_at_buf (set_ks_bcache bc1 s)); [exact Hsp|].
      apply Hk1; [set_solver|exact Hat].
  - split; [exact Hc1|]. split; [exact Hb1|]. intros j k' Hk'. apply Hk1. set_solver.
Qed.

(** *** [binit] *)

(** Progress of [binit]: the buffers of [l] are on the list, empty. *)
Record initialised (l : list nat) (bc : list buf) : Prop := {
  in_len : length bc = S NBUF;
  in_chain : dchain (nx bc) (pv bc) HEAD l HEAD;
  in_bufs : forall i b, (i < NBUF)%nat -> bc !! i = Some b ->
              b_dev b = 0 /\ b_blockno b = 0 /\ length (b_data b) = Z.to_nat BSIZE;
  in_done : forall i b, i ∈ l -> bc !! i = Some b ->
              b_valid b = 0 /\ b_disk b = 0 /\ b_refcnt b = 0 }.

Definition reset_buf (b : buf) : buf := set_b_refcnt 0 (set_b_disk 0 (set_b_valid 0 b)).

Lemma chain_head_bound bc l :
  length bc = S NBUF -> (forall i, i ∈ l -> (i < NBUF)%nat) ->
  dchain (nx bc) (pv bc) HEAD l HEAD -> (nx bc HEAD < length bc)%nat.
Proof.
  intros -> Hl Hc. destruct l as [|x l]; destruct Hc as [-> _]; [unfold HEAD; lia|].
  apply Nat.lt_lt_succ_r, Hl. set_solver.
Qed.

Lemma push_front_payload i bc : same_payload (push_front i bc) bc.
Proof.
  unfold push_front. cbn zeta.
  repeat (etransitivity; [apply same_payload_links; reflexivity|]). reflexivity.
Qed.

Lemma binit_buf_run s i l :
  initialised l (ks_bcache s) -> (i < NBUF)%nat -> NoDup (HEAD :: i :: l) ->
  (forall j, j ∈ l -> (j < NBUF)%nat) ->
  let bc' := alter reset_buf i (push_front i (ks_bcache s)) in
  binit_buf i s = Ok tt (set_ks_bcache bc' s) /\ initialised (i :: l) bc'.
Proof.
  intros [Hlen Hch Hbufs Hdone] Hi Hnd Hl bc'.
  assert (i < length (ks_bcache s))%nat as Hi' by lia.
  assert (HEAD < length (ks_bcache s))%nat as Hh by (unfold HEAD; lia).
  pose proof (chain_head_bound _ _ Hlen Hl Hch) as Hn.
  assert (length (push_front i (ks_bcache s)) = S NBUF) as Hlen'.
  { unfold push_front. cbn zeta. now rewrite !length_alter. }
  split; [|split].
  - unfold binit_buf.
    rewrite (bind_Ok _ _ _ _ _ (insert_head_run s i Hi' Hh Hn ltac:(unfold HEAD; lia))).
    do 2 write_links ltac:(fields; rewrite ?length_alter, Hlen'; lia).
    rewrite modbuf_run by (fields; rewrite !length_alter, Hlen'; lia). fields.
    rewrite set_bcache_set, !alter_alter. reflexivity.
  - unfold bc'. now rewrite length_alter.
  - eapply dchain_ext; [intros; symmetry; now apply nx_alter|intros; symmetry; now apply pv_alter|].
    now apply push_front_chain.
  - intros j b Hj. unfold bc'. rewrite lookup_alter_buf. intros Hb.
    assert (exists b0, push_front i (ks_bcache s) !! j = Some b0 /\ b_dev b = b_dev b0 /\
              b_blockno b = b_blockno b0 /\ b_data b = b_data b0) as (b0 & Hb0 & -> & -> & ->).
    { case_decide; [|eauto]. apply fmap_Some in Hb as (b0 & ? & ->). exists b0. auto. }
    destruct (payload_lookup _ _ _ _ (symmetry (push_front_payload i (ks_bcache s))) Hb0)
      as (b1 & Hb1 & E). apply payload_fields in E as (_ & _ & <- & <- & _ & <-).
    now apply (Hbufs j).
  - intros j b Hj. unfold bc'. rewrite lookup_alter_buf. case_decide as E.
    + intros (b0 & _ & ->)%fmap_Some. repeat split.
    + intros Hb. apply elem_of_cons in Hj as [?|Hj]; [congruence|].
      destruct (payload_lookup _ _ _ _ (symmetry (push_front_payload i (ks_bcache s))) Hb)
        as (b1 & Hb1 & E1). apply payload_fields in E1 as (<- & <- & _ & _ & <- & _).
      now apply (Hdone j).
Qed.

Lemma binit_loop : forall todo l s,
  initialised l (ks_bcache s) -> NoDup (HEAD :: l ++ todo) ->
  (forall j, j ∈ l ++ todo -> (j < NBUF)%nat) ->
  exists bc', for_each todo binit_buf s = Ok tt (set_ks_bcache bc' s) /\
              initialised (rev todo ++ l) bc'.
Proof.
  induction todo as [|i todo IH]; intros l s Hin Hnd Hb.
  - exists (ks_bcache s). split; [now destruct s|exact Hin].
  - assert (HEAD :: l ++ i :: todo ≡ₚ HEAD :: (i :: l) ++ todo) as Hp
      by (cbn; now rewrite <- Permutation_middle).
    rewrite Hp in Hnd. assert (NoDup (HEAD :: i :: l)) as Hnd'.
    { change (NoDup ((HEAD :: i :: l) ++ todo)) in Hnd. apply NoDup_app in Hnd. tauto. }
    destruct (binit_buf_run s i l Hin) as [Hrun Hin']; [apply Hb; set_solver|exact Hnd'| |].
    { intros j Hj. apply Hb. set_solver. }
    cbn [for_each]. rewrite (bind_Ok _ _ _ _ _ Hrun).
    destruct (IH (i :: l) (set_ks_bcache (alter reset_buf i (push_front i (ks_bcache s))) s))
      as (bc' & Hrun' & H); [exact Hin'|exact Hnd| |].
    { intros j Hj. apply Hb. set_solver. }
    exists bc'. rewrite Hrun', set_bcache_set. split; [reflexivity|].
    cbn [rev]. now rewrite <- app_assoc.
Qed.

Lemma initialised_cache s bc :
  initialised (rev (seq 0 NBUF)) bc ->
  (forall k d, ks_disk s !! k = Some d -> length d = Z.to_nat BSIZE) ->
  cache [] (set_ks_bcache bc s) /\
  (forall k, lblk (set_ks_bcache bc s) k = ks_disk s !! k) /\
  (forall k, ~ is_cached (set_ks_bcache bc s) k /\ ~ dirty (set_ks_bcache bc s) k).
Proof.
  intros [Hlen Hch Hbufs Hdone] Hdisk.
  assert (forall i b, (i < NBUF)%nat -> bc !! i = Some b ->
            b_valid b = 0 /\ b_disk b = 0 /\ b_refcnt b = 0) as Hd.
  { intros i b Hi. apply Hdone. apply elem_of_rev, elem_of_seq. lia. }
  split; [|split].
  - split; fields; try assumption; cbn; try lia; [| | |set_solver].
    + exists (rev (seq 0 NBUF)). split; [exact Hlen|]. split; [|exact Hch].
      symmetry. apply Permutation_rev.
    + intros i b Hi Hb. destruct (Hd i b Hi Hb) as (H1 & H2 & H3).
      destruct (Hbufs i b Hi Hb) as (H4 & H5 & H6). split; auto; lia.
    + intros i j bi bj Hi Hj Hbi Hbj _ Hne. now destruct (Hbufs i bi Hi Hbi) as (_ & ? & _).
  - intros k. apply (lblk_out (set_ks_bcache bc s)). intros i b (Hi & Hb & Hv).
    now destruct (Hd i b Hi Hb).
  - intros k. split.
    + intros (i & Hi & b & Hb & Hv & _). now destruct (Hd i b Hi Hb).
    + intros (i & b & Hi & Hb & _ & Hk). now destruct (Hd i b Hi Hb) as (_ & ? & _).
Qed.

(** The buffers as [clear_bss] leaves them. *)
Definition zeroed (s : kstate) : Prop :=
  length (ks_bcache s) = S NBUF /\
  (forall i b, (i < NBUF)%nat -> ks_bcache s !! i = Some b ->
     b_dev b = 0 /\ b_blockno b = 0 /\ length (b_data b) = Z.to_nat BSIZE) /\
  (forall k d, ks_disk s !! k = Some d -> length d = Z.to_nat BSIZE).

Lemma binit_run s :
  zeroed s -> exists bc u, let s' := set_ks_bcache bc (upd_ks_uart u s) in
  binit s = Ok tt s' /\ cache [] s' /\ (forall k, lblk s' k = ks_disk s !! k) /\
  (forall k, ~ is_cached s' k /\ ~ dirty s' k).
Proof.
  intros (Hlen & Hbufs & Hdisk).
  assert (HEAD < length (ks_bcache s))%nat as Hh by (unfold HEAD; lia).
  set (bc0 := alter (set_b_next HEAD) HEAD (alter (set_b_prev HEAD) HEAD (ks_bcache s))).
  assert (initialised [] bc0) as Hin.
  { split; unfold bc0; [now rewrite !length_alter| | |set_solver].
    - cbn. rewrite nx_set_next, pv_alter, pv_set_prev by (rewrite ?length_alter; auto).
      unfold fupd. now rewrite decide_True.
    - intros i b Hi. rewrite !lookup_alter_buf, !decide_False by (unfold HEAD; lia).
      now apply Hbufs. }
  unfold binit. rewrite (bind_Ok _ _ _ _ _ (modbuf_run s HEAD _ Hh)).
  erewrite bind_Ok by (apply modbuf_run; fields; now rewrite length_alter). fields.
  rewrite set_bcache_set. fold bc0.
  destruct (binit_loop (seq 0 NBUF) [] (set_ks_bcache bc0 s)) as (bc & Hrun & Hin'); fields.
  - exact Hin.
  - apply NoDup_cons. split; [|apply NoDup_seq].
    intros Hx. apply elem_of_seq in Hx. unfold HEAD in Hx. lia.
  - intros j Hj. apply elem_of_seq in Hj. lia.
  - rewrite (bind_Ok _ _ _ _ _ Hrun), set_bcache_set. rewrite app_nil_r in Hin'.
    eexists bc, _. split.
    + unfold printf, bind at 1. rewrite (printf_loop_emit _ [] 0). reflexivity.
    + apply (initialised_cache (upd_ks_uart _ s)); [exact Hin'|exact Hdisk].
Qed.

(** ** Theorems *)

(** A machine with disk [disk] just after [clear_bss], and after [binit]. *)
Definition disk_state (disk : gmap Z (list Z)) : kstate := set_ks_disk disk demo_state.

Definition blocks_sized (disk : gmap Z (list Z)) : Prop :=
  map_Forall (fun _ d => length d = Z.to_nat BSIZE) disk.

Lemma disk_state_zeroed disk : blocks_sized disk -> zeroed (disk_state disk).
Proof.
  intros Hd. split; [reflexivity|]. split; [|exact Hd].
  intros i b _ Hb. apply lookup_replicate in Hb as [-> _]. auto.
Qed.

Lemma booted_disk disk :
  blocks_sized disk -> exists bc u, let s := set_ks_bcache bc (upd_ks_uart u (disk_state disk)) in
  cache [] s /\ (forall k, lblk s k = disk !! k) /\
  (forall k, ~ is_cached s k /\ ~ dirty s k).
Proof.
  intros H. destruct (binit_run _ (disk_state_zeroed _ H)) as (bc & u & _ & H1 & H2 & H3).
  exists bc, u. auto.
Qed.

Lemma room_clean s : (forall k, ~ is_cached s k /\ ~ dirty s k) -> room [] s.
Proof. intros H. exists []. split; [unfold NBUF; cbn; lia|]. intros k [Hk|Hk]; [set_solver|]. now destruct (H k). Qed.

(** A disk with a block of sevens in place 5, for the examples. *)
Definition demo_disk : gmap Z (list Z) := {[ 5 := replicate (Z.to_nat BSIZE) 7 ]}.

Lemma demo_disk_sized : blocks_sized demo_disk.
Proof. apply map_Forall_singleton. reflexivity. Qed.

(** C16: [bread] returns a buffer that shows the block: its cached contents, or
    else those on the disk; no block changes, and the caller holds one more
    reference. *)
Theorem bread_shows_block held s k :
  cache held s -> 0 < k < 2 ^ 31 -> is_Some (ks_disk s !! k) ->
  Z.of_nat (S (length held)) < 2 ^ 31 -> room held s \/ is_cached s k ->
  exists i d s', (b <- bread 0 k;; d <- bdata b;; ret (b, d)) s = Ok (i, d) s' /\
    lblk s k = Some d /\ at_buf s' i k /\ cache (k :: held) s' /\ same_blocks s s' /\
    keeps held s s'.
Proof.
  intros Hc Hk Hd Hf Hroom.
  destruct (proj1 (wp_Ok _ _ _) (bread_spec _ _ _ Hc Hk Hd Hf Hroom))
    as (i & s' & Hrun & Hc' & Hb & Hkp & Hat).
  destruct (bdata_spec _ _ _ _ Hc' Hat) as (d & Hdata & Hl & _).
  exists i, d, s'. rewrite (bind_Ok _ _ _ _ _ Hrun), (bind_Ok _ _ _ _ _ Hdata).
  rewrite (sm_lblk _ _ Hb) in Hl. auto 10.
Qed.

Lemma bread_shows_block_witness :
  exists s, ks_disk s = demo_disk /\
  exists i d s', (b <- bread 0 5;; d <- bdata b;; ret (b, d)) s = Ok (i, d) s' /\
    lblk s 5 = Some d /\ at_buf s' i 5 /\ cache [5] s' /\ same_blocks s s' /\ keeps [] s s'.
Proof.
  destruct (booted_disk demo_disk demo_disk_sized) as (bc & u & Hc & _ & Hnd).
  eexists. split; [|apply (bread_shows_block []); [exact Hc|lia| |cbn; lia|left]];
    [reflexivity|eexists; reflexivity|now apply room_clean].
Defined.

(** C34: a miss recycles the least recently used buffer that is neither held nor
    dirty; with none, [bread] panics with "bget: no buffers". *)
Theorem bread_recycles_lru held s k d lru :
  cache held s -> ring (ks_bcache s) lru -> 0 < k < 2 ^ 31 -> ks_disk s !! k = Some d ->
  ~ is_cached s k ->
  let free i := exists b, ks_bcache s !! i = Some b /\ b_refcnt b = 0 /\ b_disk b = 0 in
  (exists l1 i l2 s', lru = l1 ++ i :: l2 /\ free i /\ Forall (fun j => ~ free j) l2 /\
     bread 0 k s = Ok i s' /\ cache_only s s') \/
  (Forall (fun j => ~ free j) lru /\
   bread 0 k s = Panic (str "bget: no buffers")
     (upd_ks_uart (fun u => u ++ emit (str "PANIC: bget: no buffers" ++ [10])) s)).
Proof.
  intros Hc Hr Hk Hd Hout free.
  destruct (bget_run held s k lru Hc)
    as [(i & b & Ci & Hbk & _)|[(_ & l1 & i & l2 & b & E & Hi & Hb & Hrf & Hdk & Hbusy & Hget)
                                |(_ & Hfull & Hget)]]; [lia|exact Hr|..].
  - destruct Hout. exists i. apply at_cached. eauto.
  - left. exists l1, i, l2, (set_ks_bcache (alter (load k d) i (ks_bcache s)) s).
    split; [exact E|]. split; [exists b; auto|].
    split; [|split; [|reflexivity]].
    + apply Forall_forall. intros j Hj (bj & Hbj & Hfree). exact (Hbusy j bj Hj Hbj Hfree).
    + assert (i < length (ks_bcache s))%nat as Hlt by (eapply lookup_lt_Some; eauto).
      exact (bread_fill s i b k d _ Hget Hlt Hb Hk Hd eq_refl eq_refl).
  - right. split.
    + apply Forall_forall. intros j Hj (bj & Hbj & Hfree).
      apply (ring_elem _ _ _ Hr) in Hj. exact (Hfull j bj Hj Hbj Hfree).
    + unfold bread, bind. rewrite Hget. rewrite panic_run. reflexivity.
Qed.

Lemma bread_recycles_lru_witness :
  exists s lru, ks_disk s = demo_disk /\ ring (ks_bcache s) lru /\
  let free i := exists b, ks_bcache s !! i = Some b /\ b_refcnt b = 0 /\ b_disk b = 0 in
  (exists l1 i l2 s', lru = l1 ++ i :: l2 /\ free i /\ Forall (fun j => ~ free j) l2 /\
     bread 0 5 s = Ok i s' /\ cache_only s s') \/
  (Forall (fun j => ~ free j) lru /\
   bread 0 5 s = Panic (str "bget: no buffers")
     (upd_ks_uart (fun u => u ++ emit (str "PANIC: bget: no buffers" ++ [10])) s)).
Proof.
  destruct (booted_disk demo_disk demo_disk_sized) as (bc & u & Hc & _ & Hnc).
  destruct (ca_ring _ _ Hc) as (lru & Hr).
  eexists _, lru. split; [|split; [exact Hr|]]; [reflexivity|].
  apply (bread_recycles_lru [] _ 5 (replicate (Z.to_nat BSIZE) 7) lru);
    [exact Hc|exact Hr|lia|reflexivity|apply Hnc].
Defined.

(** C17: [bread], an update of the data, [bwrite] and [brelse]: the disk receives
    exactly this write, and every other block stays as it was. *)
Theorem block_update_reaches_disk held s k d :
  cache held s -> 0 < k < 2 ^ 31 -> is_Some (ks_disk s !! k) ->
  Z.of_nat (S (length held)) < 2 ^ 31 -> room held s \/ is_cached s k ->
  length d = Z.to_nat BSIZE ->
  exists s', (b <- bread 0 k;; _ <- set_bdata b d;; _ <- bwrite b;; brelse b) s = Ok tt s' /\
    cache held s' /\ ks_disk s' = <[k := d]> (ks_disk s) /\
    ks_writes s' = ks_writes s ++ [(k, d)] /\
    (forall k', lblk s' k' = if decide (k' = k) then Some d else lblk s k') /\
    (forall k', dirty s' k' <-> k' <> k /\ dirty s k').
Proof.
  intros Hc Hk Hd Hf Hroom Hlen.
  destruct (proj1 (wp_Ok _ _ _) (bread_spec _ _ _ Hc Hk Hd Hf Hroom))
    as (i & s1 & Hrun1 & Hc1 & [Ho1 Hl1 Hd1] & _ & Hat1).
  assert (k ∈ k :: held) as Hin by set_solver.
  destruct (proj1 (wp_Ok _ _ _) (set_bdata_spec _ _ _ _ _ Hc1 Hat1 Hin Hlen))
    as ([] & s2 & Hrun2 & Hc2 & Ho2 & Hk2 & Hl2 & Hd2).
  pose proof (Hk2 _ _ Hin Hat1) as Hat2.
  assert (lblk s2 k = Some d) as Hlk by (rewrite Hl2; now rewrite decide_True).
  destruct (proj1 (wp_Ok _ _ _) (bwrite_spec _ _ _ _ _ Hc2 Hat2 Hin Hlk))
    as ([] & s3 & Hrun3 & Hc3 & Hk3 & (bc & Es3) & Hl3 & Hd3).
  pose proof (Hk3 _ _ Hin Hat2) as Hat3.
  assert (ks_disk s3 = <[k := d]> (ks_disk s2)) as Hdisk by now rewrite Es3.
  assert (lblk s3 k = ks_disk s3 !! k) as Hclean
    by now rewrite Hl3, Hlk, Hdisk, lookup_insert_eq.
  destruct (proj1 (wp_Ok _ _ _) (brelse_spec _ _ _ _ Hc3 Hat3 (or_intror (or_intror Hclean))))
    as ([] & s4 & Hrun4 & Hc4 & [Ho4 Hl4 Hd4] & _).
  exists s4. rewrite (bind_Ok _ _ _ _ _ Hrun1), (bind_Ok _ _ _ _ _ Hrun2),
    (bind_Ok _ _ _ _ _ Hrun3).
  split; [exact Hrun4|]. split; [exact Hc4|].
  split; [rewrite Ho4; fields; now rewrite Hdisk, Ho2, Ho1|].
  split; [rewrite Ho4; fields; rewrite Es3; cbn; now rewrite Ho2, Ho1|].
  split; intros k'.
  - rewrite Hl4, Hl3, Hl2, Hl1. reflexivity.
  - rewrite Hd4, Hd3, Hd2, Hd1. reflexivity.
Qed.

Lemma block_update_reaches_disk_witness :
  exists s s', (b <- bread 0 5;; _ <- set_bdata b (replicate (Z.to_nat BSIZE) 8);;
                _ <- bwrite b;; brelse b) s = Ok tt s' /\
    cache [] s' /\ ks_disk s' = <[5 := replicate (Z.to_nat BSIZE) 8]> (ks_disk s) /\
    ks_writes s' = ks_writes s ++ [(5, replicate (Z.to_nat BSIZE) 8)] /\
    (forall k', lblk s' k' = if decide (k' = 5) then Some (replicate (Z.to_nat BSIZE) 8)
                             else lblk s k') /\
    (forall k', dirty s' k' <-> k' <> 5 /\ dirty s k').
Proof.
  destruct (booted_disk demo_disk demo_disk_sized) as (bc & u & Hc & _ & Hnc).
  eexists. apply (block_update_reaches_disk [] _ 5);
    [exact Hc|lia|eexists; reflexivity|cbn; lia|left; now apply room_clean|reflexivity].
Defined.

(** [brelse] by the last holder makes the buffer the most recently used one;
    by another holder it leaves the order alone. *)
Theorem brelse_most_recent held s i k l1 l2 :
  cache (k :: held) s -> at_buf s i k -> ring (ks_bcache s) (l1 ++ i :: l2) ->
  exists s', brelse i s = Ok tt s' /\
    ring (ks_bcache s') (if decide (k ∈ held) then l1 ++ i :: l2 else i :: l1 ++ l2).
Proof.
  intros Hc (b & Ci & Hbk)%at_cached Hr. pose proof Ci as (Hi & Hb & Hv).
  eexists. split; [exact (brelse_run _ _ _ _ _ Hr Hb)|]. fields.
  pose proof (bo_ref _ _ _ (ca_bufs _ _ Hc i b Hi Hb)) as Hrf.
  rewrite count_occ_cons_eq in Hrf by auto. rewrite Hbk in Hrf.
  pose proof (count_occ_le held k). pose proof (ca_few _ _ Hc) as Hfew. cbn [length] in Hfew.
  assert (u32 (b_refcnt b - 1) = Z.of_nat (count_occ Z.eq_dec held k)) as ->
    by (rewrite u32_id; lia).
  assert (forall f, (forall x, b_next (f x) = b_next x) -> (forall x, b_prev (f x) = b_prev x) ->
            ring (alter f i (ks_bcache s)) (l1 ++ i :: l2)) as Hr1
    by (intros; now apply ring_alter).
  case_decide as Hk.
  - apply list_elem_of_In, (count_occ_In Z.eq_dec) in Hk.
    destruct (Z.eqb_spec (Z.of_nat (count_occ Z.eq_dec held k)) 0); [lia|]. now apply Hr1.
  - rewrite list_elem_of_In in Hk. apply (count_occ_not_In Z.eq_dec) in Hk. rewrite Hk.
    cbn [Z.of_nat Z.eqb]. now apply ring_move, Hr1.
Qed.

Lemma brelse_most_recent_witness :
  exists s i l1 l2, ring (ks_bcache s) (l1 ++ i :: l2) /\
  exists s', brelse i s = Ok tt s' /\
    ring (ks_bcache s') (if decide (5 ∈ @nil Z) then l1 ++ i :: l2 else i :: l1 ++ l2).
Proof.
  destruct (booted_disk demo_disk demo_disk_sized) as (bc & u & Hc & _ & Hnc).
  destruct (proj1 (wp_Ok _ _ _) (bread_spec [] _ 5 Hc ltac:(lia) ltac:(eexists; reflexivity)
              ltac:(cbn; lia) (or_introl (room_clean _ Hnc)))) as (i & s & _ & Hc' & _ & _ & Hat).
  destruct (ca_ring _ _ Hc') as (lru & Hr).
  assert (i ∈ lru) as Hin by (apply (ring_elem _ _ _ Hr), Hat).
  apply list_elem_of_split in Hin as (l1 & l2 & ->).
  exists s, i, l1, l2. split; [exact Hr|]. exact (brelse_most_recent [] s i 5 l1 l2 Hc' Hat Hr).
Defined.

(** [binit] builds a well-formed empty cache: nothing is held or dirty, and
    [bread] will show the disk. *)
Theorem binit_empty_cache s :
  zeroed s ->
  exists s', binit s = Ok tt s' /\ cache [] s' /\ ks_disk s' = ks_disk s /\
    (forall k, lblk s' k = ks_disk s !! k) /\ (forall k, ~ is_cached s' k /\ ~ dirty s' k).
Proof.
  intros H. destruct (binit_run s H) as (bc & u & Hrun & Hc & Hl & Hn).
  eexists. split; [exact Hrun|]. auto.
Qed.

Lemma binit_empty_cache_witness :
  exists s', binit (disk_state demo_disk) = Ok tt s' /\ cache [] s' /\
    ks_disk s' = ks_disk (disk_state demo_disk) /\
    (forall k, lblk s' k = ks_disk (disk_state demo_disk) !! k) /\
    (forall k, ~ is_cached s' k /\ ~ dirty s' k).
Proof. apply binit_empty_cache, disk_state_zeroed, demo_disk_sized. Defined.
