(* ===== verification/Virtio.v ===== *)
(** * The disk driver: kernel/virtio_disk.c

    The driver shares a descriptor table and two rings with the device.  The
    device is not part of the repository: what it does to the shared memory, to
    the buffers and to the disk is the parameter [device], which acts whenever the
    driver polls, and the registers it shows are the parameter [dev_reg].  Under
    the behaviour that the virtio specification documents for a block request, a
    call of [virtio_disk_rw] with an idle queue has the effect [disk_rw] that the
    buffer cache is built on, and leaves the queue idle. *)
From S2P Require Import Prelude State Printf Bio.

(** ** Model *)

Definition NUM : Z := 8.

(** What a descriptor points to: the static request header [buf0], the data of a
    buffer, the static [status0]. *)
Inductive vaddr := ANull | AReq | AData (b : nat) | AStatus.

(** [struct virtq_desc] (include/virtio.h). *)
Record virtq_desc := mkDesc { vq_addr : vaddr; vq_len : Z; vq_flags : Z; vq_next : Z }.

(** [struct virtio_blk_req]. *)
Record blk_req := mkReq { rq_type : Z; rq_reserved : Z; rq_sector : Z }.

(** [struct disk], with the shared rings of [disk.pages]; [avail->ring] and the
    ids of [used->ring]. *)
Record vdisk := mkVdisk {
  vd_desc : list virtq_desc;
  vd_avail_idx : Z; vd_avail_ring : list Z;
  vd_uidx : Z; vd_used_ring : list Z;
  vd_free : list Z; vd_used_idx : Z; vd_info : list (option nat); vd_init : Z;
  vd_buf0 : blk_req; vd_status0 : Z }.

(** The kernel's state, the driver's, the writes to the device's registers, and
    how often the driver has polled. *)
Record vstate := mkVstate { vs_k : kstate; vs_d : vdisk; vs_mmio : list (Z * Z); vs_polls : nat }.

Abbreviation V A := (M vstate A).

Definition with_k (s : kstate) (v : vstate) : vstate := mkVstate s (vs_d v) (vs_mmio v) (vs_polls v).
Definition with_d (f : vdisk -> vdisk) (v : vstate) : vstate :=
  mkVstate (vs_k v) (f (vs_d v)) (vs_mmio v) (vs_polls v).

(** Code that does not touch the driver. *)
Fixpoint lift_outcome {A} (v : vstate) (o : outcome kstate A) : outcome vstate A :=
  match o with
  | Ok a s => Ok a (with_k s v)
  | Panic msg s => Panic msg (with_k s v)
  | Fault => Fault
  | Hang s => Hang (with_k s v)
  | OutOfFuel => OutOfFuel
  | Switch s k => Switch (with_k s v) (fun v' => lift_outcome v' (k (vs_k v')))
  end.
Definition lift {A} (m : K A) : V A := fun v => lift_outcome v (m (vs_k v)).

Definition getd : V vdisk := gets vs_d.
Definition modd (f : vdisk -> vdisk) : V unit := modify (with_d f).

Definition set_vd_desc (x : list virtq_desc) (d : vdisk) : vdisk :=
  mkVdisk x (vd_avail_idx d) (vd_avail_ring d) (vd_uidx d) (vd_used_ring d) (vd_free d) (vd_used_idx d)
    (vd_info d) (vd_init d) (vd_buf0 d) (vd_status0 d).
Definition set_vd_avail_idx (x : Z) (d : vdisk) : vdisk :=
  mkVdisk (vd_desc d) x (vd_avail_ring d) (vd_uidx d) (vd_used_ring d) (vd_free d) (vd_used_idx d)
    (vd_info d) (vd_init d) (vd_buf0 d) (vd_status0 d).
Definition set_vd_avail_ring (x : list Z) (d : vdisk) : vdisk :=
  mkVdisk (vd_desc d) (vd_avail_idx d) x (vd_uidx d) (vd_used_ring d) (vd_free d) (vd_used_idx d)
    (vd_info d) (vd_init d) (vd_buf0 d) (vd_status0 d).
Definition set_vd_free (x : list Z) (d : vdisk) : vdisk :=
  mkVdisk (vd_desc d) (vd_avail_idx d) (vd_avail_ring d) (vd_uidx d) (vd_used_ring d) x (vd_used_idx d)
    (vd_info d) (vd_init d) (vd_buf0 d) (vd_status0 d).
Definition set_vd_used_idx (x : Z) (d : vdisk) : vdisk :=
  mkVdisk (vd_desc d) (vd_avail_idx d) (vd_avail_ring d) (vd_uidx d) (vd_used_ring d) (vd_free d) x
    (vd_info d) (vd_init d) (vd_buf0 d) (vd_status0 d).
Definition set_vd_info (x : list (option nat)) (d : vdisk) : vdisk :=
  mkVdisk (vd_desc d) (vd_avail_idx d) (vd_avail_ring d) (vd_uidx d) (vd_used_ring d) (vd_free d)
    (vd_used_idx d) x (vd_init d) (vd_buf0 d) (vd_status0 d).
Definition set_vd_init (x : Z) (d : vdisk) : vdisk :=
  mkVdisk (vd_desc d) (vd_avail_idx d) (vd_avail_ring d) (vd_uidx d) (vd_used_ring d) (vd_free d)
    (vd_used_idx d) (vd_info d) x (vd_buf0 d) (vd_status0 d).
Definition set_vd_buf0 (x : blk_req) (d : vdisk) : vdisk :=
  mkVdisk (vd_desc d) (vd_avail_idx d) (vd_avail_ring d) (vd_uidx d) (vd_used_ring d) (vd_free d)
    (vd_used_idx d) (vd_info d) (vd_init d) x (vd_status0 d).

(** Registers (include/virtio.h). *)
Definition VIRTIO_MMIO_DEVICE_FEATURES : Z := 0x010.
Definition VIRTIO_MMIO_DRIVER_FEATURES : Z := 0x020.
Definition VIRTIO_MMIO_QUEUE_SEL : Z := 0x030.
Definition VIRTIO_MMIO_QUEUE_NUM_MAX : Z := 0x034.
Definition VIRTIO_MMIO_QUEUE_NUM : Z := 0x038.
Definition VIRTIO_MMIO_QUEUE_READY : Z := 0x044.
Definition VIRTIO_MMIO_QUEUE_NOTIFY : Z := 0x050.
Definition VIRTIO_MMIO_INTERRUPT_STATUS : Z := 0x060.
Definition VIRTIO_MMIO_INTERRUPT_ACK : Z := 0x064.
Definition VIRTIO_MMIO_STATUS : Z := 0x070.
Definition VIRTIO_MMIO_QUEUE_DESC_LOW : Z := 0x080.
Definition VIRTIO_MMIO_QUEUE_DESC_HIGH : Z := 0x084.
Definition VIRTIO_MMIO_QUEUE_DRIVER_LOW : Z := 0x090.
Definition VIRTIO_MMIO_QUEUE_DRIVER_HIGH : Z := 0x094.
Definition VIRTIO_MMIO_QUEUE_DEVICE_LOW : Z := 0x0a0.
Definition VIRTIO_MMIO_QUEUE_DEVICE_HIGH : Z := 0x0a4.

Definition VRING_DESC_F_NEXT : Z := 1.
Definition VRING_DESC_F_WRITE : Z := 2.
Definition VIRTIO_BLK_T_IN : Z := 0.
Definition VIRTIO_BLK_T_OUT : Z := 1.

Definition w_mmio (reg x : Z) : V unit :=
  modify (fun v => mkVstate (vs_k v) (vs_d v) (vs_mmio v ++ [(reg, u32 x)]) (vs_polls v)).

(** The descriptors after [disk.pages] was zeroed. *)
Definition zero_desc : virtq_desc := mkDesc ANull 0 0 0.

(** [alloc3_desc]: [None] is the result -1. *)
Definition alloc3_desc : V (option Z) :=
  for_find (upto NUM) (fun i =>
    d <- getd;;
    f <- of_opt (lget i (vd_free d));;
    if f =? 0 then ret None
    else
      l <- of_opt (lset i 0 (vd_free d));;
      l <- of_opt (lset ((i + 1) mod NUM) 0 l);;
      l <- of_opt (lset ((i + 2) mod NUM) 0 l);;
      _ <- modd (set_vd_free l);;
      ret (Some i)).

Definition free_chain (i : Z) : V unit :=
  d <- getd;;
  l <- of_opt (lset i 1 (vd_free d));;
  l <- of_opt (lset ((i + 1) mod NUM) 1 l);;
  l <- of_opt (lset ((i + 2) mod NUM) 1 l);;
  modd (set_vd_free l).

Definition set_desc (i : Z) (x : virtq_desc) : V unit :=
  d <- getd;; l <- of_opt (lset i x (vd_desc d));; modd (set_vd_desc l).

Section driver.
Context (pages : Z) (dev_reg : vstate -> Z -> Z) (device : nat -> vstate -> vstate).

Definition r_mmio (reg : Z) : V Z := gets (fun v => u32 (dev_reg v reg)).

Definition virtio_disk_init : V unit :=
  d <- getd;;
  if negb (vd_init d =? 0) then ret tt
  else
    _ <- w_mmio VIRTIO_MMIO_STATUS 0;;
    let status := Z.lor 0 1 in
    _ <- w_mmio VIRTIO_MMIO_STATUS status;;
    let status := Z.lor status 2 in
    _ <- w_mmio VIRTIO_MMIO_STATUS status;;
    _ <- w_mmio VIRTIO_MMIO_DEVICE_FEATURES 0;;
    _ <- w_mmio VIRTIO_MMIO_DRIVER_FEATURES 0;;
    let status := Z.lor status 8 in
    _ <- w_mmio VIRTIO_MMIO_STATUS status;;
    status <- r_mmio VIRTIO_MMIO_STATUS;;
    _ <- when (Z.land status 8 =? 0) (lift (panic (str "virtio disk FEATURES_OK unset")));;
    _ <- w_mmio VIRTIO_MMIO_QUEUE_SEL 0;;
    ready <- r_mmio VIRTIO_MMIO_QUEUE_READY;;
    _ <- when (negb (ready =? 0)) (lift (panic (str "virtio disk should not be ready")));;
    max <- r_mmio VIRTIO_MMIO_QUEUE_NUM_MAX;;
    _ <- when (max =? 0) (lift (panic (str "virtio disk has no queue 0")));;
    _ <- when (max <? NUM) (lift (panic (str "virtio disk max queue too short")));;
    _ <- w_mmio VIRTIO_MMIO_QUEUE_NUM NUM;;
    _ <- modd (fun d => mkVdisk (replicate (Z.to_nat NUM) zero_desc) 0 (replicate (Z.to_nat NUM) 0) 0
                 (replicate (Z.to_nat NUM) 0) (vd_free d) (vd_used_idx d) (vd_info d) (vd_init d)
                 (vd_buf0 d) (vd_status0 d));;
    let desc := pages in
    let avail := pages + NUM * 16 in
    let used := pages + 4096 in
    _ <- w_mmio VIRTIO_MMIO_QUEUE_DESC_LOW desc;;
    _ <- w_mmio VIRTIO_MMIO_QUEUE_DESC_HIGH (Z.shiftr desc 32);;
    _ <- w_mmio VIRTIO_MMIO_QUEUE_DRIVER_LOW avail;;
    _ <- w_mmio VIRTIO_MMIO_QUEUE_DRIVER_HIGH (Z.shiftr avail 32);;
    _ <- w_mmio VIRTIO_MMIO_QUEUE_DEVICE_LOW used;;
    _ <- w_mmio VIRTIO_MMIO_QUEUE_DEVICE_HIGH (Z.shiftr used 32);;
    _ <- w_mmio VIRTIO_MMIO_QUEUE_READY 1;;
    let status := Z.lor status 4 in
    _ <- w_mmio VIRTIO_MMIO_STATUS status;;
    _ <- modd (set_vd_init 1);;
    _ <- modd (set_vd_free (replicate (Z.to_nat NUM) 1));;
    _ <- lift (printf (str "virtio_disk_init: disk initialized" ++ [10]) []);;
    ret tt.

(** The loop over the new entries of the used ring; their number is [fuel]. *)
Fixpoint intr_loop (fuel : nat) : V unit :=
  d <- getd;;
  if vd_used_idx d =? vd_uidx d then ret tt
  else
    match fuel with
    | O => out_of_fuel
    | S fuel' =>
        id <- of_opt (lget (vd_used_idx d mod NUM) (vd_used_ring d));;
        info <- of_opt (lget id (vd_info d));;
        _ <- match info with
             | Some b =>
                 _ <- lift (modbuf b (set_b_disk 0));;
                 l <- of_opt (lset id None (vd_info d));;
                 modd (set_vd_info l)
             | None => ret tt
             end;;
        _ <- free_chain id;;
        _ <- modd (fun d => set_vd_used_idx (u16 (vd_used_idx d + 1)) d);;
        intr_loop fuel'
    end.

(** The device may have made progress since the last poll. *)
Definition virtio_disk_intr : V unit :=
  _ <- modify (fun v => device (vs_polls v) v);;
  _ <- modify (fun v => mkVstate (vs_k v) (vs_d v) (vs_mmio v) (S (vs_polls v)));;
  st <- r_mmio VIRTIO_MMIO_INTERRUPT_STATUS;;
  _ <- w_mmio VIRTIO_MMIO_INTERRUPT_ACK (Z.land st 0x3);;
  d <- getd;;
  intr_loop (Z.to_nat (u16 (vd_uidx d - vd_used_idx d))).

(** [while(b->disk == 1) virtio_disk_intr();] *)
Fixpoint wait_disk (fuel : nat) (b : nat) : V unit :=
  bb <- lift (getbuf b);;
  if b_disk bb =? 1 then
    match fuel with
    | O => out_of_fuel
    | S fuel' => _ <- virtio_disk_intr;; wait_disk fuel' b
    end
  else ret tt.

(** The three descriptors and the avail ring entry of a request. *)
Definition submit (b : nat) (write : bool) (sector i0 : Z) : V unit :=
  let i1 := (i0 + 1) mod NUM in
  let i2 := (i0 + 2) mod NUM in
  _ <- modd (set_vd_buf0 (mkReq (if write then VIRTIO_BLK_T_OUT else VIRTIO_BLK_T_IN) 0 sector));;
  _ <- set_desc i0 (mkDesc AReq 16 VRING_DESC_F_NEXT i1);;
  _ <- set_desc i1 (mkDesc (AData b) BSIZE (Z.lor (if write then 0 else VRING_DESC_F_WRITE) VRING_DESC_F_NEXT) i2);;
  _ <- set_desc i2 (mkDesc AStatus 1 VRING_DESC_F_WRITE 0);;
  _ <- lift (modbuf b (set_b_disk 1));;
  d <- getd;;
  info <- of_opt (lset i0 (Some b) (vd_info d));;
  _ <- modd (set_vd_info info);;
  d <- getd;;
  ring <- of_opt (lset (vd_avail_idx d mod NUM) i0 (vd_avail_ring d));;
  _ <- modd (set_vd_avail_ring ring);;
  _ <- modd (fun d => set_vd_avail_idx (u16 (vd_avail_idx d + 1)) d);;
  w_mmio VIRTIO_MMIO_QUEUE_NOTIFY 0.

(** A failing [alloc3_desc] changes nothing, so that the loop around it spins for
    ever; [polls] bounds how long the device takes. *)
Definition virtio_disk_rw (polls : nat) (b : nat) (write : bool) : V unit :=
  bb <- lift (getbuf b);;
  let sector := u32 (b_blockno bb * (BSIZE / 512)) in
  d <- getd;;
  _ <- when (vd_init d =? 0) (lift (panic (str "virtio_disk_rw: not initialized")));;
  o <- alloc3_desc;;
  match o with
  | None => hang
  | Some i0 =>
      _ <- submit b write sector i0;;
      wait_disk polls b
  end.
End driver.

(** ** The documented behaviour of the device *)

(** The request whose descriptor chain starts at [i0]. *)
Definition is_chain (d : vdisk) (i0 : Z) (b : nat) (write : bool) : Prop :=
  exists i1 i2,
    lget i0 (vd_desc d) = Some (mkDesc AReq 16 VRING_DESC_F_NEXT i1) /\
    lget i1 (vd_desc d) =
      Some (mkDesc (AData b) BSIZE (Z.lor (if write then 0 else VRING_DESC_F_WRITE) VRING_DESC_F_NEXT) i2) /\
    lget i2 (vd_desc d) = Some (mkDesc AStatus 1 VRING_DESC_F_WRITE 0).

(** One request is in the avail ring that is not in the used ring. *)
Definition pending (v : vstate) (i0 : Z) (b : nat) (write : bool) : Prop :=
  let d := vs_d v in
  vd_avail_idx d = u16 (vd_uidx d + 1) /\ lget (vd_uidx d mod NUM) (vd_avail_ring d) = Some i0 /\
  is_chain d i0 b write /\
  rq_type (vd_buf0 d) = (if write then VIRTIO_BLK_T_OUT else VIRTIO_BLK_T_IN).

(** The transfer of a request for the two sectors from [sector] on: nothing, if
    the disk does not have them. *)
Definition transfer (b : nat) (write : bool) (sector : Z) (s : kstate) : kstate :=
  match ks_disk s !! (sector / 2), ks_bcache s !! b with
  | Some d, Some bb =>
      if write
      then upd_ks_disk (<[sector / 2 := b_data bb]>) (upd_ks_writes (fun w => w ++ [(sector / 2, b_data bb)]) s)
      else upd_ks_bcache (alter (set_b_data d) b) s
  | _, _ => s
  end.

(** A completed request: the data are transferred, the status byte is set and the
    used ring has the head of the chain. *)
Definition done (v : vstate) (i0 : Z) (b : nat) (write : bool) (status : Z) : vstate :=
  let d := vs_d v in
  mkVstate (transfer b write (rq_sector (vd_buf0 d)) (vs_k v))
    (mkVdisk (vd_desc d) (vd_avail_idx d) (vd_avail_ring d) (u16 (vd_uidx d + 1))
       (<[Z.to_nat (vd_uidx d mod NUM) := i0]> (vd_used_ring d))
       (vd_free d) (vd_used_idx d) (vd_info d) (vd_init d) (vd_buf0 d) status)
    (vs_mmio v) (vs_polls v).

(** The device leaves a pending request alone while it is busy, and completes it
    at the first poll that finds it done, which is at most [delay] polls away. *)
Record virtio_device (device : nat -> vstate -> vstate) (busy : nat -> bool) (delay : nat) : Prop := {
  dev_busy : forall n v i0 b write, pending v i0 b write -> busy n = true -> device n v = v;
  dev_done : forall n v i0 b write, pending v i0 b write -> busy n = false ->
    exists status, device n v = done v i0 b write status;
  dev_delay : forall n, exists m, (n <= m <= n + delay)%nat /\ busy m = false }.

(** ** Lemmas *)

(** The queue between two requests. *)
Record idle (d : vdisk) : Prop := {
  id_desc : length (vd_desc d) = 8%nat;
  id_avail : length (vd_avail_ring d) = 8%nat;
  id_used : length (vd_used_ring d) = 8%nat;
  id_idx : vd_avail_idx d = vd_uidx d /\ vd_used_idx d = vd_uidx d /\ 0 <= vd_uidx d < 2 ^ 16;
  id_free : vd_free d = replicate 8 1;
  id_info : vd_info d = replicate 8 None;
  id_init : vd_init d <> 0 }.

Section driver_lemmas.
Context (pages : Z) (dev_reg : vstate -> Z -> Z) (device : nat -> vstate -> vstate).
Context (busy : nat -> bool) (delay : nat) (Hdev : virtio_device device busy delay).

Lemma lift_Ok {A} (m : K A) v a s : m (vs_k v) = Ok a s -> lift m v = Ok a (with_k s v).
Proof. intros H. unfold lift. now rewrite H. Qed.

(** Computes the primitive steps of a run on a state in constructor form. *)
Ltac vrun :=
  repeat (progress (unfold of_opt, ret, modd, modify, with_d, with_k, w_mmio;
    cbn [obind vs_k vs_d vs_mmio vs_polls vd_desc vd_avail_idx vd_avail_ring vd_uidx vd_used_ring vd_free
         vd_used_idx vd_info vd_init vd_buf0 vd_status0 set_vd_desc set_vd_avail_idx set_vd_avail_ring
         set_vd_free set_vd_used_idx set_vd_info set_vd_init set_vd_buf0])).

(** A request on its way: the state that waits for the device. *)
Record waiting (b : nat) (write : bool) (bb : buf) (v : vstate) : Prop := {
  wa_pending : pending v 0 b write;
  wa_buf : ks_bcache (vs_k v) !! b = Some bb;
  wa_flag : b_disk bb = 1;
  wa_used : vd_used_idx (vs_d v) = vd_uidx (vs_d v);
  wa_idx : 0 <= vd_uidx (vs_d v) < 2 ^ 16;
  wa_ring : length (vd_used_ring (vs_d v)) = 8%nat;
  wa_info : vd_info (vs_d v) = <[O := Some b]> (replicate 8 None);
  wa_free : vd_free (vs_d v) = [0; 0; 0; 1; 1; 1; 1; 1] }.

(** What a poll adds to the state besides the device's work. *)
Definition polled (v : vstate) : vstate :=
  let v1 := mkVstate (vs_k v) (vs_d v) (vs_mmio v) (S (vs_polls v)) in
  mkVstate (vs_k v) (vs_d v)
    (vs_mmio v ++ [(VIRTIO_MMIO_INTERRUPT_ACK, u32 (Z.land (u32 (dev_reg v1 VIRTIO_MMIO_INTERRUPT_STATUS)) 3))])
    (S (vs_polls v)).

Lemma intr_run v :
  virtio_disk_intr dev_reg device v =
    intr_loop (Z.to_nat (u16 (vd_uidx (vs_d (device (vs_polls v) v)) - vd_used_idx (vs_d (device (vs_polls v) v)))))
      (polled (device (vs_polls v) v)).
Proof. reflexivity. Qed.

Lemma u16_succ_ne x : 0 <= x < 2 ^ 16 -> x <> u16 (x + 1).
Proof. unfold u16. mlia. Qed.

Lemma u16_step x : 0 <= x < 2 ^ 16 -> u16 (u16 (x + 1) - x) = 1.
Proof. unfold u16. mlia. Qed.

(** A poll while the device is busy. *)
Lemma poll_busy b write bb v :
  waiting b write bb v -> busy (vs_polls v) = true ->
  virtio_disk_intr dev_reg device v = Ok tt (polled v).
Proof.
  intros Hw Hb. rewrite intr_run, (dev_busy _ _ _ Hdev _ _ _ _ _ (wa_pending _ _ _ _ Hw) Hb).
  rewrite (wa_used _ _ _ _ Hw), Z.sub_diag. cbn [u16 Z.to_nat]. change (Z.to_nat (u16 0)) with O.
  cbn [intr_loop]. unfold getd, gets, bind. cbn [obind polled vs_d]. rewrite (wa_used _ _ _ _ Hw), Z.eqb_refl.
  reflexivity.
Qed.

Lemma waiting_polled b write bb v : waiting b write bb v -> waiting b write bb (polled v).
Proof. intros [H1 H2 H3 H4 H5 H6 H7 H8]. split; assumption. Qed.

Lemma mod8 x : 0 <= x mod NUM < 8.
Proof. unfold NUM. apply Z.mod_pos_bound. lia. Qed.

(** The state after the poll that finds the request done. *)
Definition reclaimed (b : nat) (v : vstate) : vstate :=
  let d := vs_d v in
  mkVstate (upd_ks_bcache (alter (set_b_disk 0) b) (vs_k v))
    (mkVdisk (vd_desc d) (vd_avail_idx d) (vd_avail_ring d) (vd_uidx d) (vd_used_ring d)
       (replicate 8 1) (vd_uidx d) (replicate 8 None) (vd_init d) (vd_buf0 d) (vd_status0 d))
    (vs_mmio v) (vs_polls v).

(** The used ring has one entry, for the chain of descriptors 0 to 2. *)
Lemma intr_once v b bb :
  let d := vs_d v in
  vd_used_idx d <> vd_uidx d -> vd_uidx d = u16 (vd_used_idx d + 1) ->
  lget (vd_used_idx d mod NUM) (vd_used_ring d) = Some 0 ->
  vd_info d = <[O := Some b]> (replicate 8 None) -> vd_free d = [0; 0; 0; 1; 1; 1; 1; 1] ->
  ks_bcache (vs_k v) !! b = Some bb ->
  intr_loop 1 v = Ok tt (reclaimed b v).
Proof.
  destruct v as [k [desc aidx aring uidx uring free ui info init buf0 status0] mmio polls].
  cbn [vs_d vs_k vd_used_idx vd_uidx vd_used_ring vd_info vd_free]. intros Hne Hu Hget -> -> Hb.
  cbn [intr_loop]. unfold bind, getd, gets. cbn [obind vs_d vd_used_idx vd_uidx].
  destruct (Z.eqb_spec ui uidx); [contradiction|].
  vrun. rewrite Hget. vrun.
  change (lget 0 (<[0%nat:=Some b]> (replicate 8 None))) with (Some (Some b)). vrun.
  rewrite (lift_Ok _ _ tt (upd_ks_bcache (alter (set_b_disk 0) b) k))
    by (cbn [vs_k]; apply modbuf_run; now apply (lookup_lt_Some _ _ bb)).
  vrun. change (lset 0 None (<[0%nat:=Some b]> (replicate 8 None))) with (Some (replicate 8 (@None nat))). vrun.
  unfold free_chain, bind, getd, gets. vrun.
  change (lset 0 1 [0; 0; 0; 1; 1; 1; 1; 1]) with (Some [1; 0; 0; 1; 1; 1; 1; 1]). vrun.
  change (lset ((0 + 1) mod NUM) 1 [1; 0; 0; 1; 1; 1; 1; 1]) with (Some [1; 1; 0; 1; 1; 1; 1; 1]). vrun.
  change (lset ((0 + 2) mod NUM) 1 [1; 1; 0; 1; 1; 1; 1; 1]) with (Some [1; 1; 1; 1; 1; 1; 1; 1]). vrun.
  rewrite <- Hu, Z.eqb_refl. unfold reclaimed. cbn [vs_d vs_k vs_mmio vs_polls vd_desc vd_avail_idx vd_avail_ring vd_uidx
    vd_used_ring vd_init vd_buf0 vd_status0]. unfold ret. now rewrite Hu.
Qed.

Lemma transfer_buf b write sector s bb :
  ks_bcache s !! b = Some bb -> exists bb', ks_bcache (transfer b write sector s) !! b = Some bb'.
Proof.
  intros Hb. unfold transfer. destruct (ks_disk s !! (sector / 2)) as [d|]; [|eauto]. rewrite Hb.
  destruct write; [eauto|]. fields. rewrite lookup_alter_buf, decide_True, Hb by reflexivity. eauto.
Qed.

(** A poll that finds the request done. *)
Lemma poll_done b write bb v :
  waiting b write bb v -> busy (vs_polls v) = false ->
  exists status, virtio_disk_intr dev_reg device v = Ok tt (reclaimed b (polled (done v 0 b write status))).
Proof.
  intros Hw Hb. destruct (dev_done _ _ _ Hdev _ _ _ _ _ (wa_pending _ _ _ _ Hw) Hb) as (status & Hd).
  exists status. rewrite intr_run, Hd. destruct Hw as [_ Hbuf _ Hused Hidx Hring Hinfo Hfree].
  destruct (transfer_buf b write (rq_sector (vd_buf0 (vs_d v))) (vs_k v) bb Hbuf) as (bb' & Hbuf').
  pose proof (mod8 (vd_uidx (vs_d v))) as Hm.
  assert (Z.to_nat (u16 (vd_uidx (vs_d (done v 0 b write status)) - vd_used_idx (vs_d (done v 0 b write status)))) = 1%nat)
    as -> by (cbn [done vs_d vd_uidx vd_used_idx]; now rewrite Hused, u16_step).
  eapply intr_once; cbn [polled done vs_d vs_k vd_used_idx vd_uidx vd_used_ring vd_info vd_free]; rewrite ?Hused; eauto.
  - now apply u16_succ_ne.
  - apply lget_Some. split; [lia|]. apply list_lookup_insert_eq. lia.
Qed.

(** *** Submitting a request to an idle queue *)

Definition submitted (b : nat) (write : bool) (sector : Z) (v : vstate) : vstate :=
  let d := vs_d v in
  let write_flag := Z.lor (if write then 0 else VRING_DESC_F_WRITE) VRING_DESC_F_NEXT in
  mkVstate (upd_ks_bcache (alter (set_b_disk 1) b) (vs_k v))
    (mkVdisk
       (<[2%nat := mkDesc AStatus 1 VRING_DESC_F_WRITE 0]> (<[1%nat := mkDesc (AData b) BSIZE write_flag 2]>
          (<[0%nat := mkDesc AReq 16 VRING_DESC_F_NEXT 1]> (vd_desc d))))
       (u16 (vd_avail_idx d + 1)) (<[Z.to_nat (vd_avail_idx d mod NUM) := 0]> (vd_avail_ring d))
       (vd_uidx d) (vd_used_ring d) [0; 0; 0; 1; 1; 1; 1; 1] (vd_used_idx d)
       (<[O := Some b]> (replicate 8 None)) (vd_init d)
       (mkReq (if write then VIRTIO_BLK_T_OUT else VIRTIO_BLK_T_IN) 0 sector) (vd_status0 d))
    (vs_mmio v ++ [(VIRTIO_MMIO_QUEUE_NOTIFY, 0)]) (vs_polls v).

Lemma lset_8 {A} (x : A) i (l : list A) : length l = 8%nat -> 0 <= i < 8 -> lset i x l = Some (<[Z.to_nat i := x]> l).
Proof. intros Hl Hi. apply lset_Some. lia. Qed.

Lemma alloc3_idle v :
  vd_free (vs_d v) = replicate 8 1 ->
  alloc3_desc v = Ok (Some 0) (with_d (set_vd_free [0; 0; 0; 1; 1; 1; 1; 1]) v).
Proof.
  intros Hf. unfold alloc3_desc. change (upto NUM) with [0; 1; 2; 3; 4; 5; 6; 7]. cbn [for_find].
  unfold getd, gets, bind. cbn [obind]. rewrite Hf. reflexivity.
Qed.

Lemma submit_run b write sector v bb :
  idle (vs_d v) -> ks_bcache (vs_k v) !! b = Some bb ->
  submit b write sector 0 (with_d (set_vd_free [0; 0; 0; 1; 1; 1; 1; 1]) v) = Ok tt (submitted b write sector v).
Proof.
  intros Hi Hb. destruct v as [k [desc aidx aring uidx uring free ui info init buf0 status0] mmio polls].
  destruct Hi as [Hdesc Havail _ _ _ Hinfo _]. cbn [vs_d vs_k vd_desc vd_avail_ring vd_info] in *. subst info.
  unfold submit. change ((0 + 1) mod NUM) with 1. change ((0 + 2) mod NUM) with 2.
  unfold set_desc, bind, getd, gets. vrun.
  rewrite (lset_8 _ 0 desc Hdesc) by lia. vrun.
  rewrite (lset_8 _ 1) by (rewrite ?length_insert; lia). vrun.
  rewrite (lset_8 _ 2) by (rewrite ?length_insert; lia). vrun.
  rewrite (lift_Ok _ _ tt (upd_ks_bcache (alter (set_b_disk 1) b) k))
    by (cbn [vs_k]; apply modbuf_run; now apply (lookup_lt_Some _ _ bb)). vrun.
  change (lset 0 (Some b) (replicate 8 None)) with (Some (<[0%nat := Some b]> (replicate 8 None))). vrun.
  rewrite (lset_8 _ (aidx mod NUM) aring Havail (mod8 _)). reflexivity.
Qed.

Lemma wait_disk_flag b bb v fuel :
  ks_bcache (vs_k v) !! b = Some bb -> b_disk bb = 1 ->
  wait_disk dev_reg device (S fuel) b v =
    (_ <- virtio_disk_intr dev_reg device;; wait_disk dev_reg device fuel b) v.
Proof.
  intros Hb Hf. cbn [wait_disk]. unfold bind at 1. rewrite (lift_Ok _ v bb (vs_k v)) by now apply getbuf_run.
  cbn [obind]. rewrite Hf. cbn [Z.eqb Pos.eqb]. now destruct v.
Qed.

Lemma wait_disk_over b bb v fuel :
  ks_bcache (vs_k v) !! b = Some bb -> b_disk bb <> 1 -> wait_disk dev_reg device fuel b v = Ok tt v.
Proof.
  intros Hb Hf. assert ((b_disk bb =? 1) = false) as E by now apply Z.eqb_neq.
  destruct fuel; cbn [wait_disk]; unfold bind at 1; rewrite (lift_Ok _ v bb (vs_k v)) by (now apply getbuf_run);
    cbn [obind]; rewrite E; now destruct v.
Qed.

Lemma reclaimed_idle b write bb v status :
  waiting b write bb v -> idle (vs_d v) \/ (length (vd_desc (vs_d v)) = 8 /\ length (vd_avail_ring (vs_d v)) = 8)%nat ->
  vd_init (vs_d v) <> 0 ->
  idle (vs_d (reclaimed b (polled (done v 0 b write status)))).
Proof.
  intros [(Hav & _) _ _ Hu Hi Hr _ _] Hlen Hin.
  assert (length (vd_desc (vs_d v)) = 8 /\ length (vd_avail_ring (vs_d v)) = 8)%nat as [H1 H2]
    by (destruct Hlen as [[? ? _ _ _ _ _]|?]; auto).
  split; cbn; auto.
  - now rewrite length_insert.
  - split; [exact Hav|]. split; [reflexivity|]. unfold u16. mlia.
Qed.

Lemma wait_disk_run b write bb k : forall v fuel,
  waiting b write bb v -> length (vd_desc (vs_d v)) = 8%nat -> length (vd_avail_ring (vs_d v)) = 8%nat ->
  vd_init (vs_d v) <> 0 ->
  (exists m, (vs_polls v <= m <= vs_polls v + k)%nat /\ busy m = false) -> (k < fuel)%nat ->
  exists v', wait_disk dev_reg device fuel b v = Ok tt v' /\ idle (vs_d v') /\
    vs_k v' = upd_ks_bcache (alter (set_b_disk 0) b) (transfer b write (rq_sector (vd_buf0 (vs_d v))) (vs_k v)).
Proof.
  induction k as [|k IH]; intros v fuel Hw Hd Ha Hin (m & Hm & Hbusy) Hfuel; (destruct fuel as [|fuel]; [lia|]);
    rewrite (wait_disk_flag b bb v fuel (wa_buf _ _ _ _ Hw) (wa_flag _ _ _ _ Hw)).
  1: assert (busy (vs_polls v) = false) as Hb by (replace (vs_polls v) with m by lia; exact Hbusy).
  2: destruct (busy (vs_polls v)) eqn:Hb.
  2: { rewrite (bind_Ok _ _ _ _ _ (poll_busy b write bb v Hw Hb)).
       destruct (IH (polled v) fuel (waiting_polled _ _ _ _ Hw)) as (v' & Hrun & Hidle & Hk); auto; [|lia|].
       - exists m. split; [|exact Hbusy]. cbn [polled vs_polls].
         assert (m <> vs_polls v) by (intros ->; congruence). lia.
       - exists v'. auto. }
  all: destruct (poll_done b write bb v Hw Hb) as (status & Hp); rewrite (bind_Ok _ _ _ _ _ Hp);
    destruct (transfer_buf b write (rq_sector (vd_buf0 (vs_d v))) (vs_k v) bb (wa_buf _ _ _ _ Hw)) as (bb' & Hb');
    eexists; (split; [eapply (wait_disk_over b (set_b_disk 0 bb')); [|cbn; lia]|split; [|reflexivity]]);
    [cbn [reclaimed polled done vs_k]; fields; now rewrite lookup_alter_buf, decide_True, Hb' by reflexivity
    |eapply reclaimed_idle; eauto].
Qed.

Lemma submitted_waiting b write sector v bb :
  idle (vs_d v) -> ks_bcache (vs_k v) !! b = Some bb ->
  waiting b write (set_b_disk 1 bb) (submitted b write sector v).
Proof.
  intros [Hd Ha Hu (H1 & H2 & H3) Hf Hi Hin] Hb. split; cbn [submitted vs_d vs_k vd_used_idx vd_uidx vd_info vd_free vd_used_ring]; auto.
  - split; [|split; [|split]]; cbn [submitted vs_d vd_avail_idx vd_avail_ring vd_uidx vd_buf0 rq_type].
    + now rewrite H1.
    + rewrite H1. pose proof (mod8 (vd_uidx (vs_d v))). apply lget_Some. split; [lia|].
      apply list_lookup_insert_eq. lia.
    + exists 1, 2. split_and!; apply lget_Some; (split; [lia|]); cbn [vd_desc].
      * rewrite !list_lookup_insert_ne by lia. apply list_lookup_insert_eq. lia.
      * rewrite list_lookup_insert_ne by lia. apply list_lookup_insert_eq. rewrite length_insert. lia.
      * apply list_lookup_insert_eq. rewrite !length_insert. lia.
    + reflexivity.
  - fields. now rewrite lookup_alter_buf, decide_True, Hb by reflexivity.
Qed.

(** The flag [b->disk] of the driver does not matter to the transfer. *)
Lemma transfer_flag b write sector s bb :
  ks_bcache s !! b = Some bb -> sector = u32 (b_blockno bb * (BSIZE / 512)) ->
  disk_rw b write s = Ok tt (upd_ks_bcache (alter (set_b_disk 0) b)
    (transfer b write sector (upd_ks_bcache (alter (set_b_disk 1) b) s))).
Proof.
  intros Hb ->. assert (b < length (ks_bcache s))%nat as Hlt by now apply (lookup_lt_Some _ _ bb).
  unfold disk_rw, get. unfold bind at 1. cbn [obind]. rewrite (bind_Ok _ _ _ _ _ (getbuf_run s b bb Hb)).
  set (sector := u32 (b_blockno bb * (BSIZE / 512))). unfold transfer. fields.
  rewrite lookup_alter_buf, decide_True, Hb by reflexivity. cbn [fmap option_fmap option_map].
  assert (forall bc, alter (set_b_disk 0) b (alter (set_b_disk 1) b bc) = alter (set_b_disk 0) b bc) as E1
    by (intros bc; now rewrite alter_alter).
  destruct (ks_disk s !! (sector / 2)) as [d|]; [destruct write|].
  - unfold bind at 1, modify at 1. cbn [obind]. rewrite modbuf_run by exact Hlt.
    f_equal. unfold upd_ks_bcache, upd_ks_disk, upd_ks_writes. cbn. now rewrite E1.
  - unfold bind at 1. rewrite modbuf_run by exact Hlt. cbn [obind]. rewrite modbuf_run by (fields; now rewrite length_alter).
    f_equal. unfold upd_ks_bcache. cbn. f_equal. now rewrite !alter_alter.
  - unfold bind at 1, ret at 1. cbn [obind]. rewrite modbuf_run by exact Hlt.
    f_equal. unfold upd_ks_bcache. cbn. now rewrite E1.
Qed.
End driver_lemmas.

(** ** Properties *)

(** C14: refinement.  With a device that behaves as documented, and that takes at
    most [delay] polls for a request, [virtio_disk_rw] returns, has exactly the
    effect that the buffer cache relies on, and leaves the queue as it found it,
    ready for the next request. *)
Theorem virtio_disk_rw_refines dev_reg device busy delay b write v polls bb :
  virtio_device device busy delay -> idle (vs_d v) -> ks_bcache (vs_k v) !! b = Some bb ->
  (delay < polls)%nat ->
  exists v', virtio_disk_rw dev_reg device polls b write v = Ok tt v' /\
    disk_rw b write (vs_k v) = Ok tt (vs_k v') /\ idle (vs_d v').
Proof.
  intros Hdev Hi Hb Hpolls. set (sector := u32 (b_blockno bb * (BSIZE / 512))).
  pose proof (submitted_waiting b write sector v bb Hi Hb) as Hw.
  destruct (dev_delay _ _ _ Hdev (vs_polls v)) as (m & Hm & Hbusy).
  destruct (wait_disk_run dev_reg device busy delay Hdev b write _ delay _ polls Hw) as (v' & Hrun & Hidle & Hk).
  - cbn [submitted vs_d vd_desc]. rewrite !length_insert. apply Hi.
  - cbn [submitted vs_d vd_avail_ring]. rewrite length_insert. apply Hi.
  - apply Hi.
  - exists m. auto.
  - exact Hpolls.
  - exists v'. split; [|split; [|exact Hidle]].
    + unfold virtio_disk_rw. unfold bind at 1. rewrite (lift_Ok _ v bb (vs_k v)) by now apply getbuf_run.
      cbn [obind]. replace (with_k (vs_k v) v) with v by now destruct v. fold sector.
      unfold getd, gets. unfold bind at 1. cbn [obind].
      destruct (Z.eqb_spec (vd_init (vs_d v)) 0) as [E|_]; [now destruct (id_init _ Hi)|].
      unfold when, ret at 1. unfold bind at 1. cbn [obind].
      rewrite (bind_Ok _ _ _ _ _ (alloc3_idle v (id_free _ Hi))).
      now rewrite (bind_Ok _ _ _ _ _ (submit_run b write sector v bb Hi Hb)).
    + rewrite Hk. exact (transfer_flag b write sector (vs_k v) bb Hb eq_refl).
Qed.

(** The descriptors of a chain are taken without a look at whether they are free:
    the third request without a completion gets descriptors 6, 7 and 0, the last
    of which is the head of the first request. *)
Lemma alloc3_desc_overlaps v :
  vd_free (vs_d v) = replicate 8 1 ->
  (i <- alloc3_desc;; j <- alloc3_desc;; k <- alloc3_desc;; ret (i, j, k)) v =
    Ok (Some 0, Some 3, Some 6) (with_d (set_vd_free (replicate 8 0)) v).
Proof.
  intros Hf. rewrite (bind_Ok _ _ _ _ _ (alloc3_idle v Hf)). unfold alloc3_desc.
  change (upto NUM) with [0; 1; 2; 3; 4; 5; 6; 7]. reflexivity.
Qed.

(** ** Example: a device that completes a request at the first poll *)

Definition demo_device (n : nat) (v : vstate) : vstate :=
  let d := vs_d v in
  match lget (vd_uidx d mod NUM) (vd_avail_ring d) with
  | Some i0 =>
      match lget i0 (vd_desc d) with
      | Some x0 =>
          match lget (vq_next x0) (vd_desc d) with
          | Some x1 =>
              match vq_addr x1 with
              | AData b => if vd_avail_idx d =? u16 (vd_uidx d + 1)
                           then done v i0 b (rq_type (vd_buf0 d) =? VIRTIO_BLK_T_OUT) 0 else v
              | _ => v
              end
          | None => v
          end
      | None => v
      end
  | None => v
  end.

Lemma demo_device_ok : virtio_device demo_device (fun _ => false) 0.
Proof.
  split; [discriminate| |intros n; exists n; split; [lia|reflexivity]].
  intros n v i0 b write (Hidx & Hring & (i1 & i2 & H0 & H1 & H2) & Ht) _. exists 0.
  unfold demo_device. rewrite Hring, H0. cbn [vq_next]. rewrite H1. cbn [vq_addr].
  rewrite Hidx, Z.eqb_refl, Ht. now destruct write.
Qed.

Definition demo_vdisk : vdisk :=
  mkVdisk (replicate 8 zero_desc) 0 (replicate 8 0) 0 (replicate 8 0) (replicate 8 1) 0 (replicate 8 None) 1
    (mkReq 0 0 0) 0.

Lemma demo_idle : idle demo_vdisk.
Proof. split; try reflexivity; [split; [reflexivity|split; [reflexivity|cbn; lia]]|discriminate]. Qed.

Definition demo_vstate : vstate :=
  mkVstate (upd_ks_bcache (alter (set_b_blockno 5) 3%nat) (disk_state demo_disk)) demo_vdisk [] 0.

Lemma virtio_disk_rw_refines_witness :
  exists v', virtio_disk_rw (fun _ _ => 1) demo_device 1%nat 3%nat false demo_vstate = Ok tt v' /\
    disk_rw 3%nat false (vs_k demo_vstate) = Ok tt (vs_k v') /\ idle (vs_d v').
Proof.
  exact (virtio_disk_rw_refines (fun _ _ => 1) demo_device (fun _ => false) 0 3 false demo_vstate 1
           (set_b_blockno 5 zero_buf) demo_device_ok demo_idle eq_refl (le_n 1)).
Defined.
