(* ===== verification/Blocks.v ===== *)
(** * The interface of the buffer cache

    What the log and the file system rely on: [view hs L D R s] describes a
    state [s] by the blocks held and their buffers ([hs]), the contents each
    block shows ([L]), the blocks given to the log and not yet installed ([D]),
    and the rest of the kernel's state ([R]).  [BlockCache] states the effect of
    each operation of kernel/bio.c on this description; the clients are proved
    against it, and the instance [bio_blocks] discharges it for Bio.v. *)
From S2P Require Import Prelude State Printf Bio.

(** ** The interface *)

Definition holders : Type := list (Z * nat).
Definition blockmap : Type := Z -> option (list Z).

Definition write (k : Z) (d : list Z) (L : blockmap) : blockmap :=
  fun k' => if decide (k' = k) then Some d else L k'.
Definition mark (k : Z) (D : Z -> Prop) : Z -> Prop := fun k' => k' = k \/ D k'.
Definition unmark (k : Z) (D : Z -> Prop) : Z -> Prop := fun k' => k' <> k /\ D k'.

(** A buffer can be recycled: fewer than [NBUF] blocks are held or dirty. *)
Definition roomy (hs : holders) (D : Z -> Prop) : Prop :=
  exists l, (length l < NBUF)%nat /\ forall k, k ∈ hs.*1 \/ D k -> k ∈ l.

(** A transformer of the state outside the cache and the disk. *)
Definition outside (f : kstate -> kstate) : Prop :=
  forall s, ks_bcache (f s) = ks_bcache s /\ ks_disk (f s) = ks_disk s /\
            set_ks_bcache [] (f s) = f (set_ks_bcache [] s).

Definition view_pred : Type :=
  holders -> blockmap -> (Z -> Prop) -> kstate -> kstate -> Prop.

Class BlockCache (view : view_pred) : Prop := {
  view_rest : forall hs L D R s,
    view hs L D R s -> exists bc, s = set_ks_bcache bc R;
  view_ext : forall hs hs' L L' D D' R s,
    hs ≡ₚ hs' -> (forall k, L k = L' k) -> (forall k, D k <-> D' k) ->
    view hs L D R s -> view hs' L' D' R s;
  view_total : forall hs L D R s k d,
    view hs L D R s -> ks_disk R !! k = Some d ->
    exists d', L k = Some d' /\ length d' = Z.to_nat BSIZE;
  view_settled : forall hs L D R s k,
    view hs L D R s -> k ∉ hs.*1 -> D k \/ L k = ks_disk R !! k;
  view_dirty : forall hs L D R s k,
    view hs L D R s -> D k -> 0 < k < 2 ^ 31 /\ is_Some (ks_disk R !! k);
  view_held : forall hs L D R s k,
    view hs L D R s -> k ∈ hs.*1 -> 0 < k < 2 ^ 31 /\ is_Some (ks_disk R !! k);
  view_outside : forall hs L D R s f,
    outside f -> view hs L D R s -> view hs L D (f R) (f s);
  view_bread : forall hs L D R s k,
    view hs L D R s -> 0 < k < 2 ^ 31 -> is_Some (ks_disk R !! k) ->
    (length hs < 1000)%nat -> roomy hs D \/ D k \/ k ∈ hs.*1 ->
    wp (bread 0 k) (fun i s' => view ((k, i) :: hs) L D R s') s;
  view_bdata : forall hs L D R s k i,
    view hs L D R s -> (k, i) ∈ hs ->
    wp (bdata i) (fun d s' => s' = s /\ L k = Some d /\ length d = Z.to_nat BSIZE) s;
  view_set_bdata : forall hs L D R s k i d,
    view hs L D R s -> (k, i) ∈ hs -> length d = Z.to_nat BSIZE ->
    wp (set_bdata i d) (fun _ s' => view hs (write k d L) D R s') s;
  view_blockno : forall hs L D R s k i,
    view hs L D R s -> (k, i) ∈ hs ->
    wp (getbuf i) (fun b s' => s' = s /\ b_blockno b = k) s;
  view_mark : forall hs L D R s k i v,
    view hs L D R s -> (k, i) ∈ hs -> v <> 0 ->
    wp (modbuf i (set_b_disk v)) (fun _ s' => view hs L (mark k D) R s') s;
  view_unmark : forall hs L D R s k i,
    view hs L D R s -> (k, i) ∈ hs ->
    wp (modbuf i (set_b_disk 0)) (fun _ s' => view hs L (unmark k D) R s') s;
  view_bwrite : forall hs L D R s k i d,
    view hs L D R s -> (k, i) ∈ hs -> L k = Some d ->
    wp (bwrite i) (fun _ s' => view hs L (unmark k D) (write_block k d R) s') s;
  view_brelse : forall hs L D R s k i,
    view ((k, i) :: hs) L D R s -> D k \/ L k = ks_disk R !! k ->
    wp (brelse i) (fun _ s' => view hs L D R s') s }.

Lemma view_clean `{BlockCache view} hs L D R s k :
  view hs L D R s -> k ∉ hs.*1 -> ~ D k -> L k = ks_disk R !! k.
Proof. intros Hv Hk HD. now destruct (view_settled _ _ _ _ _ k Hv Hk). Qed.

(** ** The implementation *)

Record bio_view (hs : holders) (L : blockmap) (D : Z -> Prop) (R s : kstate) : Prop := {
  bv_cache : cache hs.*1 s;
  bv_at : forall k i, (k, i) ∈ hs -> at_buf s i k;
  bv_lblk : forall k, lblk s k = L k;
  bv_dirty : forall k, dirty s k <-> D k;
  bv_rest : set_ks_bcache [] s = set_ks_bcache [] R }.

(** *** The cache invariant depends on the cache and the disk only *)

Lemma cache_ext held held' s s' :
  held ≡ₚ held' -> ks_bcache s' = ks_bcache s -> ks_disk s' = ks_disk s ->
  cache held s -> cache held' s'.
Proof.
  intros Hp Hb Hd [H1 H2 H3 H4 H5 H6]. split; rewrite ?Hb, ?Hd; try assumption.
  - intros i b Hi Hbi. destruct (H2 i b Hi Hbi). split; auto.
    now rewrite <- (proj1 (Permutation_count_occ Z.eq_dec _ _) Hp).
  - intros k Hk. rewrite <- Hp in Hk. unfold at_buf. rewrite Hb. now apply H4.
  - now rewrite <- Hp.
Qed.

Lemma lblk_ext s s' k :
  ks_bcache s' = ks_bcache s -> ks_disk s' = ks_disk s -> lblk s' k = lblk s k.
Proof. unfold lblk. now intros -> ->. Qed.

Lemma dirty_ext s s' k : ks_bcache s' = ks_bcache s -> dirty s' k <-> dirty s k.
Proof. unfold dirty. now intros ->. Qed.

Lemma at_buf_ext s s' i k : ks_bcache s' = ks_bcache s -> at_buf s' i k <-> at_buf s i k.
Proof. unfold at_buf. now intros ->. Qed.

Lemma rest_disk s R : set_ks_bcache [] s = set_ks_bcache [] R -> ks_disk s = ks_disk R.
Proof. intros H. now apply (f_equal ks_disk) in H. Qed.

Lemma elem_of_holders (hs : holders) k i : (k, i) ∈ hs -> k ∈ hs.*1.
Proof. intros H. apply list_elem_of_fmap. now exists (k, i). Qed.

Lemma roomy_room hs D L R s : bio_view hs L D R s -> roomy hs D -> room hs.*1 s.
Proof.
  intros Hv (l & Hl & Hin). exists l. split; [exact Hl|]. intros k [Hk|Hk]; apply Hin; [auto|].
  right. now apply (bv_dirty _ _ _ _ _ Hv).
Qed.

(** The common shape of the cases: what is known of the new state gives its
    view. *)
Lemma bio_view_step hs hs' L L' D D' R R' s' :
  cache hs'.*1 s' -> (forall k i, (k, i) ∈ hs' -> at_buf s' i k) ->
  (forall k, lblk s' k = L' k) -> (forall k, dirty s' k <-> D' k) ->
  set_ks_bcache [] s' = set_ks_bcache [] R' ->
  hs' ≡ₚ hs -> (forall k, L' k = L k) -> (forall k, D' k <-> D k) -> R' = R ->
  bio_view hs L D R s'.
Proof.
  intros Hc Hat Hl Hd Hr Hp HL HD <-. split.
  - apply (cache_ext hs'.*1 hs.*1 s' s'); [now rewrite Hp|reflexivity|reflexivity|exact Hc].
  - intros k i Hk. apply Hat. now rewrite Hp.
  - intros k. now rewrite Hl.
  - intros k. now rewrite Hd.
  - exact Hr.
Qed.

Lemma cache_only_rest s s' R :
  cache_only s s' -> set_ks_bcache [] s = set_ks_bcache [] R ->
  set_ks_bcache [] s' = set_ks_bcache [] R.
Proof. intros -> H. exact H. Qed.

Lemma bio_is_cached hs L D R s k :
  bio_view hs L D R s -> D k \/ k ∈ hs.*1 -> is_cached s k.
Proof.
  intros Hv [Hk|Hk].
  - apply (bv_dirty _ _ _ _ _ Hv), (dirty_cached _ _ _ (bv_cache _ _ _ _ _ Hv)) in Hk
      as (i & b & Ci & E & _). exists i. apply at_cached. eauto.
  - now apply (ca_held _ _ (bv_cache _ _ _ _ _ Hv)).
Qed.

Lemma is_cached_range held s k :
  cache held s -> is_cached s k -> 0 < k < 2 ^ 31 /\ is_Some (ks_disk s !! k).
Proof.
  intros Hc (i & (b & (Hi & Hb & Hv) & <-)%at_cached).
  now apply (bo_valid _ _ _ (ca_bufs _ _ Hc i b Hi Hb)).
Qed.

(** *** The instance *)

Lemma bio_bread hs L D R s k :
  bio_view hs L D R s -> 0 < k < 2 ^ 31 -> is_Some (ks_disk R !! k) ->
  (length hs < 1000)%nat -> roomy hs D \/ D k \/ k ∈ hs.*1 ->
  wp (bread 0 k) (fun i s' => bio_view ((k, i) :: hs) L D R s') s.
Proof.
  intros Hv Hk Hd Hlen Hroom. pose proof Hv as [Hc Hat Hl Hdt Hr].
  rewrite <- (rest_disk _ _ Hr) in Hd.
  eapply wpx_conseq; [apply (bread_spec hs.*1 s k Hc Hk Hd)|].
  - rewrite length_fmap. lia.
  - destruct Hroom as [?|?]; [left; eapply roomy_room|right; eapply bio_is_cached]; eauto.
  - intros i s' (Hc' & [Ho Hl' Hd'] & Hkp & Hat'). split; [exact Hc'|..].
    + intros k0 i0 [[= -> ->]|Hin]%elem_of_cons; [exact Hat'|].
      apply Hkp; [exact (elem_of_holders _ _ _ Hin)|now apply Hat].
    + intros k0. now rewrite Hl'.
    + intros k0. now rewrite Hd'.
    + eapply cache_only_rest; eauto.
Qed.

Lemma bio_brelse hs L D R s k i :
  bio_view ((k, i) :: hs) L D R s -> D k \/ L k = ks_disk R !! k ->
  wp (brelse i) (fun _ s' => bio_view hs L D R s') s.
Proof.
  intros [Hc Hat Hl Hdt Hr] Hk.
  eapply wpx_conseq; [apply (brelse_spec hs.*1 s i k Hc); [apply Hat; set_solver|]|].
  - rewrite Hdt, Hl, (rest_disk _ _ Hr). auto.
  - intros [] s' (Hc' & [Ho Hl' Hd'] & Hkp). split; [exact Hc'|..].
    + intros k0 i0 Hin. apply Hkp; [exact (elem_of_holders _ _ _ Hin)|apply Hat; set_solver].
    + intros k0. now rewrite Hl'.
    + intros k0. now rewrite Hd'.
    + eapply cache_only_rest; eauto.
Qed.

Lemma bio_set_bdata hs L D R s k i d :
  bio_view hs L D R s -> (k, i) ∈ hs -> length d = Z.to_nat BSIZE ->
  wp (set_bdata i d) (fun _ s' => bio_view hs (write k d L) D R s') s.
Proof.
  intros [Hc Hat Hl Hdt Hr] Hin Hlen. pose proof (elem_of_holders _ _ _ Hin) as Hk.
  eapply wpx_conseq; [apply (set_bdata_spec hs.*1 s i k d Hc (Hat _ _ Hin) Hk Hlen)|].
  intros [] s' (Hc' & Ho & Hkp & Hl' & Hd'). split; [exact Hc'|..].
  - intros k0 i0 Hin0. apply Hkp; [exact (elem_of_holders _ _ _ Hin0)|now apply Hat].
  - intros k0. rewrite Hl'. unfold write. case_decide; [reflexivity|apply Hl].
  - intros k0. now rewrite Hd'.
  - eapply cache_only_rest; eauto.
Qed.

Lemma bio_set_disk hs L D D' R s k i v :
  bio_view hs L D R s -> (k, i) ∈ hs ->
  (forall k', D' k' <-> (k' = k /\ v <> 0) \/ (k' <> k /\ D k')) ->
  wp (modbuf i (set_b_disk v)) (fun _ s' => bio_view hs L D' R s') s.
Proof.
  intros [Hc Hat Hl Hdt Hr] Hin HD. pose proof (elem_of_holders _ _ _ Hin) as Hk.
  eapply wpx_conseq; [apply (set_disk_spec hs.*1 s i k v Hc (Hat _ _ Hin) Hk)|].
  intros [] s' (Hc' & Ho & Hkp & Hl' & Hd'). split; [exact Hc'|..].
  - intros k0 i0 Hin0. apply Hkp; [exact (elem_of_holders _ _ _ Hin0)|now apply Hat].
  - intros k0. now rewrite Hl'.
  - intros k0. now rewrite Hd', HD, Hdt.
  - eapply cache_only_rest; eauto.
Qed.

Lemma bio_bwrite hs L D R s k i d :
  bio_view hs L D R s -> (k, i) ∈ hs -> L k = Some d ->
  wp (bwrite i) (fun _ s' => bio_view hs L (unmark k D) (write_block k d R) s') s.
Proof.
  intros [Hc Hat Hl Hdt Hr] Hin HL. pose proof (elem_of_holders _ _ _ Hin) as Hk.
  eapply wpx_conseq; [apply (bwrite_spec hs.*1 s i k d Hc (Hat _ _ Hin) Hk)|].
  - now rewrite Hl.
  - intros [] s' (Hc' & Hkp & (bc & ->) & Hl' & Hd'). split; [exact Hc'|..].
    + intros k0 i0 Hin0. apply Hkp; [exact (elem_of_holders _ _ _ Hin0)|now apply Hat].
    + intros k0. now rewrite Hl'.
    + intros k0. unfold unmark. now rewrite Hd', Hdt.
    + rewrite set_bcache_set.
      transitivity (write_block k d (set_ks_bcache [] s)); [reflexivity|]. now rewrite Hr.
Qed.

Lemma bio_total hs L D R s k d :
  bio_view hs L D R s -> ks_disk R !! k = Some d ->
  exists d', L k = Some d' /\ length d' = Z.to_nat BSIZE.
Proof.
  intros [Hc Hat Hl Hdt Hr] Hd. rewrite <- (rest_disk _ _ Hr) in Hd.
  rewrite <- Hl. destruct (lblk_cases _ s k Hc) as [(i & b & (Hi & Hb & _) & _ & ->)|[_ ->]].
  + exists (b_data b). split; [reflexivity|]. apply (ca_bufs _ _ Hc i b Hi Hb).
  + exists d. split; [exact Hd|]. eapply ca_disk; eauto.
Qed.

Lemma bio_settled hs L D R s k :
  bio_view hs L D R s -> k ∉ hs.*1 -> D k \/ L k = ks_disk R !! k.
Proof.
  intros [Hc Hat Hl Hdt Hr] Hk.
  rewrite <- Hl, <- (rest_disk _ _ Hr).
  destruct (lblk_cases _ s k Hc) as [(i & b & (Hi & Hb & Hv) & <- & ->)|[_ ->]]; [|now right].
  destruct (decide (b_disk b = 0)) as [H0|H0]; [|left; apply Hdt; exists i, b; auto].
  right. symmetry. apply (bo_clean _ _ _ (ca_bufs _ _ Hc i b Hi Hb) Hv); [|exact H0].
  rewrite (bo_ref _ _ _ (ca_bufs _ _ Hc i b Hi Hb)).
  rewrite list_elem_of_In in Hk. apply (count_occ_not_In Z.eq_dec) in Hk. now rewrite Hk.
Qed.

#[export] Instance bio_blocks : BlockCache bio_view.
Proof.
  split.
  - intros hs L D R s [_ _ _ _ Hr]. exists (ks_bcache s).
    transitivity (set_ks_bcache (ks_bcache s) (set_ks_bcache [] s)); [now destruct s|].
    rewrite Hr. reflexivity.
  - intros hs hs' L L' D D' R s Hp HL HD [Hc Hat Hl Hdt Hr].
    apply (bio_view_step hs' hs L' L D' D R R s Hc Hat Hl Hdt Hr); auto.
  - exact bio_total.
  - exact bio_settled.
  - intros hs L D R s k Hv Hk. rewrite <- (rest_disk _ _ (bv_rest _ _ _ _ _ Hv)).
    eapply is_cached_range; [apply Hv|]. eapply bio_is_cached; eauto.
  - intros hs L D R s k Hv Hk. rewrite <- (rest_disk _ _ (bv_rest _ _ _ _ _ Hv)).
    eapply is_cached_range; [apply Hv|]. eapply bio_is_cached; eauto.
  - intros hs L D R s f Hf [Hc Hat Hl Hdt Hr]. destruct (Hf s) as (Hb & Hd & Hs). split.
    + eapply cache_ext; eauto.
    + intros k i Hin. rewrite at_buf_ext by exact Hb. auto.
    + intros k. now rewrite (lblk_ext _ _ _ Hb Hd).
    + intros k. now rewrite (dirty_ext _ _ _ Hb).
    + rewrite Hs, Hr. symmetry. apply Hf.
  - exact bio_bread.
  - intros hs L D R s k i Hv Hin.
    destruct (bdata_spec _ _ _ _ (bv_cache _ _ _ _ _ Hv) (bv_at _ _ _ _ _ Hv _ _ Hin))
      as (d & Hrun & Hl & Hlen).
    apply wp_Ok. exists d, s. rewrite <- (bv_lblk _ _ _ _ _ Hv). auto.
  - exact bio_set_bdata.
  - intros hs L D R s k i Hv Hin.
    destruct (bv_at _ _ _ _ _ Hv _ _ Hin) as (Hi & b & Hb & _ & Hk).
    apply wp_Ok. exists b, s. split; [now apply getbuf_run|auto].
  - intros hs L D R s k i v Hv Hin Hne. eapply bio_set_disk; eauto.
    intros k'. unfold mark. destruct (decide (k' = k)); tauto.
  - intros hs L D R s k i Hv Hin. eapply bio_set_disk; eauto.
    intros k'. unfold unmark. tauto.
  - exact bio_bwrite.
  - exact bio_brelse.
Qed.

(** After [binit] the view shows the disk. *)
Lemma booted_view s :
  zeroed s -> exists u, let R := upd_ks_uart u s in
  wp binit (fun _ s' => bio_view [] (fun k => ks_disk s !! k) (fun _ => False) R s') s.
Proof.
  intros H. destruct (binit_run s H) as (bc & u & Hrun & Hc & Hl & Hn).
  exists u. apply wp_Ok. eexists _, _. split; [exact Hrun|]. split; [exact Hc|set_solver|exact Hl| |].
  - intros k. destruct (Hn k). tauto.
  - reflexivity.
Qed.
