(* ===== verification/Sched.v ===== *)
(** * Giving up the processor: kernel/proc.c

    [myproc], [yield], [sleep] and [wakeup].  A process that calls
    [swtch] leaves the processor to the scheduler: the outcome [Switch s k] holds
    the state it leaves and what it does when the scheduler switches back. *)
From S2P Require Import Prelude State.

(** ** Model *)

Definition getproc (i : nat) : K proc := s <- get;; of_opt (ks_proc s !! i).

Definition modproc (i : nat) (f : proc -> proc) : K unit :=
  s <- get;;
  _ <- of_opt (ks_proc s !! i);;
  modify (upd_ks_proc (alter f i)).

Definition myproc : K (option nat) := gets ks_current.

(** [swtch(&p->context, &sched_ctx)] (kernel/swtch.S). *)
Definition swtch_sched : K unit := fun s => Switch s (fun s' => Ok tt s').

Definition yield : K unit :=
  p <- myproc;;
  match p with
  | None => ret tt
  | Some p =>
      _ <- modproc p (set_p_state RUNNABLE);;
      swtch_sched
  end.

(** The second argument of [sleep], the lock to release, is not used. *)
Definition sleep (c : chan) : K unit :=
  p <- myproc;;
  match p with
  | None => ret tt
  | Some p =>
      _ <- modproc p (set_p_chan c);;
      _ <- modproc p (set_p_state SLEEPING);;
      _ <- swtch_sched;;
      modproc p (set_p_chan ChanNull)
  end.

(** The loop body of [wakeup]. *)
Definition wakeup_one (c : chan) (i : nat) : K unit :=
  p <- getproc i;;
  if decide (p_state p = SLEEPING /\ p_chan p = c) then
    _ <- modproc i (set_p_state RUNNABLE);;
    modproc i (set_p_chan ChanNull)
  else ret tt.

Definition wakeup (c : chan) : K unit :=
  for_each (seq 0 (Z.to_nat NPROC)) (wakeup_one c).

(** ** Lemmas *)

(** What [wakeup c] does to one process. *)
Definition wake (c : chan) (p : proc) : proc :=
  if decide (p_state p = SLEEPING /\ p_chan p = c)
  then set_p_chan ChanNull (set_p_state RUNNABLE p) else p.

Definition nproc : nat := Z.to_nat NPROC.

Lemma getproc_run s i p : ks_proc s !! i = Some p -> getproc i s = Ok p s.
Proof. intros H. unfold getproc, bind, get. cbn [obind]. now rewrite H. Qed.

Lemma modproc_run s i f p :
  ks_proc s !! i = Some p -> modproc i f s = Ok tt (upd_ks_proc (alter f i) s).
Proof. intros H. unfold modproc, bind, get. cbn [obind]. now rewrite H. Qed.

Lemma lookup_alter_proc f (l : list proc) i j :
  alter f i l !! j = if decide (i = j) then f <$> l !! j else l !! j.
Proof. case_decide; subst; [apply list_lookup_alter_eq|now apply list_lookup_alter_ne]. Qed.

Lemma alter_id_proc f i (l : list proc) p :
  l !! i = Some p -> f p = p -> alter f i l = l.
Proof.
  intros H Hf. apply list_eq. intros j. rewrite lookup_alter_proc. case_decide; [subst|done].
  rewrite H. cbn. now rewrite Hf.
Qed.

Lemma set_proc_set l f s : upd_ks_proc f (set_ks_proc l s) = set_ks_proc (f l) s.
Proof. reflexivity. Qed.

Lemma wakeup_one_run c i s p :
  ks_proc s !! i = Some p ->
  wakeup_one c i s = Ok tt (set_ks_proc (alter (wake c) i (ks_proc s)) s).
Proof.
  intros Hp. unfold wakeup_one. erewrite bind_Ok by (apply getproc_run; exact Hp).
  case_decide as Hd.
  - erewrite bind_Ok by (eapply modproc_run; exact Hp).
    erewrite modproc_run
      by (fields; rewrite lookup_alter_proc, decide_True, Hp by done; reflexivity).
    f_equal. unfold upd_ks_proc. cbn. f_equal. apply list_eq. intros j.
    rewrite !lookup_alter_proc. case_decide; [subst|done]. rewrite Hp. cbn. unfold wake.
    now rewrite decide_True.
  - erewrite alter_id_proc; [now destruct s|exact Hp|]. unfold wake. now rewrite decide_False.
Qed.

Lemma wakeup_loop c : forall n k s,
  length (ks_proc s) = (k + n)%nat ->
  exists l, for_each (seq k n) (wakeup_one c) s = Ok tt (set_ks_proc l s) /\
    forall j, l !! j = if decide (k <= j)%nat then wake c <$> ks_proc s !! j else ks_proc s !! j.
Proof.
  induction n as [|n IH]; intros k s Hl; cbn [seq for_each].
  - exists (ks_proc s). split; [now destruct s|]. intros j. case_decide; [|done].
    now rewrite lookup_ge_None_2 by lia.
  - destruct (lookup_lt_is_Some_2 (ks_proc s) k) as [p Hp]; [lia|].
    rewrite (bind_Ok _ _ _ _ _ (wakeup_one_run c k s p Hp)).
    destruct (IH (S k) (set_ks_proc (alter (wake c) k (ks_proc s)) s)) as (l & Hrun & Hlk);
      [fields; rewrite length_alter; lia|].
    exists l. rewrite Hrun. split; [reflexivity|]. intros j. rewrite Hlk. fields.
    rewrite lookup_alter_proc. repeat case_decide; subst; try lia; done.
Qed.

(** [wakeup c] makes runnable exactly the processes that sleep on [c]. *)
Lemma wakeup_run c s :
  length (ks_proc s) = nproc -> wakeup c s = Ok tt (set_ks_proc (map (wake c) (ks_proc s)) s).
Proof.
  intros Hl. destruct (wakeup_loop c nproc 0 s Hl) as (l & Hrun & Hlk).
  etransitivity; [exact Hrun|].
  assert (l = map (wake c) (ks_proc s)) as ->; [|reflexivity]. apply list_eq. intros j.
  rewrite Hlk, decide_True by lia. symmetry. apply list_lookup_fmap.
Qed.

Lemma sleep_no_process c s : ks_current s = None -> sleep c s = Ok tt s.
Proof. intros H. unfold sleep, myproc, gets, bind. cbn [obind]. now rewrite H. Qed.
