(* ===== verification/Proc.v ===== *)
(** * The process table: kernel/proc.c

    Creation, exit and reaping of processes, [fork], [kill] and [sbrk], and the
    scheduler's loop; giving up the processor is in Sched.v.  A process is an
    index of [ks_proc]; its trap frame lies in physical memory. *)
From S2P Require Import Prelude State Mem Pmm Printf Klog Vm UserMem Sched.

(** ** Model *)

(** [intr_on] and [intr_off] (include/riscv.h): bit 1 of [sstatus]. *)
Definition intr_on : K unit := modify (upd_ks_csr (upd_csr_sstatus (fun x => Z.lor x 2))).
Definition intr_off : K unit := modify (upd_ks_csr (upd_csr_sstatus (fun x => Z.ldiff x 2))).

(** Offsets of the fields of [struct trapframe] (include/proc.h). *)
Definition TF_kernel_satp : Z := 0.
Definition TF_kernel_sp : Z := 8.
Definition TF_kernel_trap : Z := 16.
Definition TF_epc : Z := 24.
Definition TF_kernel_hartid : Z := 32.
Definition TF_sp : Z := 48.
Definition TF_a (n : Z) : Z := 112 + 8 * n.

Definition set_ctx_ra (v : Z) (c : context) : context := mkContext v (ctx_sp c) (ctx_s c).
Definition set_ctx_sp (v : Z) (c : context) : context := mkContext (ctx_ra c) v (ctx_s c).

(** [k] characters may still be copied. *)
Fixpoint safestrcpy_loop (k : nat) (i : Z) (s t : list Z) : K (list Z * Z) :=
  match k with
  | O => ret (s, i)
  | S k' =>
      c <- of_opt (lget i t);;
      if c =? 0 then ret (s, i)
      else s' <- of_opt (lset i c s);; safestrcpy_loop k' (i + 1) s' t
  end.

Definition safestrcpy (s t : list Z) (n : Z) : K (list Z) :=
  let! (s, i) := safestrcpy_loop (Z.to_nat (n - 1)) 0 s t in
  of_opt (lset i 0 s).

Definition proc_init : K unit :=
  for_each (seq 0 (Z.to_nat NPROC)) (fun i => modproc i (set_p_state UNUSED)).

Section model.
Context `{Symbols}.

(** The body of the loop of [alloc_process], for the first unused slot. *)
Definition alloc_slot (i : nat) : K (option nat) :=
  pid <- gets ks_nextpid;;
  _ <- modify (upd_ks_nextpid (fun n => i32 (n + 1)));;
  _ <- modproc i (set_p_pid pid);;
  _ <- modproc i (set_p_state USED);;
  kstack <- alloc_page;;
  _ <- modproc i (set_p_kstack kstack);;
  if kstack =? 0 then ret None
  else
    pagetable <- create_pagetable;;
    _ <- modproc i (set_p_pagetable pagetable);;
    if pagetable =? 0 then _ <- free_page kstack;; ret None
    else
      trapframe <- alloc_page;;
      _ <- modproc i (set_p_trapframe trapframe);;
      if trapframe =? 0 then ret None
      else
        _ <- map_page pagetable TRAMPOLINE sym_trampoline (Z.lor PTE_R PTE_X);;
        _ <- map_page pagetable TRAPFRAME trapframe (Z.lor PTE_R PTE_W);;
        _ <- modproc i (set_p_sz 0);;
        _ <- modproc i (upd_p_context (set_ctx_sp (u64 (kstack + PGSIZE))));;
        _ <- modproc i (set_p_parent None);;
        _ <- modproc i (set_p_chan ChanNull);;
        ret (Some i).

Definition alloc_process : K (option nat) :=
  o <- for_find (seq 0 (Z.to_nat NPROC)) (fun i =>
         p <- getproc i;;
         if decide (p_state p = UNUSED) then r <- alloc_slot i;; ret (Some r) else ret None);;
  match o with
  | Some r => ret r
  | None => ret None
  end.

(** [for(int j = 0; j < PGSIZE; j++) dst[j] = 0]. *)
Definition zero_page (mem : Z) : K unit := store_bytes mem (replicate (Z.to_nat PGSIZE) 0).

Definition user_perm : Z := Z.lor (Z.lor (Z.lor PTE_R PTE_W) PTE_X) PTE_U.

(** One page of the program; [Some tt] is the early return. *)
Definition user_init_page (p : nat) (i : Z) : K (option unit) :=
  mem <- alloc_page;;
  if mem =? 0 then _ <- printf (str "user_init: alloc_page failed!" ++ [10]) [];; ret (Some tt)
  else
    _ <- zero_page mem;;
    let sz := Z.of_nat (length init_bin) in
    let offset := i * PGSIZE in
    let copy_len := u64 (sz - offset) in
    let copy_len := if PGSIZE <? copy_len then PGSIZE else copy_len in
    _ <- store_bytes mem (take (Z.to_nat copy_len) (drop (Z.to_nat offset) init_bin));;
    pr <- getproc p;;
    _ <- map_page (p_pagetable pr) (i * PGSIZE) mem user_perm;;
    ret None.

Definition user_init : K unit :=
  o <- alloc_process;;
  match o with
  | None => _ <- printf (str "user_init: alloc_process failed!" ++ [10]) [];; ret tt
  | Some p =>
      _ <- modproc p (set_p_parent None);;
      pr <- getproc p;;
      name <- safestrcpy (p_name pr) (str "init" ++ [0]) 16;;
      _ <- modproc p (set_p_name name);;
      let sz := Z.of_nat (length init_bin) in
      _ <- printf (str "user_init: loading init program, size=%d bytes" ++ [10]) [AInt (i32 sz)];;
      let num_pages := (sz + PGSIZE - 1) / PGSIZE in
      failed <- for_find (upto num_pages) (user_init_page p);;
      match failed with
      | Some _ => ret tt
      | None =>
          _ <- modproc p (set_p_sz (num_pages * PGSIZE));;
          stack_mem <- alloc_page;;
          if stack_mem =? 0 then _ <- printf (str "user_init: alloc stack failed!" ++ [10]) [];; ret tt
          else
            _ <- zero_page stack_mem;;
            pr <- getproc p;;
            let stack_va := p_sz pr in
            _ <- map_page (p_pagetable pr) stack_va stack_mem (Z.lor (Z.lor PTE_R PTE_W) PTE_U);;
            _ <- modproc p (upd_p_sz (fun sz => u64 (sz + PGSIZE)));;
            _ <- store64 (p_trapframe pr + TF_epc) 0;;
            _ <- store64 (p_trapframe pr + TF_sp) (u64 (stack_va + PGSIZE));;
            _ <- modproc p (set_p_state RUNNABLE);;
            _ <- modproc p (upd_p_context (set_ctx_ra sym_usertrapret));;
            _ <- modproc p (upd_p_context (set_ctx_sp (u64 (p_kstack pr + PGSIZE))));;
            _ <- printf (str "user_init: init process created, pid=%d" ++ [10]) [AInt (p_pid pr)];;
            ret tt
      end
  end.

(** *** The scheduler

    [run i] is what process [i] does from the switch into it to its next switch
    back; [found] tells whether a process ran in this round. *)
Definition sched_slot (run : nat -> K unit) (i : nat) (found : bool) : K bool :=
  p <- getproc i;;
  if decide (p_state p = RUNNABLE) then
    _ <- modproc i (set_p_state RUNNING);;
    _ <- modify (set_ks_current (Some i));;
    _ <- run i;;
    _ <- modify (set_ks_current None);;
    ret true
  else ret found.

Fixpoint sched_slots (run : nat -> K unit) (l : list nat) (found : bool) : K bool :=
  match l with
  | [] => ret found
  | i :: l' => found <- sched_slot run i found;; sched_slots run l' found
  end.

(** [wfi], when nothing was found, changes no state. *)
Definition sched_round (run : nat -> K unit) : K unit :=
  _ <- intr_on;;
  _ <- sched_slots run (seq 0 (Z.to_nat NPROC)) false;;
  ret tt.

(** The first [rounds] rounds of the endless loop. *)
Fixpoint scheduler (rounds : nat) (run : nat -> K unit) : K unit :=
  match rounds with
  | O => ret tt
  | S n => _ <- sched_round run;; scheduler n run
  end.

Definition exit_process (status : Z) : K unit :=
  o <- myproc;;
  _ <- intr_off;;
  p <- of_opt o;;
  pr <- getproc p;;
  _ <- LOG_I (str "Process %d exiting with status %d" ++ [10]) [AInt (p_pid pr); AInt status];;
  _ <- modproc p (set_p_exit_code status);;
  _ <- modproc p (set_p_state ZOMBIE);;
  pr <- getproc p;;
  _ <- match p_parent pr with
       | Some q => wakeup (ChanProc q)
       | None => ret tt
       end;;
  _ <- swtch_sched;;
  _ <- printf (str "PANIC: zombie exit" ++ [10]) [];;
  hang.

(** Reaping the zombie [i]: the pid and the exit code. *)
Definition reap (i : nat) : K (Z * Z) :=
  np <- getproc i;;
  let pid := p_pid np in
  let status := p_exit_code np in
  _ <- free_page (p_kstack np);;
  _ <- modproc i (set_p_kstack 0);;
  _ <- modproc i (set_p_state UNUSED);;
  _ <- modproc i (set_p_pid 0);;
  _ <- modproc i (set_p_parent None);;
  _ <- modproc i (upd_p_name (<[O := 0]>));;
  _ <- intr_on;;
  ret (pid, status).

(** The scan for children: [inl havekids], or [inr] of the reaped child. *)
Fixpoint wait_scan (l : list nat) (p : option nat) (havekids : bool) : K (bool + Z * Z) :=
  match l with
  | [] => ret (inl havekids)
  | i :: l' =>
      np <- getproc i;;
      if decide (p_parent np = p) then
        if decide (p_state np = ZOMBIE) then r <- reap i;; ret (inr r)
        else wait_scan l' p true
      else wait_scan l' p havekids
  end.

(** The result and what is stored through [status], which the kernel's only
    caller passes.  [fuel] bounds how often the process sleeps. *)
Fixpoint wait_process (fuel : nat) : K (Z * option Z) :=
  match fuel with
  | O => out_of_fuel
  | S fuel' =>
      p <- myproc;;
      _ <- intr_off;;
      r <- wait_scan (seq 0 (Z.to_nat NPROC)) p false;;
      match r with
      | inr (pid, status) => ret (pid, Some status)
      | inl false => _ <- intr_on;; ret (-1, None)
      | inl true =>
          _ <- sleep (match p with Some i => ChanProc i | None => ChanNull end);;
          _ <- intr_on;;
          wait_process fuel'
      end
  end.

(** One page of the parent; [Some (-1)] is the early return. *)
Definition fork_page (p np : nat) (va : Z) : K (option Z) :=
  pr <- getproc p;;
  pte <- walk_lookup (p_pagetable pr) va;;
  v <- (if pte =? 0 then ret 0 else load64 pte);;
  if (pte =? 0) || negb (has v PTE_V) then ret None
  else
    mem <- alloc_page;;
    if mem =? 0 then _ <- modproc np (set_p_state UNUSED);; ret (Some (-1))
    else
      v <- load64 pte;;
      bs <- load_bytes (PTE_PA v) PGSIZE;;
      _ <- store_bytes mem bs;;
      npr <- getproc np;;
      r <- map_page (p_pagetable npr) va mem user_perm;;
      if r <? 0 then
        _ <- free_page mem;;
        _ <- modproc np (set_p_state UNUSED);;
        ret (Some (-1))
      else ret None.

Fixpoint fork_pages (fuel : nat) (p np : nat) (va : Z) : K (option Z) :=
  pr <- getproc p;;
  if va <? p_sz pr then
    match fuel with
    | O => out_of_fuel
    | S fuel' =>
        o <- fork_page p np va;;
        match o with
        | Some r => ret (Some r)
        | None => fork_pages fuel' p np (u64 (va + PGSIZE))
        end
    end
  else ret None.

Definition fork : K Z :=
  o <- myproc;;
  n <- alloc_process;;
  match n with
  | None => ret (-1)
  | Some np =>
      p <- of_opt o;;
      pr <- getproc p;;
      failed <- fork_pages (Z.to_nat (p_sz pr / PGSIZE + 1)) p np 0;;
      match failed with
      | Some r => ret r
      | None =>
          _ <- modproc np (set_p_sz (p_sz pr));;
          npr <- getproc np;;
          tf <- load_bytes (p_trapframe pr) PGSIZE;;
          _ <- store_bytes (p_trapframe npr) tf;;
          _ <- store64 (p_trapframe npr + TF_a 0) 0;;
          _ <- modproc np (set_p_parent (Some p));;
          name <- safestrcpy (p_name npr) (p_name pr) 16;;
          _ <- modproc np (set_p_name name);;
          _ <- modproc np (upd_p_context (set_ctx_ra sym_usertrapret));;
          _ <- modproc np (upd_p_context (set_ctx_sp (u64 (p_kstack npr + PGSIZE))));;
          _ <- modproc np (set_p_state RUNNABLE);;
          ret (p_pid npr)
      end
  end.

Definition kill (pid : Z) : K Z :=
  o <- for_find (seq 0 (Z.to_nat NPROC)) (fun i =>
         p <- getproc i;;
         if p_pid p =? pid then
           _ <- modproc i (set_p_killed 1);;
           _ <- when (bool_decide (p_state p = SLEEPING)) (modproc i (set_p_state RUNNABLE));;
           ret (Some 0)
         else ret None);;
  match o with
  | Some r => ret r
  | None => ret (-1)
  end.

(** The loop of [sbrk]; [Some] is the early return of -1 as a [uint64_t]. *)
Fixpoint sbrk_loop (fuel : nat) (pagetable a newsz : Z) : K (option Z) :=
  if a <? newsz then
    match fuel with
    | O => out_of_fuel
    | S fuel' =>
        mem <- alloc_page;;
        if mem =? 0 then ret (Some (u64 (-1)))
        else
          _ <- zero_page mem;;
          r <- map_page pagetable a mem user_perm;;
          if r <? 0 then _ <- free_page mem;; ret (Some (u64 (-1)))
          else sbrk_loop fuel' pagetable (u64 (a + PGSIZE)) newsz
    end
  else ret None.

Definition sbrk (n : Z) : K Z :=
  o <- myproc;;
  p <- of_opt o;;
  pr <- getproc p;;
  let oldsz := p_sz pr in
  let newsz := u64 (oldsz + n) in
  if 0 <? n then
    failed <- sbrk_loop (Z.to_nat (n / PGSIZE + 1)) (p_pagetable pr) (PGGROUNDUP oldsz) newsz;;
    match failed with
    | Some r => ret r
    | None => _ <- modproc p (set_p_sz newsz);; ret oldsz
    end
  else
    (* no unsigned number is negative *)
    let newsz := if (n <? 0) && (newsz <? 0) then 0 else newsz in
    _ <- modproc p (set_p_sz newsz);;
    ret oldsz.
End model.
