(* ===== verification/Lifecycle.v ===== *)
(** * Scheduling, exit and wait

    The scheduler (kernel/proc.c) gives the processor to every process that is
    runnable, and a process that exits wakes its parent, which reaps it. *)
From S2P Require Import Prelude State Mem Pmm Printf Klog UserMem Sched Proc.
From Stdlib Require Import Sorted.

(** ** Specification *)

(** The state in which process [i] gets the processor. *)
Definition dispatch (i : nat) (s : kstate) : kstate :=
  set_ks_current (Some i) (upd_ks_proc (alter (set_p_state RUNNING) i) s).

(** The processes in [l] run one after the other, each from the moment when the
    scheduler has found it runnable to its next switch. *)
Inductive ran (run : nat -> K unit) : list nat -> kstate -> kstate -> Prop :=
| ran_nil s : ran run [] s s
| ran_cons i l p s s1 s2 :
    ks_proc s !! i = Some p -> p_state p = RUNNABLE -> run i (dispatch i s) = Ok tt s1 ->
    ran run l (set_ks_current None s1) s2 -> ran run (i :: l) s s2.

(** What a process does between two switches: it comes back, and a process that
    could run still can. *)
Definition cooperative (run : nat -> K unit) : Prop :=
  forall i s, ks_current s = Some i -> length (ks_proc s) = nproc -> (i < nproc)%nat ->
    exists s', run i s = Ok tt s' /\ length (ks_proc s') = nproc /\
      forall j p, j <> i -> ks_proc s !! j = Some p -> p_state p = RUNNABLE ->
        exists p', ks_proc s' !! j = Some p' /\ p_state p' = RUNNABLE.

(** Kernel code up to its switch to the scheduler. *)
Definition until_switch {A} (m : K A) : K unit :=
  fun s => match m s with
           | Ok _ s' => Ok tt s'
           | Switch s' _ => Ok tt s'
           | Panic msg s' => Panic msg s'
           | Fault => Fault
           | Hang s' => Hang s'
           | OutOfFuel => OutOfFuel
           end.

(** ** The scheduler *)

Section scheduler.
Context (run : nat -> K unit).
Hypothesis Hrun : cooperative run.

(** One slot that is runnable. *)
Lemma sched_slot_runs i found p s :
  length (ks_proc s) = nproc -> ks_proc s !! i = Some p -> p_state p = RUNNABLE ->
  exists s1, run i (dispatch i s) = Ok tt s1 /\
    sched_slot run i found s = Ok true (set_ks_current None s1) /\ length (ks_proc s1) = nproc /\
    forall j q, j <> i -> ks_proc s !! j = Some q -> p_state q = RUNNABLE ->
      exists q', ks_proc s1 !! j = Some q' /\ p_state q' = RUNNABLE.
Proof.
  intros Hlen Hp Hst. pose proof (lookup_lt_Some _ _ _ Hp) as Hi. rewrite Hlen in Hi.
  destruct (Hrun i (dispatch i s) eq_refl) as (s1 & Hr & Hl1 & Hkeep);
    [unfold dispatch; fields; now rewrite length_alter|exact Hi|].
  exists s1. split; [exact Hr|]. split; [|split; [exact Hl1|]].
  - unfold sched_slot. rewrite (bind_Ok _ _ _ _ _ (getproc_run _ _ _ Hp)), decide_True by exact Hst.
    rewrite (bind_Ok _ _ _ _ _ (modproc_run _ _ _ _ Hp)).
    unfold bind, modify. cbn [obind]. fold (dispatch i s).
    rewrite Hr. reflexivity.
  - intros j q Hne Hj Hq. apply (Hkeep j q Hne); [|exact Hq].
    unfold dispatch. fields. now rewrite list_lookup_alter_ne by auto.
Qed.

Lemma sched_slots_run m : forall k found s,
  length (ks_proc s) = nproc -> (k + m <= nproc)%nat ->
  exists l b s', sched_slots run (seq k m) found s = Ok b s' /\ ran run l s s' /\
    length (ks_proc s') = nproc /\ StronglySorted lt l /\
    (forall j, j ∈ l -> k <= j < k + m)%nat /\
    (forall j p, (k <= j < k + m)%nat -> ks_proc s !! j = Some p -> p_state p = RUNNABLE -> j ∈ l).
Proof.
  induction m as [|m IH]; intros k found s Hlen Hk; cbn [seq sched_slots].
  - exists [], found, s. split; [reflexivity|]. split; [constructor|]. split; [exact Hlen|].
    split; [constructor|]. split; [intros j Hj; now apply elem_of_nil in Hj|lia].
  - destruct (lookup_lt_is_Some_2 (ks_proc s) k) as [p Hp]; [lia|].
    destruct (decide (p_state p = RUNNABLE)) as [Hst|Hst].
    + destruct (sched_slot_runs k found p s Hlen Hp Hst) as (s1 & Hr & Hslot & Hl1 & Hkeep).
      rewrite (bind_Ok _ _ _ _ _ Hslot).
      destruct (IH (S k) true (set_ks_current None s1) Hl1 ltac:(lia)) as (l & b & s2 & Hs & Hran & Hl2 & Hso & Hin & Hall).
      exists (k :: l), b, s2. split; [exact Hs|]. split; [econstructor; eassumption|]. split; [exact Hl2|].
      split; [|split].
      * constructor; [exact Hso|]. apply Forall_forall. intros j Hj%Hin. lia.
      * intros j [->|Hj%Hin]%elem_of_cons; lia.
      * intros j q Hj Hq Hsq. apply elem_of_cons. destruct (decide (j = k)) as [->|Hne]; [auto|right].
        destruct (Hkeep j q Hne Hq Hsq) as (q' & Hq' & Hsq'). apply (Hall j q'); [lia|exact Hq'|exact Hsq'].
    + assert (sched_slot run k found s = Ok found s) as Hslot.
      { unfold sched_slot. rewrite (bind_Ok _ _ _ _ _ (getproc_run _ _ _ Hp)). now rewrite decide_False. }
      rewrite (bind_Ok _ _ _ _ _ Hslot).
      destruct (IH (S k) found s Hlen ltac:(lia)) as (l & b & s2 & Hs & Hran & Hl2 & Hso & Hin & Hall).
      exists l, b, s2. split; [exact Hs|]. split; [exact Hran|]. split; [exact Hl2|]. split; [exact Hso|]. split.
      * intros j Hj%Hin. lia.
      * intros j q Hj Hq Hsq. destruct (decide (j = k)) as [->|Hne]; [congruence|]. apply (Hall j q); [lia|exact Hq|exact Hsq].
Qed.

Lemma sched_round_run s :
  length (ks_proc s) = nproc ->
  exists l s', sched_round run s = Ok tt s' /\
    ran run l (upd_ks_csr (upd_csr_sstatus (fun x => Z.lor x 2)) s) s' /\ length (ks_proc s') = nproc /\
    StronglySorted lt l /\ (forall j p, ks_proc s !! j = Some p -> p_state p = RUNNABLE -> j ∈ l).
Proof.
  intros Hlen. set (s0 := upd_ks_csr (upd_csr_sstatus (fun x => Z.lor x 2)) s).
  destruct (sched_slots_run nproc 0 false s0 Hlen ltac:(lia)) as (l & b & s' & Hs & Hran & Hl & Hso & _ & Hall).
  exists l, s'. split; [|split; [exact Hran|split; [exact Hl|split; [exact Hso|]]]].
  - unfold sched_round. unfold bind at 1, intr_on, modify. cbn [obind]. fold s0 nproc.
    now rewrite (bind_Ok _ _ _ _ _ Hs).
  - intros j p Hj. apply (Hall j p); [|exact Hj]. apply lookup_lt_Some in Hj. lia.
Qed.

Lemma scheduler_run n : forall s,
  length (ks_proc s) = nproc -> exists s', scheduler n run s = Ok tt s' /\ length (ks_proc s') = nproc.
Proof.
  induction n as [|n IH]; intros s Hlen; [exists s; auto|]. cbn [scheduler].
  destruct (sched_round_run s Hlen) as (l & s1 & Hr & _ & Hl1 & _).
  rewrite (bind_Ok _ _ _ _ _ Hr). now apply IH.
Qed.
End scheduler.

(** ** Processes that cooperate *)

Lemma runnable_alter (l : list proc) f i j p :
  j <> i -> l !! j = Some p -> p_state p = RUNNABLE ->
  exists p', alter f i l !! j = Some p' /\ p_state p' = RUNNABLE.
Proof. intros Hne Hj Hp. exists p. now rewrite list_lookup_alter_ne by auto. Qed.

(** A process that gives up the processor, in one of the three ways. *)
Lemma yield_cooperates i s :
  ks_current s = Some i -> length (ks_proc s) = nproc -> (i < nproc)%nat ->
  until_switch yield s = Ok tt (upd_ks_proc (alter (set_p_state RUNNABLE) i) s).
Proof.
  intros Hc Hl Hi. destruct (lookup_lt_is_Some_2 (ks_proc s) i) as [p Hp]; [lia|].
  unfold until_switch, yield, myproc, gets, bind. cbn [obind]. rewrite Hc.
  now rewrite (modproc_run _ _ _ _ Hp).
Qed.

Lemma sleep_cooperates c i s :
  ks_current s = Some i -> length (ks_proc s) = nproc -> (i < nproc)%nat ->
  until_switch (sleep c) s = Ok tt (upd_ks_proc (alter (set_p_state SLEEPING) i) (upd_ks_proc (alter (set_p_chan c) i) s)).
Proof.
  intros Hc Hl Hi. destruct (lookup_lt_is_Some_2 (ks_proc s) i) as [p Hp]; [lia|].
  unfold until_switch, sleep, myproc, gets, bind. cbn [obind]. rewrite Hc.
  rewrite (modproc_run _ _ _ _ Hp). cbn [obind].
  rewrite (modproc_run _ i _ (set_p_chan c p)) by (fields; now rewrite list_lookup_alter_eq, Hp).
  reflexivity.
Qed.

(** C21: liveness.  With processes that come back to the scheduler, the scheduler
    never stops, and every round gives the processor, in the order of the table,
    to each process that is runnable when the round starts. *)
Theorem scheduler_runs_all run n s :
  cooperative run -> length (ks_proc s) = nproc ->
  exists s1, scheduler n run s = Ok tt s1 /\
    exists l s2, sched_round run s1 = Ok tt s2 /\
      ran run l (upd_ks_csr (upd_csr_sstatus (fun x => Z.lor x 2)) s1) s2 /\ StronglySorted lt l /\
      (forall j p, ks_proc s1 !! j = Some p -> p_state p = RUNNABLE -> j ∈ l).
Proof.
  intros Hrun Hlen. destruct (scheduler_run run Hrun n s Hlen) as (s1 & Hs & Hl1).
  exists s1. split; [exact Hs|]. destruct (sched_round_run run Hrun s1 Hl1) as (l & s2 & Hr & Hran & _ & Hso & Hall).
  exists l, s2. auto.
Qed.

(** Two processes: the even ones yield, the odd ones wake the sleepers of the
    log and go to sleep. *)
Definition demo_run (i : nat) : K unit :=
  until_switch (if Nat.even i then yield else (_ <- wakeup ChanLog;; sleep (ChanProc i))).

Lemma demo_run_cooperates : cooperative demo_run.
Proof.
  intros i s Hc Hl Hi. unfold demo_run. destruct (Nat.even i).
  - eexists. split; [eapply yield_cooperates; eassumption|]. fields. split; [now rewrite length_alter|].
    intros j p Hne Hj Hp. now apply (runnable_alter _ _ i j p).
  - assert (until_switch (_ <- wakeup ChanLog;; sleep (ChanProc i)) s =
            until_switch (sleep (ChanProc i)) (set_ks_proc (map (wake ChanLog) (ks_proc s)) s)) as ->.
    { unfold until_switch. now rewrite (bind_Ok _ _ _ _ _ (wakeup_run _ _ Hl)). }
    eexists. split; [eapply sleep_cooperates; [exact Hc|fields; now rewrite length_map|exact Hi]|]. fields.
    split; [now rewrite !length_alter, length_map|]. intros j p Hne Hj Hp.
    exists p. rewrite !list_lookup_alter_ne, list_lookup_fmap, Hj by auto. cbn. unfold wake.
    rewrite decide_False; [auto|]. intros [Hs _]. congruence.
Qed.

Definition demo_procs : kstate :=
  set_ks_proc (set_p_state RUNNABLE zero_proc :: set_p_state RUNNABLE zero_proc :: replicate 62 zero_proc) demo_state.

Lemma scheduler_runs_all_witness :
  exists l s2, sched_round demo_run demo_procs = Ok tt s2 /\ StronglySorted lt l /\ 0%nat ∈ l /\ 1%nat ∈ l.
Proof.
  destruct (scheduler_runs_all demo_run 0 demo_procs demo_run_cooperates eq_refl)
    as (s1 & [= <-] & l & s2 & Hr & _ & Hso & Hall).
  exists l, s2. split; [exact Hr|]. split; [exact Hso|].
  split; eapply Hall; reflexivity.
Defined.

(** ** Exit and wait *)

Lemma klog_quiet level fmt ap s :
  kl_ok (ks_klog s) -> 0 <= level < 4 -> is_Some (klog_text fmt ap) ->
  exists s', klog level fmt ap s = Ok tt s' /\ logging_only s s'.
Proof.
  intros Hok Hl [[tc tb] Ht]. destruct (decide (kl_enabled (ks_klog s) = 0)) as [He|He].
  - exists s. split; [|now destruct s]. unfold klog, gets, bind. cbn [obind]. now rewrite He.
  - exists (klogged level tc tb s). split; [now rewrite klog_run, Ht|apply klogged_logging_only].
Qed.

Lemma wake_sleeper c p :
  p_state p = SLEEPING -> p_chan p = c -> wake c p = set_p_chan ChanNull (set_p_state RUNNABLE p).
Proof. intros Hs Hc. unfold wake. apply decide_True. auto. Qed.

Lemma wake_other c p : p_state p <> SLEEPING -> wake c p = p.
Proof. intros Hs. unfold wake. apply decide_False. now intros [? _]. Qed.

(** The slot of a process that has been reaped. *)
Definition reaped (p : proc) : proc :=
  upd_p_name (<[O := 0]>) (set_p_parent None (set_p_pid 0 (set_p_state UNUSED (set_p_kstack 0 p)))).

(** [c] is a child of [p] that has exited. *)
Definition zombie_child (p c : nat) (s : kstate) : Prop :=
  exists cp, ks_proc s !! c = Some cp /\ p_parent cp = Some p /\ p_state cp = ZOMBIE.

Section exit_wait.
Context `{Symbols} (pages : list Z -> kstate -> Prop) `{!PageAllocator pages}.

Lemma reap_run c cp l s :
  ks_proc s !! c = Some cp -> pages l s -> is_page (p_kstack cp) -> p_kstack cp ∉ l -> p_kstack cp <> 0 ->
  exists s', reap c s = Ok (p_pid cp, p_exit_code cp) s' /\ pages (p_kstack cp :: l) s' /\
    ks_proc s' !! c = Some (reaped cp) /\ (forall j, j <> c -> ks_proc s' !! j = ks_proc s !! j).
Proof.
  intros Hc Hl Hpg Hnin Hne. unfold reap.
  rewrite (bind_Ok _ _ _ _ _ (getproc_run _ _ _ Hc)).
  destruct (proj1 (wp_Ok _ _ _) (pages_free _ _ _ Hl Hpg Hnin Hne)) as ([] & s1 & Hf & Hl1 & Hs1 & _).
  rewrite (bind_Ok _ _ _ _ _ Hf).
  assert (ks_proc s1 = ks_proc s) as Hp1 by (rewrite Hs1; reflexivity).
  assert (forall s q f, ks_proc s !! c = Some q ->
            modproc c f s = Ok tt (set_ks_proc (<[c := f q]> (ks_proc s)) s)) as Hmod.
  { intros s0 q f Hq. rewrite (modproc_run _ _ _ _ Hq). unfold upd_ks_proc. do 2 f_equal.
    apply list_eq. intros j. rewrite lookup_alter_proc. case_decide as Hj; [subst j|now rewrite list_lookup_insert_ne].
    rewrite Hq, list_lookup_insert_eq by now apply lookup_lt_Some in Hq. reflexivity. }
  pose proof (lookup_lt_Some _ _ _ Hc) as Hlt. rewrite <- Hp1 in Hc, Hlt.
  rewrite (bind_Ok _ _ _ _ _ (Hmod _ _ _ Hc)).
  do 4 (erewrite (bind_Ok (modproc c _)) by (apply Hmod; fields; apply list_lookup_insert_eq; now rewrite ?length_insert)).
  fields. rewrite !list_insert_insert_eq. unfold bind, intr_on, modify, ret. cbn [obind].
  eexists. split; [reflexivity|]. fields. split; [|split].
  - eapply pages_frame; [exact Hl1|reflexivity|reflexivity].
  - now apply list_lookup_insert_eq.
  - intros j Hj. now rewrite list_lookup_insert_ne, Hp1 by auto.
Qed.

(** The scan of [wait_process]. *)
Lemma wait_scan_none p m : forall k b s,
  (k + m <= length (ks_proc s))%nat ->
  (forall j, (k <= j < k + m)%nat -> ~ zombie_child p j s) ->
  (b = true \/ exists c cp, (k <= c < k + m)%nat /\ ks_proc s !! c = Some cp /\ p_parent cp = Some p) ->
  wait_scan (seq k m) (Some p) b s = Ok (inl true) s.
Proof.
  induction m as [|m IH]; intros k b s Hlen Hno Hkid; cbn [seq wait_scan].
  - destruct Hkid as [->|(c & _ & Hc & _)]; [reflexivity|lia].
  - destruct (lookup_lt_is_Some_2 (ks_proc s) k) as [q Hq]; [lia|].
    rewrite (bind_Ok _ _ _ _ _ (getproc_run _ _ _ Hq)).
    assert (forall j, (S k <= j < S k + m)%nat -> ~ zombie_child p j s) as Hno' by (intros j Hj; apply Hno; lia).
    destruct (decide (p_parent q = Some p)) as [Hp|Hp].
    + destruct (decide (p_state q = ZOMBIE)) as [Hz|_]; [|apply IH; [lia|exact Hno'|auto]].
      destruct (Hno k); [lia|]. now exists q.
    + apply IH; [lia|exact Hno'|]. destruct Hkid as [?|(c & cp & Hc & Hcp & Hpar)]; [auto|right].
      exists c, cp. split; [|auto]. destruct (decide (c = k)) as [->|]; [congruence|lia].
Qed.

Lemma wait_scan_found p c m : forall k b s,
  (k + m <= length (ks_proc s))%nat -> (k <= c < k + m)%nat -> zombie_child p c s ->
  (forall j, (k <= j < c)%nat -> ~ zombie_child p j s) ->
  wait_scan (seq k m) (Some p) b s = (r <- reap c;; ret (inr r)) s.
Proof.
  induction m as [|m IH]; intros k b s Hlen Hc Hz Hno; [lia|]. cbn [seq wait_scan].
  destruct (lookup_lt_is_Some_2 (ks_proc s) k) as [q Hq]; [lia|].
  rewrite (bind_Ok _ _ _ _ _ (getproc_run _ _ _ Hq)).
  destruct (decide (c = k)) as [->|Hne].
  - destruct Hz as (q' & Hq' & Hp & Hs). rewrite Hq in Hq'. injection Hq' as <-.
    now rewrite !decide_True.
  - assert (forall b, wait_scan (seq (S k) m) (Some p) b s = (r <- reap c;; ret (inr r)) s) as Hrec.
    { intros b'. apply IH; [lia|lia|exact Hz|]. intros j Hj. apply Hno. lia. }
    destruct (decide (p_parent q = Some p)) as [Hp|Hp]; [|apply Hrec].
    destruct (decide (p_state q = ZOMBIE)) as [Hs|_]; [|apply Hrec].
    destruct (Hno k); [lia|]. now exists q.
Qed.

(** A parent with a child, none of them a zombie, goes to sleep on itself, and
    scans again when it is back. *)
Lemma wait_sleeps n p pp s :
  ks_current s = Some p -> length (ks_proc s) = nproc -> ks_proc s !! p = Some pp ->
  (forall j, ~ zombie_child p j s) ->
  (exists c cp, ks_proc s !! c = Some cp /\ p_parent cp = Some p) ->
  exists s1 k, wait_process (S n) s = Switch s1 k /\
    ks_proc s1 = <[p := set_p_state SLEEPING (set_p_chan (ChanProc p) pp)]> (ks_proc s) /\
    s1 = set_ks_proc (ks_proc s1) (set_ks_csr (ks_csr s1) s) /\
    (forall s' q, ks_proc s' !! p = Some q ->
       k s' = wait_process n (upd_ks_csr (upd_csr_sstatus (fun x => Z.lor x 2))
                                (upd_ks_proc (alter (set_p_chan ChanNull) p) s'))).
Proof.
  intros Hcur Hlen Hpp Hno (c & cp & Hc & Hpar). pose proof (lookup_lt_Some _ _ _ Hpp) as Hlt.
  set (s0 := upd_ks_csr (upd_csr_sstatus (fun x => Z.ldiff x 2)) s).
  eexists _, _. split; [|split; [|split]].
  - cbn [wait_process]. unfold myproc, gets at 1, bind at 1. cbn [obind]. rewrite Hcur.
    unfold bind at 1, intr_off at 1, modify at 1. cbn [obind]. fold s0.
    erewrite (bind_Ok (wait_scan _ _ _)).
    2: { apply (wait_scan_none p nproc 0 false s0); [fold nproc in *; fields; unfold s0; fields; lia| |].
         - intros j _. apply (Hno j).
         - right. exists c, cp. split; [|auto]. apply lookup_lt_Some in Hc. unfold nproc in *. lia. }
    cbv iota beta. unfold bind at 1. unfold sleep, myproc, gets at 1, bind at 1. cbn [obind].
    change (ks_current s0) with (ks_current s). rewrite Hcur.
    unfold bind at 1. rewrite (modproc_run s0 p _ pp Hpp). cbn [obind].
    unfold bind at 1. rewrite (modproc_run _ p _ (set_p_chan (ChanProc p) pp))
      by (fields; unfold s0; fields; now rewrite list_lookup_alter_eq, Hpp).
    cbn [obind]. unfold bind at 1. unfold swtch_sched. cbn [obind]. reflexivity.
  - unfold s0. fields. apply list_eq. intros j. rewrite !lookup_alter_proc.
    case_decide as Hj; [subst j|now rewrite list_lookup_insert_ne by auto].
    now rewrite Hpp, list_lookup_insert_eq by auto.
  - reflexivity.
  - intros s' q Hq. cbn [obind]. rewrite (modproc_run _ _ _ _ Hq). cbn [obind].
    unfold bind, intr_on, modify. reflexivity.
Qed.
(** An exiting process becomes a zombie with its status and wakes the processes
    that sleep on its parent. *)
Lemma exit_run c cp p status s :
  ks_current s = Some c -> length (ks_proc s) = nproc -> ks_proc s !! c = Some cp ->
  p_parent cp = Some p -> kl_ok (ks_klog s) ->
  exists s1 k, exit_process status s = Switch s1 k /\
    ks_proc s1 = map (wake (ChanProc p)) (<[c := set_p_state ZOMBIE (set_p_exit_code status cp)]> (ks_proc s)) /\
    ks_mem s1 = ks_mem s /\ ks_freelist s1 = ks_freelist s.
Proof.
  intros Hcur Hlen Hc Hpar Hkl. pose proof (lookup_lt_Some _ _ _ Hc) as Hlt.
  set (s0 := upd_ks_csr (upd_csr_sstatus (fun x => Z.ldiff x 2)) s).
  destruct (klog_quiet LOG_INFO (str "Process %d exiting with status %d" ++ [10])
    [AInt (p_pid cp); AInt status] s0 Hkl ltac:(unfold LOG_INFO; lia) ltac:(eexists; reflexivity)) as (s1 & Hlog & Hq).
  assert (ks_proc s1 = ks_proc s /\ ks_mem s1 = ks_mem s /\ ks_freelist s1 = ks_freelist s) as (Hp1 & Hm1 & Hf1)
    by (rewrite Hq; auto).
  set (l2 := <[c := set_p_state ZOMBIE (set_p_exit_code status cp)]> (ks_proc s)).
  assert (alter (set_p_state ZOMBIE) c (alter (set_p_exit_code status) c (ks_proc s1)) = l2) as Hl2.
  { rewrite Hp1. apply list_eq. intros j. unfold l2. rewrite !lookup_alter_proc.
    case_decide as Hj; [subst j|now rewrite list_lookup_insert_ne by auto].
    now rewrite Hc, list_lookup_insert_eq by auto. }
  eexists _, _. split; [|split; [|split]].
  - unfold exit_process, myproc. unfold gets at 1, bind at 1. cbn [obind]. rewrite Hcur.
    unfold bind at 1, intr_off at 1, modify at 1. cbn [obind]. fold s0. cbn [of_opt].
    unfold bind at 1. unfold ret at 1. cbn [obind].
    rewrite (bind_Ok _ _ _ _ _ (getproc_run s0 c cp Hc)).
    unfold LOG_I. rewrite (bind_Ok _ _ _ _ _ Hlog).
    rewrite (bind_Ok _ _ _ _ _ (modproc_run s1 c _ cp ltac:(now rewrite Hp1))).
    erewrite (bind_Ok (modproc c (set_p_state ZOMBIE))).
    2: { apply (modproc_run _ c _ (set_p_exit_code status cp)). fields. now rewrite list_lookup_alter_eq, Hp1, Hc. }
    change (upd_ks_proc ?f (upd_ks_proc ?g ?x)) with (set_ks_proc (f (g (ks_proc x))) x). rewrite Hl2.
    erewrite (bind_Ok (getproc c)) by (apply getproc_run; fields; now apply list_lookup_insert_eq).
    fields. rewrite Hpar.
    erewrite (bind_Ok (wakeup _)) by (apply wakeup_run; fields; unfold l2; now rewrite length_insert).
    unfold bind at 1. unfold swtch_sched. cbn [obind]. reflexivity.
  - reflexivity.
  - exact Hm1.
  - exact Hf1.
Qed.
(** A scan that finds the one zombie reaps it. *)
Lemma wait_reaps n p c cp l s :
  ks_current s = Some p -> length (ks_proc s) = nproc ->
  ks_proc s !! c = Some cp -> p_parent cp = Some p -> p_state cp = ZOMBIE ->
  (forall j, zombie_child p j s -> j = c) ->
  pages l s -> is_page (p_kstack cp) -> p_kstack cp ∉ l -> p_kstack cp <> 0 ->
  exists s', wait_process (S n) s = Ok (p_pid cp, Some (p_exit_code cp)) s' /\
    pages (p_kstack cp :: l) s' /\ ks_proc s' !! c = Some (reaped cp).
Proof.
  intros Hcur Hlen Hc Hpar Hz Honly Hl Hpg Hnin Hnz. pose proof (lookup_lt_Some _ _ _ Hc) as Hlt.
  set (s0 := upd_ks_csr (upd_csr_sstatus (fun x => Z.ldiff x 2)) s).
  assert (pages l s0) as Hl0 by (eapply pages_frame; [exact Hl|reflexivity|reflexivity]).
  destruct (reap_run c cp l s0 Hc Hl0 Hpg Hnin Hnz) as (s1 & Hr & Hl1 & Hc1 & _).
  assert (wait_scan (seq 0 (Z.to_nat NPROC)) (Some p) false s0 = Ok (inr (p_pid cp, p_exit_code cp)) s1) as Hscan.
  { rewrite (wait_scan_found p c); [now rewrite (bind_Ok _ _ _ _ _ Hr)|fold nproc..|].
    - change (ks_proc s0) with (ks_proc s). lia.
    - lia.
    - exists cp. auto.
    - intros j Hj Hzj. apply (Honly j) in Hzj. lia. }
  exists s1. split; [|split; [exact Hl1|exact Hc1]].
  cbn [wait_process]. unfold myproc, gets at 1, bind at 1. cbn [obind].
  rewrite Hcur. unfold bind at 1, intr_off at 1, modify at 1. cbn [obind]. fold s0.
  now rewrite (bind_Ok _ _ _ _ _ Hscan).
Qed.
(** The child [c] runs and exits while its parent [p] waits for it: it wakes the
    parent and is then its only zombie. *)
Lemma child_exits s p pp c cp status :
  c <> p -> length (ks_proc s) = nproc -> ks_proc s !! p = Some pp -> p_state pp = SLEEPING -> p_chan pp = ChanProc p ->
  ks_proc s !! c = Some cp -> p_parent cp = Some p -> (forall j, ~ zombie_child p j s) -> kl_ok (ks_klog s) ->
  exists s2 kc, exit_process status (dispatch c (set_ks_current None s)) = Switch s2 kc /\
    ks_proc s2 !! p = Some (set_p_chan ChanNull (set_p_state RUNNABLE pp)) /\
    ks_proc s2 !! c = Some (set_p_state ZOMBIE (set_p_exit_code status (set_p_state RUNNING cp))) /\
    length (ks_proc s2) = nproc /\ (forall j, zombie_child p j s2 -> j = c) /\
    ks_mem s2 = ks_mem s /\ ks_freelist s2 = ks_freelist s.
Proof.
  intros Hne Hlen Hpp Hsl Hch Hcp Hpar Hno Hkl. set (sc := dispatch c (set_ks_current None s)).
  assert (ks_proc sc = alter (set_p_state RUNNING) c (ks_proc s)) as Esc by reflexivity.
  assert (ks_proc sc !! c = Some (set_p_state RUNNING cp)) as Hcc by (now rewrite Esc, list_lookup_alter_eq, Hcp).
  assert (length (ks_proc sc) = nproc) as Hlc by (now rewrite Esc, length_alter).
  destruct (exit_run c (set_p_state RUNNING cp) p status sc eq_refl Hlc Hcc Hpar Hkl) as (s2 & kc & Hx & Hp2 & Hm2 & Hf2).
  set (zp := set_p_state ZOMBIE (set_p_exit_code status (set_p_state RUNNING cp))) in *.
  assert (forall j, j <> c -> ks_proc s2 !! j = wake (ChanProc p) <$> ks_proc s !! j) as Hother.
  { intros j Hj. rewrite Hp2, list_lookup_fmap, list_lookup_insert_ne, Esc, list_lookup_alter_ne by auto. reflexivity. }
  exists s2, kc. split; [exact Hx|]. split; [|split; [|split; [|split; [|split; [exact Hm2|exact Hf2]]]]].
  - rewrite Hother, Hpp by auto. cbn [fmap option_fmap option_map]. f_equal. now apply wake_sleeper.
  - rewrite Hp2, list_lookup_fmap, list_lookup_insert_eq by (now apply lookup_lt_Some in Hcc).
    change (Some (wake (ChanProc p) zp) = Some zp). rewrite wake_other; [reflexivity|discriminate].
  - now rewrite Hp2, length_map, length_insert.
  - intros j (q & Hq & Hqp & Hqz). destruct (decide (j = c)) as [|Hjc]; [assumption|exfalso].
    rewrite Hother in Hq by exact Hjc. destruct (ks_proc s !! j) as [q0|] eqn:Hj; [|discriminate Hq]. injection Hq as Hq.
    apply (Hno j). exists q0. split; [exact Hj|]. revert Hq. unfold wake. case_decide; intros <-; [discriminate Hqz|auto].
Qed.

(** The parent is scheduled again, and [wait] wakes up. *)
Lemma parent_resumes p c pp zp s :
  c <> p -> ks_proc s !! p = Some pp -> ks_proc s !! c = Some zp -> p_state pp <> ZOMBIE ->
  (forall j, zombie_child p j s -> j = c) ->
  let sp := dispatch p (set_ks_current None s) in
  let s' := upd_ks_csr (upd_csr_sstatus (fun x => Z.lor x 2)) (upd_ks_proc (alter (set_p_chan ChanNull) p) sp) in
  ks_proc sp !! p = Some (set_p_state RUNNING pp) /\ ks_proc s' !! c = Some zp /\
  forall j, zombie_child p j s' -> j = c.
Proof.
  intros Hne Hpp Hcp Hz Hno sp s'.
  assert (ks_proc sp = alter (set_p_state RUNNING) p (ks_proc s)) as Esp by reflexivity.
  assert (ks_proc s' = alter (set_p_chan ChanNull) p (ks_proc sp)) as Es' by reflexivity.
  split; [now rewrite Esp, list_lookup_alter_eq, Hpp|].
  split; [now rewrite Es', Esp, !list_lookup_alter_ne by auto|].
  intros j (q & Hq & Hqp & Hqz). rewrite Es', Esp in Hq. destruct (decide (j = p)) as [->|Hj].
  - rewrite !list_lookup_alter_eq, Hpp in Hq. injection Hq as <-. discriminate Hqz.
  - rewrite !list_lookup_alter_ne in Hq by auto. apply (Hno j). exists q. auto.
Qed.
End exit_wait.

(** C22: a parent that waits sleeps until a child exits, the exit makes it
    runnable, and its [wait] then returns the child's pid and exit status; the
    child's slot is unused again and its kernel stack is a free page. *)
Theorem exit_is_reaped `{Symbols} pages `{!PageAllocator pages} s p pp c cp status l :
  ks_current s = Some p -> length (ks_proc s) = nproc -> c <> p ->
  ks_proc s !! p = Some pp -> ks_proc s !! c = Some cp -> p_parent cp = Some p -> p_state cp = RUNNABLE ->
  (forall j, ~ zombie_child p j s) -> kl_ok (ks_klog s) ->
  pages l s -> is_page (p_kstack cp) -> p_kstack cp ∉ l -> p_kstack cp <> 0 ->
  exists s1 k s2 kc s3,
    wait_process 2 s = Switch s1 k /\
    exit_process status (dispatch c (set_ks_current None s1)) = Switch s2 kc /\
    (exists q, ks_proc s2 !! p = Some q /\ p_state q = RUNNABLE) /\
    k (dispatch p (set_ks_current None s2)) = Ok (p_pid cp, Some status) s3 /\
    pages (p_kstack cp :: l) s3 /\
    exists q, ks_proc s3 !! c = Some q /\ p_state q = UNUSED /\ p_pid q = 0 /\ p_parent q = None /\ p_kstack q = 0.
Proof.
  intros Hcur Hlen Hne Hpp Hcp Hpar Hst Hno Hkl Hl Hpg Hnin Hnz.
  pose proof (lookup_lt_Some _ _ _ Hpp) as Hltp.
  destruct (wait_sleeps 1 p pp s Hcur Hlen Hpp Hno ltac:(eauto)) as (s1 & k & Hw & Hp1 & Hs1 & Hk).
  set (pp1 := set_p_state SLEEPING (set_p_chan (ChanProc p) pp)) in *.
  assert (ks_klog s1 = ks_klog s /\ ks_mem s1 = ks_mem s /\ ks_freelist s1 = ks_freelist s) as (Ekl & Em & Ef)
    by (rewrite Hs1; auto).
  destruct (child_exits s1 p pp1 c cp status) as (s2 & kc & Hx & Hpp2 & Hcp2 & Hl2 & Hno2 & Hm2 & Hf2);
    [exact Hne|now rewrite Hp1, length_insert|rewrite Hp1; now apply list_lookup_insert_eq|reflexivity|reflexivity
    |now rewrite Hp1, list_lookup_insert_ne by auto|exact Hpar| |now rewrite Ekl|].
  { intros j (q & Hq & Hqp & Hqz). rewrite Hp1 in Hq. destruct (decide (j = p)) as [->|Hj].
    - rewrite list_lookup_insert_eq in Hq by exact Hltp. injection Hq as <-. discriminate Hqz.
    - rewrite list_lookup_insert_ne in Hq by auto. apply (Hno j). exists q. auto. }
  set (pp2 := set_p_chan ChanNull (set_p_state RUNNABLE pp1)) in *.
  set (sp := dispatch p (set_ks_current None s2)). set (zp := set_p_state ZOMBIE _) in *.
  destruct (parent_resumes p c pp2 zp s2 Hne Hpp2 Hcp2 ltac:(discriminate) Hno2) as (Hpp3 & Hcp4 & Honly).
  set (s4 := upd_ks_csr (upd_csr_sstatus (fun x => Z.lor x 2)) (upd_ks_proc (alter (set_p_chan ChanNull) p) sp)) in *.
  assert (k sp = wait_process 1 s4) as Hks by (eapply Hk, Hpp3).
  assert (length (ks_proc s4) = nproc) as Hl4 by (unfold s4, sp, dispatch; fields; now rewrite !length_alter).
  assert (pages l s4) as Hl4p.
  { eapply pages_frame; [exact Hl|unfold s4, sp, dispatch; fields; now rewrite Hf2|]. intros x a _ _.
    unfold byte, s4, sp, dispatch. fields. now rewrite Hm2, Em. }
  destruct (wait_reaps pages 0 p c zp l s4 eq_refl Hl4 Hcp4 Hpar eq_refl Honly Hl4p Hpg Hnin Hnz)
    as (s5 & Hw5 & Hl5 & Hc5).
  exists s1, k, s2, kc, s5. split; [exact Hw|]. split; [exact Hx|]. split; [exists pp2; auto|].
  split; [etransitivity; [exact Hks|exact Hw5]|]. split; [exact Hl5|]. eexists. split; [exact Hc5|repeat split].
Qed.

(** Process 1 is a child of process 0, which runs. *)
Definition demo_child : proc :=
  set_p_kstack demo_page (set_p_parent (Some 0%nat) (set_p_pid 2 (set_p_state RUNNABLE zero_proc))).
Definition demo_family : kstate :=
  set_ks_current (Some 0%nat)
    (set_ks_proc (set_p_state RUNNING zero_proc :: demo_child :: replicate 62 zero_proc) demo_state).

Lemma demo_family_zombies j : ~ zombie_child 0 j demo_family.
Proof.
  intros (q & Hq & _ & Hz). destruct j as [|[|j]]; [injection Hq as <-; discriminate Hz..|].
  apply lookup_replicate_1 in Hq as [-> _]. discriminate Hz.
Qed.

Lemma demo_family_klog : kl_ok (ks_klog demo_family).
Proof. split; [reflexivity|]. split; split; [discriminate|reflexivity|discriminate|reflexivity]. Qed.

Lemma exit_is_reaped_witness :
  exists s1 k s2 kc s3,
    @wait_process demo_symbols 2 demo_family = Switch s1 k /\
    exit_process 7 (dispatch 1 (set_ks_current None s1)) = Switch s2 kc /\
    k (dispatch 0 (set_ks_current None s2)) = Ok (2, Some 7) s3.
Proof.
  assert (0 <= @mem_start demo_symbols) as Hm by (vm_compute; discriminate).
  assert (@is_page demo_symbols demo_page) as Hpg by (split; [reflexivity|split; vm_compute; discriminate]).
  assert (@free_list demo_symbols [] demo_family) as Hl
    by (split; [reflexivity|apply NoDup_nil_2|apply Forall_nil_2]).
  destruct (@exit_is_reaped demo_symbols _ (@pmm_pages demo_symbols Hm) demo_family 0 (set_p_state RUNNING zero_proc)
    1 demo_child 7 [] eq_refl eq_refl ltac:(discriminate) eq_refl eq_refl eq_refl eq_refl demo_family_zombies
    demo_family_klog Hl Hpg (not_elem_of_nil _) ltac:(discriminate)) as (s1 & k & s2 & kc & s3 & Hw & Hx & _ & Hk & _).
  exists s1, k, s2, kc, s3. exact (conj Hw (conj Hx Hk)).
Defined.
