(* ===== verification/Growth.v ===== *)
(** * The size of a process: sbrk (kernel/proc.c)

    [sbrk] maps zeroed pages behind the memory of the process and adds to its
    size; it never unmaps a page.  The effect is stated on user memory, as the
    process sees it through its page table. *)
From S2P Require Import Prelude State Mem Pmm Vm UserMem Sched Proc.

Section growth.
Context `{Symbols} (Hpos : 0 < mem_start) (pages : list Z -> kstate -> Prop) `{!PageAllocator pages}.
Let Hm : 0 <= mem_start := Z.lt_le_incl _ _ Hpos.

(** ** Specification *)

(** [va] is in one of the [n] pages from [a] on. *)
Definition in_range (a : Z) (n : nat) (va : Z) : Prop :=
  exists k, 0 <= k < Z.of_nat n /\ vpn va = vpn (a + k * PGSIZE).

(** From [s] to [s'] the pages of [a] are mapped and zero; the other user memory
    is as before. *)
Record extended (s : kstate) (root a : Z) (n : nat) (l' : list Z) (s' : kstate) : Prop := {
  ex_pages : pages l' s';
  ex_space : space_ok s' root l';
  ex_new : forall va, in_range a n va -> is_Some (user_at s' root va) /\ user_byte s' root va = 0;
  ex_old : forall va, ~ in_range a n va ->
    user_at s' root va = user_at s root va /\ user_byte s' root va = user_byte s root va;
  ex_rest : s' = set_ks_mem (ks_mem s') (set_ks_freelist (ks_freelist s') s) }.

(** ** One page *)

Lemma user_perm_range : 0 <= user_perm < 2 ^ 10.
Proof. split; [discriminate|reflexivity]. Qed.

Lemma user_perm_U m : has (leaf m user_perm) PTE_U = true.
Proof.
  unfold has, leaf. rewrite negb_true_iff, Z.eqb_neq. intros E.
  assert (Z.testbit (Z.land (Z.lor (Z.lor (PA_PTE m) (u64 user_perm)) PTE_V) PTE_U) 4 = true) as Hb.
  { rewrite Z.land_spec, !Z.lor_spec. change (Z.testbit (u64 user_perm) 4) with true.
    change (Z.testbit PTE_U 4) with true. now rewrite orb_true_r. }
  rewrite E in Hb. discriminate.
Qed.

(** Memory of a free page is in no table and in no user page. *)
Definition written_page (m : Z) (bs : list Z) (s : kstate) : kstate := upd_ks_mem (put_bytes m bs) s.

Lemma written_same m bs s :
  Z.of_nat (length bs) = PGSIZE -> same_bytes (fun k => m <= k < m + PGSIZE) s (written_page m bs s).
Proof. intros Hl k Hk. apply same_bytes_put. lia. Qed.

Lemma written_space m bs l s root :
  Z.of_nat (length bs) = PGSIZE -> is_page m -> space_ok s root (m :: l) ->
  let s' := written_page m bs s in
  space_ok s' root (m :: l) /\ (forall q, path q -> table s' root q = table s root q) /\
  (forall va, translate s' root va = translate s root va) /\
  (forall va, missing s' root va = missing s root va).
Proof.
  intros Hl Hpg Hsp s'. pose proof (written_same m bs s Hl) as Hs.
  assert (forall k, m <= k < m + PGSIZE -> ~ in_tables s root k) as Hnt.
  { intros k Hk (q & b & Hq & Hb & Hin).
    destruct (pw_page _ _ _ (sp_wf _ _ _ Hsp) q b Hq Hb) as [Hpb Hnb].
    destruct (pages_apart m b Hpg Hpb); [intros ->; apply Hnb; left|unfold PGSIZE in *; lia..]. }
  destruct (same_tables s s' root (m :: l) _ (sp_wf _ _ _ Hsp) Hs Hnt) as [Ht Htr].
  split; [exact (space_same s s' root _ _ Hsp Hs Hnt)|]. split; [exact Ht|]. split; [exact Htr|].
  intros va. unfold missing. rewrite !Ht; [reflexivity|apply vpn_path|apply vpath_path].
Qed.

Lemma written_byte m bs s k :
  Z.of_nat (length bs) = PGSIZE -> m <= k < m + PGSIZE -> byte (written_page m bs s) k = nth (Z.to_nat (k - m)) bs 0.
Proof.
  intros Hl Hk. unfold written_page. rewrite byte_put, decide_True by lia. now rewrite nth_lookup.
Qed.

(** A free page [m] with the contents [bs] is mapped for the user at the page of
    [a]: what changes. *)
Record filled (s : kstate) (root a m : Z) (bs : list Z) (l l' : list Z) (s' : kstate) : Prop := {
  fl_pages : pages l' s';
  fl_space : space_ok s' root l';
  fl_translate : forall va,
    translate s' root va = if decide (vpn va = vpn a) then Some (leaf m user_perm) else translate s root va;
  fl_here : forall va, vpn va = vpn a ->
    user_at s' root va = Some (m + va mod PGSIZE) /\ user_byte s' root va = nth (Z.to_nat (va mod PGSIZE)) bs 0;
  fl_old : forall va, vpn va <> vpn a ->
    user_at s' root va = user_at s root va /\ user_byte s' root va = user_byte s root va;
  fl_tables : forall q b, path q -> table s' root q = Some b -> table s root q = Some b \/ b ∈ l;
  fl_sub : forall b, b ∈ l' -> b ∈ l;
  fl_same : same_bytes (fun k => in_tables s' root k \/ m <= k < m + PGSIZE) s s';
  fl_rest : s' = set_ks_mem (ks_mem s') (set_ks_freelist (ks_freelist s') s) }.

(** One round of the loops of [sbrk] and of [fork]. *)
Lemma fill_page m l s root a bs :
  Z.of_nat (length bs) = PGSIZE ->
  pages (m :: l) s -> space_ok s root (m :: l) -> (missing s root a <= length l)%nat ->
  exists nxt s2 s', let s1 := set_ks_freelist nxt s in
    alloc_page s = Ok m s1 /\ store_bytes m bs s1 = Ok tt s2 /\ map_page root a m user_perm s2 = Ok 0 s' /\
    m <> 0 /\ filled s root a m bs l (drop (missing s root a) l) s'.
Proof.
  intros Hbs Hl Hsp Hmiss. destruct (pages_ok _ _ Hl) as [Hnd Hpgs].
  apply NoDup_cons in Hnd as [Hnd _]. apply Forall_cons in Hpgs as [Hpg _].
  destruct (pages_alloc _ _ _ Hl) as (nxt & Halloc & Hl1). set (s1 := set_ks_freelist nxt s) in *.
  destruct (written_space m bs l s1 root Hbs Hpg (space_freelist _ _ _ _ Hsp)) as (Hsp2 & Ht2 & Htr2 & Hmiss2).
  set (s2 := written_page m bs s1) in *.
  assert (pages l s2) as Hl2.
  { eapply pages_frame; [exact Hl1|reflexivity|]. intros q k Hq Hk. apply (written_same m bs s1 Hbs).
    destruct (pages_ok _ _ Hl) as [_ Hall]. rewrite Forall_forall in Hall.
    destruct (pages_apart m q Hpg); [apply Hall; now right|intros ->; contradiction|unfold PGSIZE in *; lia..]. }
  assert (forall va' pte, translate s2 root va' = Some pte -> has pte PTE_U = true -> PTE_PA pte <> m) as Hother.
  { intros va' pte Ht HU E. destruct (sp_page _ _ _ Hsp2 va' pte Ht HU) as (_ & Hn & _). rewrite E in Hn. apply Hn. left. }
  assert (missing s2 root a = missing s root a) as Em by (rewrite Hmiss2; apply missing_freelist).
  assert (space_ok s2 root l) as Hsp2l by (eapply space_not_free; [|exact Hsp2]; intros x Hx; now right).
  destruct (map_page_spec pages Hm Hpos root a m user_perm l s2 Hl2 (sp_wf _ _ _ Hsp2l) ltac:(rewrite Em; exact Hmiss))
    as (s' & Hrun & Hmp). rewrite Em in Hmp.
  assert (space_ok s' root (drop (missing s root a) l)) as Hsp'.
  { eapply (space_map Hpos pages s2 s' root a m user_perm); [exact Hsp2l|exact Hmp|exact user_perm_range|exact Hpg|exact Hnd| |exact Hother].
    intros q Hq Ha. destruct (pw_page _ _ _ (sp_wf _ _ _ Hsp2) q m Hq Ha) as [_ Hn]. apply Hn. left. }
  destruct Hmp as [Hl' _ Htr' Hnew Hsub Hsame Hrest].
  assert (forall va p, user_at s' root va = Some p -> byte s' p = byte s2 p) as Hb
    by (intros va p Hu; apply Hsame; exact (user_not_table s' root _ va p Hsp' Hu)).
  exists nxt, s2, s'. split; [exact Halloc|]. split; [|split; [exact Hrun|split]].
  - apply store_bytes_run. rewrite Hbs. apply (is_page_ram m); [exact Hpg|lia|unfold PGSIZE; lia].
  - destruct Hpg as (_ & Hge & _). lia.
  - split; [exact Hl'|exact Hsp'|..].
    + intros va. rewrite Htr', Htr2. unfold s1. now rewrite translate_freelist.
    + intros va E.
      assert (user_at s' root va = Some (m + va mod PGSIZE)) as Hu.
      { unfold user_at. rewrite Htr', decide_True by exact E. cbn [mbind option_bind].
        rewrite user_perm_U, (leaf_pa Hpos m user_perm Hpg user_perm_range). reflexivity. }
      split; [exact Hu|]. unfold user_byte. rewrite Hu, (Hb va _ Hu).
      pose proof (Z.mod_pos_bound va PGSIZE ltac:(easy)). unfold s2. rewrite written_byte by (exact Hbs || lia).
      do 2 f_equal. lia.
    + intros va E.
      assert (user_at s' root va = user_at s root va) as Hu.
      { unfold user_at. rewrite Htr', decide_False, Htr2 by exact E. unfold s1. now rewrite translate_freelist. }
      split; [exact Hu|]. unfold user_byte. destruct (user_at s root va) as [p|] eqn:Eu; rewrite Hu; [|reflexivity].
      rewrite (Hb va p Hu). apply (written_same m bs s1 Hbs).
      destruct (user_at_page s root _ va p Hsp Eu) as (pte & Et & HU & -> & Hpp).
      pose proof (Z.mod_pos_bound va PGSIZE ltac:(easy)).
      destruct (pages_apart m (PTE_PA pte) Hpg Hpp); [|unfold PGSIZE in *; lia..].
      intros Em'. destruct (sp_page _ _ _ Hsp va pte Et HU) as (_ & Hn & _). apply Hn. rewrite <- Em'. left.
    + intros q b Hq Hqb. destruct (Hnew q b Hq Hqb) as [Hold|Hin]; [left|now right].
      rewrite Ht2 in Hold by exact Hq. unfold s1 in Hold. now rewrite table_freelist in Hold.
    + exact Hsub.
    + intros k Hk. rewrite Hsame by tauto. apply (written_same m bs s1 Hbs). tauto.
    + rewrite Hrest. reflexivity.
Qed.

Lemma in_range_one a va : in_range a 1 va <-> vpn va = vpn a.
Proof.
  split.
  - intros (k & Hk & E). replace k with 0 in E by lia. now rewrite Z.mul_0_l, Z.add_0_r in E.
  - intros E. exists 0. split; [lia|]. now rewrite Z.mul_0_l, Z.add_0_r.
Qed.

Lemma grow_page m l s root a :
  pages (m :: l) s -> space_ok s root (m :: l) -> (missing s root a <= length l)%nat ->
  exists s1 s2 s', alloc_page s = Ok m s1 /\ zero_page m s1 = Ok tt s2 /\ map_page root a m user_perm s2 = Ok 0 s' /\
    m <> 0 /\ extended s root a 1 (drop (missing s root a) l) s'.
Proof.
  intros Hl Hsp Hmiss.
  destruct (fill_page m l s root a (replicate (Z.to_nat PGSIZE) 0)) as (nxt & s2 & s' & Ha & Hz & Hmap & Hm0 & Hfl);
    [now rewrite length_replicate|exact Hl|exact Hsp|exact Hmiss|].
  exists (set_ks_freelist nxt s), s2, s'. split; [exact Ha|]. split; [exact Hz|]. split; [exact Hmap|]. split; [exact Hm0|].
  destruct Hfl as [F1 F2 F3 F4 F5 _ _ _ F9]. split; [exact F1|exact F2| | |exact F9].
  - intros va E%in_range_one. destruct (F4 va E) as [Hu ->]. split; [eauto|].
    rewrite nth_lookup. destruct (replicate _ 0 !! _) as [x|] eqn:Ex; [|reflexivity]. now apply lookup_replicate_1 in Ex as [-> _].
  - intros va E. apply F5. now rewrite <- in_range_one.
Qed.

(** ** The loop *)

Lemma in_range_cons a n va : in_range a (S n) va <-> in_range a 1 va \/ in_range (a + PGSIZE) n va.
Proof.
  split.
  - intros (k & Hk & E). destruct (decide (k = 0)) as [->|Hne]; [left; exists 0; split; [lia|exact E]|right].
    exists (k - 1). split; [lia|]. rewrite E. f_equal. lia.
  - intros [(k & Hk & E)|(k & Hk & E)]; [exists k; split; [lia|exact E]|].
    exists (k + 1). split; [lia|]. rewrite E. f_equal. lia.
Qed.

Lemma in_range_dec a n va : in_range a n va \/ ~ in_range a n va.
Proof.
  destruct (existsb (fun k => bool_decide (vpn va = vpn (a + k * PGSIZE))) (upto (Z.of_nat n))) eqn:E.
  - left. apply existsb_exists in E as (k & Hk & Ek%bool_decide_eq_true). exists k.
    split; [|exact Ek]. now apply list_elem_of_In, elem_of_upto in Hk.
  - right. intros (k & Hk & Ek). apply not_true_iff_false in E. apply E. apply existsb_exists. exists k.
    split; [now apply list_elem_of_In, elem_of_upto|now apply bool_decide_eq_true].
Qed.

Lemma extended_nothing s root a l : pages l s -> space_ok s root l -> extended s root a 0 l s.
Proof.
  intros Hl Hsp. split; [exact Hl|exact Hsp|intros va (k & Hk & _); lia|auto|now destruct s].
Qed.

Lemma extended_cons s root a n l1 s1 l2 s2 :
  extended s root a 1 l1 s1 -> extended s1 root (a + PGSIZE) n l2 s2 -> extended s root a (S n) l2 s2.
Proof.
  intros [P1 S1 N1 O1 R1] [P2 S2 N2 O2 R2]. split; [exact P2|exact S2|..].
  - intros va Hva. destruct (in_range_dec (a + PGSIZE) n va) as [Hr|Hr]; [now apply N2|].
    apply in_range_cons in Hva as [Hva|Hva]; [|contradiction].
    destruct (O2 va Hr) as [-> ->]. now apply N1.
  - intros va Hva. rewrite in_range_cons in Hva.
    destruct (O2 va) as [-> ->]; [tauto|]. apply O1. tauto.
  - etransitivity; [exact R2|]. rewrite R1. reflexivity.
Qed.

Lemma missing_two s root va : (missing s root va <= 2)%nat.
Proof. unfold missing. repeat case_match; lia. Qed.

Lemma sbrk_loop_run root n : forall fuel a newsz l s,
  pages l s -> space_ok s root l -> (3 * n <= length l)%nat -> (n <= fuel)%nat ->
  0 <= a -> newsz <= a + Z.of_nat n * PGSIZE < newsz + PGSIZE -> newsz < 2 ^ 63 ->
  exists l' s', sbrk_loop fuel root a newsz s = Ok None s' /\ extended s root a n l' s'.
Proof.
  induction n as [|n IH]; intros fuel a newsz l s Hl Hsp Hfree Hfuel Ha Hn Hsz.
  - exists l, s. split; [|now apply extended_nothing].
    destruct fuel; cbn [sbrk_loop]; rewrite (proj2 (Z.ltb_ge a newsz)) by lia; reflexivity.
  - destruct fuel as [|fuel]; [lia|]. cbn [sbrk_loop].
    assert (a < newsz) as Hlt by (unfold PGSIZE in *; lia). rewrite (proj2 (Z.ltb_lt a newsz)) by exact Hlt.
    destruct l as [|m l]; [cbn in Hfree; lia|]. pose proof (missing_two s root a) as Hm2. cbn [length] in Hfree.
    destruct (grow_page m l s root a Hl Hsp ltac:(lia)) as (s1 & s2 & s3 & Ha1 & Hz & Hmap & Hm0 & Hex).
    destruct (IH fuel (a + PGSIZE) newsz _ s3 (ex_pages _ _ _ _ _ _ Hex) (ex_space _ _ _ _ _ _ Hex))
      as (l' & s' & Hloop & Hex2); [rewrite length_drop; lia|lia|unfold PGSIZE; lia|unfold PGSIZE in *; lia|exact Hsz|].
    exists l', s'. split; [|eapply extended_cons; eassumption].
    rewrite (bind_Ok _ _ _ _ _ Ha1), (proj2 (Z.eqb_neq _ _) Hm0), (bind_Ok _ _ _ _ _ Hz), (bind_Ok _ _ _ _ _ Hmap).
    change (0 <? 0) with false. cbv iota. rewrite (u64_id (a + PGSIZE)) by (unfold PGSIZE in *; lia). exact Hloop.
Qed.
End growth.

(** ** Theorem *)

(** Two pages below 2^39 with the same indices are the same. *)
Lemma vpn_page va va' : 0 <= va < 2 ^ 39 -> 0 <= va' < 2 ^ 39 -> vpn va = vpn va' -> va / PGSIZE = va' / PGSIZE.
Proof.
  intros Hv Hv' E. unfold vpn, vpath in E. injection E as E3 E4 E5.
  pose proof (vpn_split va) as H1. pose proof (vpn_split va') as H2. rewrite E3, E4, E5 in H1.
  rewrite Z.mod_small in H1, H2 by lia. change (2 ^ 12) with PGSIZE in *. unfold PGSIZE in *.
  assert (va - va mod 4096 = va' - va' mod 4096) as Ev by lia. clear - Ev. mlia.
Qed.

Lemma sbrk_shrinks `{Symbols} s i p n :
  ks_current s = Some i -> ks_proc s !! i = Some p -> n <= 0 ->
  sbrk n s = Ok (p_sz p) (upd_ks_proc (alter (set_p_sz (u64 (p_sz p + n))) i) s).
Proof.
  intros Hcur Hp Hn. unfold sbrk, myproc, gets at 1, bind at 1. cbn [obind]. rewrite Hcur.
  cbn [of_opt]. unfold bind at 1. unfold ret at 1. cbn [obind].
  rewrite (bind_Ok _ _ _ _ _ (getproc_run _ _ _ Hp)).
  rewrite (proj2 (Z.ltb_ge 0 n)) by lia.
  assert ((u64 (p_sz p + n) <? 0) = false) as -> by (apply Z.ltb_ge, u64_range).
  rewrite andb_false_r. now rewrite (bind_Ok _ _ _ _ _ (modproc_run _ _ _ _ Hp)).
Qed.

Lemma sbrk_exhausted `{Symbols} pages `{!PageAllocator pages} s i p n :
  ks_current s = Some i -> ks_proc s !! i = Some p -> 0 < n < 2 ^ 31 -> 0 <= p_sz p < 2 ^ 31 ->
  PGGROUNDUP (p_sz p) < p_sz p + n -> pages [] s -> sbrk n s = Ok (2 ^ 64 - 1) s.
Proof.
  intros Hcur Hp Hn Hsz Hlt Hl. unfold sbrk, myproc, gets at 1, bind at 1. cbn [obind]. rewrite Hcur.
  cbn [of_opt]. unfold bind at 1. unfold ret at 1. cbn [obind].
  rewrite (bind_Ok _ _ _ _ _ (getproc_run _ _ _ Hp)).
  rewrite (proj2 (Z.ltb_lt 0 n)), u64_id by lia.
  replace (Z.to_nat (n / PGSIZE + 1)) with (S (Z.to_nat (n / PGSIZE))) by (unfold PGSIZE; mlia).
  cbn [sbrk_loop]. rewrite (proj2 (Z.ltb_lt _ _) Hlt). unfold bind at 1. unfold bind at 1.
  now rewrite (pages_empty _ Hl).
Qed.

(** C27: bounds.  [sbrk n] with [n > 0] returns the old size, adds [n] to the size
    and maps zeroed pages from the next page boundary up to the new size, leaving
    the memory below that boundary as it was; without a free page it returns
    [(uint64_t)-1] and changes nothing.  With [n <= 0] it only adds [n] to the
    size in 64 bits: a decrement larger than the size wraps around to a size
    close to 2^64, as the test [newsz < 0] of an unsigned number never holds. *)
Theorem sbrk_grows `{Symbols} pages `{!PageAllocator pages} s i p n l :
  0 < mem_start -> ks_current s = Some i -> ks_proc s !! i = Some p ->
  0 <= p_sz p < 2 ^ 31 -> - 2 ^ 31 <= n < 2 ^ 31 ->
  let root := p_pagetable p in
  let a := PGGROUNDUP (p_sz p) in
  let newsz := p_sz p + n in
  pages l s -> space_ok s root l ->
  (0 < n -> (3 * Z.to_nat (n / PGSIZE + 1) <= length l)%nat ->
     exists s', sbrk n s = Ok (p_sz p) s' /\
       ks_proc s' = alter (set_p_sz newsz) i (ks_proc s) /\
       (forall va, a <= va < newsz -> is_Some (user_at s' root va) /\ user_byte s' root va = 0) /\
       (forall va, 0 <= va < a -> user_at s' root va = user_at s root va /\ user_byte s' root va = user_byte s root va)) /\
  (0 < n -> a < newsz -> l = [] -> sbrk n s = Ok (2 ^ 64 - 1) s) /\
  (n <= 0 -> exists s', sbrk n s = Ok (p_sz p) s' /\
     ks_proc s' = alter (set_p_sz (if newsz <? 0 then 2 ^ 64 + newsz else newsz)) i (ks_proc s) /\
     ks_mem s' = ks_mem s).
Proof.
  intros Hpos Hcur Hp Hsz Hn root a newsz Hl Hsp.
  assert (a = (p_sz p + 4095) / 4096 * 4096) as Ea.
  { unfold a, PGGROUNDUP. change (Z.land ?x (Z.lnot (PGSIZE - 1))) with (PGGROUNDDOWN x).
    rewrite pgground_down. unfold PGSIZE. rewrite u64_id by lia. mlia. }
  split; [|split].
  - intros Hpn Hfree. set (k := Z.to_nat ((newsz - a + 4095) / 4096)).
    assert (Z.of_nat k = (newsz - a + 4095) / 4096) as Ek by (unfold k, newsz in *; mlia).
    destruct (sbrk_loop_run Hpos pages root k (Z.to_nat (n / PGSIZE + 1)) a newsz l s Hl Hsp)
      as (l' & s' & Hloop & Hex).
    { assert (k <= Z.to_nat (n / PGSIZE + 1))%nat; [|lia]. unfold PGSIZE, newsz in *. mlia. }
    { unfold PGSIZE, newsz in *. mlia. }
    { mlia. }
    { unfold PGSIZE in *. rewrite Ek. mlia. }
    { unfold newsz. lia. }
    assert (ks_proc s' = ks_proc s) as Hps by (rewrite (ex_rest _ _ _ _ _ _ _ Hex); reflexivity).
    exists (upd_ks_proc (alter (set_p_sz newsz) i) s'). split; [|split; [fields; now rewrite Hps|split]].
    + unfold sbrk, myproc, gets at 1, bind at 1. cbn [obind]. rewrite Hcur.
      cbn [of_opt]. unfold bind at 1. unfold ret at 1. cbn [obind].
      rewrite (bind_Ok _ _ _ _ _ (getproc_run _ _ _ Hp)).
      rewrite (proj2 (Z.ltb_lt 0 n)), u64_id by (unfold newsz in *; lia). fold root a newsz.
      rewrite (bind_Ok _ _ _ _ _ Hloop). now rewrite (bind_Ok _ _ _ _ _ (modproc_run s' i _ p ltac:(now rewrite Hps))).
    + intros va Hva. apply (ex_new _ _ _ _ _ _ _ Hex). exists ((va - a) / PGSIZE).
      split; [unfold PGSIZE in *; mlia|]. unfold vpn, vpath.
      assert (va / 4096 = (a + (va - a) / PGSIZE * PGSIZE) / 4096) as E by (unfold PGSIZE; mlia).
      now rewrite (vpn_same _ _ 2 E), (vpn_same _ _ 1 E), (vpn_same _ _ 0 E) by lia.
    + intros va Hva. apply (ex_old _ _ _ _ _ _ _ Hex). intros (j & Hj & E).
      apply vpn_page in E; unfold PGSIZE, newsz in *; mlia.
  - intros Hpn Hlt ->. now apply (sbrk_exhausted pages s i p n).
  - intros Hneg. eexists. split; [exact (sbrk_shrinks s i p n Hcur Hp Hneg)|]. split; [|reflexivity]. fields.
    replace (if newsz <? 0 then 2 ^ 64 + newsz else newsz) with (u64 (p_sz p + n)); [reflexivity|].
    fold newsz. destruct (Z.ltb_spec newsz 0); unfold u64, newsz in *; mlia.
Qed.

(** A process with one page asks for 5000 bytes. *)
Definition demo_proc : proc := set_p_sz 4096 (set_p_pagetable demo_top zero_proc).
Definition with_proc (s : kstate) : kstate := set_ks_current (Some 0%nat) (set_ks_proc [demo_proc] s).

Lemma with_proc_space `{Symbols} pages `{!PageAllocator pages} root l s :
  pages l s -> space_ok s root l -> pages l (with_proc s) /\ space_ok (with_proc s) root l.
Proof.
  intros Hl Hsp. split.
  - eapply pages_frame; [exact Hl|reflexivity|reflexivity].
  - apply (space_same s _ root l (fun _ => False) Hsp); [intros k _; reflexivity|intros k []].
Qed.

Lemma sbrk_grows_witness :
  exists s', @sbrk demo_symbols 5000 (with_proc demo_user) = Ok 4096 s' /\
    ks_proc s' = [set_p_sz 9096 demo_proc] /\ user_byte s' demo_top 9095 = 0.
Proof.
  destruct demo_user_space as (Hl0 & Hsp0 & _).
  pose proof (@pmm_pages demo_symbols (Z.lt_le_incl _ _ demo_mem_start)) as HA.
  destruct (@with_proc_space demo_symbols _ HA demo_top _ demo_user Hl0 Hsp0) as [Hl Hsp].
  assert (3 * Z.to_nat (5000 / PGSIZE + 1) <= length (drop 4 (rev (@all_pages demo_symbols))))%nat as Hfree
    by (apply Nat.leb_le; vm_compute; reflexivity).
  destruct (@sbrk_grows demo_symbols _ HA (with_proc demo_user) 0 demo_proc 5000 _ demo_mem_start eq_refl eq_refl
    ltac:(split; [discriminate|reflexivity]) ltac:(split; [discriminate|reflexivity]) Hl Hsp) as (Hg & _ & _).
  destruct (Hg ltac:(reflexivity) Hfree) as (s' & Hrun & Hp & Hnew & _).
  exists s'. split; [exact Hrun|]. split; [exact Hp|].
  apply (Hnew 9095). split; [discriminate|reflexivity].
Defined.
