(* ===== verification/Forking.v ===== *)
(** * Copying a process: fork (kernel/proc.c)

    [fork] takes an unused slot of the process table, gives it a kernel stack, a
    page table and a trap frame ([alloc_process]), and copies the memory of the
    parent page by page.  Everything it writes lies in pages that were free: so
    the parent keeps its memory, and the child has a copy. *)
From S2P Require Import Prelude State Mem Pmm Vm UserMem Sched Proc Growth.

(** ** Specification *)

(** Address [k] is in one of the pages [L]. *)
Definition in_pages (L : list Z) (k : Z) : Prop := exists q, q ∈ L /\ q <= k < q + PGSIZE.

(** Page [t] belongs to the kernel: it is neither free nor a table or a user page
    of [root]. *)
Record reserved (s : kstate) (root : Z) (l : list Z) (t : Z) : Prop := {
  rv_free : t ∉ l;
  rv_table : forall q, path q -> table s root q <> Some t;
  rv_user : forall v pte, translate s root v = Some pte -> has pte PTE_U = true -> PTE_PA pte <> t }.

Section forking.
Context `{Symbols} (Hpos : 0 < mem_start) (pages : list Z -> kstate -> Prop) `{!PageAllocator pages}.
Let Hm : 0 <= mem_start := Z.lt_le_incl _ _ Hpos.

(** The child's address space [C] while the pages of the parent's, [P], below [va]
    have been copied.  [b] is the state before with the process table of now, [L]
    the pages that were free. *)
Record copying (b : kstate) (P C : Z) (L T : list Z) (va : Z) (l : list Z) (s : kstate) : Prop := {
  cp_pages : pages l s;
  cp_sub : forall q, q ∈ l -> q ∈ L;
  cp_space : space_ok s C l;
  cp_tables : forall q a, path q -> table s C q = Some a -> a ∈ L;
  cp_user : forall v pte, translate s C v = Some pte -> has pte PTE_U = true -> PTE_PA pte ∈ L;
  cp_same : same_bytes (in_pages L) b s;
  cp_done : forall v, 0 <= v < va ->
    (is_Some (user_at s C v) <-> is_Some (user_at b P v)) /\ user_byte s C v = user_byte b P v;
  cp_todo : forall v, va <= v < TRAPFRAME -> translate s C v = None;
  cp_kernel : forall t, t ∈ T -> reserved s C l t;
  cp_rest : s = set_ks_mem (ks_mem s) (set_ks_freelist (ks_freelist s) b) }.

(** ** The parent *)

Lemma not_in_pages L k q : Forall is_page L -> is_page q -> q ∉ L -> q <= k < q + PGSIZE -> ~ in_pages L k.
Proof.
  intros HL Hq Hn Hk (m & Hmm & Hin). rewrite Forall_forall in HL.
  destruct (pages_apart m q (HL m Hmm) Hq); [intros ->; contradiction|lia..].
Qed.

(** What is written to free pages does not matter to an address space. *)
Lemma space_kept s s' P L :
  space_ok s P L -> Forall is_page L -> same_bytes (in_pages L) s s' ->
  space_ok s' P L /\ (forall q, path q -> table s' P q = table s P q) /\
  (forall v, translate s' P v = translate s P v) /\
  (forall v, user_at s' P v = user_at s P v /\ user_byte s' P v = user_byte s P v).
Proof.
  intros Hsp HL Hs.
  assert (forall k, in_pages L k -> ~ in_tables s P k) as Hnt.
  { intros k Hk (q & a & Hq & Ha & Hin). destruct (pw_page _ _ _ (sp_wf _ _ _ Hsp) q a Hq Ha) as [Hpa Hna].
    exact (not_in_pages L k a HL Hpa Hna Hin Hk). }
  destruct (same_tables s s' P L _ (sp_wf _ _ _ Hsp) Hs Hnt) as [Ht Htr].
  split; [exact (space_same s s' P L _ Hsp Hs Hnt)|]. split; [exact Ht|]. split; [exact Htr|].
  intros v. pose proof (user_at_same s s' P Htr v) as Hu. split; [exact Hu|]. unfold user_byte. rewrite Hu.
  destruct (user_at s P v) as [a|] eqn:Ea; [|reflexivity]. apply Hs.
  destruct (user_at_page s P L v a Hsp Ea) as (pte & Et & HU & -> & Hpp).
  destruct (sp_page _ _ _ Hsp v pte Et HU) as (_ & Hn & _). pose proof (Z.mod_pos_bound v PGSIZE ltac:(easy)).
  apply (not_in_pages L _ (PTE_PA pte) HL Hpp Hn). lia.
Qed.

(** The entry of a page, as the loop of [fork] tests it. *)
Lemma page_test s root l va :
  pt_wf s root l ->
  exists pte, walk_lookup root va s = Ok pte s /\
    (v <- (if pte =? 0 then ret 0 else load64 pte);;
     ret ((pte =? 0) || negb (has v PTE_V))) s = Ok (bool_decide (translate s root va = None)) s /\
    forall v nxt, translate s root va = Some v -> load64 pte (set_ks_freelist nxt s) = Ok v (set_ks_freelist nxt s).
Proof.
  intros Hwf. pose proof (walk_lookup_run Hm s root va l Hwf) as Hw. unfold translate.
  destruct (table s root (vpath va)) as [a|] eqn:Ea; cbn [mbind option_bind].
  - destruct (pw_page _ _ _ Hwf _ _ (vpath_path va) Ea) as [Hpa _].
    exists (a + 8 * VPN_MASK va 0). split; [exact Hw|].
    pose proof (vpn_range va 0) as Hi. pose proof (load64_run _ s (entry_ram a _ Hpa Hi)) as Hload.
    destruct (Z.eqb_spec (a + 8 * VPN_MASK va 0) 0) as [E|_]; [destruct Hpa as (_ & H1 & _); lia|].
    split.
    + rewrite (bind_Ok _ _ _ _ _ Hload). unfold ret. do 2 f_equal. unfold pte_at.
      destruct (has _ PTE_V); cbn [orb negb]; [now rewrite bool_decide_false|now rewrite bool_decide_true].
    + intros v nxt Hv. rewrite (load64_run _ _ (entry_ram a _ Hpa Hi)). unfold pte_at in Hv.
      destruct (has _ PTE_V); [|discriminate]. injection Hv as <-. reflexivity.
  - exists 0. split; [exact Hw|]. split; [reflexivity|discriminate].
Qed.

(** ** One page *)

Lemma page_vpn va v : va mod PGSIZE = 0 -> 0 <= va < 2 ^ 39 -> 0 <= v < 2 ^ 39 -> vpn v = vpn va <-> va <= v < va + PGSIZE.
Proof.
  intros Hal Hva Hv. split.
  - intros E. apply vpn_page in E; [|assumption..]. unfold PGSIZE in *. mlia.
  - intros Hr. assert (v / 4096 = va / 4096) as E by (unfold PGSIZE in *; mlia).
    unfold vpn, vpath. now rewrite (vpn_same _ _ 2 E), (vpn_same _ _ 1 E), (vpn_same _ _ 0 E) by lia.
Qed.

(** The page is not there in the parent. *)
Lemma copying_skip b P C L T va l s :
  va mod PGSIZE = 0 -> 0 <= va -> va + PGSIZE <= TRAPFRAME -> translate b P va = None ->
  copying b P C L T va l s -> copying b P C L T (va + PGSIZE) l s.
Proof.
  intros Hal Hva Hend Hn [C1 C2 C3 C4 C4' C5 C6 C7 C8 C9].
  assert (forall v, va <= v < va + PGSIZE -> translate b P v = None) as Hnone.
  { intros v Hv. rewrite (translate_same b P v va), Hn by (unfold PGSIZE in *; mlia). reflexivity. }
  split; try assumption.
  - intros v Hv. destruct (decide (v < va)) as [Hlt|Hge]; [apply C6; lia|].
    assert (user_at s C v = None) as E1 by (unfold user_at; rewrite C7 by lia; reflexivity).
    assert (user_at b P v = None) as E2 by (unfold user_at; rewrite Hnone by lia; reflexivity).
    unfold user_byte. rewrite E1, E2. split; [reflexivity|reflexivity].
  - intros v Hv. apply C7. unfold PGSIZE in *. lia.
Qed.

Lemma reserved_filled s root a m bs l l' s' t :
  filled pages s root a m bs l l' s' -> is_page m -> reserved s root (m :: l) t -> reserved s' root l' t.
Proof.
  intros [F1 F2 F3 F4 F5 F6 F7 F8 F9] Hpg [R1 R2 R3]. split.
  - intros Hin. apply R1. right. now apply F7.
  - intros q Hq E. destruct (F6 q t Hq E) as [E'|Hin]; [exact (R2 q Hq E')|]. apply R1. now right.
  - intros v pte. rewrite F3. case_decide; [|apply R3]. intros [= <-] _.
    rewrite (leaf_pa Hpos m user_perm Hpg user_perm_range). intros ->. apply R1. left.
Qed.

(** The page is copied into the free page [m]. *)
Lemma copying_fill b P C L T va m l l' s s' v :
  va mod PGSIZE = 0 -> 0 <= va -> va + PGSIZE <= TRAPFRAME -> Forall is_page L -> space_ok b P L ->
  translate b P va = Some v -> has v PTE_U = true ->
  copying b P C L T va (m :: l) s -> filled pages s C va m (bytes s (PTE_PA v) PGSIZE) l l' s' ->
  copying b P C L T (va + PGSIZE) l' s'.
Proof.
  intros Hal Hva Hend HL HP Hv HU [C1 C2 C3 C4 C4' C5 C6 C7 C8 C9] Hfl.
  pose proof (C2 m (list_elem_of_here _ _)) as HmL. pose proof (proj1 (Forall_forall _ _) HL m HmL) as Hpm.
  pose proof (fun t Ht => reserved_filled _ _ _ _ _ _ _ _ t Hfl Hpm (C8 t Ht)) as Hres.
  destruct Hfl as [F1 F2 F3 F4 F5 F6 F7 F8 F9].
  assert (forall q, q ∈ l -> q ∈ L) as Hsub by (intros q Hq; apply C2; now right).
  change TRAPFRAME with 274877898752 in *.
  destruct (space_kept b s P L HP HL C5) as (_ & _ & _ & Hkept).
  split; [exact F1|auto|exact F2|..].
  - intros q a Hq Ha. destruct (F6 q a Hq Ha); eauto.
  - intros w pte. rewrite F3. case_decide; [|apply C4']. intros [= <-] _.
    now rewrite (leaf_pa Hpos m user_perm Hpm user_perm_range).
  - intros k Hk. rewrite F8; [now apply C5|]. intros [(q & a & Hq & Ha & Hin)|Hin]; apply Hk; [|now exists m].
    exists a. split; [|exact Hin]. destruct (F6 q a Hq Ha); eauto.
  - intros w Hw. destruct (decide (w < va)) as [Hlt|Hge].
    + destruct (F5 w) as [E1 E2]; [rewrite page_vpn by (unfold PGSIZE in *; lia); lia|]. rewrite E1, E2. apply C6. lia.
    + assert (vpn w = vpn va) as Ew by (apply page_vpn; unfold PGSIZE in *; lia).
      destruct (F4 w Ew) as [E1 E2]. rewrite E1, E2.
      assert (user_at b P w = Some (PTE_PA v + w mod PGSIZE)) as Eu.
      { unfold user_at. rewrite (translate_same b P w va), Hv by (unfold PGSIZE in *; mlia). cbn [mbind option_bind]. now rewrite HU. }
      rewrite Eu. split; [split; intros _; eauto|]. destruct (Hkept w) as [Eu' Eb'].
      rewrite <- Eb'. unfold user_byte. rewrite Eu', Eu.
      pose proof (Z.mod_pos_bound w PGSIZE ltac:(easy)). rewrite nth_lookup, lookup_bytes, Z2Nat.id, decide_True by lia. reflexivity.
  - intros w Hw. change TRAPFRAME with 274877898752 in Hw. rewrite F3, decide_False; [apply C7; unfold PGSIZE in *; lia|].
    rewrite page_vpn by (unfold PGSIZE in *; lia). lia.
  - exact Hres.
  - rewrite F9, C9. reflexivity.
Qed.

Lemma store_bytes_Ok a bs s s' : store_bytes a bs s = Ok tt s' -> s' = upd_ks_mem (put_bytes a bs) s.
Proof. unfold store_bytes. destruct (in_ram _ _); [|discriminate]. unfold modify. intros E. now injection E. Qed.

Lemma fork_page_run b P C L T va l s p np pr npr :
  va mod PGSIZE = 0 -> 0 <= va -> va + PGSIZE <= TRAPFRAME -> Forall is_page L -> space_ok b P L ->
  (forall v, translate b P va = Some v -> has v PTE_U = true) ->
  ks_proc b !! p = Some pr -> p_pagetable pr = P -> ks_proc b !! np = Some npr -> p_pagetable npr = C ->
  copying b P C L T va l s -> (3 <= length l)%nat ->
  exists l' s', fork_page p np va s = Ok None s' /\ copying b P C L T (va + PGSIZE) l' s' /\ (length l <= length l' + 3)%nat.
Proof.
  intros Hal Hva Hend HL HP Huser Hp EP Hnp EC Hc Hfree.
  assert (forall s', s' = set_ks_mem (ks_mem s') (set_ks_freelist (ks_freelist s') b) -> ks_proc s' = ks_proc b) as Hprocs
    by (intros s' ->; reflexivity).
  pose proof (Hprocs _ (cp_rest _ _ _ _ _ _ _ _ Hc)) as Eps.
  destruct (space_kept b s P L HP HL (cp_same _ _ _ _ _ _ _ _ Hc)) as (HPs & _ & Htr & _).
  destruct (page_test s P L va (sp_wf _ _ _ HPs)) as (pte & Hw & Hb & Hload).
  destruct (bind_Ok_inv _ _ _ _ _ Hb) as (v0 & s0 & Hv0 & Hret). unfold ret in Hret. injection Hret as Ebool Es0. subst s0.
  unfold fork_page. rewrite (bind_Ok _ _ _ _ _ (getproc_run s p pr ltac:(now rewrite Eps))), EP, (bind_Ok _ _ _ _ _ Hw).
  rewrite (bind_Ok _ _ _ _ _ Hv0), Ebool.
  destruct (translate s P va) as [v|] eqn:Et; rewrite Htr in Et.
  2: { rewrite bool_decide_true by reflexivity. exists l, s. split; [reflexivity|]. split; [now apply copying_skip|lia]. }
  rewrite bool_decide_false by discriminate. destruct l as [|m l]; [cbn in Hfree; lia|]. cbn [length] in *.
  pose proof (missing_two s C va) as Hm2.
  destruct (fill_page Hpos pages m l s C va (bytes s (PTE_PA v) PGSIZE)) as (nxt & s2 & s' & Ha & Hst & Hmap & Hm0 & Hfl);
    [rewrite length_bytes; reflexivity|apply Hc|apply Hc|lia|].
  exists (drop (missing s C va) l), s'. split; [|split; [|rewrite length_drop; lia]].
  2: { eapply copying_fill; [exact Hal|exact Hva|exact Hend|exact HL|exact HP|exact Et|exact (Huser v Et)|exact Hc|exact Hfl]. }
  rewrite (bind_Ok _ _ _ _ _ Ha), (proj2 (Z.eqb_neq _ _) Hm0), (bind_Ok _ _ _ _ _ (Hload v nxt eq_refl)).
  destruct (sp_page _ _ _ HP va v Et (Huser v Et)) as (Hpv & _).
  assert (in_ram (PTE_PA v) PGSIZE = true) as Hram by (apply (is_page_ram (PTE_PA v)); [exact Hpv|lia|lia]).
  rewrite (bind_Ok _ _ _ _ _ (load_bytes_run (PTE_PA v) PGSIZE _ Hram)).
  change (bytes (set_ks_freelist nxt s)) with (bytes s). rewrite (bind_Ok _ _ _ _ _ Hst).
  assert (ks_proc s2 = ks_proc b) as Eps2.
  { rewrite (store_bytes_Ok _ _ _ _ Hst). exact Eps. }
  rewrite (bind_Ok _ _ _ _ _ (getproc_run s2 np npr ltac:(now rewrite Eps2))), EC, (bind_Ok _ _ _ _ _ Hmap). reflexivity.
Qed.

(** ** The loop *)

Lemma fork_pages_run b P C L T p np pr npr n :
  Forall is_page L -> space_ok b P L -> 0 <= p_sz pr <= TRAPFRAME ->
  (forall va v, 0 <= va < p_sz pr -> translate b P va = Some v -> has v PTE_U = true) ->
  ks_proc b !! p = Some pr -> p_pagetable pr = P -> ks_proc b !! np = Some npr -> p_pagetable npr = C ->
  forall fuel va l s,
  va mod PGSIZE = 0 -> 0 <= va -> p_sz pr <= va + Z.of_nat n * PGSIZE < p_sz pr + PGSIZE ->
  copying b P C L T va l s -> (3 * n <= length l)%nat -> (n <= fuel)%nat ->
  exists l' s', fork_pages fuel p np va s = Ok None s' /\ copying b P C L T (va + Z.of_nat n * PGSIZE) l' s'.
Proof.
  intros HL HP Hsz Huser Hp EP Hnp EC. change TRAPFRAME with 274877898752 in Hsz.
  assert (forall fuel va l s, copying b P C L T va l s -> p_sz pr <= va ->
    fork_pages fuel p np va s = Ok None s) as Hend.
  { intros fuel va l s Hc Hge. pose proof (cp_rest _ _ _ _ _ _ _ _ Hc) as Er.
    assert (ks_proc s !! p = Some pr) as Hps by (rewrite Er; exact Hp).
    destruct fuel; cbn [fork_pages]; rewrite (bind_Ok _ _ _ _ _ (getproc_run _ _ _ Hps)), (proj2 (Z.ltb_ge _ _)) by lia; reflexivity. }
  induction n as [|n IH]; intros fuel va l s Hal Hva Hr Hc Hfree Hfuel.
  - exists l, s. rewrite Z.mul_0_l, Z.add_0_r in *. split; [apply (Hend _ _ _ _ Hc); lia|exact Hc].
  - destruct fuel as [|fuel]; [lia|]. pose proof (cp_rest _ _ _ _ _ _ _ _ Hc) as Er.
    assert (ks_proc s !! p = Some pr) as Hps by (rewrite Er; exact Hp).
    assert (va < p_sz pr) as Hlt by (unfold PGSIZE in *; lia).
    destruct (fork_page_run b P C L T va l s p np pr npr Hal Hva) as (l1 & s1 & Hrun & Hc1 & Hl1);
      [change TRAPFRAME with 274877898752; unfold PGSIZE in *; mlia|exact HL|exact HP|intros v; apply Huser; lia|
       exact Hp|exact EP|exact Hnp|exact EC|exact Hc|lia|].
    destruct (IH fuel (va + PGSIZE) l1 s1) as (l2 & s2 & Hloop & Hc2);
      [unfold PGSIZE in *; mlia|unfold PGSIZE; lia|unfold PGSIZE in *; lia|exact Hc1|lia|lia|].
    exists l2, s2. cbn [fork_pages]. rewrite (bind_Ok _ _ _ _ _ (getproc_run _ _ _ Hps)), (proj2 (Z.ltb_lt _ _)) by lia.
    rewrite (bind_Ok _ _ _ _ _ Hrun), u64_id by (unfold PGSIZE in *; lia). split; [exact Hloop|].
    replace (va + Z.of_nat (S n) * PGSIZE) with (va + PGSIZE + Z.of_nat n * PGSIZE) by lia. exact Hc2.
Qed.

(** ** The new slot *)

(** Slot [np] holds the process [c], and the memory is [m] with the free list [fl]. *)
Definition at_slot (s : kstate) (np : nat) (c : proc) (m : gmap Z Z) (fl : Z) : kstate :=
  set_ks_mem m (set_ks_freelist fl (set_ks_proc (<[np := c]> (ks_proc s)) (upd_ks_nextpid (fun n => i32 (n + 1)) s))).

Lemma alter_insert (f : proc -> proc) (i : nat) (c : proc) (l : list proc) : alter f i (<[i := c]> l) = <[i := f c]> l.
Proof. revert i. induction l as [|x l IH]; intros [|i]; cbn; [reflexivity..|]. f_equal. apply IH. Qed.

Lemma at_slot_mod s np c m fl f : (np < length (ks_proc s))%nat ->
  modproc np f (at_slot s np c m fl) = Ok tt (at_slot s np (f c) m fl).
Proof.
  intros Hnp. rewrite (modproc_run _ np f c) by (unfold at_slot; fields; now apply list_lookup_insert_eq).
  unfold at_slot, upd_ks_proc. fields. now rewrite alter_insert.
Qed.

(** What the memory of such a state shows. *)
Lemma at_slot_byte s np c m fl s2 a : byte (at_slot s np c m fl) a = byte (set_ks_mem m s2) a.
Proof. reflexivity. Qed.

Lemma at_slot_bytes s np c fl s2 a n : bytes (at_slot s np c (ks_mem s2) fl) a n = bytes s2 a n.
Proof. reflexivity. Qed.

Lemma at_slot_fields s np c m fl : ks_mem (at_slot s np c m fl) = m /\ ks_freelist (at_slot s np c m fl) = fl.
Proof. split; reflexivity. Qed.

Lemma at_slot_pages s np c c' m fl l : pages l (at_slot s np c m fl) -> pages l (at_slot s np c' m fl).
Proof. intros Hl. eapply pages_frame; [exact Hl|reflexivity|reflexivity]. Qed.

Lemma at_slot_alloc s np c m fl p l : pages (p :: l) (at_slot s np c m fl) ->
  exists fl', alloc_page (at_slot s np c m fl) = Ok p (at_slot s np c m fl') /\ pages l (at_slot s np c m fl').
Proof. intros Hl. destruct (pages_alloc _ _ _ Hl) as (fl' & Ha & Hl'). exists fl'. split; [exact Ha|exact Hl']. Qed.

Lemma at_slot_rest s np c m fl s' :
  s' = set_ks_mem (ks_mem s') (set_ks_freelist (ks_freelist s') (at_slot s np c m fl)) ->
  s' = at_slot s np c (ks_mem s') (ks_freelist s').
Proof. intros ->. reflexivity. Qed.

(** Page tables live in the memory. *)
Lemma translate_mem s s' root v : ks_mem s' = ks_mem s -> translate s' root v = translate s root v.
Proof.
  intros Em. unfold translate. rewrite (table_mem s s') by exact Em. destruct (table s root _) as [a|]; [|reflexivity].
  cbn [mbind option_bind]. replace (pte_at s' a (VPN_MASK v 0)) with (pte_at s a (VPN_MASK v 0)); [reflexivity|].
  symmetry. apply word_ext. intros k _. unfold byte. now rewrite Em.
Qed.

Lemma pt_wf_mem s s' root l : ks_mem s' = ks_mem s -> pt_wf s root l -> pt_wf s' root l.
Proof.
  intros Em [H1 H2]. split.
  - intros q a. rewrite (table_mem s s') by exact Em. apply H1.
  - intros q r a. rewrite !(table_mem s s') by exact Em. apply H2.
Qed.

Lemma pt_wf_sub s root l l' : (forall q, q ∈ l' -> q ∈ l) -> pt_wf s root l -> pt_wf s root l'.
Proof. intros Hsub [H1 H2]. split; [|exact H2]. intros q a Hq Ha. destruct (H1 q a Hq Ha). auto. Qed.

(** The entries of the kernel are not for the user. *)
Lemma leaf_kernel pa perm : 0 <= perm < 2 ^ 10 -> Z.testbit perm 4 = false -> has (leaf pa perm) PTE_U = false.
Proof.
  intros Hp Hb. unfold has. rewrite negb_false_iff, Z.eqb_eq. change PTE_U with (2 ^ 4). apply Z.bits_inj'. intros k Hk.
  rewrite Z.land_spec, Z.pow2_bits_eqb, Z.bits_0 by lia. destruct (Z.eqb_spec 4 k) as [<-|]; [|apply andb_false_r].
  rewrite andb_true_r. unfold leaf, PA_PTE. rewrite !Z.lor_spec. change (Z.testbit PTE_V 4) with false.
  unfold u64. rewrite !Z.mod_pow2_bits_low by lia. rewrite Z.shiftl_spec_low by lia. now rewrite Hb.
Qed.

(** A page table with entries for the kernel alone. *)
Lemma space_kernel s root l :
  pt_wf s root l -> (forall v pte, translate s root v = Some pte -> has pte PTE_U = false) -> space_ok s root l.
Proof. intros Hwf Hk. split; [exact Hwf|..]; intros *; intros Ht; intros *; specialize (Hk _ _ Ht); congruence. Qed.

(** The entries of the trampoline and of the trap frame, in a new page table. *)
Lemma kernel_maps s t f l :
  pages l s -> pt_wf s t l -> (forall v, translate s t v = None) -> (forall q a, path q -> table s t q = Some a -> a = t) ->
  (4 <= length l)%nat ->
  exists s1 s2 l', map_page t TRAMPOLINE sym_trampoline (Z.lor PTE_R PTE_X) s = Ok 0 s1 /\
    map_page t TRAPFRAME f (Z.lor PTE_R PTE_W) s1 = Ok 0 s2 /\
    pages l' s2 /\ space_ok s2 t l' /\ (forall q, q ∈ l' -> q ∈ l) /\ (length l <= length l' + 4)%nat /\
    (forall q a, path q -> table s2 t q = Some a -> a = t \/ a ∈ l) /\
    (forall v pte, translate s2 t v = Some pte -> has pte PTE_U = false) /\
    (forall v, 0 <= v < TRAPFRAME -> translate s2 t v = None) /\
    same_bytes (in_pages (t :: l)) s s2 /\ s2 = set_ks_mem (ks_mem s2) (set_ks_freelist (ks_freelist s2) s).
Proof.
  intros Hl Hwf Hnone Hroot Hlen. pose proof (missing_two s t TRAMPOLINE) as M1.
  destruct (map_page_spec pages Hm Hpos t TRAMPOLINE sym_trampoline (Z.lor PTE_R PTE_X) l s Hl Hwf ltac:(lia))
    as (s1 & Hrun1 & [A1 A2 A3 A4 A5 A6 A7]). set (l1 := drop _ l) in *.
  assert (length l <= length l1 + 2)%nat as Hl1 by (unfold l1; rewrite length_drop; lia).
  pose proof (missing_two s1 t TRAPFRAME) as M2.
  destruct (map_page_spec pages Hm Hpos t TRAPFRAME f (Z.lor PTE_R PTE_W) l1 s1 A1 A2 ltac:(lia))
    as (s2 & Hrun2 & [B1 B2 B3 B4 B5 B6 B7]). set (l2 := drop _ l1) in *.
  assert (length l1 <= length l2 + 2)%nat as Hl2 by (unfold l2; rewrite length_drop; lia).
  assert (forall q a, path q -> table s2 t q = Some a -> a = t \/ a ∈ l) as Htab.
  { intros q a Hq Ha. destruct (B4 q a Hq Ha) as [Ha1|Hin]; [|right; now apply A5].
    destruct (A4 q a Hq Ha1) as [Ha0|Hin]; [left; now apply (Hroot q)|now right]. }
  assert (forall v pte, translate s2 t v = Some pte -> has pte PTE_U = false) as Hker.
  { intros v pte. rewrite B3, A3. do 2 (case_decide; [intros [= <-]; apply leaf_kernel; (reflexivity || (split; [discriminate|reflexivity]))|]).
    now rewrite Hnone. }
  exists s1, s2, l2. split; [exact Hrun1|]. split; [exact Hrun2|]. split; [exact B1|].
  split; [apply space_kernel; [exact B2|exact Hker]|]. split; [auto|]. split; [lia|]. split; [exact Htab|].
  split; [exact Hker|]. split; [|split].
  - intros v Hv. change TRAPFRAME with 274877898752 in Hv.
    assert (forall x, 274877898752 <= x < 2 ^ 39 -> vpn v <> vpn x) as Hx.
    { intros x Hx E. apply vpn_page in E; [|lia|lia]. unfold PGSIZE in E. mlia. }
    rewrite B3, A3, !decide_False, Hnone by (apply Hx; split; [discriminate|reflexivity]). reflexivity.
  - intros k Hk. rewrite B6, A6; [reflexivity|..]; intros (q & a & Hq & Ha & Hin); apply Hk; exists a; (split; [|exact Hin]);
      rewrite elem_of_cons.
    + destruct (A4 q a Hq Ha) as [Ha0|Ha0]; [left; now apply (Hroot q)|now right].
    + now apply (Htab q).
  - rewrite B7, A7. reflexivity.
Qed.

(** What [alloc_slot] makes of the process in the slot. *)
Definition fresh_proc (pid k t f : Z) (c : proc) : proc :=
  set_p_chan ChanNull (set_p_parent None (upd_p_context (set_ctx_sp (u64 (k + PGSIZE))) (set_p_sz 0
    (set_p_trapframe f (set_p_pagetable t (set_p_kstack k (set_p_state USED (set_p_pid pid c)))))))).

(** A new page table, before any page has been copied: it maps no user memory. *)
Lemma copying_start b P t k f l l' s' :
  NoDup (k :: t :: f :: l) -> pages l' s' -> (forall q, q ∈ l' -> q ∈ l) -> pt_wf s' t l' ->
  (forall q a, path q -> table s' t q = Some a -> a = t \/ a ∈ l) ->
  (forall v pte, translate s' t v = Some pte -> has pte PTE_U = false) ->
  (forall v, 0 <= v < TRAPFRAME -> translate s' t v = None) ->
  same_bytes (in_pages (t :: l)) b s' -> s' = set_ks_mem (ks_mem s') (set_ks_freelist (ks_freelist s') b) ->
  copying b P t (k :: t :: f :: l) [k; f] 0 l' s'.
Proof.
  intros Hnd Hl' Hsub Hwf Htab Hk Hn Hs Es. set (L := k :: t :: f :: l) in *.
  unfold L in Hnd. apply NoDup_cons in Hnd as [Hnk Hnd]. apply NoDup_cons in Hnd as [Hnt Hnd]. apply NoDup_cons in Hnd as [Hnf _].
  split; [exact Hl'| | | | | |lia|exact Hn| |exact Es].
  - intros q Hq. unfold L. rewrite !elem_of_cons. auto.
  - now apply space_kernel.
  - intros q a Hq Ha. unfold L. rewrite !elem_of_cons. destruct (Htab q a Hq Ha); auto.
  - intros v pte Ht' HU. rewrite (Hk _ _ Ht') in HU. discriminate HU.
  - intros a Ha. apply Hs. intros (q & Hq & Hin). apply Ha. exists q. split; [|exact Hin]. unfold L. rewrite !elem_of_cons in *. tauto.
  - assert (forall x v pte, translate s' t v = Some pte -> has pte PTE_U = true -> PTE_PA pte <> x) as Hpa
      by (intros x v pte Ht' HU; rewrite (Hk _ _ Ht') in HU; discriminate HU).
    intros q Hq. rewrite !elem_of_cons in Hq. destruct Hq as [->|[->|Hq]]; [| |now apply elem_of_nil in Hq]; split; try apply Hpa.
    + intros Hin%Hsub. apply Hnk. rewrite !elem_of_cons. auto.
    + intros q Hq Ha. apply Hnk. rewrite !elem_of_cons. destruct (Htab q k Hq Ha); auto.
    + intros Hin%Hsub. contradiction.
    + intros q Hq Ha. destruct (Htab q f Hq Ha) as [->|Hin]; [apply Hnt; left|contradiction].
Qed.

Lemma alloc_slot_run s np c P k t f l :
  ks_proc s !! np = Some c -> pages (k :: t :: f :: l) s -> (4 <= length l)%nat ->
  let b := at_slot s np (fresh_proc (ks_nextpid s) k t f c) (ks_mem s) (ks_freelist s) in
  exists s' l', alloc_slot np s = Ok (Some np) s' /\ (length l <= length l' + 4)%nat /\
    copying b P t (k :: t :: f :: l) [k; f] 0 l' s'.
Proof.
  intros Hc Hl Hlen b. set (L := k :: t :: f :: l) in *. pose proof (lookup_lt_Some _ _ _ Hc) as Hnp.
  destruct (pages_ok _ _ Hl) as [Hnd Hpgs]. unfold L in Hpgs. rewrite !Forall_cons in Hpgs. destruct Hpgs as (Hk & Ht & Hf & Hpl).
  assert (forall q, is_page q -> q <> 0) as Hne by (intros q (_ & H1 & _); lia).
  set (c1 := set_p_state USED (set_p_pid (ks_nextpid s) c)).
  set (s0 := at_slot s np c (ks_mem s) (ks_freelist s)).
  assert (upd_ks_nextpid (fun n => i32 (n + 1)) s = s0) as E0.
  { unfold s0, at_slot. fields. rewrite list_insert_id by exact Hc. now destruct s. }
  unfold alloc_slot. rewrite (bind_Ok _ _ _ (ks_nextpid s) s) by reflexivity.
  rewrite (bind_Ok _ _ _ tt s0) by (unfold modify; now rewrite E0). unfold s0.
  rewrite (bind_Ok _ _ _ _ _ (at_slot_mod s np _ _ _ (set_p_pid (ks_nextpid s)) Hnp)).
  rewrite (bind_Ok _ _ _ _ _ (at_slot_mod s np _ _ _ (set_p_state USED) Hnp)). fold c1.
  assert (pages L (at_slot s np c1 (ks_mem s) (ks_freelist s))) as Hl0 by (eapply pages_frame; [exact Hl|reflexivity|reflexivity]).
  destruct (at_slot_alloc _ _ _ _ _ _ _ Hl0) as (fl1 & Ha1 & Hl1). rewrite (bind_Ok _ _ _ _ _ Ha1).
  rewrite (bind_Ok _ _ _ _ _ (at_slot_mod s np _ _ _ (set_p_kstack k) Hnp)), (proj2 (Z.eqb_neq _ _) (Hne k Hk)).
  set (c2 := set_p_kstack k c1). apply (at_slot_pages _ _ _ c2) in Hl1.
  destruct (create_pagetable_spec pages Hm Hpos t (f :: l) _ Hl1) as (s2 & Hcr & Hl2 & Hwf2 & Htr2 & Htab2 & Hs2 & Er2).
  rewrite (bind_Ok _ _ _ _ _ Hcr). apply at_slot_rest in Er2. rewrite Er2 in Hl2 |- *.
  rewrite (bind_Ok _ _ _ _ _ (at_slot_mod s np _ _ _ (set_p_pagetable t) Hnp)), (proj2 (Z.eqb_neq _ _) (Hne t Ht)).
  set (c3 := set_p_pagetable t c2). apply (at_slot_pages _ _ _ c3) in Hl2.
  destruct (at_slot_alloc _ _ _ _ _ _ _ Hl2) as (fl3 & Ha3 & Hl3). rewrite (bind_Ok _ _ _ _ _ Ha3).
  rewrite (bind_Ok _ _ _ _ _ (at_slot_mod s np _ _ _ (set_p_trapframe f) Hnp)), (proj2 (Z.eqb_neq _ _) (Hne f Hf)).
  set (c4 := set_p_trapframe f c3). apply (at_slot_pages _ _ _ c4) in Hl3.
  set (s3 := at_slot s np c4 (ks_mem s2) fl3) in *. assert (ks_mem s3 = ks_mem s2) as Em3 by reflexivity.
  destruct (kernel_maps s3 t f l Hl3) as (s4 & s5 & l' & Hm4 & Hm5 & Hl5 & Hsp5 & Hsub5 & Hlen5 & Htab5 & Hk5 & Hn5 & Hs5 & Er5).
  { apply (pt_wf_sub _ _ (f :: l)); [intros q Hq; now right|]. now apply (pt_wf_mem s2). }
  { intros v. rewrite (translate_mem s2) by exact Em3. apply Htr2. }
  { intros q a. rewrite (table_mem s2) by exact Em3. apply Htab2. }
  { exact Hlen. }
  rewrite (bind_Ok _ _ _ _ _ Hm4), (bind_Ok _ _ _ _ _ Hm5). apply at_slot_rest in Er5. rewrite Er5.
  rewrite (bind_Ok _ _ _ _ _ (at_slot_mod s np _ _ _ (set_p_sz 0) Hnp)).
  rewrite (bind_Ok _ _ _ _ _ (at_slot_mod s np _ _ _ (upd_p_context (set_ctx_sp (u64 (k + PGSIZE)))) Hnp)).
  rewrite (bind_Ok _ _ _ _ _ (at_slot_mod s np _ _ _ (set_p_parent None) Hnp)).
  rewrite (bind_Ok _ _ _ _ _ (at_slot_mod s np _ _ _ (set_p_chan ChanNull) Hnp)).
  set (s6 := at_slot s np _ _ _). exists s6, l'. split; [reflexivity|]. split; [exact Hlen5|].
  assert (ks_mem s6 = ks_mem s5) as Em6 by reflexivity.
  apply (copying_start b P t k f l l' s6 Hnd).
  - eapply pages_frame; [exact Hl5|reflexivity|reflexivity].
  - exact Hsub5.
  - apply (pt_wf_mem s5); [exact Em6|apply (sp_wf _ _ _ Hsp5)].
  - intros q a. rewrite (table_mem s5 s6) by exact Em6. apply Htab5.
  - intros v pte. rewrite (translate_mem s5 s6) by exact Em6. apply Hk5.
  - intros v Hv. rewrite (translate_mem s5 s6) by exact Em6. apply Hn5, Hv.
  - intros a Ha. transitivity (byte s5 a); [unfold byte; now rewrite Em6|]. transitivity (byte s3 a); [now apply Hs5|].
    transitivity (byte s2 a); [unfold byte; now rewrite Em3|]. transitivity (byte (at_slot s np c2 (ks_mem s) fl1) a); [apply Hs2|reflexivity].
    intros Hin. apply Ha. exists t. split; [left|exact Hin].
  - reflexivity.
Qed.

(** The first unused slot of the table. *)
Definition first_unused (s : kstate) (np : nat) (c : proc) : Prop :=
  ks_proc s !! np = Some c /\ p_state c = UNUSED /\
  forall j q, (j < np)%nat -> ks_proc s !! j = Some q -> p_state q <> UNUSED.

Lemma alloc_process_run s np c s' :
  length (ks_proc s) = nproc -> first_unused s np c -> alloc_slot np s = Ok (Some np) s' ->
  alloc_process s = Ok (Some np) s'.
Proof.
  intros Hlen (Hc & Hst & Hfirst) Hrun. pose proof (lookup_lt_Some _ _ _ Hc) as Hnp.
  unfold alloc_process. fold nproc. rewrite (bind_Ok _ _ s (Some (Some np)) s'); [reflexivity|].
  enough (forall m a, (a <= np < a + m)%nat -> for_find (seq a m) (fun i =>
            p <- getproc i;; if decide (p_state p = UNUSED) then r <- alloc_slot i;; ret (Some r) else ret None) s
          = Ok (Some (Some np)) s') as Hfind by (apply Hfind; lia).
  induction m as [|m IH]; intros a Ha; [lia|]. cbn [seq for_find].
  destruct (decide (a = np)) as [->|Hne].
  - rewrite (bind_Ok _ _ s (Some (Some np)) s'); [reflexivity|].
    now rewrite (bind_Ok _ _ _ _ _ (getproc_run _ _ _ Hc)), decide_True, (bind_Ok _ _ _ _ _ Hrun) by exact Hst.
  - destruct (lookup_lt_is_Some_2 (ks_proc s) a) as [q Hq]; [lia|].
    rewrite (bind_Ok _ _ s None s); [apply IH; lia|].
    now rewrite (bind_Ok _ _ _ _ _ (getproc_run _ _ _ Hq)), decide_False by (apply (Hfirst a q); [lia|exact Hq]).
Qed.

Lemma safestrcpy_run t (n : list Z) s : length n = 16%nat -> length t = 16%nat ->
  exists name, safestrcpy n t 16 s = Ok name s /\ length name = 16%nat.
Proof.
  intros Hn Ht.
  enough (forall k i n, (i + k = 15)%nat -> length n = 16%nat -> exists n' i', safestrcpy_loop k (Z.of_nat i) n t s = Ok (n', Z.of_nat i') s /\
            (i' <= 15)%nat /\ length n' = 16%nat) as Hloop.
  { destruct (Hloop 15%nat 0%nat n eq_refl Hn) as (n' & i' & Hrun & Hi & Hl). unfold safestrcpy.
    change (Z.to_nat (16 - 1)) with 15%nat. change 0 with (Z.of_nat 0) at 1. rewrite (bind_Ok _ _ _ _ _ Hrun).
    unfold lset. rewrite decide_True by lia. eexists. split; [reflexivity|]. now rewrite length_insert. }
  clear n Hn. induction k as [|k IH]; intros i n Hi Hn; cbn [safestrcpy_loop].
  - exists n, i. split; [reflexivity|]. split; [lia|exact Hn].
  - unfold lget. rewrite decide_True by lia. rewrite Nat2Z.id. destruct (lookup_lt_is_Some_2 t i) as [x Hx]; [lia|]. rewrite Hx.
    rewrite (bind_Ok _ _ s x s) by reflexivity. destruct (x =? 0).
    + exists n, i. split; [reflexivity|]. split; [lia|exact Hn].
    + unfold lset. rewrite decide_True by lia. rewrite Nat2Z.id.
      rewrite (bind_Ok _ _ s (<[i := x]> n) s) by reflexivity.
      replace (Z.of_nat i + 1) with (Z.of_nat (S i)) by lia. apply IH; [lia|now rewrite length_insert].
Qed.

(** ** The result *)

(** What [fork] of process [pr] (slot [p]) has made of the slot of [c0]: the process
    [c], with a copy of the memory and of the trap frame, in a state [s'] in which
    the pages [l'] are free. *)
Record forked (s : kstate) (p : nat) (pr c0 c : proc) (l' : list Z) (s' : kstate) : Prop := {
  fk_pages : pages l' s';
  fk_child : space_ok s' (p_pagetable c) l';
  fk_parent : space_ok s' (p_pagetable pr) l';
  fk_kept : forall v, user_at s' (p_pagetable pr) v = user_at s (p_pagetable pr) v /\
    user_byte s' (p_pagetable pr) v = user_byte s (p_pagetable pr) v;
  fk_copy : forall v, 0 <= v < p_sz pr ->
    (is_Some (user_at s' (p_pagetable c) v) <-> is_Some (user_at s (p_pagetable pr) v)) /\
    user_byte s' (p_pagetable c) v = user_byte s (p_pagetable pr) v;
  fk_apart : forall v w a, user_at s' (p_pagetable c) v = Some a -> user_at s' (p_pagetable pr) w <> Some a;
  fk_frame : forall i, 0 <= i < PGSIZE ->
    byte s' (p_trapframe c + i) = if decide (112 <= i < 120) then 0 else byte s (p_trapframe pr + i);
  fk_run : p_state c = RUNNABLE /\ ctx_ra (p_context c) = sym_usertrapret /\ ctx_sp (p_context c) = u64 (p_kstack c + PGSIZE);
  fk_id : p_pid c = ks_nextpid s /\ p_sz c = p_sz pr /\ p_parent c = Some p;
  fk_stale : p_killed c = p_killed c0 /\ p_ofile c = p_ofile c0 }.

(** The trap frame of the child. *)
Definition child_frame (f : Z) (tf : list Z) (m : gmap Z Z) : gmap Z Z :=
  put_bytes (f + 112) (le_bytes 8 0) (put_bytes f tf m).

Lemma at_slot_frame s np c m fl f tf :
  upd_ks_mem (put_bytes (f + TF_a 0) (le_bytes 8 0)) (upd_ks_mem (put_bytes f tf) (at_slot s np c m fl))
  = at_slot s np c (child_frame f tf m) fl.
Proof. reflexivity. Qed.

Lemma child_frame_byte s f tf i : Z.of_nat (length tf) = PGSIZE -> 0 <= i < PGSIZE ->
  byte (set_ks_mem (child_frame f tf (ks_mem s)) s) (f + i) = if decide (112 <= i < 120) then 0 else nth (Z.to_nat i) tf 0.
Proof.
  intros Hl Hi. set (s1 := upd_ks_mem (put_bytes f tf) s).
  change (byte (upd_ks_mem (put_bytes (f + 112) (le_bytes 8 0)) s1) (f + i) = if decide (112 <= i < 120) then 0 else nth (Z.to_nat i) tf 0).
  rewrite byte_put. change (Z.of_nat (length (le_bytes 8 0))) with 8. do 2 case_decide; try lia.
  - replace (Z.to_nat (f + i - (f + 112))) with (Z.to_nat (i - 112)) by lia.
    assert (i - 112 = 0 \/ i - 112 = 1 \/ i - 112 = 2 \/ i - 112 = 3 \/ i - 112 = 4 \/ i - 112 = 5 \/ i - 112 = 6 \/ i - 112 = 7) as Hc by lia.
    destruct Hc as [->|[->|[->|[->|[->|[->|[->| ->]]]]]]]; reflexivity.
  - unfold s1. rewrite byte_put, decide_True by lia. rewrite nth_lookup. do 2 f_equal. f_equal. lia.
Qed.

Lemma child_frame_same f tf m s : Z.of_nat (length tf) = PGSIZE -> ks_mem s = m ->
  same_bytes (fun k => f <= k < f + PGSIZE) s (set_ks_mem (child_frame f tf m) s).
Proof.
  intros Hl <- k Hk. set (s1 := upd_ks_mem (put_bytes f tf) s).
  change (byte (upd_ks_mem (put_bytes (f + 112) (le_bytes 8 0)) s1) k = byte s k). unfold PGSIZE in *.
  rewrite byte_put, decide_False by (change (Z.of_nat (length (le_bytes 8 0))) with 8; lia).
  unfold s1. now rewrite byte_put, decide_False by lia.
Qed.

(** A page of the kernel changes: the address spaces do not. *)
Lemma space_reserved s s' C l t :
  space_ok s C l -> reserved s C l t -> is_page t -> same_bytes (fun k => t <= k < t + PGSIZE) s s' ->
  space_ok s' C l /\ forall v, user_at s' C v = user_at s C v /\ user_byte s' C v = user_byte s C v.
Proof.
  intros Hsp [R1 R2 R3] Ht Hs.
  assert (forall k, t <= k < t + PGSIZE -> ~ in_tables s C k) as Hnt.
  { intros k Hk (q & a & Hq & Ha & Hin). destruct (pw_page _ _ _ (sp_wf _ _ _ Hsp) q a Hq Ha) as [Hpa _].
    destruct (pages_apart t a Ht Hpa); [intros ->; exact (R2 q Hq Ha)|lia..]. }
  destruct (same_tables s s' C l _ (sp_wf _ _ _ Hsp) Hs Hnt) as [_ Htr].
  split; [exact (space_same s s' C l _ Hsp Hs Hnt)|]. intros v. pose proof (user_at_same s s' C Htr v) as Hu.
  split; [exact Hu|]. unfold user_byte. rewrite Hu. destruct (user_at s C v) as [a|] eqn:Ea; [|reflexivity]. apply Hs.
  destruct (user_at_page s C l v a Hsp Ea) as (pte & Et & HU & -> & Hpp). pose proof (Z.mod_pos_bound v PGSIZE ltac:(easy)).
  destruct (pages_apart t (PTE_PA pte) Ht Hpp); [|lia..]. intros E. exact (R3 v pte Et HU (eq_sym E)).
Qed.

Lemma same_mem_space s s' root l : ks_mem s' = ks_mem s -> space_ok s root l ->
  space_ok s' root l /\ (forall v, translate s' root v = translate s root v) /\
  forall v, user_at s' root v = user_at s root v /\ user_byte s' root v = user_byte s root v.
Proof.
  intros Em Hsp. split; [apply (space_same s s' root l (fun _ => False) Hsp); [|intros k []]|split].
  - intros k _. unfold byte. now rewrite Em.
  - intros v. now apply translate_mem.
  - intros v. assert (user_at s' root v = user_at s root v) as E by now apply user_at_mem.
    split; [exact E|]. unfold user_byte, byte. now rewrite E, Em.
Qed.

(** The memory at the end, from the state in which all pages have been copied. *)
Lemma copied_result s p pr np c0 c b k t f l va l2 s2 s' :
  let L := k :: t :: f :: l in let P := p_pagetable pr in
  Forall is_page L -> space_ok s P L -> is_page (p_trapframe pr) -> p_trapframe pr ∉ L ->
  ks_mem b = ks_mem s -> copying b P t L [k; f] va l2 s2 -> p_sz pr <= va ->
  s' = at_slot s np c (child_frame f (bytes s2 (p_trapframe pr) PGSIZE) (ks_mem s2)) (ks_freelist s2) ->
  p_pagetable c = t -> p_trapframe c = f ->
  p_state c = RUNNABLE /\ ctx_ra (p_context c) = sym_usertrapret /\ ctx_sp (p_context c) = u64 (p_kstack c + PGSIZE) ->
  p_pid c = ks_nextpid s /\ p_sz c = p_sz pr /\ p_parent c = Some p -> p_killed c = p_killed c0 /\ p_ofile c = p_ofile c0 ->
  forked s p pr c0 c l2 s'.
Proof.
  intros L P HL HP Htf Htn Emb Hc Hva Es' Et Ef H1 H2 H3. set (tf := bytes s2 (p_trapframe pr) PGSIZE) in *.
  assert (Z.of_nat (length tf) = PGSIZE) as Hl by (unfold tf; now rewrite length_bytes).
  destruct (same_mem_space s b P L Emb HP) as (HPb & _ & Hub).
  destruct Hc as [C1 C2 C3 C4 C4' C5 C6 C7 C8 C9].
  assert (Hf := C8 f ltac:(rewrite !elem_of_cons; auto)).
  assert (is_page f /\ f ∈ L) as [Hpf HfL].
  { assert (f ∈ L) as Hin by (unfold L; rewrite !elem_of_cons; auto). split; [|exact Hin]. now apply (proj1 (Forall_forall _ _) HL). }
  assert (same_bytes (fun a => f <= a < f + PGSIZE) s2 s') as Hs2.
  { intros a Ha. transitivity (byte (set_ks_mem (child_frame f tf (ks_mem s2)) s2) a);
      [rewrite Es'; apply at_slot_byte|exact (child_frame_same f tf _ s2 Hl eq_refl a Ha)]. }
  destruct (space_reserved s2 s' t l2 f C3 Hf Hpf Hs2) as [HC' Hu'].
  assert (same_bytes (in_pages L) b s') as Hbs.
  { intros a Ha. rewrite Hs2; [now apply C5|]. intros Hin. apply Ha. now exists f. }
  destruct (space_kept b s' P L HPb HL Hbs) as (HP' & _ & Htr' & Hk').
  assert (forall v, user_at s' P v = user_at s P v /\ user_byte s' P v = user_byte s P v) as Hkept.
  { intros v. destruct (Hk' v) as [-> ->]. apply Hub. }
  split; rewrite ?Et, ?Ef; fold P; try assumption.
  - eapply pages_frame; [exact C1|rewrite Es'; apply at_slot_fields|]. intros q a Hq Ha. apply Hs2. intros Hin.
    destruct (pages_apart q f); [apply (proj1 (Forall_forall _ _) HL), C2, Hq|exact Hpf|intros ->; exact (rv_free _ _ _ _ Hf Hq)|lia..].
  - apply (space_not_free _ _ L); [exact C2|exact HP'].
  - intros v Hv. destruct (Hu' v) as [-> ->]. destruct (C6 v ltac:(lia)) as [E1 E2]. rewrite E1, E2.
    destruct (Hub v) as [-> ->]. split; reflexivity.
  - intros v w a Hv Hw. destruct (Hu' v) as [E _]. rewrite E in Hv.
    destruct (user_at_page s2 t l2 v a C3 Hv) as (pte & Ep & HU & -> & Hpp).
    destruct (user_at_page s' P L w _ HP' Hw) as (pte' & Ep' & HU' & E' & Hpp').
    pose proof (C4' v pte Ep HU) as Hin. destruct (sp_page _ _ _ HP' w pte' Ep' HU') as (_ & Hn & _).
    pose proof (Z.mod_pos_bound v PGSIZE ltac:(easy)). pose proof (Z.mod_pos_bound w PGSIZE ltac:(easy)).
    destruct (pages_apart (PTE_PA pte) (PTE_PA pte') Hpp Hpp'); [|lia..]. intros E2. apply Hn. now rewrite <- E2.
  - intros j Hj. transitivity (byte (set_ks_mem (child_frame f tf (ks_mem s2)) s2) (f + j)); [rewrite Es'; apply at_slot_byte|].
    rewrite child_frame_byte by assumption. case_decide; [reflexivity|]. unfold tf.
    rewrite nth_lookup, lookup_bytes, Z2Nat.id, decide_True by lia. cbn [default from_option].
    transitivity (byte b (p_trapframe pr + j)); [|unfold byte; now rewrite Emb]. apply C5.
    apply (not_in_pages L _ (p_trapframe pr) HL Htf Htn). lia.
Qed.

Lemma pages_cover n : n <= (n + PGSIZE - 1) / PGSIZE * PGSIZE.
Proof. unfold PGSIZE. mlia. Qed.

(** The child after its memory has been copied. *)
Definition child_proc (p : nat) (pr : proc) (nm : list Z) (c : proc) : proc :=
  set_p_state RUNNABLE (upd_p_context (set_ctx_sp (u64 (p_kstack c + PGSIZE))) (upd_p_context (set_ctx_ra sym_usertrapret)
    (set_p_name nm (set_p_parent (Some p) (set_p_sz (p_sz pr) c))))).

Lemma child_run s np p pr c s2 fl :
  (np < length (ks_proc s))%nat -> is_page (p_trapframe pr) -> is_page (p_trapframe c) ->
  length (p_name pr) = 16%nat -> length (p_name c) = 16%nat ->
  exists nm,
    (_ <- modproc np (set_p_sz (p_sz pr));;
     npr <- getproc np;;
     tf <- load_bytes (p_trapframe pr) PGSIZE;;
     _ <- store_bytes (p_trapframe npr) tf;;
     _ <- store64 (p_trapframe npr + TF_a 0) 0;;
     _ <- modproc np (set_p_parent (Some p));;
     name <- safestrcpy (p_name npr) (p_name pr) 16;;
     _ <- modproc np (set_p_name name);;
     _ <- modproc np (upd_p_context (set_ctx_ra sym_usertrapret));;
     _ <- modproc np (upd_p_context (set_ctx_sp (u64 (p_kstack npr + PGSIZE))));;
     _ <- modproc np (set_p_state RUNNABLE);;
     ret (p_pid npr)) (at_slot s np c (ks_mem s2) fl)
    = Ok (p_pid c) (at_slot s np (child_proc p pr nm c)
        (child_frame (p_trapframe c) (bytes s2 (p_trapframe pr) PGSIZE) (ks_mem s2)) fl).
Proof.
  intros Hnp Htf Hpf Hn1 Hn2. set (tf := bytes s2 (p_trapframe pr) PGSIZE). set (f := p_trapframe c) in *.
  assert (Z.of_nat (length tf) = PGSIZE) as Htl by (unfold tf; now rewrite length_bytes).
  set (c1 := set_p_parent (Some p) (set_p_sz (p_sz pr) c)).
  destruct (safestrcpy_run (p_name pr) (p_name c) (at_slot s np c1 (child_frame f tf (ks_mem s2)) fl) Hn2 Hn1) as (nm & Hname & _).
  exists nm. rewrite (bind_Ok _ _ _ _ _ (at_slot_mod s np _ _ _ (set_p_sz (p_sz pr)) Hnp)).
  set (s3 := at_slot s np (set_p_sz (p_sz pr) c) (ks_mem s2) fl).
  assert (ks_proc s3 !! np = Some (set_p_sz (p_sz pr) c)) as H3 by (unfold s3, at_slot; fields; now apply list_lookup_insert_eq).
  rewrite (bind_Ok _ _ _ _ _ (getproc_run s3 np _ H3)).
  assert (in_ram (p_trapframe pr) PGSIZE = true) as Hram by (apply (is_page_ram (p_trapframe pr)); [exact Htf|lia|lia]).
  rewrite (bind_Ok _ _ _ _ _ (load_bytes_run _ _ s3 Hram)). unfold s3 at 1. rewrite at_slot_bytes. fold tf.
  change (p_trapframe (set_p_sz (p_sz pr) c)) with f. change (p_name (set_p_sz (p_sz pr) c)) with (p_name c).
  change (p_kstack (set_p_sz (p_sz pr) c)) with (p_kstack c). change (p_pid (set_p_sz (p_sz pr) c)) with (p_pid c).
  assert (in_ram f (Z.of_nat (length tf)) = true) as Hram2 by (rewrite Htl; apply (is_page_ram f); [exact Hpf|lia|lia]).
  rewrite (bind_Ok _ _ _ _ _ (store_bytes_run f tf s3 Hram2)).
  assert (in_ram (f + TF_a 0) 8 = true) as Hram3 by (apply (is_page_ram f); [exact Hpf|unfold TF_a, PGSIZE; lia..]).
  rewrite (bind_Ok _ _ _ _ _ (store64_run _ 0 _ Hram3)). unfold s3. rewrite at_slot_frame.
  rewrite (bind_Ok _ _ _ _ _ (at_slot_mod s np _ _ _ (set_p_parent (Some p)) Hnp)). fold c1. rewrite (bind_Ok _ _ _ _ _ Hname).
  do 3 rewrite (bind_Ok _ _ _ _ _ (at_slot_mod s np _ _ _ _ Hnp)).
  rewrite (bind_Ok _ _ _ _ _ (at_slot_mod s np _ _ _ (set_p_state RUNNABLE) Hnp)). reflexivity.
Qed.

Lemma fork_run s p pr np c0 k t f l :
  let L := k :: t :: f :: l in let P := p_pagetable pr in
  pages L s -> ks_current s = Some p -> ks_proc s !! p = Some pr -> p_state pr <> UNUSED -> length (ks_proc s) = nproc ->
  first_unused s np c0 -> length (p_name pr) = 16%nat -> length (p_name c0) = 16%nat ->
  space_ok s P L -> (forall va v, 0 <= va < p_sz pr -> translate s P va = Some v -> has v PTE_U = true) ->
  is_page (p_trapframe pr) -> p_trapframe pr ∉ L -> 0 <= p_sz pr <= TRAPFRAME ->
  (4 + 3 * Z.to_nat ((p_sz pr + PGSIZE - 1) / PGSIZE) <= length l)%nat ->
  exists s' l' c, fork s = Ok (ks_nextpid s) s' /\ forked s p pr c0 c l' s' /\
    s' = at_slot s np c (ks_mem s') (ks_freelist s').
Proof.
  intros L P Hl Hcur Hp Hst Hlen Hfirst Hn1 Hn2 HP Huser Htf Htn Hsz Hfree.
  pose proof Hfirst as (Hc0 & Hun & _). pose proof (lookup_lt_Some _ _ _ Hc0) as Hnp.
  assert (np <> p) as Hnep by (intros ->; congruence).
  destruct (pages_ok _ _ Hl) as [Hnd Hpgs].
  destruct (alloc_slot_run s np c0 P k t f l Hc0 Hl ltac:(lia)) as (s1 & l1 & Halloc & Hl1 & Hcp1).
  set (cf := fresh_proc (ks_nextpid s) k t f c0) in *. set (b := at_slot s np cf (ks_mem s) (ks_freelist s)) in *.
  assert (ks_mem b = ks_mem s) as Emb by reflexivity.
  destruct (same_mem_space s b P L Emb HP) as (HPb & Htb & _).
  assert (ks_proc b !! p = Some pr) as Hbp by (unfold b, at_slot; fields; now rewrite list_lookup_insert_ne by exact Hnep).
  assert (ks_proc b !! np = Some cf) as Hbnp by (unfold b, at_slot; fields; now apply list_lookup_insert_eq).
  set (n := Z.to_nat ((p_sz pr + PGSIZE - 1) / PGSIZE)) in *.
  assert (Z.of_nat n = (p_sz pr + PGSIZE - 1) / PGSIZE) as En by (unfold n, PGSIZE in *; mlia).
  destruct (fork_pages_run b P t L [k; f] p np pr cf n Hpgs HPb Hsz) with (fuel := Z.to_nat (p_sz pr / PGSIZE + 1)) (va := 0) (l := l1) (s := s1)
    as (l2 & s2 & Hloop & Hcp2); try assumption; try reflexivity; try lia.
  { rewrite En. unfold PGSIZE. mlia. }
  { unfold n, PGSIZE in *. mlia. }
  rewrite Z.add_0_l in Hcp2. pose proof (cp_rest _ _ _ _ _ _ _ _ Hcp2) as Er2. pose proof (cp_rest _ _ _ _ _ _ _ _ Hcp1) as Er1.
  apply at_slot_rest in Er2. set (tf := bytes s2 (p_trapframe pr) PGSIZE).
  assert (is_page f) as Hpf by (apply (proj1 (Forall_forall _ _) Hpgs); unfold L; rewrite !elem_of_cons; auto).
  destruct (child_run s np p pr cf s2 (ks_freelist s2) Hnp Htf Hpf Hn1 Hn2) as (nm & Hchild).
  set (c := child_proc p pr nm cf) in *. set (s' := at_slot s np c _ _) in Hchild.
  destruct (at_slot_fields s np c (child_frame f tf (ks_mem s2)) (ks_freelist s2)) as [Em' Ef'].
  exists s', l2, c. split; [|split; [|change s' with (at_slot s np c (child_frame f tf (ks_mem s2)) (ks_freelist s2)); now rewrite Em', Ef']].
  - unfold fork. rewrite (bind_Ok _ _ s (Some p) s) by (unfold myproc, gets; now rewrite Hcur).
    rewrite (bind_Ok _ _ _ _ _ (alloc_process_run s np c0 s1 Hlen Hfirst Halloc)).
    rewrite (bind_Ok _ _ s1 p s1) by reflexivity.
    rewrite (bind_Ok _ _ _ _ _ (getproc_run s1 p pr ltac:(rewrite Er1; exact Hbp))), (bind_Ok _ _ _ _ _ Hloop). rewrite Er2 at 1.
    exact Hchild.
  - eapply (copied_result s p pr np c0 c b k t f l _ l2 s2 s'); try eassumption; try reflexivity; [|auto..].
    rewrite En. exact (pages_cover (p_sz pr)).
Qed.
End forking.

(** ** Theorem *)

Lemma fork_no_slot `{Symbols} s p :
  ks_current s = Some p -> length (ks_proc s) = nproc -> (forall j q, ks_proc s !! j = Some q -> p_state q <> UNUSED) ->
  fork s = Ok (-1) s.
Proof.
  intros Hcur Hlen Hno. unfold fork. rewrite (bind_Ok _ _ s (Some p) s) by (unfold myproc, gets; now rewrite Hcur).
  rewrite (bind_Ok _ _ s None s); [reflexivity|]. unfold alloc_process. fold nproc.
  rewrite (bind_Ok _ _ s None s); [reflexivity|].
  enough (forall m a, (a + m <= nproc)%nat -> for_find (seq a m) (fun i =>
            p <- getproc i;; if decide (p_state p = UNUSED) then r <- alloc_slot i;; ret (Some r) else ret None) s
          = Ok None s) as Hfind by (apply Hfind; lia).
  induction m as [|m IH]; intros a Ha; [reflexivity|]. cbn [seq for_find].
  destruct (lookup_lt_is_Some_2 (ks_proc s) a) as [q Hq]; [lia|].
  rewrite (bind_Ok _ _ s None s); [apply IH; lia|].
  now rewrite (bind_Ok _ _ _ _ _ (getproc_run _ _ _ Hq)), decide_False by exact (Hno a q Hq).
Qed.

(** C12: functional.  [fork] takes the first unused slot and makes it a process that
    differs from its parent in the result of the call alone: its memory has the
    bytes of the parent's, in pages of its own, its trap frame is the parent's with
    0 in [a0], and it will run from [usertrapret].  The parent keeps its memory and
    gets the child's number.  The flag [killed] and the table of open files are
    those that the slot's last process has left.  With no slot, [fork] returns -1
    and changes nothing. *)
Theorem fork_copies `{Symbols} pages `{!PageAllocator pages} s p pr l :
  0 < mem_start -> pages l s -> ks_current s = Some p -> ks_proc s !! p = Some pr -> p_state pr = RUNNING ->
  length (ks_proc s) = nproc -> space_ok s (p_pagetable pr) l ->
  (forall va v, 0 <= va < p_sz pr -> translate s (p_pagetable pr) va = Some v -> has v PTE_U = true) ->
  is_page (p_trapframe pr) -> p_trapframe pr ∉ l -> 0 <= p_sz pr <= TRAPFRAME -> length (p_name pr) = 16%nat ->
  (forall np c0, first_unused s np c0 -> length (p_name c0) = 16%nat ->
    (7 + 3 * Z.to_nat ((p_sz pr + PGSIZE - 1) / PGSIZE) <= length l)%nat ->
    exists s' l' c, fork s = Ok (ks_nextpid s) s' /\ forked pages s p pr c0 c l' s' /\
      ks_proc s' = <[np := c]> (ks_proc s) /\ ks_current s' = Some p) /\
  ((forall j q, ks_proc s !! j = Some q -> p_state q <> UNUSED) -> fork s = Ok (-1) s).
Proof.
  intros Hpos Hl Hcur Hp Hst Hlen HP Huser Htf Htn Hsz Hn. split; [|now apply (fork_no_slot s p)].
  intros np c0 Hfirst Hn0 Hfree. destruct l as [|k [|t [|f l]]]; [cbn in Hfree; lia..|].
  destruct (fork_run Hpos pages s p pr np c0 k t f l Hl Hcur Hp ltac:(rewrite Hst; discriminate) Hlen Hfirst Hn Hn0 HP Huser Htf Htn Hsz)
    as (s' & l' & c & Hrun & Hfk & Es); [cbn [length] in Hfree; lia|].
  exists s', l', c. split; [exact Hrun|]. split; [exact Hfk|]. rewrite Es. split; [reflexivity|exact Hcur].
Qed.

(** ** Example: a process with one page *)

Definition parent_tf : Z := PHYSTOP - 5 * PGSIZE.
Definition demo_parent : proc := set_p_state RUNNING (set_p_trapframe parent_tf (set_p_sz 4096 (set_p_pagetable demo_top zero_proc))).
Definition with_table (s : kstate) : kstate := set_ks_current (Some 0%nat) (set_ks_proc (demo_parent :: replicate 63 zero_proc) s).

Lemma with_table_first s : first_unused (with_table s) 1 zero_proc.
Proof.
  split; [reflexivity|]. split; [reflexivity|]. intros [|j] q Hj Hq; [|lia]. injection Hq as <-. discriminate.
Qed.

Lemma with_table_space `{Symbols} pages `{!PageAllocator pages} root l s :
  pages l s -> space_ok s root l ->
  pages l (with_table s) /\ space_ok (with_table s) root l /\ forall v, translate (with_table s) root v = translate s root v.
Proof.
  intros Hl Hsp. destruct (same_mem_space s (with_table s) root l eq_refl Hsp) as (H1 & H2 & _).
  split; [|split; [exact H1|exact H2]]. eapply pages_frame; [exact Hl|reflexivity|reflexivity].
Qed.

Lemma demo_page_0 va : 0 <= va < p_sz demo_parent -> va / 4096 = 0 / 4096.
Proof. change (p_sz demo_parent) with 4096. intros Hva. mlia. Qed.

Lemma fork_copies_witness :
  exists s s' c, @fork demo_symbols s = Ok (ks_nextpid s) s' /\ p_parent c = Some 0%nat /\ ks_proc s' = <[1%nat := c]> (ks_proc s) /\
    user_byte s' (p_pagetable c) 1 = user_byte s demo_top 1.
Proof.
  destruct demo_user_space as (Hl0 & Hsp0 & Ht0). pose proof (@pmm_pages demo_symbols (Z.lt_le_incl _ _ demo_mem_start)) as HA.
  set (l := drop 5 (rev (@all_pages demo_symbols))).
  assert (drop 4 (rev (@all_pages demo_symbols)) = parent_tf :: l) as El by (vm_compute; reflexivity). rewrite El in Hl0, Hsp0.
  destruct (@pages_alloc demo_symbols _ HA _ _ _ Hl0) as (nxt & _ & Hl1).
  destruct (@pages_ok demo_symbols _ HA _ _ Hl0) as [Hnd Hpg]. apply NoDup_cons in Hnd as [Hnd _]. apply Forall_cons in Hpg as [Hpg _].
  pose proof (@space_freelist demo_symbols demo_user nxt demo_top _ Hsp0) as Hsp1.
  assert (@space_ok demo_symbols (set_ks_freelist nxt demo_user) demo_top l) as Hsp2
    by (eapply (@space_not_free demo_symbols); [|exact Hsp1]; intros x Hx; now right).
  destruct (@with_table_space demo_symbols _ HA demo_top l _ Hl1 Hsp2) as (Hl & Hsp & Htr).
  set (s := with_table (set_ks_freelist nxt demo_user)) in *.
  destruct (@fork_copies demo_symbols _ HA s 0 demo_parent l demo_mem_start Hl eq_refl eq_refl eq_refl eq_refl Hsp) as (Hok & _).
  - clear - Htr Ht0. intros va v Hva. rewrite Htr, translate_freelist. rewrite (translate_same demo_user demo_top va 0 (demo_page_0 va Hva)).
    intros E. rewrite Ht0 in E. injection E as <-. vm_compute. reflexivity.
  - exact Hpg.
  - exact Hnd.
  - split; [discriminate|vm_compute; discriminate].
  - reflexivity.
  - destruct (Hok 1%nat zero_proc (with_table_first _) eq_refl) as (s' & l' & c & Hrun & Hfk & Hps & _).
    + apply Nat.leb_le. vm_compute. reflexivity.
    + destruct (fk_id _ _ _ _ _ _ _ _ Hfk) as (_ & _ & Hpar).
      assert (0 <= 1 < p_sz demo_parent) as Hv by (split; [discriminate|reflexivity]).
      pose proof (fk_copy _ _ _ _ _ _ _ _ Hfk 1 Hv) as Hcopy. apply proj2 in Hcopy.
      exists s, s', c. split; [exact Hrun|]. split; [exact Hpar|]. split; [exact Hps|exact Hcopy].
Defined.
