(* ===== verification/Log.v ===== *)
(** * The write-ahead log: kernel/log.c

    An operation of the file system brackets its updates with [begin_op] and
    [end_op] and announces each block it changed with [log_write]; the last
    [end_op] commits.  The on-disk log is a header block at [log_start], with the
    number [n] of logged blocks and their home addresses, followed by [n] block
    images.  Recovery copies the images of a committed log to their homes.

    The lemmas say what [commit], the recovery and [log_write] do to the blocks,
    against the interface of the buffer cache; the theorems that follow from
    them are in Crash.v and Txn.v. *)
From S2P Require Import Prelude State Printf Klog Bio Blocks Sched.

(** ** Model *)

Definition modlog (f : log -> log) : K unit := modify (upd_ks_log f).
Definition getlog : K log := gets ks_log.

(** [while(log.lock) {}]: nothing else runs that could release the lock. *)
Definition acquire_log : K unit :=
  l <- getlog;;
  if log_lock l =? 0 then modlog (set_log_lock 1) else hang.

Definition release_log : K unit := modlog (set_log_lock 0).

Definition LOGBLOCKS : Z := 30.

(** [struct logheader] in the data of a block: [n] and [block[i]]. *)
Definition hdr_n (d : list Z) : Z := i32 (get_le 4 0 d).
Definition hdr_block (i : Z) (d : list Z) : Z := i32 (get_le 4 (Z.to_nat (4 + 4 * i)) d).
Definition put_hdr_n (n : Z) (d : list Z) : list Z := put_le 4 0 n d.
Definition put_hdr_block (i v : Z) (d : list Z) : list Z :=
  put_le 4 (Z.to_nat (4 + 4 * i)) v d.

(** [log.lh.block[i]]. *)
Definition lh_block_get (i : Z) : K Z := l <- getlog;; of_opt (lget i (lh_block l)).
Definition lh_block_set (i v : Z) : K unit :=
  l <- getlog;;
  bs <- of_opt (lset i v (lh_block l));;
  modlog (set_lh_block bs).

(** The two [bread]s of the loops: block [log.start + tail + 1] and block
    [log.lh.block[tail]]. *)
Definition read_log_block (tail : Z) : K nat :=
  l <- getlog;;
  bread (u32 (log_dev l)) (u32 (log_start l + tail + 1)).
Definition read_home_block (tail : Z) : K nat :=
  l <- getlog;;
  k <- lh_block_get tail;;
  bread (u32 (log_dev l)) (u32 k).

Definition install_one (recovering : Z) (tail : Z) : K unit :=
  lbuf <- read_log_block tail;;
  dbuf <- read_home_block tail;;
  d <- bdata lbuf;;
  _ <- set_bdata dbuf d;;
  _ <- bwrite dbuf;;
  _ <- when (recovering =? 0) (modbuf dbuf (set_b_disk 0));;
  _ <- brelse lbuf;;
  brelse dbuf.

Definition install_trans (recovering : Z) : K unit :=
  l <- getlog;;
  for_each (upto (lh_n l)) (install_one recovering).

Definition read_head : K unit :=
  l <- getlog;;
  buf <- bread (u32 (log_dev l)) (u32 (log_start l));;
  d <- bdata buf;;
  _ <- modlog (set_lh_n (hdr_n d));;
  _ <- for_each (upto (hdr_n d)) (fun i => lh_block_set i (hdr_block i d));;
  brelse buf.

Definition write_head : K unit :=
  l <- getlog;;
  buf <- bread (u32 (log_dev l)) (u32 (log_start l));;
  d <- bdata buf;;
  _ <- set_bdata buf (put_hdr_n (lh_n l) d);;
  _ <- for_each (upto (lh_n l)) (fun i =>
         k <- lh_block_get i;;
         d <- bdata buf;;
         set_bdata buf (put_hdr_block i k d));;
  _ <- bwrite buf;;
  brelse buf.

Definition recover_from_log : K unit :=
  _ <- read_head;;
  l <- getlog;;
  if 0 <? lh_n l then
    _ <- klog 1 (str "Recovering %d blocks from log..." ++ [10]) [AInt (lh_n l)];;
    _ <- install_trans 1;;
    _ <- modlog (set_lh_n 0);;
    write_head
  else ret tt.

Definition write_log_one (tail : Z) : K unit :=
  to <- read_log_block tail;;
  from <- read_home_block tail;;
  d <- bdata from;;
  _ <- set_bdata to d;;
  _ <- bwrite to;;
  _ <- brelse from;;
  brelse to.

Definition write_log : K unit :=
  l <- getlog;;
  for_each (upto (lh_n l)) write_log_one.

Definition commit : K unit :=
  l <- getlog;;
  if 0 <? lh_n l then
    _ <- write_log;;
    _ <- write_head;;
    _ <- install_trans 0;;
    _ <- modlog (set_lh_n 0);;
    write_head
  else ret tt.

(** [sizeof(struct logheader)] is 124 bytes. *)
Definition SIZEOF_LOGHEADER : Z := 4 + 4 * LOGBLOCKS.

Definition init_log (dev : Z) (sb : superblock) : K unit :=
  _ <- when (BSIZE <=? SIZEOF_LOGHEADER) (panic (str "init_log: too big logheader"));;
  _ <- modlog (set_log_start (i32 (sb_logstart sb)));;
  _ <- modlog (set_log_size (i32 (sb_nlog sb)));;
  _ <- modlog (set_log_dev dev);;
  _ <- modlog (set_log_lock 0);;
  _ <- recover_from_log;;
  l <- getlog;;
  klog 1 (str "Log system initialized: dev=%d start=%d size=%d" ++ [10])
    [AInt dev; AInt (log_start l); AInt (log_size l)].

(** The loop of [begin_op]: [sleep] returns at once when no process runs. *)
Fixpoint begin_op_loop (fuel : nat) : K unit :=
  match fuel with
  | O => out_of_fuel
  | S fuel' =>
      l <- getlog;;
      if negb (log_committing l =? 0) then
        _ <- sleep ChanLog;; begin_op_loop fuel'
      else if log_size l - 5 <? lh_n l + (log_outstanding l + 1) * 5 then
        _ <- sleep ChanLog;; begin_op_loop fuel'
      else
        _ <- modlog (upd_log_outstanding (fun n => i32 (n + 1)));;
        release_log
  end.

Definition begin_op (fuel : nat) : K unit :=
  _ <- acquire_log;;
  begin_op_loop fuel.

Definition end_op : K unit :=
  _ <- acquire_log;;
  _ <- modlog (upd_log_outstanding (fun n => i32 (n - 1)));;
  l <- getlog;;
  _ <- when (negb (log_committing l =? 0)) (panic (str "log: committing"));;
  l <- getlog;;
  do_commit <- (if log_outstanding l =? 0 then
                  _ <- modlog (set_log_committing 1);; ret true
                else _ <- wakeup ChanLog;; ret false);;
  _ <- release_log;;
  when do_commit
    (_ <- commit;;
     _ <- acquire_log;;
     _ <- modlog (set_log_committing 0);;
     _ <- wakeup ChanLog;;
     release_log).

Definition log_write (b : nat) : K unit :=
  _ <- acquire_log;;
  l <- getlog;;
  _ <- when (log_size l - 1 <=? lh_n l) (panic (str "log: too big"));;
  _ <- when (log_outstanding l <? 1) (panic (str "log: outside of trans"));;
  found <- for_find (upto (lh_n l)) (fun i =>
             k <- lh_block_get i;;
             bb <- getbuf b;;
             ret (if u32 k =? b_blockno bb then Some i else None));;
  let i := match found with Some i => i | None => Z.max 0 (lh_n l) end in
  _ <- when (i =? lh_n l)
         (bb <- getbuf b;;
          _ <- lh_block_set i (i32 (b_blockno bb));;
          modlog (upd_lh_n (fun n => i32 (n + 1))));;
  _ <- modbuf b (set_b_disk 1);;
  release_log.

(** ** Specification *)

(** *** Disks and sequences of writes *)

Abbreviation disk := (gmap Z (list Z)).

Definition wr (ws : list (Z * list Z)) (m : disk) : disk :=
  foldl (fun m w => <[w.1 := w.2]> m) m ws.

(** The same on the contents the cache shows, and on the kernel's state. *)
Definition overlay (ws : list (Z * list Z)) (L : blockmap) : blockmap :=
  foldl (fun L w => write w.1 w.2 L) L ws.
Definition written (ws : list (Z * list Z)) (R : kstate) : kstate :=
  foldl (fun R w => write_block w.1 w.2 R) R ws.

(** *** The header block *)

Definition hdr_image (n : Z) (bs : list Z) (d : list Z) : list Z :=
  foldl (fun d i => put_hdr_block i (default 0 (lget i bs)) d) (put_hdr_n n d) (upto n).

Definition hdr_blocks (h : list Z) : list Z := map (fun i => hdr_block i h) (upto (hdr_n h)).

(** *** Where things are *)

(** The log occupies the blocks [start] to [start + size - 1]. *)
Definition in_log (start size k : Z) : Prop := start <= k < start + size.

(** The log's blocks are on the disk, and its size is one the header can
    describe. *)
Record log_geo (l : log) (m : disk) : Prop := {
  lg_dev : log_dev l = 0;
  lg_start : 0 < log_start l;
  lg_size : 1 <= log_size l <= LOGBLOCKS;
  lg_end : log_start l + log_size l <= 2 ^ 31;
  lg_len : length (lh_block l) = Z.to_nat LOGBLOCKS;
  lg_disk : forall k, in_log (log_start l) (log_size l) k -> is_Some (m !! k) }.

(** The blocks of the running transaction. *)
Definition logged (l : log) : list Z := take (Z.to_nat (lh_n l)) (lh_block l).

Record txn_ok (l : log) (D : Z -> Prop) : Prop := {
  tx_n : 0 <= lh_n l <= log_size l - 1;
  tx_nodup : NoDup (logged l);
  tx_dirty : forall k, D k <-> k ∈ logged l;
  tx_home : forall k, k ∈ logged l -> ~ in_log (log_start l) (log_size l) k }.

(** *** What the loops write *)

(** The home address of the [i]-th logged block. *)
Definition home (l : log) (i : Z) : Z := default 0 (lget i (lh_block l)).

(** [write_log] writes the contents [L] of the logged blocks to the log, and
    [install_trans] the images in the log to their homes. *)
Definition log_writes (l : log) (L : blockmap) (n : Z) : list (Z * list Z) :=
  map (fun i => (log_start l + i + 1, default [] (L (home l i)))) (upto n).
Definition home_writes (l : log) (L : blockmap) (n : Z) : list (Z * list Z) :=
  map (fun i => (home l i, default [] (L (log_start l + i + 1)))) (upto n).

(** The writes of [commit], in order: the images, the header, the blocks in
    their homes, and the empty header.  [d0] is the header block before. *)
Definition new_writes (l : log) (L : blockmap) (n : Z) : list (Z * list Z) :=
  map (fun i => (home l i, default [] (L (home l i)))) (upto n).
Definition commit_writes (l : log) (L : blockmap) (d0 : list Z) : list (Z * list Z) :=
  let h := hdr_image (lh_n l) (lh_block l) d0 in
  log_writes l L (lh_n l) ++ [(log_start l, h)] ++
  new_writes l L (lh_n l) ++ [(log_start l, put_hdr_n 0 h)].

(** A header that recovery can follow. *)
Record hdr_wf (l : log) (m : disk) (h : list Z) : Prop := {
  hw_n : 0 <= hdr_n h <= log_size l - 1;
  hw_nodup : NoDup (hdr_blocks h);
  hw_home : forall k, k ∈ hdr_blocks h ->
    ~ in_log (log_start l) (log_size l) k /\ 0 < k < 2 ^ 31 /\ is_Some (m !! k) }.

(** The writes of recovery: the images to their homes, and the empty header. *)
Definition recovery_writes (start : Z) (h : list Z) (L : blockmap) : list (Z * list Z) :=
  if 0 <? hdr_n h then
    map (fun i => (hdr_block i h, default [] (L (start + i + 1)))) (upto (hdr_n h)) ++
    [(start, put_hdr_n 0 h)]
  else [].

(** The two logs differ in the header at most. *)
Definition log_same (l l' : log) : Prop := l' = set_lh_n (lh_n l') (set_lh_block (lh_block l') l).

(** ** Lemmas: sequences of writes *)

Lemma wr_app ws1 ws2 m : wr (ws1 ++ ws2) m = wr ws2 (wr ws1 m).
Proof. apply foldl_app. Qed.
Lemma overlay_app ws1 ws2 L : overlay (ws1 ++ ws2) L = overlay ws2 (overlay ws1 L).
Proof. apply foldl_app. Qed.
Lemma written_app ws1 ws2 R : written (ws1 ++ ws2) R = written ws2 (written ws1 R).
Proof. apply foldl_app. Qed.

Lemma wr_ne ws m k : k ∉ ws.*1 -> wr ws m !! k = m !! k.
Proof.
  induction ws as [|[k' d] ws IH] using rev_ind; [done|]. rewrite fmap_app. intros Hk.
  rewrite wr_app. cbn. rewrite lookup_insert_ne by set_solver. apply IH. set_solver.
Qed.

Lemma wr_eq ws m k d : NoDup ws.*1 -> (k, d) ∈ ws -> wr ws m !! k = Some d.
Proof.
  induction ws as [|[k' d'] ws IH] using rev_ind; [set_solver|]. rewrite fmap_app. cbn.
  intros (Hnd & Hdis & _)%NoDup_app Hin. rewrite wr_app. cbn.
  apply elem_of_app in Hin as [Hin|Hin].
  - rewrite lookup_insert_ne; [now apply IH|]. intros ->.
    apply (Hdis k); [now apply list_elem_of_fmap_2 with (f := fst) in Hin|set_solver].
  - apply list_elem_of_singleton in Hin as [= -> ->]. now rewrite lookup_insert_eq.
Qed.

Lemma overlay_ne ws L k : k ∉ ws.*1 -> overlay ws L k = L k.
Proof.
  induction ws as [|[k' d] ws IH] using rev_ind; [done|]. rewrite fmap_app. intros Hk.
  rewrite overlay_app. cbn. unfold write. rewrite decide_False by set_solver. apply IH. set_solver.
Qed.

Lemma written_disk ws R : ks_disk (written ws R) = wr ws (ks_disk R).
Proof.
  induction ws as [|w ws IH] using rev_ind; [done|].
  rewrite written_app, wr_app. cbn. now rewrite IH.
Qed.

Lemma written_writes ws R : ks_writes (written ws R) = ks_writes R ++ ws.
Proof.
  induction ws as [|[k d] ws IH] using rev_ind; [now rewrite app_nil_r|].
  rewrite written_app. cbn. now rewrite IH, app_assoc.
Qed.

Lemma written_log ws R : ks_log (written ws R) = ks_log R.
Proof.
  induction ws as [|w ws IH] using rev_ind; [done|]. rewrite written_app. cbn. exact IH.
Qed.

Lemma written_klog ws R : ks_klog (written ws R) = ks_klog R.
Proof.
  induction ws as [|w ws IH] using rev_ind; [done|]. rewrite written_app. cbn. exact IH.
Qed.

(** Composing updates of the log. *)
Lemma upd_log_upd f g R : upd_ks_log f (upd_ks_log g R) = upd_ks_log (fun l => f (g l)) R.
Proof. reflexivity. Qed.
Lemma upd_log_proc f g R : upd_ks_log f (upd_ks_proc g R) = upd_ks_proc g (upd_ks_log f R).
Proof. reflexivity. Qed.
Lemma upd_log_ext f g R : f (ks_log R) = g (ks_log R) -> upd_ks_log f R = upd_ks_log g R.
Proof. intros H. unfold upd_ks_log. now rewrite H. Qed.

Lemma written_upd_log f ws R : written ws (upd_ks_log f R) = upd_ks_log f (written ws R).
Proof.
  revert R. induction ws as [|w ws IH]; intros R; [reflexivity|]. exact (IH (write_block w.1 w.2 R)).
Qed.

Lemma written_proc ws R : ks_proc (written ws R) = ks_proc R.
Proof.
  induction ws as [|w ws IH] using rev_ind; [done|]. rewrite written_app. cbn. exact IH.
Qed.

(** ** Lemmas: the header *)

Lemma i32_mod x : i32 (x mod 256 ^ Z.of_nat 4) = i32 x.
Proof. exact (i32_u32 x). Qed.

Section header.
Context (d : list Z) (Hd : length d = Z.to_nat BSIZE).

Lemma length_put_hdr_n n : length (put_hdr_n n d) = Z.to_nat BSIZE.
Proof. unfold put_hdr_n. rewrite length_put_le; rewrite Hd; unfold BSIZE; lia. Qed.

Lemma length_put_hdr_block i v :
  0 <= i < LOGBLOCKS -> length (put_hdr_block i v d) = Z.to_nat BSIZE.
Proof.
  unfold put_hdr_block, LOGBLOCKS. intros. rewrite length_put_le; rewrite Hd; unfold BSIZE; lia.
Qed.

Lemma hdr_n_put_n n : hdr_n (put_hdr_n n d) = i32 n.
Proof.
  unfold hdr_n, put_hdr_n. rewrite get_put_le_eq by (rewrite Hd; unfold BSIZE; lia).
  apply i32_mod.
Qed.

Lemma hdr_block_put_n n i : 0 <= i -> hdr_block i (put_hdr_n n d) = hdr_block i d.
Proof.
  intros. unfold hdr_block, put_hdr_n.
  rewrite get_put_le_ne; [reflexivity|rewrite Hd; unfold BSIZE; lia|lia].
Qed.

Lemma hdr_n_put_block i v : 0 <= i < LOGBLOCKS -> hdr_n (put_hdr_block i v d) = hdr_n d.
Proof.
  unfold LOGBLOCKS. intros. unfold hdr_n, put_hdr_block.
  rewrite get_put_le_ne; [reflexivity|rewrite Hd; unfold BSIZE; lia|lia].
Qed.

Lemma hdr_block_put_block i v j :
  0 <= i < LOGBLOCKS -> 0 <= j ->
  hdr_block j (put_hdr_block i v d) = if decide (j = i) then i32 v else hdr_block j d.
Proof.
  unfold LOGBLOCKS. intros. unfold hdr_block, put_hdr_block. case_decide as E.
  - subst. rewrite get_put_le_eq by (rewrite Hd; unfold BSIZE; lia). apply i32_mod.
  - rewrite get_put_le_ne; [reflexivity|rewrite Hd; unfold BSIZE; lia|lia].
Qed.
End header.

(** The header after the first [m] steps of the loop of [write_head]. *)
Definition hdr_steps (m : nat) (n : Z) (bs d : list Z) : list Z :=
  foldl (fun d i => put_hdr_block i (default 0 (lget i bs)) d) (put_hdr_n n d) (upto (Z.of_nat m)).

Lemma hdr_steps_S m n bs d :
  hdr_steps (S m) n bs d =
  put_hdr_block (Z.of_nat m) (default 0 (lget (Z.of_nat m) bs)) (hdr_steps m n bs d).
Proof. unfold hdr_steps. rewrite upto_S, foldl_app. reflexivity. Qed.

Lemma hdr_steps_spec m n bs d :
  length d = Z.to_nat BSIZE -> Z.of_nat m <= LOGBLOCKS ->
  length (hdr_steps m n bs d) = Z.to_nat BSIZE /\ hdr_n (hdr_steps m n bs d) = i32 n /\
  forall i, 0 <= i < Z.of_nat m -> hdr_block i (hdr_steps m n bs d) = i32 (default 0 (lget i bs)).
Proof.
  intros Hd. induction m as [|m IH]; intros Hm.
  - split; [now apply length_put_hdr_n|]. split; [now apply hdr_n_put_n|]. lia.
  - destruct IH as (Hl & Hn & Hb); [lia|]. rewrite hdr_steps_S.
    split; [apply length_put_hdr_block; [exact Hl|lia]|].
    split; [rewrite hdr_n_put_block; [exact Hn|exact Hl|lia]|].
    intros i Hi. rewrite hdr_block_put_block; [|exact Hl|lia|lia].
    case_decide as E; [now rewrite E|]. apply Hb. lia.
Qed.

Lemma hdr_image_spec n bs d :
  length d = Z.to_nat BSIZE -> 0 <= n <= LOGBLOCKS ->
  length (hdr_image n bs d) = Z.to_nat BSIZE /\ hdr_n (hdr_image n bs d) = n /\
  forall i, 0 <= i < n -> hdr_block i (hdr_image n bs d) = i32 (default 0 (lget i bs)).
Proof.
  intros Hd Hn. destruct (hdr_steps_spec (Z.to_nat n) n bs d Hd) as (H1 & H2 & H3); [lia|].
  unfold hdr_steps in *. rewrite Z2Nat.id in * by lia. unfold LOGBLOCKS in Hn.
  split; [exact H1|]. split; [|exact H3]. transitivity (i32 n); [exact H2|apply i32_id; lia].
Qed.

Lemma lget_logged i l :
  0 <= i < lh_n l -> lh_n l <= Z.of_nat (length (lh_block l)) ->
  exists k, lget i (lh_block l) = Some k /\ logged l !! Z.to_nat i = Some k.
Proof.
  intros Hi Hn. destruct (lget_lt i (lh_block l)) as [k Hk]; [lia|]. exists k.
  split; [exact Hk|]. apply lget_Some in Hk as [_ Hk]. unfold logged.
  rewrite lookup_take_lt by lia. exact Hk.
Qed.

Lemma length_logged l :
  0 <= lh_n l <= Z.of_nat (length (lh_block l)) -> length (logged l) = Z.to_nat (lh_n l).
Proof. intros H. unfold logged. rewrite length_take. lia. Qed.

(** ** Lemmas: addresses *)

Lemma log_geo_wr l m ws : log_geo l m -> log_geo l (wr ws m).
Proof.
  intros [? ? ? ? ? Hd]. split; auto. intros k Hk.
  induction ws as [|w ws IH] using rev_ind; [now apply Hd|]. rewrite wr_app. cbn.
  destruct (decide (w.1 = k)) as [<-|]; [rewrite lookup_insert_eq; eauto|].
  now rewrite lookup_insert_ne.
Qed.

Lemma wr_is_Some ws m k : is_Some (m !! k) -> is_Some (wr ws m !! k).
Proof.
  intros Hk. induction ws as [|w ws IH] using rev_ind; [exact Hk|]. rewrite wr_app. cbn.
  destruct (decide (w.1 = k)) as [<-|]; [rewrite lookup_insert_eq; eauto|].
  now rewrite lookup_insert_ne.
Qed.

Lemma elem_of_log_writes l L n k :
  k ∈ (log_writes l L n).*1 -> log_start l < k <= log_start l + n.
Proof.
  unfold log_writes. rewrite <- list_fmap_compose. intros (i & -> & Hi)%list_elem_of_fmap.
  apply elem_of_upto in Hi. cbn. lia.
Qed.

Lemma elem_of_home_writes l L n k :
  k ∈ (home_writes l L n).*1 -> exists i, 0 <= i < n /\ k = home l i.
Proof.
  unfold home_writes. rewrite <- list_fmap_compose. intros (i & -> & Hi)%list_elem_of_fmap.
  apply elem_of_upto in Hi. eauto.
Qed.

Section homes.
Context (l : log) (Hn : 0 <= lh_n l <= Z.of_nat (length (lh_block l))).

Lemma lookup_home i : 0 <= i < lh_n l -> lget i (lh_block l) = Some (home l i) /\
                                        logged l !! Z.to_nat i = Some (home l i).
Proof.
  intros Hi. destruct (lget_logged i l Hi) as (k & H1 & H2); [lia|]. unfold home.
  rewrite H1. auto.
Qed.

Lemma elem_of_logged k : k ∈ logged l <-> exists i, 0 <= i < lh_n l /\ k = home l i.
Proof.
  split.
  - intros (i & Hi)%list_elem_of_lookup. pose proof (lookup_lt_Some _ _ _ Hi) as Hlt.
    rewrite (length_logged l Hn) in Hlt. exists (Z.of_nat i). split; [lia|].
    destruct (lookup_home (Z.of_nat i)) as [_ H]; [lia|]. rewrite Nat2Z.id in H. congruence.
  - intros (i & Hi & ->). apply list_elem_of_lookup. exists (Z.to_nat i). now apply lookup_home.
Qed.

Lemma home_inj i j :
  NoDup (logged l) -> 0 <= i < lh_n l -> 0 <= j < lh_n l -> home l i = home l j -> i = j.
Proof.
  intros Hnd Hi Hj E. destruct (lookup_home i Hi) as [_ H1], (lookup_home j Hj) as [_ H2].
  rewrite E in H1. pose proof (NoDup_lookup _ _ _ _ Hnd H1 H2). lia.
Qed.
End homes.

(** ** Lemmas: the steps of the log, against the block interface *)

(** Runs one operation by its law [law]. *)
Ltac wstep_by law := wstep; eapply wpx_conseq; [eapply law|].

Lemma outside_log f : outside (upd_ks_log f).
Proof. intros s. auto. Qed.
#[export] Hint Resolve outside_log : kern.

Section steps.
Context {view : view_pred} `{HB : !BlockCache view}.

Lemma view_log hs L D R s : view hs L D R s -> ks_log s = ks_log R.
Proof. intros Hv. destruct (view_rest _ _ _ _ _ Hv) as (bc & ->). reflexivity. Qed.

Lemma wp_getlog hs L D R s (Q : log -> kstate -> Prop) :
  view hs L D R s -> Q (ks_log R) s -> wp getlog Q s.
Proof. intros Hv HQ. unfold getlog, wp. apply wpx_gets. now rewrite (view_log _ _ _ _ _ Hv). Qed.

Lemma unmark_id k D : ~ D k -> forall k', unmark k D k' <-> D k'.
Proof. unfold unmark. intros H k'. split; [tauto|]. intros Hk. split; [congruence|exact Hk]. Qed.

(** Reading the image of the [t]-th logged block. *)
Lemma read_log_block_spec hs L D R s t :
  view hs L D R s -> log_geo (ks_log R) (ks_disk R) ->
  (length hs < 1000)%nat -> roomy hs D -> 0 <= t -> t + 1 < log_size (ks_log R) ->
  wp (read_log_block t) (fun i s' => view ((log_start (ks_log R) + t + 1, i) :: hs) L D R s') s.
Proof.
  intros Hv Hgeo Hlen Hroom Ht Hs. pose proof (lg_start _ _ Hgeo). pose proof (lg_end _ _ Hgeo).
  unfold read_log_block. wstep. eapply wp_getlog; [exact Hv|]. rewrite (lg_dev _ _ Hgeo).
  change (u32 0) with 0. rewrite u32_id by lia. apply view_bread; auto; [lia|].
  apply (lg_disk _ _ Hgeo). unfold in_log. lia.
Qed.

(** Reading the [t]-th logged block itself. *)
Lemma read_home_block_spec hs L D R s t k :
  view hs L D R s -> log_geo (ks_log R) (ks_disk R) -> (length hs < 1000)%nat ->
  lget t (lh_block (ks_log R)) = Some k -> 0 < k < 2 ^ 31 -> is_Some (ks_disk R !! k) ->
  roomy hs D \/ D k \/ k ∈ hs.*1 ->
  wp (read_home_block t) (fun i s' => view ((k, i) :: hs) L D R s') s.
Proof.
  intros Hv Hgeo Hlen Hk Hpos Hd Hroom. unfold read_home_block, lh_block_get.
  wstep. eapply wp_getlog; [exact Hv|]. wstep. wstep. eapply wp_getlog; [exact Hv|].
  rewrite Hk, (lg_dev _ _ Hgeo). cbn [of_opt]. apply wpx_ret.
  change (u32 0) with 0. rewrite u32_id by lia. now apply view_bread.
Qed.

(** One step of [write_log] writes the image of a dirty block. *)
Lemma write_log_one_spec L D R s t k d :
  let lk := log_start (ks_log R) + t + 1 in
  view [] L D R s -> log_geo (ks_log R) (ks_disk R) -> roomy [] D ->
  0 <= t -> t + 1 < log_size (ks_log R) -> lget t (lh_block (ks_log R)) = Some k ->
  D k -> ~ D lk -> L k = Some d ->
  wp (write_log_one t) (fun _ s' => view [] (write lk d L) D (write_block lk d R) s') s.
Proof.
  intros lk Hv Hgeo Hroom Ht Ht' Hk Hdk Hlk HL.
  destruct (view_dirty _ _ _ _ _ _ Hv Hdk) as [Hpos Hdisk].
  unfold write_log_one.
  wcall (read_log_block_spec [] L D R s t) as to s1 Hv1; auto; [cbn; lia|]. fold lk in Hv1.
  wcall (read_home_block_spec _ _ _ _ _ _ k Hv1) as from s2 Hv2; auto; [cbn; lia|].
  wcall (view_bdata _ _ _ _ _ k from Hv2) as d' s' (-> & HL' & Hlen); [set_solver|].
  assert (d' = d) as -> by congruence.
  wcall (view_set_bdata _ _ _ _ _ lk to d Hv2) as [] s3 Hv3; [set_solver|exact Hlen|].
  assert (write lk d L lk = Some d) as HLk by (unfold write; now rewrite decide_True).
  wcall (view_bwrite _ _ _ _ _ lk to d Hv3) as [] s4 Hv4; [set_solver|exact HLk|].
  eapply view_ext in Hv4; [|reflexivity|reflexivity|apply (unmark_id _ _ Hlk)].
  wcall (view_brelse _ _ _ _ _ _ _ Hv4) as [] s5 Hv5; [now left|].
  eapply view_brelse; [exact Hv5|]. right. cbn. now rewrite HLk, lookup_insert_eq.
Qed.

(** One step of [install_trans] copies an image home. *)
Lemma install_one_spec rec L D R s t k d :
  let lk := log_start (ks_log R) + t + 1 in
  view [] L D R s -> log_geo (ks_log R) (ks_disk R) -> roomy [] D ->
  0 <= t -> t + 1 < log_size (ks_log R) -> lget t (lh_block (ks_log R)) = Some k ->
  0 < k < 2 ^ 31 -> is_Some (ks_disk R !! k) -> D k \/ roomy [(lk, O)] D ->
  ~ D lk -> k <> lk -> L lk = Some d ->
  wp (install_one rec t) (fun _ s' => view [] (write k d L) (unmark k D) (write_block k d R) s') s.
Proof.
  intros lk Hv Hgeo Hroom Ht Ht' Hk Hpos Hdisk Hroom' Hlk Hne HL.
  unfold install_one.
  wcall (read_log_block_spec [] L D R s t) as lbuf s1 Hv1; auto; [cbn; lia|]. fold lk in Hv1.
  wcall (read_home_block_spec _ _ _ _ _ _ k Hv1) as dbuf s2 Hv2; auto;
    [cbn; lia|destruct Hroom' as [?|Hr]; [auto|left; exact Hr]|].
  wcall (view_bdata _ _ _ _ _ lk lbuf Hv2) as d' s' (-> & HL' & Hlen); [set_solver|].
  assert (d' = d) as -> by congruence.
  wcall (view_set_bdata _ _ _ _ _ k dbuf d Hv2) as [] s3 Hv3; [set_solver|exact Hlen|].
  assert (write k d L k = Some d) as HLk by (unfold write; now rewrite decide_True).
  assert (ks_disk R !! lk = Some d) as Hdlk.
  { rewrite <- HL. symmetry. eapply view_clean; [exact Hv|set_solver|exact Hlk]. }
  wcall (view_bwrite _ _ _ _ _ k dbuf d Hv3) as [] s4 Hv4; [set_solver|exact HLk|].
  assert (wp (when (rec =? 0) (modbuf dbuf (set_b_disk 0))) (fun _ s' =>
            view [(k, dbuf); (lk, lbuf)] (write k d L) (unmark k D) (write_block k d R) s') s4)
    as Hwhen.
  { destruct (rec =? 0); [|exact Hv4].
    eapply wpx_conseq; [apply (view_unmark _ _ _ _ _ k dbuf Hv4); set_solver|].
    intros [] s5 Hv5. eapply view_ext; [reflexivity|reflexivity| |exact Hv5].
    unfold unmark. tauto. }
  wcall Hwhen as [] s5 Hv5.
  eapply (view_ext _ [(lk, lbuf); (k, dbuf)]) in Hv5;
    [|apply perm_swap|reflexivity|reflexivity].
  wcall (view_brelse _ _ _ _ _ _ _ Hv5) as [] s6 Hv6.
  - right. unfold write. cbn. rewrite decide_False by congruence.
    now rewrite lookup_insert_ne, HL, Hdlk by congruence.
  - eapply view_brelse; [exact Hv6|]. right. cbn. now rewrite HLk, lookup_insert_eq.
Qed.
(** [write_head] writes the header of the transaction in memory. *)
Lemma write_head_spec L D R s d :
  let l := ks_log R in
  view [] L D R s -> log_geo l (ks_disk R) -> roomy [] D -> 0 <= lh_n l <= LOGBLOCKS ->
  ~ D (log_start l) -> L (log_start l) = Some d ->
  let h := hdr_image (lh_n l) (lh_block l) d in
  wp write_head (fun _ s' => view [] (write (log_start l) h L) D (write_block (log_start l) h R) s') s.
Proof.
  intros l Hv Hgeo Hroom Hn HD HL h. pose proof (lg_start _ _ Hgeo). pose proof (lg_end _ _ Hgeo).
  pose proof (lg_size _ _ Hgeo).
  unfold write_head. wstep. eapply wp_getlog; [exact Hv|]. fold l.
  rewrite (lg_dev _ _ Hgeo). change (u32 0) with 0. rewrite u32_id by lia.
  wcall (view_bread _ _ _ _ _ (log_start l) Hv) as buf s1 Hv1;
    [lia|apply (lg_disk _ _ Hgeo); unfold in_log; lia|cbn; lia|now left|].
  wcall (view_bdata _ _ _ _ _ (log_start l) buf Hv1) as d' s' (-> & HL' & Hlen); [set_solver|].
  assert (d' = d) as -> by congruence.
  wcall (view_set_bdata _ _ _ _ _ (log_start l) buf (put_hdr_n (lh_n l) d) Hv1) as [] s2 Hv2;
    [set_solver|now apply length_put_hdr_n|].
  wcall (wpx_upto _ _ (lh_n l) (fun t s => view [(log_start l, buf)]
           (write (log_start l) (hdr_steps (Z.to_nat t) (lh_n l) (lh_block l) d) L) D R s))
    as [] s3 Hv3; [intros t s3 Ht Hv3|lia|exact Hv2|].
  - destruct (hdr_steps_spec (Z.to_nat t) (lh_n l) (lh_block l) d) as (Hl3 & _); [exact Hlen|lia|].
    unfold lh_block_get. wstep. wstep. eapply wp_getlog; [exact Hv3|]. fold l.
    destruct (lget_lt t (lh_block l)) as [k Hk]; [rewrite (lg_len _ _ Hgeo); lia|].
    rewrite Hk. apply wpx_ret.
    wcall (view_bdata _ _ _ _ _ (log_start l) buf Hv3) as d3 s' (-> & HL3 & Hlen3); [set_solver|].
    unfold write in HL3. rewrite decide_True in HL3 by done. injection HL3 as <-.
    wcall (view_set_bdata _ _ _ _ _ (log_start l) buf (put_hdr_block t k
            (hdr_steps (Z.to_nat t) (lh_n l) (lh_block l) d)) Hv3) as [] s4 Hv4;
      [set_solver|now apply length_put_hdr_block; [|lia]|].
    eapply view_ext; [reflexivity| |reflexivity|exact Hv4]. intros k'.
    replace (Z.to_nat (t + 1)) with (S (Z.to_nat t)) by lia. rewrite hdr_steps_S, Z2Nat.id, Hk by lia.
    unfold write. now case_decide.
  - unfold hdr_steps in Hv3. rewrite Z2Nat.id in Hv3 by lia.
    wcall (view_bwrite _ _ _ _ _ (log_start l) buf h Hv3) as [] s4 Hv4;
      [set_solver|unfold write; now rewrite decide_True|].
    eapply view_ext in Hv4; [|reflexivity|reflexivity|apply (unmark_id _ _ HD)].
    eapply view_brelse; [exact Hv4|]. right. unfold write. cbn.
    now rewrite decide_True, lookup_insert_eq.
Qed.
(** [write_log] writes the images of the blocks of the transaction. *)
Lemma write_log_spec L D R s :
  let l := ks_log R in
  view [] L D R s -> log_geo l (ks_disk R) -> txn_ok l D ->
  wp write_log (fun _ s' => view [] (overlay (log_writes l L (lh_n l)) L) D
                              (written (log_writes l L (lh_n l)) R) s') s.
Proof.
  intros l Hv Hgeo [Hn Hnd HD Hhome]. pose proof (lg_size _ _ Hgeo) as Hsz.
  pose proof (lg_len _ _ Hgeo) as Hlen. unfold LOGBLOCKS in *.
  assert (0 <= lh_n l <= Z.of_nat (length (lh_block l))) as Hn' by lia.
  unfold write_log. wstep. eapply wp_getlog; [exact Hv|]. fold l.
  apply (wpx_upto _ _ _ (fun t s => view [] (overlay (log_writes l L t) L) D
                                      (written (log_writes l L t) R) s)); [|lia|exact Hv].
  intros t s1 Ht Hv1. set (ws := log_writes l L t) in *.
  assert (ks_log (written ws R) = l) as Hl by apply written_log.
  destruct (lookup_home l Hn' t Ht) as [Hk Hk'].
  assert (D (home l t)) as HDk by (apply HD; apply list_elem_of_lookup; eauto).
  assert (forall k, in_log (log_start l) (log_size l) k -> ~ D k) as Hlog.
  { intros k Hin HDk'. apply HD in HDk'. exact (Hhome k HDk' Hin). }
  destruct (view_dirty _ _ _ _ _ _ Hv HDk) as [_ [d0 Hd0]].
  destruct (view_total _ _ _ _ _ _ _ Hv Hd0) as (d & Hd & _).
  eapply wpx_conseq.
  - apply (write_log_one_spec (overlay ws L) D (written ws R) s1 t (home l t) d Hv1);
      rewrite ?Hl, ?written_disk; try assumption; try lia; [now apply log_geo_wr| | |].
    + exists (logged l). split; [rewrite (length_logged l Hn'); unfold NBUF; lia|].
      intros k [Hx|Hx]; [set_solver|now apply HD].
    + apply Hlog. unfold in_log. lia.
    + rewrite overlay_ne; [exact Hd|]. intros Hin%elem_of_log_writes.
      apply (Hhome (home l t)); [now apply HD|unfold in_log; lia].
  - intros [] s2 Hv2. unfold log_writes. rewrite upto_succ, map_app by lia.
    fold (log_writes l L t). fold ws. rewrite overlay_app, written_app. cbn. rewrite Hd. cbn.
    replace (log_start l + t + 1) with (log_start (ks_log (written ws R)) + t + 1) by now rewrite Hl.
    exact Hv2.
Qed.

(** [install_trans] copies the images home; [D] is the set of the logged
    blocks when a transaction commits and empty when the kernel recovers. *)
Lemma install_trans_spec rec L D R s :
  let l := ks_log R in
  view [] L D R s -> log_geo l (ks_disk R) -> 0 <= lh_n l <= log_size l - 1 ->
  NoDup (logged l) -> (forall k, k ∈ logged l -> ~ in_log (log_start l) (log_size l) k /\
                                             0 < k < 2 ^ 31 /\ is_Some (ks_disk R !! k)) ->
  (forall k, D k <-> k ∈ logged l) \/ (forall k, ~ D k) ->
  wp (install_trans rec)
    (fun _ s' => view [] (overlay (home_writes l L (lh_n l)) L) (fun _ => False)
                   (written (home_writes l L (lh_n l)) R) s') s.
Proof.
  intros l Hv Hgeo Hn Hnd Hhome HD. pose proof (lg_size _ _ Hgeo) as Hsz.
  pose proof (lg_len _ _ Hgeo) as Hlen. unfold LOGBLOCKS in *.
  assert (0 <= lh_n l <= Z.of_nat (length (lh_block l))) as Hn' by lia.
  pose proof (elem_of_logged l Hn') as Hin.
  assert (forall k, D k -> k ∈ logged l) as HDin
    by (intros k Hk; destruct HD as [HD|HD]; [now apply HD|now destruct (HD k)]).
  unfold install_trans. wstep. eapply wp_getlog; [exact Hv|]. fold l.
  set (Dt t := fun k => D k /\ exists i, t <= i < lh_n l /\ k = home l i).
  eapply wpx_conseq; [apply (wpx_upto _ _ _ (fun t s => view [] (overlay (home_writes l L t) L) (Dt t)
           (written (home_writes l L t) R) s)); [|lia|]|].
  - intros t s1 Ht Hv1. set (ws := home_writes l L t) in *.
    assert (ks_log (written ws R) = l) as Hl by apply written_log.
    destruct (lookup_home l Hn' t Ht) as [Hk Hk'].
    destruct (Hhome (home l t)) as (Hnl & Hpos & Hdisk); [apply Hin; eauto|].
    assert (in_log (log_start l) (log_size l) (log_start l + t + 1)) as Hlk by (unfold in_log; lia).
    destruct (lg_disk _ _ Hgeo _ Hlk) as [d0 Hd0].
    destruct (view_total _ _ _ _ _ _ _ Hv Hd0) as (d & Hd & _).
    eapply wpx_conseq.
    + apply (install_one_spec rec (overlay ws L) (Dt t) (written ws R) s1 t (home l t) d Hv1);
        rewrite ?Hl, ?written_disk; try assumption; try lia.
      * now apply log_geo_wr.
      * exists (logged l). split; [rewrite (length_logged l Hn'); unfold NBUF; lia|].
        intros k [Hx|[Hx _]]; [set_solver|auto].
      * now apply wr_is_Some.
      * destruct HD as [HD|HD]; [left; split; [apply HD, Hin; eauto|exists t; split; [lia|done]]|].
        right. exists [log_start l + t + 1]. split; [unfold NBUF; cbn; lia|].
        intros k [Hx|[Hx _]]; [set_solver|now destruct (HD k)].
      * intros [Hx%HDin _]. now apply Hhome in Hx as [].
      * intros E. rewrite E in Hnl. contradiction.
      * rewrite overlay_ne; [exact Hd|]. intros (i & Hi & E)%elem_of_home_writes.
        apply (proj1 (Hhome (home l i) ltac:(apply Hin; exists i; split; [lia|done]))).
        now rewrite <- E.
    + intros [] s2 Hv2. unfold home_writes. rewrite upto_succ, map_app by lia.
      fold (home_writes l L t). fold ws. rewrite overlay_app, written_app. cbn. rewrite Hd. cbn.
      eapply view_ext; [reflexivity|reflexivity| |exact Hv2].
      intros k. unfold unmark, Dt. split.
      * intros (Hne & HDk & i & Hi & ->). split; [exact HDk|]. exists i. split; [|done].
        assert (i <> t) by congruence. lia.
      * intros (HDk & i & Hi & ->). split; [|split; [exact HDk|exists i; split; [lia|done]]].
        intros E. apply (home_inj l Hn') in E; auto; lia.
  - eapply view_ext; [reflexivity|reflexivity| |exact Hv]. intros k. unfold Dt. split; [|tauto].
    intros HDk. split; [exact HDk|]. now apply Hin, HDin.
  - intros [] s1 Hv1. eapply view_ext; [reflexivity|reflexivity| |exact Hv1].
    intros k. unfold Dt. split; [|tauto]. intros (_ & i & Hi & _). lia.
Qed.
Lemma view_set_log hs L D R s f : view hs L D R s -> view hs L D (upd_ks_log f R) (upd_ks_log f s).
Proof. apply view_outside. apply outside_log. Qed.

Lemma roomy_logged l D :
  txn_ok l D -> log_size l <= LOGBLOCKS -> length (lh_block l) = Z.to_nat LOGBLOCKS -> roomy [] D.
Proof.
  intros [Hn _ HD _] Hs Hlen. unfold LOGBLOCKS in *. exists (logged l).
  split; [rewrite length_logged by lia; unfold NBUF; lia|].
  intros k [Hx|Hx]; [set_solver|now apply HD].
Qed.

Lemma roomy_empty : roomy [] (fun _ => False).
Proof. exists []. split; [unfold NBUF; cbn; lia|]. set_solver. Qed.

Lemma overlay_log_writes l L (m : nat) i :
  0 <= i < Z.of_nat m -> forall n, n = Z.of_nat m ->
  overlay (log_writes l L n) L (log_start l + i + 1) = Some (default [] (L (home l i))).
Proof.
  intros Hi n ->. induction m as [|m IH]; [lia|]. unfold log_writes.
  rewrite upto_S, map_app, overlay_app. fold (log_writes l L (Z.of_nat m)). cbn.
  unfold write. case_decide as E; [now assert (i = Z.of_nat m) as -> by lia|]. apply IH. lia.
Qed.

(** The images [write_log] left in the log are what [install_trans] reads. *)
Lemma home_writes_images l L h :
  0 <= lh_n l <= Z.of_nat (length (lh_block l)) -> NoDup (logged l) ->
  home_writes l (overlay (log_writes l L (lh_n l) ++ [(log_start l, h)]) L) (lh_n l) =
  new_writes l L (lh_n l).
Proof.
  intros Hn Hnd. unfold home_writes, new_writes. apply map_ext_in. intros i Hi.
  apply list_elem_of_In, elem_of_upto in Hi. f_equal.
  rewrite overlay_app. cbn. unfold write at 1. rewrite decide_False by lia.
  now rewrite (overlay_log_writes l L (Z.to_nat (lh_n l)) i) by lia.
Qed.

(** [commit] performs [commit_writes] and leaves nothing dirty. *)
Lemma commit_spec L D R s d0 :
  let l := ks_log R in
  view [] L D R s -> log_geo l (ks_disk R) -> txn_ok l D -> 0 < lh_n l ->
  L (log_start l) = Some d0 -> length d0 = Z.to_nat BSIZE ->
  let ws := commit_writes l L d0 in
  wp commit (fun _ s' => view [] (overlay ws L) (fun _ => False)
                           (upd_ks_log (set_lh_n 0) (written ws R)) s') s.
Proof.
  intros l Hv Hgeo Htx Hpos HL Hlen ws. pose proof Htx as [Hn Hnd HD Hhome].
  pose proof (lg_size _ _ Hgeo) as Hsz. pose proof (lg_len _ _ Hgeo) as Hbl.
  assert (0 <= lh_n l <= Z.of_nat (length (lh_block l))) as Hn' by (unfold LOGBLOCKS in *; lia).
  assert (~ D (log_start l)) as HDs.
  { intros Hx%HD. apply (Hhome _ Hx). unfold in_log. lia. }
  set (ws1 := log_writes l L (lh_n l)). set (h := hdr_image (lh_n l) (lh_block l) d0).
  unfold commit. wstep. eapply wp_getlog; [exact Hv|]. fold l.
  destruct (Z.ltb_spec 0 (lh_n l)); [|lia].
  wcall (write_log_spec L D R s) as [] s1 Hv1; [exact Hv|exact Hgeo|exact Htx|]. fold l ws1 in Hv1.
  wcall (write_head_spec (overlay ws1 L) D (written ws1 R) s1 d0) as [] s2 Hv2;
    rewrite ?written_log, ?written_disk; fold l; [exact Hv1|now apply log_geo_wr|
      eapply roomy_logged; eauto; lia|lia|exact HDs| |].
  { rewrite overlay_ne; [exact HL|]. intros Hx%elem_of_log_writes. lia. }
  rewrite written_log in Hv2. fold l h in Hv2.
  change (view [] (overlay [(log_start l, h)] (overlay ws1 L)) D
            (written [(log_start l, h)] (written ws1 R)) s2) in Hv2.
  rewrite <- overlay_app, <- written_app in Hv2. set (ws2 := ws1 ++ [(log_start l, h)]) in *.
  wcall (install_trans_spec 0 _ _ _ _ Hv2) as [] s3 Hv3; rewrite ?written_log, ?written_disk;
    fold l; [now apply log_geo_wr|lia|exact Hnd| |now left|].
  { intros k Hk. split; [now apply Hhome|]. apply HD in Hk.
    destruct (view_dirty _ _ _ _ _ _ Hv Hk). split; [lia|now apply wr_is_Some]. }
  rewrite written_log in Hv3. fold l in Hv3.
  pose proof (home_writes_images l L h Hn' Hnd) as E. fold ws1 ws2 in E. rewrite E in Hv3. clear E.
  rewrite <- overlay_app, <- written_app in Hv3. set (ws3 := ws2 ++ new_writes l L (lh_n l)) in *.
  wstep. unfold modlog. apply wpx_modify. apply (view_set_log _ _ _ _ _ (set_lh_n 0)) in Hv3.
  eapply wpx_conseq; [apply (write_head_spec _ _ _ _ h Hv3)|]; fields;
    rewrite ?written_log, ?written_disk; fold l.
  - destruct (log_geo_wr l (ks_disk R) ws3 Hgeo). split; fields; assumption.
  - exact roomy_empty.
  - unfold LOGBLOCKS. lia.
  - tauto.
  - unfold ws3, ws2. rewrite !overlay_app. rewrite overlay_ne; [cbn; unfold write; now rewrite decide_True|].
    unfold new_writes. rewrite <- list_fmap_compose. intros (i & E & Hi)%list_elem_of_fmap.
    apply elem_of_upto in Hi. cbn in E. apply (Hhome (log_start l)); [|unfold in_log; lia].
    rewrite E. apply (elem_of_logged l Hn'). eauto.
  - intros [] s4 Hv4.
    assert (ws = ws3 ++ [(log_start l, put_hdr_n 0 h)]) as ->
      by (unfold ws, commit_writes, ws3, ws2; now rewrite <- !app_assoc).
    rewrite overlay_app, written_app. exact Hv4.
Qed.
(** *** Recovery *)

(** Logging does not concern the blocks. *)
Lemma klog_view hs L D R s fmt ap :
  view hs L D R s -> kl_ok (ks_klog R) -> is_Some (klog_text fmt ap) ->
  wp (klog 1 fmt ap) (fun _ s' => exists R', logging_only R R' /\ kl_ok (ks_klog R') /\
                                  view hs L D R' s') s.
Proof.
  intros Hv Hok [[tc tb] Ht]. destruct (view_rest _ _ _ _ _ Hv) as (bc & Hs).
  assert (ks_klog s = ks_klog R) as Hkl by now rewrite Hs.
  destruct (decide (kl_enabled (ks_klog s) = 0)) as [He|He].
  - apply wp_Ok. exists tt, s. split; [|exists R; split; [now destruct R|auto]].
    unfold klog, gets, bind. cbn [obind]. now rewrite He.
  - apply wp_Ok. exists tt, (klogged 1 tc tb s).
    split; [rewrite klog_run, Ht; [reflexivity|now rewrite Hkl|exact He|lia]|].
    exists (klogged 1 tc tb R). split; [reflexivity|]. split; [now apply klogged_ok|].
    apply view_outside; [|exact Hv]. intros s0. auto.
Qed.

(** The header read back from block [log_start]. *)
Definition loaded (h bl : list Z) : log -> log := fun l => set_lh_block bl (set_lh_n (hdr_n h) l).

Lemma read_head_spec L D R s h :
  let l := ks_log R in
  view [] L D R s -> log_geo l (ks_disk R) -> roomy [] D ->
  L (log_start l) = Some h -> ~ D (log_start l) -> 0 <= hdr_n h <= LOGBLOCKS ->
  wp read_head (fun _ s' => exists bl, length bl = Z.to_nat LOGBLOCKS /\
      take (Z.to_nat (hdr_n h)) bl = hdr_blocks h /\
      view [] L D (upd_ks_log (loaded h bl) R) s') s.
Proof.
  intros l Hv Hgeo Hroom HL HD Hn. pose proof (lg_start _ _ Hgeo). pose proof (lg_end _ _ Hgeo).
  pose proof (lg_size _ _ Hgeo). unfold LOGBLOCKS in *.
  unfold read_head. wstep. eapply wp_getlog; [exact Hv|]. fold l.
  rewrite (lg_dev _ _ Hgeo). change (u32 0) with 0. rewrite u32_id by lia.
  wcall (view_bread _ _ _ _ _ (log_start l) Hv) as buf s1 Hv1;
    [lia|apply (lg_disk _ _ Hgeo); unfold in_log; lia|cbn; lia|now left|].
  wcall (view_bdata _ _ _ _ _ (log_start l) buf Hv1) as d' s' (-> & HL' & Hlen); [set_solver|].
  assert (d' = h) as -> by congruence.
  wstep. unfold modlog at 1. apply wpx_modify.
  apply (view_set_log _ _ _ _ _ (set_lh_n (hdr_n h))) in Hv1.
  wcall (wpx_upto _ _ (hdr_n h) (fun t s => exists bl, length bl = Z.to_nat LOGBLOCKS /\
           take (Z.to_nat t) bl = map (fun i => hdr_block i h) (upto t) /\
           view [(log_start l, buf)] L D (upd_ks_log (loaded h bl) R) s))
    as [] s2 (bl & Hbl & Htk & Hv2); [|lia| |].
  - intros t s2 Ht (bl & Hbl & Htk & Hv2). unfold lh_block_set. unfold LOGBLOCKS in Hbl.
    wstep. eapply wp_getlog; [exact Hv2|]. fields.
    change (lh_block (loaded h bl (ks_log R))) with bl.
    rewrite lset_Some by lia. cbn [of_opt]. wstep. wstep. apply wpx_modify.
    apply (view_set_log _ _ _ _ _ (set_lh_block (<[Z.to_nat t:=hdr_block t h]> bl))) in Hv2.
    exists (<[Z.to_nat t := hdr_block t h]> bl). rewrite length_insert.
    split; [exact Hbl|]. split; [|exact Hv2].
    rewrite upto_succ, map_app, <- Htk by lia. cbn.
    replace (Z.to_nat (t + 1)) with (S (Z.to_nat t)) by lia.
    erewrite take_S_r by (apply list_lookup_insert_eq; lia). now rewrite take_insert_ge by lia.
  - exists (lh_block l). split; [apply Hgeo|]. split; [reflexivity|].
    unfold loaded. destruct R as [? ? ? ? ? ? ? ? ? ? ? ? ? ? [] ? ? ?]. exact Hv1.
  - eapply wpx_conseq; [apply (view_brelse _ _ _ _ _ _ _ Hv2)|].
    + right. fields. eapply view_clean; [exact Hv|set_solver|exact HD].
    + intros [] s3 Hv3. exists bl. auto.
Qed.
Lemma loaded_geo l m h bl :
  log_geo l m -> length bl = Z.to_nat LOGBLOCKS -> log_geo (loaded h bl l) m.
Proof. intros [] Hbl. split; unfold loaded; fields; assumption. Qed.

Lemma loaded_home h bl l i :
  take (Z.to_nat (hdr_n h)) bl = hdr_blocks h -> 0 <= i < hdr_n h ->
  home (loaded h bl l) i = hdr_block i h.
Proof.
  intros Htk Hi. unfold home, loaded. fields. unfold lget. rewrite decide_True by lia.
  rewrite <- (lookup_take_lt bl (Z.to_nat (hdr_n h))) by lia. rewrite Htk. unfold hdr_blocks.
  rewrite lookup_map_upto, decide_True by lia. cbn. f_equal. lia.
Qed.

Lemma loaded_home_writes h bl l L :
  take (Z.to_nat (hdr_n h)) bl = hdr_blocks h ->
  home_writes (loaded h bl l) L (hdr_n h) =
  map (fun i => (hdr_block i h, default [] (L (log_start l + i + 1)))) (upto (hdr_n h)).
Proof.
  intros Htk. unfold home_writes. apply map_ext_in. intros i Hi.
  apply list_elem_of_In, elem_of_upto in Hi. now rewrite (loaded_home h bl l i Htk Hi).
Qed.

(** The state outside of the cache, the disk, the log, the processes and the
    console. *)
Definition outer (s : kstate) : kstate :=
  set_ks_bcache [] (set_ks_disk ∅ (set_ks_writes [] (set_ks_log (mkLog 0 0 0 0 0 0 [] 0) (set_ks_proc []
    (set_ks_uart [] (set_ks_klog zero_klog (set_ks_reads 0%nat s))))))).

Lemma outer_log f s : outer (upd_ks_log f s) = outer s.
Proof. reflexivity. Qed.

Lemma outer_logging s s' : logging_only s s' -> outer s' = outer s.
Proof. intros ->. reflexivity. Qed.

Lemma outer_written ws R : outer (written ws R) = outer R.
Proof. unfold written. revert R. induction ws as [|w ws IH]; intros R; [reflexivity|]. cbn [foldl]. now rewrite IH. Qed.

(** [recover_from_log] performs [recovery_writes]. *)
Lemma recover_spec L R s h :
  let l := ks_log R in
  view [] L (fun _ => False) R s -> log_geo l (ks_disk R) -> kl_ok (ks_klog R) ->
  L (log_start l) = Some h -> length h = Z.to_nat BSIZE -> hdr_wf l (ks_disk R) h ->
  let ws := recovery_writes (log_start l) h L in
  wp recover_from_log (fun _ s' => exists R',
      ks_disk R' = ks_disk R /\ ks_writes R' = ks_writes R /\ kl_ok (ks_klog R') /\
      ks_proc R' = ks_proc R /\ log_same l (ks_log R') /\ lh_n (ks_log R') = 0 /\
      length (lh_block (ks_log R')) = Z.to_nat LOGBLOCKS /\ outer R' = outer R /\
      view [] (overlay ws L) (fun _ => False) (written ws R') s') s.
Proof.
  intros l Hv Hgeo Hkl HL Hlen [Hn Hnd Hhome] ws. pose proof (lg_size _ _ Hgeo) as Hsz.
  unfold recover_from_log.
  wcall (read_head_spec L (fun _ => False) R s h) as [] s1 (bl & Hbl & Htk & Hv1); fold l;
    [exact Hv|exact Hgeo|exact roomy_empty|exact HL|tauto|lia|].
  wstep. eapply wp_getlog; [exact Hv1|]. fields. fold l.
  change (lh_n (loaded h bl l)) with (hdr_n h). unfold ws, recovery_writes.
  destruct (Z.ltb_spec 0 (hdr_n h)) as [Hpos|Hzero].
  2: { apply wpx_ret. exists (upd_ks_log (loaded h bl) R).
       do 5 (split; [reflexivity || exact Hkl|]).
       unfold loaded in *. fields. split; [lia|]. split; [exact Hbl|]. split; [reflexivity|]. exact Hv1. }
  set (R1 := upd_ks_log (loaded h bl) R) in *.
  wcall (klog_view _ _ _ R1 _ _ _ Hv1) as [] s2 (R2 & Hlo & Hkl2 & Hv2); [exact Hkl|now eexists|].
  assert (ks_log R2 = loaded h bl l /\ ks_disk R2 = ks_disk R /\ ks_writes R2 = ks_writes R /\
          ks_proc R2 = ks_proc R) as (El & Ed & Ew & Ep) by now rewrite Hlo.
  pose proof (loaded_geo l (ks_disk R) h bl Hgeo Hbl) as Hgeo2.
  wcall (install_trans_spec 1 L (fun _ => False) R2 s2) as [] s3 Hv3; rewrite ?El, ?Ed;
    [exact Hv2|exact Hgeo2|exact Hn| | |now right|].
  { unfold logged, loaded. fields. now rewrite Htk. }
  { intros k Hk. unfold logged, loaded in Hk. fields_in Hk. rewrite Htk in Hk. now apply Hhome. }
  rewrite El in Hv3. change (lh_n (loaded h bl l)) with (hdr_n h) in Hv3.
  rewrite (loaded_home_writes _ _ _ _ Htk) in Hv3.
  set (ws1 := map _ _) in *.
  wstep. unfold modlog. apply wpx_modify. apply (view_set_log _ _ _ _ _ (set_lh_n 0)) in Hv3.
  eapply wpx_conseq; [apply (write_head_spec _ _ _ _ h Hv3)|]; fields;
    rewrite ?written_log, ?written_disk, ?El, ?Ed.
  - destruct (log_geo_wr _ _ ws1 Hgeo2). split; fields; assumption.
  - exact roomy_empty.
  - unfold LOGBLOCKS. lia.
  - tauto.
  - change (log_start (loaded h bl l)) with (log_start l). rewrite overlay_ne; [exact HL|].
    unfold ws1. rewrite <- list_fmap_compose. intros (i & E & Hi)%list_elem_of_fmap.
    cbn in E. assert (log_start l ∈ hdr_blocks h) as Hx.
    { unfold hdr_blocks. apply list_elem_of_fmap. eauto. }
    apply (proj1 (Hhome _ Hx)). unfold in_log. lia.
  - intros [] s4 Hv4. exists (upd_ks_log (set_lh_n 0) R2). fields. rewrite El.
    split; [exact Ed|]. split; [exact Ew|]. split; [exact Hkl2|]. split; [exact Ep|].
    do 2 (split; [reflexivity|]). split; [exact Hbl|].
    split; [rewrite outer_log, (outer_logging _ _ Hlo); apply outer_log|].
    rewrite overlay_app, written_app.
    rewrite written_upd_log. exact Hv4.
Qed.

(** [init_log] recovers the disk, whatever the log in memory was. *)
Lemma init_log_spec L R s h sb :
  let l := set_log_lock 0 (set_log_dev 0 (set_log_size (i32 (sb_nlog sb))
             (set_log_start (i32 (sb_logstart sb)) (ks_log R)))) in
  view [] L (fun _ => False) R s -> log_geo l (ks_disk R) -> kl_ok (ks_klog R) ->
  L (log_start l) = Some h -> length h = Z.to_nat BSIZE -> hdr_wf l (ks_disk R) h ->
  let ws := recovery_writes (log_start l) h L in
  wp (init_log 0 sb) (fun _ s' => exists R',
      ks_disk R' = wr ws (ks_disk R) /\ ks_writes R' = ks_writes R ++ ws /\ kl_ok (ks_klog R') /\
      ks_proc R' = ks_proc R /\ log_same l (ks_log R') /\ lh_n (ks_log R') = 0 /\
      length (lh_block (ks_log R')) = Z.to_nat LOGBLOCKS /\ outer R' = outer R /\
      view [] (overlay ws L) (fun _ => False) R' s') s.
Proof.
  intros l Hv Hgeo Hkl HL Hlen Hwf ws. unfold init_log.
  change (BSIZE <=? SIZEOF_LOGHEADER) with false. cbn [when]. wstep. apply wpx_ret.
  do 4 (wstep; unfold modlog at 1; apply wpx_modify).
  set (f := fun l => set_log_lock 0 (set_log_dev 0 (set_log_size (i32 (sb_nlog sb))
             (set_log_start (i32 (sb_logstart sb)) l)))).
  apply (view_set_log _ _ _ _ _ f) in Hv.
  wcall (recover_spec L (upd_ks_log f R) _ h) as [] s1 (R1 & Hd & Hw & Hkl1 & Hp & Hsm & Hn & Hbl & Hot & Hv1);
    [exact Hv|exact Hgeo|exact Hkl|exact HL|exact Hlen|exact Hwf|].
  wstep. eapply wp_getlog; [exact Hv1|].
  eapply wpx_conseq; [eapply klog_view; [exact Hv1| |now eexists]|].
  - change (log_start (ks_log (upd_ks_log f R))) with (log_start l).
    now rewrite (written_klog (recovery_writes (log_start l) h L)).
  - intros [] s2 (R2 & Hlo & Hkl2 & Hv2). exists R2.
    change (recovery_writes (log_start (ks_log (upd_ks_log f R))) h L) with ws in Hlo, Hv2.
    assert (ks_disk R2 = ks_disk (written ws R1) /\ ks_writes R2 = ks_writes (written ws R1) /\
            ks_log R2 = ks_log (written ws R1) /\ ks_proc R2 = ks_proc (written ws R1))
      as (-> & -> & -> & ->) by now rewrite Hlo.
    rewrite written_disk, written_writes, written_log, written_proc, Hd, Hw.
    assert (outer R2 = outer R) as Hot2 by (rewrite (outer_logging _ _ Hlo), outer_written, Hot; apply outer_log).
    auto 12.
Qed.
End steps.
