(* ===== verification/Crash.v ===== *)
(** * Crash safety of the log

    What the disk holds when the machine stops in the middle of a commit or of a
    recovery, and what the next boot makes of it.  A crash keeps a prefix of the
    writes the disk received ([ks_writes]); a write of a block is atomic. *)
From S2P Require Import Prelude State Printf Klog Bio Blocks Sched Log.

(** ** Specification *)

(** The disk after a successful recovery. *)
Definition recovered (start : Z) (m : disk) : disk :=
  match m !! start with
  | Some h => wr (recovery_writes start h (fun k => m !! k)) m
  | None => m
  end.

(** The two disks agree outside of the log. *)
Definition same_homes (l : log) (m : Z -> option (list Z)) (m' : Z -> option (list Z)) : Prop :=
  forall k, ~ in_log (log_start l) (log_size l) k -> m k = m' k.

(** ** Lemmas *)

Lemma prefix_app_cases {A} (p a b : list A) :
  p `prefix_of` a ++ b -> p `prefix_of` a \/ exists q, p = a ++ q /\ q `prefix_of` b.
Proof.
  revert p; induction a as [|x a IH]; intros p Hp; cbn in Hp; [right; now exists p|].
  destruct p as [|y p]; [left; apply prefix_nil|].
  pose proof (prefix_cons_inv_1 _ _ _ _ Hp) as ->. apply prefix_cons_inv_2, IH in Hp.
  destruct Hp as [Hp|(q & -> & Hq)]; [left; now apply prefix_cons|right; now exists q].
Qed.

Lemma prefix_elem {A} (p l : list A) x : p `prefix_of` l -> x ∈ p -> x ∈ l.
Proof. intros [r ->] H. set_solver. Qed.

Lemma prefix_keys (p l : list (Z * list Z)) k : p `prefix_of` l -> k ∈ p.*1 -> k ∈ l.*1.
Proof. intros [r ->] H. rewrite fmap_app. set_solver. Qed.

(** Replaying writes that were already performed changes nothing. *)
Lemma wr_replay q ws m k :
  NoDup ws.*1 -> q `prefix_of` ws -> wr ws (wr q m) !! k = wr ws m !! k.
Proof.
  intros Hnd Hq. destruct (decide (k ∈ ws.*1)) as [Hk|Hk].
  - apply list_elem_of_fmap in Hk as ([k' d] & -> & Hin).
    now rewrite !(wr_eq ws _ _ d) by assumption.
  - rewrite !(wr_ne ws) by assumption. apply wr_ne. intros H. now apply Hk, (prefix_keys q).
Qed.

Section crash.
Context (l : log) (m : disk) (L : blockmap) (D : Z -> Prop) (h0 : list Z).
Context (Hgeo : log_geo l m) (Htx : txn_ok l D).
Context (Hh0 : m !! log_start l = Some h0) (Hlen : length h0 = Z.to_nat BSIZE).
Context (Hempty : hdr_n h0 = 0).
Context (HD : forall k, D k -> 0 < k < 2 ^ 31 /\ is_Some (m !! k)).
Context (HL : forall k, is_Some (m !! k) -> is_Some (L k)).
Context (Hclean : forall k, ~ D k -> L k = m !! k).

Abbreviation n := (lh_n l).
Abbreviation start := (log_start l).
Abbreviation image := (hdr_image n (lh_block l) h0).
Abbreviation A := (log_writes l L n).
Abbreviation B := (new_writes l L n).
Abbreviation here := (same_homes l).

Lemma crash_n : 0 <= n <= Z.of_nat (length (lh_block l)) /\ n <= LOGBLOCKS - 1.
Proof.
  pose proof (tx_n _ _ Htx). pose proof (lg_size _ _ Hgeo). rewrite (lg_len _ _ Hgeo).
  unfold LOGBLOCKS in *. lia.
Qed.

Lemma home_dirty i : 0 <= i < n -> D (home l i).
Proof. intros Hi. apply (tx_dirty _ _ Htx), (elem_of_logged l (proj1 crash_n)). eauto. Qed.

Lemma home_out i : 0 <= i < n -> ~ in_log start (log_size l) (home l i).
Proof.
  intros Hi. apply (tx_home _ _ Htx), (elem_of_logged l (proj1 crash_n)). eauto.
Qed.

Lemma keys_A k : k ∈ A.*1 -> k <> start /\ in_log start (log_size l) k.
Proof.
  intros Hk%elem_of_log_writes. pose proof (tx_n _ _ Htx). unfold in_log. lia.
Qed.

Lemma keys_B k : k ∈ B.*1 <-> k ∈ logged l.
Proof.
  rewrite (elem_of_logged l (proj1 crash_n)). unfold new_writes. rewrite <- list_fmap_compose.
  rewrite list_elem_of_fmap. cbn. setoid_rewrite elem_of_upto. naive_solver.
Qed.

Lemma NoDup_B : NoDup B.*1.
Proof.
  unfold new_writes. rewrite <- list_fmap_compose. apply NoDup_fmap_2_strong.
  - intros i j Hi%elem_of_upto Hj%elem_of_upto. cbn. apply home_inj; [apply crash_n|apply Htx|lia|lia].
  - unfold upto. apply NoDup_fmap_2; [apply Nat2Z.inj'|apply NoDup_seq].
Qed.

Lemma start_in_log : in_log start (log_size l) start.
Proof. pose proof (lg_size _ _ Hgeo). unfold in_log. lia. Qed.

Lemma start_not_B : start ∉ B.*1.
Proof. rewrite keys_B. intros Hx. exact (tx_home _ _ Htx _ Hx start_in_log). Qed.

Lemma image_spec :
  length image = Z.to_nat BSIZE /\ hdr_n image = n /\
  forall i, 0 <= i < n -> hdr_block i image = home l i.
Proof.
  destruct (hdr_image_spec n (lh_block l) h0 Hlen) as (H1 & H2 & H3); [pose proof crash_n; lia|].
  split; [exact H1|]. split; [exact H2|]. intros i Hi. rewrite H3 by lia.
  destruct (HD _ (home_dirty i Hi)). fold (home l i). apply i32_id. lia.
Qed.

(** After the header is written, the disk holds the new blocks in the log. *)
Lemma log_image q i :
  q `prefix_of` B -> 0 <= i < n -> wr (A ++ [(start, image)] ++ q) m !! (start + i + 1) = L (home l i).
Proof.
  intros Hq Hi. pose proof (tx_n _ _ Htx).
  assert (in_log start (log_size l) (start + i + 1)) as Hin by (unfold in_log; lia).
  rewrite !wr_app. rewrite wr_ne.
  2: { intros Hx%(prefix_keys _ _ _ Hq)%keys_B. exact (tx_home _ _ Htx _ Hx Hin). }
  cbn. rewrite lookup_insert_ne by lia.
  destruct (HL (home l i) (proj2 (HD _ (home_dirty i Hi)))) as [d Hd]. rewrite Hd. apply wr_eq.
  - unfold log_writes. rewrite <- list_fmap_compose. apply NoDup_fmap_2_strong.
    + intros x y _ _ E. cbn in E. lia.
    + unfold upto. apply NoDup_fmap_2; [apply Nat2Z.inj'|apply NoDup_seq].
  - unfold log_writes. apply list_elem_of_fmap. exists i. rewrite Hd. split; [done|].
    apply elem_of_upto. lia.
Qed.

Lemma recovery_after_header q :
  q `prefix_of` B ->
  let m2 := wr (A ++ [(start, image)] ++ q) m in
  m2 !! start = Some image /\
  (0 < n -> recovery_writes start image (fun k => m2 !! k) = B ++ [(start, put_hdr_n 0 image)]).
Proof.
  intros Hq m2. destruct image_spec as (_ & Hn & Hb). split.
  - unfold m2. rewrite !wr_app, wr_ne; [cbn; apply lookup_insert_eq|].
    intros Hx%(prefix_keys _ _ _ Hq). exact (start_not_B Hx).
  - intros Hpos. unfold recovery_writes. rewrite Hn. destruct (Z.ltb_spec 0 n); [|lia].
    f_equal. unfold new_writes. apply map_ext_in. intros i Hi.
    apply list_elem_of_In, elem_of_upto in Hi. unfold m2.
    now rewrite (log_image q i Hq Hi), (Hb i Hi).
Qed.

(** The blocks of the transaction are as the cache shows them once all of them
    were copied, and the others never change. *)
Lemma new_homes q r :
  q `prefix_of` B -> here (fun k => wr (B ++ [(start, r)]) (wr (A ++ [(start, image)] ++ q) m) !! k) L.
Proof.
  intros Hq k Hk. assert (k <> start) as Hks by (intros ->; exact (Hk start_in_log)).
  cbn beta. rewrite (wr_app B). cbn. rewrite lookup_insert_ne by congruence.
  destruct (decide (k ∈ logged l)) as [Hin|Hin].
  - apply (elem_of_logged l (proj1 crash_n)) in Hin as (i & Hi & ->).
    destruct (HL (home l i) (proj2 (HD _ (home_dirty i Hi)))) as [d Hd].
    rewrite Hd. apply wr_eq; [apply NoDup_B|]. unfold new_writes. apply list_elem_of_fmap.
    exists i. rewrite Hd. split; [done|]. now apply elem_of_upto.
  - rewrite wr_ne by now rewrite keys_B.
    rewrite Hclean by now rewrite (tx_dirty _ _ Htx). apply wr_ne.
    rewrite fmap_app, elem_of_app. cbn. rewrite elem_of_cons.
    intros [[_ Hx]%keys_A|[Hx|Hx%(prefix_keys _ _ _ Hq)]]; [tauto|now destruct Hks|].
    now rewrite keys_B in Hx.
Qed.
Lemma empty_hdr_wf m' h : hdr_n h = 0 -> hdr_wf l m' h.
Proof.
  intros Hn. clear - Hgeo Hn. pose proof (lg_size _ _ Hgeo).
  split; [lia|..]; unfold hdr_blocks; rewrite Hn; [apply NoDup_nil_2|]. intros k Hk. now apply elem_of_nil in Hk.
Qed.

Lemma recovered_empty m' h :
  m' !! start = Some h -> hdr_n h = 0 -> recovered start m' = m'.
Proof. clear. intros Hm Hn. unfold recovered, recovery_writes. now rewrite Hm, Hn. Qed.

(** What a crash leaves behind can be recovered, to all or nothing. *)
Definition recoverable (m' : disk) (M : blockmap) : Prop :=
  exists h, m' !! start = Some h /\ length h = Z.to_nat BSIZE /\ hdr_wf l m' h /\
            here (fun k => recovered start m' !! k) M.

Lemma crash_in_images p : p `prefix_of` A -> recoverable (wr p m) (fun k => m !! k).
Proof.
  intros Hp. assert (wr p m !! start = Some h0) as Hs.
  { rewrite wr_ne; [exact Hh0|]. intros Hx%(prefix_keys _ _ _ Hp). now destruct (keys_A _ Hx). }
  exists h0. split; [exact Hs|]. split; [exact Hlen|]. split; [now apply empty_hdr_wf|].
  intros k Hk. cbn beta. rewrite (recovered_empty _ _ Hs Hempty). apply wr_ne.
  intros Hx%(prefix_keys _ _ _ Hp). now destruct (keys_A _ Hx).
Qed.

Lemma image_blocks : hdr_blocks image = logged l.
Proof.
  destruct image_spec as (_ & Hn & Hb). pose proof crash_n as [Hn1 _].
  apply list_eq. intros i. unfold hdr_blocks. rewrite Hn, lookup_map_upto. case_decide as Hi.
  - rewrite Hb by lia. destruct (lookup_home l Hn1 (Z.of_nat i)) as [_ H]; [lia|].
    now rewrite Nat2Z.id in H.
  - symmetry. apply lookup_ge_None. rewrite (length_logged l Hn1). lia.
Qed.

Lemma crash_in_homes q : 0 < n -> q `prefix_of` B -> recoverable (wr (A ++ [(start, image)] ++ q) m) L.
Proof.
  intros Hpos Hq. destruct (recovery_after_header q Hq) as [Hs Hw]. destruct image_spec as (H1 & H2 & _).
  exists image. split; [exact Hs|]. split; [exact H1|]. split.
  - split; rewrite ?image_blocks, ?H2; [apply (tx_n _ _ Htx)|apply (tx_nodup _ _ Htx)|].
    intros k Hk. split; [now apply (tx_home _ _ Htx)|]. apply (tx_dirty _ _ Htx), HD in Hk as [H3 H4].
    split; [exact H3|now apply wr_is_Some].
  - intros k Hk. cbn beta. unfold recovered. rewrite Hs, (Hw Hpos). now apply new_homes.
Qed.

(** The disk at the end: everything is home and the header is empty. *)
Definition settled (m' : disk) (M : blockmap) : Prop :=
  exists z, m' !! start = Some z /\ length z = Z.to_nat BSIZE /\ hdr_n z = 0 /\
            here (fun k => m' !! k) M.

Lemma settled_recoverable m' M : settled m' M -> recoverable m' M.
Proof.
  intros (z & Hz & Hl & H0 & Hh). exists z. split; [exact Hz|]. split; [exact Hl|].
  split; [now apply empty_hdr_wf|]. now rewrite (recovered_empty _ _ Hz H0).
Qed.

Lemma commit_settled : settled (wr (commit_writes l L h0) m) L.
Proof.
  destruct image_spec as (H1 & H2 & _). exists (put_hdr_n 0 image).
  split; [unfold commit_writes; rewrite !wr_app; cbn; apply lookup_insert_eq|].
  split; [now apply length_put_hdr_n|]. split; [now apply hdr_n_put_n|]. intros k Hk.
  rewrite <- (new_homes [] (put_hdr_n 0 image) (prefix_nil _) k Hk). unfold commit_writes. cbn beta.
  f_equal. rewrite app_nil_r, app_assoc. apply wr_app.
Qed.

Lemma crash_recoverable p :
  0 < n -> p `prefix_of` commit_writes l L h0 ->
  recoverable (wr p m) (fun k => m !! k) \/ recoverable (wr p m) L.
Proof.
  intros Hpos Hp. unfold commit_writes in Hp.
  apply prefix_app_cases in Hp as [Hp|(q & -> & Hq)]; [left; now apply crash_in_images|].
  apply prefix_app_cases in Hq as [Hq|(q' & -> & Hq)].
  - destruct q as [|x q].
    + left. rewrite app_nil_r. now apply crash_in_images.
    + pose proof (prefix_cons_inv_1 _ _ _ _ Hq) as ->. apply prefix_cons_inv_2, prefix_nil_inv in Hq.
      subst q. right. now apply (crash_in_homes [] Hpos (prefix_nil _)).
  - right. apply prefix_app_cases in Hq as [Hq|(q & -> & Hq)]; [now apply crash_in_homes|].
    destruct q as [|x q]; [rewrite app_nil_r; now apply crash_in_homes|].
    pose proof (prefix_cons_inv_1 _ _ _ _ Hq) as ->. apply prefix_cons_inv_2, prefix_nil_inv in Hq.
    subst q. apply settled_recoverable, commit_settled.
Qed.
End crash.

(** *** A crash during recovery *)

Section recovery_crash.
Context (l : log) (m : disk) (h : list Z).
Context (Hgeo : log_geo l m) (Hwf : hdr_wf l m h).
Context (Hh : m !! log_start l = Some h) (Hlen : length h = Z.to_nat BSIZE).

Abbreviation start := (log_start l).
Abbreviation n := (hdr_n h).
Abbreviation B := (map (fun i => (hdr_block i h, default [] (m !! (start + i + 1)))) (upto n)).

Lemma rec_keys k : k ∈ B.*1 <-> k ∈ hdr_blocks h.
Proof. rewrite <- list_fmap_compose. reflexivity. Qed.

Lemma rec_NoDup : NoDup B.*1.
Proof. rewrite <- list_fmap_compose. apply (hw_nodup _ _ _ Hwf). Qed.

Lemma rec_out k : in_log start (log_size l) k -> k ∉ B.*1.
Proof. intros Hin Hk%rec_keys. now apply (hw_home _ _ _ Hwf) in Hk as [? _]. Qed.

Lemma start_in : in_log start (log_size l) start.
Proof. clear - Hgeo. pose proof (lg_size _ _ Hgeo). unfold in_log. lia. Qed.

Lemma recovered_here : 0 < n -> recovered start m = wr (B ++ [(start, put_hdr_n 0 h)]) m.
Proof.
  intros Hn. clear - Hh Hn. unfold recovered, recovery_writes. rewrite Hh. now destruct (Z.ltb_spec 0 n); [|lia].
Qed.

Lemma recovered_partial q :
  0 < n -> q `prefix_of` B ->
  wr q m !! start = Some h /\
  recovered start (wr q m) = wr (B ++ [(start, put_hdr_n 0 h)]) (wr q m).
Proof.
  intros Hn Hq. assert (forall k, in_log start (log_size l) k -> wr q m !! k = m !! k) as Hlog.
  { intros k Hk. apply wr_ne. intros Hx%(prefix_keys _ _ _ Hq). exact (rec_out k Hk Hx). }
  assert (wr q m !! start = Some h) as Hs by (rewrite Hlog; [exact Hh|exact start_in]).
  split; [exact Hs|]. unfold recovered, recovery_writes. rewrite Hs.
  destruct (Z.ltb_spec 0 n); [|lia]. do 2 f_equal. apply map_ext_in. intros i Hi.
  apply list_elem_of_In, elem_of_upto in Hi. pose proof (hw_n _ _ _ Hwf).
  rewrite Hlog; [reflexivity|unfold in_log; lia].
Qed.

Lemma partial_recoverable q :
  0 < n -> q `prefix_of` B -> recoverable l (wr q m) (fun k => recovered start m !! k).
Proof.
  intros Hn Hq. destruct (recovered_partial q Hn Hq) as [Hs Hr]. exists h. split; [exact Hs|].
  split; [exact Hlen|]. split.
  - destruct Hwf as [Hw1 Hw2 Hhome]. split; [exact Hw1|exact Hw2|]. intros k Hk.
    destruct (Hhome k Hk) as (H1 & H2 & H3). split; [exact H1|]. split; [exact H2|].
    now apply wr_is_Some.
  - intros k Hk. cbn beta. rewrite Hr, recovered_here by exact Hn. rewrite !wr_app. cbn.
    assert (k <> start) by (intros ->; exact (Hk start_in)).
    rewrite !lookup_insert_ne by congruence. apply wr_replay; [exact rec_NoDup|exact Hq].
Qed.

(** A recovery that was interrupted is completed by the next one. *)
Lemma recovery_replay p :
  p `prefix_of` recovery_writes start h (fun k => m !! k) ->
  recoverable l (wr p m) (fun k => recovered start m !! k).
Proof.
  unfold recovery_writes. destruct (Z.ltb_spec 0 n) as [Hn|Hn].
  2: { intros ->%prefix_nil_inv. exists h. split; [exact Hh|]. split; [exact Hlen|].
       split; [exact Hwf|]. now intros k. }
  intros Hp. apply prefix_app_cases in Hp as [Hq|(q & -> & Hq)]; [now apply partial_recoverable|].
  destruct q as [|x q]; [rewrite app_nil_r; now apply partial_recoverable|].
  pose proof (prefix_cons_inv_1 _ _ _ _ Hq) as ->. apply prefix_cons_inv_2, prefix_nil_inv in Hq.
  subst q. rewrite <- recovered_here by exact Hn.
  assert (recovered start m !! start = Some (put_hdr_n 0 h)) as Hs.
  { rewrite recovered_here, wr_app by exact Hn. apply lookup_insert_eq. }
  assert (hdr_n (put_hdr_n 0 h) = 0) as Hz by now apply hdr_n_put_n.
  exists (put_hdr_n 0 h). split; [exact Hs|]. split; [now apply length_put_hdr_n|].
  split; [exact (empty_hdr_wf l m Hgeo _ _ Hz)|]. intros k _. cbn beta.
  now rewrite (recovered_empty l _ _ Hs Hz).
Qed.
(** Recovery empties the header. *)
Lemma recovered_header : exists h', recovered start m !! start = Some h' /\ hdr_n h' = 0.
Proof.
  destruct (decide (0 < n)) as [Hn|Hn].
  - exists (put_hdr_n 0 h). rewrite recovered_here, wr_app by exact Hn. cbn.
    split; [apply lookup_insert_eq|now apply hdr_n_put_n].
  - assert (n = 0) as Hz by (pose proof (hw_n _ _ _ Hwf); lia).
    exists h. now rewrite (recovered_empty l _ _ Hh Hz).
Qed.
End recovery_crash.
