(* ===== verification/Txn.v ===== *)
(** * Transactions: the theorems of kernel/log.c

    [log_write] adds a block to the running transaction, [end_op] commits it;
    [begin_op] starts one or waits.  The theorems are stated for the kernel's
    states, with the buffer cache of Bio.v behind the block interface. *)
From S2P Require Import Prelude State Printf Klog Bio Blocks Sched Log Crash.

(** ** Lemmas: searching *)

Fixpoint first_some {A R} (f : A -> option R) (l : list A) : option R :=
  match l with
  | [] => None
  | x :: l' => match f x with Some r => Some r | None => first_some f l' end
  end.

Lemma for_find_pure {A R} (body : A -> K (option R)) f l s :
  (forall x, x ∈ l -> body x s = Ok (f x) s) -> for_find l body s = Ok (first_some f l) s.
Proof.
  induction l as [|x l IH]; intros H; [reflexivity|]. cbn [for_find first_some].
  rewrite (bind_Ok _ _ _ _ _ (H x ltac:(set_solver))). destruct (f x); [reflexivity|].
  apply IH. intros y Hy. apply H. set_solver.
Qed.

Lemma first_some_Some {A R} (f : A -> option R) l r :
  first_some f l = Some r -> exists x, x ∈ l /\ f x = Some r.
Proof.
  induction l as [|x l IH]; cbn; [discriminate|]. destruct (f x) eqn:E; intros H.
  - exists x. split; [set_solver|congruence].
  - destruct (IH H) as (y & ? & ?). exists y. set_solver.
Qed.

Lemma first_some_None {A R} (f : A -> option R) l x :
  first_some f l = None -> x ∈ l -> f x = None.
Proof.
  induction l as [|y l IH]; cbn; [set_solver|]. destruct (f y) eqn:E; [discriminate|].
  intros H [->|Hx]%elem_of_cons; auto.
Qed.

(** ** Lemmas: [log_write] *)

(** The transaction after [log_write] of block [k]. *)
Definition add_block (k : Z) (l : log) : log :=
  if decide (k ∈ logged l) then l
  else set_lh_n (lh_n l + 1) (set_lh_block (<[Z.to_nat (lh_n l) := k]> (lh_block l)) l).

Section txn.
Context (l : log) (m : disk) (Hgeo : log_geo l m).
Context (D : Z -> Prop) (Htx : txn_ok l D).

Lemma txn_bounds :
  0 <= lh_n l <= Z.of_nat (length (lh_block l)) /\ lh_n l <= LOGBLOCKS - 1 /\
  length (lh_block l) = Z.to_nat LOGBLOCKS.
Proof.
  pose proof (tx_n _ _ Htx). pose proof (lg_size _ _ Hgeo). rewrite (lg_len _ _ Hgeo).
  unfold LOGBLOCKS in *. lia.
Qed.

Lemma add_block_geo k m' : log_geo l m' -> log_geo (add_block k l) m'.
Proof.
  intros []. unfold add_block. case_decide; split; fields; rewrite ?length_insert; assumption.
Qed.

Lemma logged_add k : k ∉ logged l -> logged (add_block k l) = logged l ++ [k].
Proof.
  intros Hk. destruct txn_bounds as (Hn & Hn' & Hlen). unfold add_block. rewrite decide_False by done.
  unfold logged. fields. replace (Z.to_nat (lh_n l + 1)) with (S (Z.to_nat (lh_n l))) by lia.
  erewrite take_S_r by (apply list_lookup_insert_eq; rewrite Hlen; unfold LOGBLOCKS in *; lia).
  now rewrite take_insert_ge by lia.
Qed.

Lemma add_block_txn k :
  lh_n l < log_size l - 1 -> ~ in_log (log_start l) (log_size l) k ->
  txn_ok (add_block k l) (mark k D).
Proof.
  intros Hn Hk. pose proof Htx as [Hn0 Hnd HD Hhome]. destruct (decide (k ∈ logged l)) as [Hin|Hin].
  - unfold add_block. rewrite decide_True by done. split; auto. intros k'. unfold mark. rewrite HD.
    split; [intros [->|]; auto|auto].
  - pose proof (logged_add k Hin) as E. split; rewrite ?E.
    + unfold add_block. rewrite decide_False by done. fields. lia.
    + apply NoDup_app. split; [exact Hnd|]. split; [|apply NoDup_singleton].
      intros x Hx ->%list_elem_of_singleton. contradiction.
    + intros k'. unfold mark. rewrite HD, elem_of_app, list_elem_of_singleton. tauto.
    + intros k' Hk'. unfold add_block. rewrite decide_False by done. fields.
      apply elem_of_app in Hk' as [?|Hk'%list_elem_of_singleton]; [now apply Hhome|congruence].
Qed.
End txn.

Section log_write.
Context {view : view_pred} `{HB : !BlockCache view}.

Lemma getbuf_view hs L D R s k i :
  view hs L D R s -> (k, i) ∈ hs -> exists b, getbuf i s = Ok b s /\ b_blockno b = k.
Proof.
  intros Hv Hin. destruct (proj1 (wp_Ok _ _ _) (view_blockno _ _ _ _ _ _ _ Hv Hin))
    as (b & s' & H1 & -> & H2). eauto.
Qed.

(** The search for the block among those already logged. *)
Lemma log_write_search hs L D R s k i :
  view hs L D R s -> (k, i) ∈ hs -> log_geo (ks_log R) (ks_disk R) -> txn_ok (ks_log R) D ->
  exists o, for_find (upto (lh_n (ks_log R))) (fun j =>
      k' <- lh_block_get j;;
      bb <- getbuf i;;
      ret (if u32 k' =? b_blockno bb then Some j else None)) s = Ok o s /\
    match o with
    | Some j => 0 <= j < lh_n (ks_log R) /\ k ∈ logged (ks_log R)
    | None => k ∉ logged (ks_log R)
    end.
Proof.
  intros Hv Hin Hgeo Htx. set (l := ks_log R) in *.
  destruct (txn_bounds l _ Hgeo _ Htx) as (Hn & _).
  assert (forall j, 0 <= j < lh_n l -> 0 < home l j < 2 ^ 31) as Hpos.
  { intros j Hj. eapply view_dirty; [exact Hv|]. apply (tx_dirty _ _ Htx), elem_of_logged; eauto. }
  exists (first_some (fun j => if home l j =? k then Some j else None) (upto (lh_n l))). split.
  - apply for_find_pure. intros j Hj%elem_of_upto. destruct (getbuf_view _ _ _ _ _ _ _ Hv Hin)
      as (b & Hb & <-). unfold lh_block_get, getlog, gets, bind. cbn [obind].
    rewrite (view_log _ _ _ _ _ Hv). fold l. rewrite (proj1 (lookup_home l Hn j Hj)).
    cbn [of_opt ret obind]. rewrite Hb. cbn [obind]. rewrite u32_id; [reflexivity|].
    specialize (Hpos j Hj). lia.
  - destruct (first_some _ _) as [j|] eqn:E.
    + apply first_some_Some in E as (x & Hx%elem_of_upto & E).
      destruct (Z.eqb_spec (home l x) k) as [<-|]; [|discriminate]. injection E as <-.
      split; [exact Hx|]. apply elem_of_logged; eauto.
    + intros (x & Hx & ->)%(elem_of_logged l Hn).
      apply (first_some_None _ _ x) in E; [|now apply elem_of_upto].
      cbn beta in E. rewrite Z.eqb_refl in E. discriminate.
Qed.

(** The end of the search: a new block is appended. *)
Lemma log_write_append hs L D R s k i o :
  let l := ks_log R in
  view hs L D R s -> (k, i) ∈ hs -> log_geo l (ks_disk R) -> txn_ok l D ->
  match o with Some j => 0 <= j < lh_n l /\ k ∈ logged l | None => k ∉ logged l end ->
  let i0 := match o with Some i1 => i1 | None => Z.max 0 (lh_n l) end in
  wp (when (i0 =? lh_n l)
        (bb <- getbuf i;;
         _ <- lh_block_set i0 (i32 (b_blockno bb));;
         modlog (upd_lh_n (fun n => i32 (n + 1)))))
     (fun _ s' => view hs L D (upd_ks_log (add_block k) R) s') s.
Proof.
  intros l Hv Hin Hgeo Htx Ho i0. destruct (txn_bounds l _ Hgeo _ Htx) as (Hn & Hn' & Hlen).
  assert (0 < k < 2 ^ 31) as Hk.
  { eapply view_held; [exact Hv|]. now apply elem_of_holders in Hin. }
  unfold i0. destruct o as [j|].
  - destruct Ho as [Hj Hkin]. destruct (Z.eqb_spec j (lh_n l)); [lia|]. cbn [when]. apply wpx_ret.
    replace (upd_ks_log (add_block k) R) with R; [exact Hv|].
    unfold upd_ks_log, add_block. fold l. rewrite decide_True by exact Hkin. now destruct R.
  - rewrite Z.max_r, Z.eqb_refl by lia. cbn [when].
    wcall (view_blockno _ _ _ _ _ k i Hv) as bb s' (-> & Hbb); [exact Hin|].
    rewrite Hbb, i32_id by lia. unfold lh_block_set. wstep. wstep. eapply wp_getlog; [exact Hv|].
    fold l. rewrite lset_Some by (rewrite Hlen; unfold LOGBLOCKS in *; lia). cbn [of_opt].
    wstep. wstep. unfold modlog at 1. wstep. unfold modlog. wstep.
    apply (view_set_log _ _ _ _ _ (set_lh_block (<[Z.to_nat (lh_n l):=k]> (lh_block l)))) in Hv.
    apply (view_set_log _ _ _ _ _ (upd_lh_n (fun n => i32 (n + 1)))) in Hv.
    unfold upd_ks_log, add_block in Hv |- *. fold l in Hv |- *. cbn in Hv |- *.
    rewrite decide_False by exact Ho. unfold upd_lh_n in Hv |- *. cbn in Hv |- *.
    rewrite i32_id in Hv by (unfold LOGBLOCKS in *; lia). exact Hv.
Qed.

(** [log_write] of a held block. *)
Lemma log_write_spec hs L D R s k i :
  let l := ks_log R in
  view hs L D R s -> (k, i) ∈ hs -> log_geo l (ks_disk R) -> txn_ok l D ->
  log_lock l = 0 -> 1 <= log_outstanding l -> lh_n l < log_size l - 1 ->
  wp (log_write i) (fun _ s' => view hs L (mark k D) (upd_ks_log (add_block k) R) s') s.
Proof.
  intros l Hv Hin Hgeo Htx Hlock Hout Hn.
  unfold log_write, acquire_log. wstep. wstep. eapply wp_getlog; [exact Hv|]. fold l.
  rewrite Hlock. cbn [Z.eqb]. unfold modlog at 1. apply wpx_modify.
  apply (view_set_log _ _ _ _ _ (set_log_lock 1)) in Hv. set (R1 := upd_ks_log _ R) in *.
  wstep. eapply wp_getlog; [exact Hv|]. change (ks_log R1) with (set_log_lock 1 l). fields.
  destruct (Z.leb_spec (log_size l - 1) (lh_n l)); [lia|]. cbn [when]. wstep. apply wpx_ret.
  destruct (Z.ltb_spec (log_outstanding l) 1); [lia|]. cbn [when]. wstep. apply wpx_ret.
  assert (log_geo (ks_log R1) (ks_disk R1)) as Hgeo1 by (destruct Hgeo; split; assumption).
  assert (txn_ok (ks_log R1) D) as Htx1 by (destruct Htx; split; assumption).
  destruct (log_write_search hs L D R1 _ k i Hv Hin Hgeo1 Htx1) as (o & Hrun & Ho).
  wstep. eapply wpx_of_Ok; [exact Hrun|]. cbv zeta.
  wcall (log_write_append hs L D R1 _ k i o Hv Hin Hgeo1 Htx1 Ho) as [] s2 Hv2.
  wcall (view_mark _ _ _ _ _ k i 1 Hv2) as [] s3 Hv3; [exact Hin|lia|].
  unfold release_log, modlog. apply wpx_modify.
  apply (view_set_log _ _ _ _ _ (set_log_lock 0)) in Hv3.
  replace (upd_ks_log (add_block k) R) with
    (upd_ks_log (set_log_lock 0) (upd_ks_log (add_block k) R1)); [exact Hv3|].
  unfold R1, upd_ks_log, add_block. cbn. fold l. change (logged (set_log_lock 1 l)) with (logged l).
  f_equal. case_decide; unfold upd_log_lock; cbn; rewrite <- Hlock; now destruct l.
Qed.
End log_write.

(** ** Lemmas: [end_op] *)

Section end_op.
Context {view : view_pred} `{HB : !BlockCache view}.

Lemma outside_proc f : outside (upd_ks_proc f).
Proof. intros s. auto. Qed.

Lemma wakeup_view hs L D R s c :
  view hs L D R s -> length (ks_proc R) = nproc ->
  wp (wakeup c) (fun _ s' => view hs L D (upd_ks_proc (map (wake c)) R) s') s.
Proof.
  intros Hv Hlen. destruct (view_rest _ _ _ _ _ Hv) as (bc & Hs).
  apply wp_Ok. eexists _, _. split; [apply wakeup_run; now rewrite Hs|].
  exact (view_outside _ _ _ _ _ _ (outside_proc (map (wake c))) Hv).
Qed.

Lemma commit_nothing L D R s :
  view [] L D R s -> lh_n (ks_log R) = 0 -> commit s = Ok tt s.
Proof.
  intros Hv Hn. unfold commit, getlog, gets, bind. cbn [obind].
  now rewrite (view_log _ _ _ _ _ Hv), Hn.
Qed.

(** The writes of the commit in [end_op]. *)
Definition end_writes (l : log) (L : blockmap) (d0 : list Z) : list (Z * list Z) :=
  if 0 <? lh_n l then commit_writes l L d0 else [].

Lemma commit_any L D R s d0 :
  let l := ks_log R in
  view [] L D R s -> log_geo l (ks_disk R) -> txn_ok l D ->
  L (log_start l) = Some d0 -> length d0 = Z.to_nat BSIZE ->
  let ws := end_writes l L d0 in
  wp commit (fun _ s' => view [] (overlay ws L) (fun _ => False)
                           (upd_ks_log (set_lh_n 0) (written ws R)) s') s.
Proof.
  intros l Hv Hgeo Htx HL Hlen ws. unfold ws, end_writes. pose proof (tx_n _ _ Htx).
  destruct (Z.ltb_spec 0 (lh_n l)); [now apply (commit_spec L D)|].
  assert (lh_n l = 0) as Hn by lia. eapply wpx_of_Ok; [eapply commit_nothing; eauto|].
  assert (upd_ks_log (set_lh_n 0) R = R) as E.
  { unfold upd_ks_log, upd_lh_n. fold l. rewrite <- Hn. unfold l. now destruct R as [? ? ? ? ? ? ? ? ? ? ? ? ? ? []]. }
  cbn. rewrite E. eapply view_ext; [reflexivity|reflexivity| |exact Hv]. intros k.
  rewrite (tx_dirty _ _ Htx). unfold logged. rewrite Hn. cbn. rewrite elem_of_nil. tauto.
Qed.

(** The last [end_op] of a transaction. *)
Lemma end_op_spec L D R s d0 :
  let l := ks_log R in
  view [] L D R s -> log_geo l (ks_disk R) -> txn_ok l D ->
  L (log_start l) = Some d0 -> length d0 = Z.to_nat BSIZE ->
  log_lock l = 0 -> log_committing l = 0 -> log_outstanding l = 1 ->
  length (ks_proc R) = nproc ->
  let ws := end_writes l L d0 in
  wp end_op (fun _ s' => view [] (overlay ws L) (fun _ => False)
      (upd_ks_proc (map (wake ChanLog))
         (upd_ks_log (fun l => set_log_outstanding 0 (set_lh_n 0 l)) (written ws R))) s') s.
Proof.
  intros l Hv Hgeo Htx HL Hlen Hlock Hcom Hout Hproc ws.
  unfold end_op, acquire_log, release_log, modlog. wstep. wstep. eapply wp_getlog; [exact Hv|].
  fold l. rewrite Hlock. cbn [Z.eqb]. wstep.
  apply (view_set_log _ _ _ _ _ (set_log_lock 1)) in Hv. wstep. wstep.
  apply (view_set_log _ _ _ _ _ (upd_log_outstanding (fun n => i32 (n - 1)))) in Hv.
  wstep. eapply wp_getlog; [exact Hv|]. fields. fold l. rewrite Hcom. cbn [Z.eqb negb when].
  wstep. wstep. wstep. eapply wp_getlog; [exact Hv|]. fields. fold l. rewrite Hout.
  change (i32 (1 - 1) =? 0) with true. cbn iota. wstep. wstep. wstep. wstep.
  apply (view_set_log _ _ _ _ _ (set_log_committing 1)) in Hv. wstep. wstep.
  apply (view_set_log _ _ _ _ _ (set_log_lock 0)) in Hv. cbn [when].
  wcall (commit_any L D _ _ d0 Hv) as [] s1 Hv1; fields; fold l;
    [destruct Hgeo; split; assumption|destruct Htx; split; assumption|exact HL|exact Hlen|].
  change (end_writes _ L d0) with ws in Hv1. fields_in Hv1.
  wstep. wstep. eapply wp_getlog; [exact Hv1|]. fields. rewrite written_log. fields. cbn [Z.eqb].
  wstep. apply (view_set_log _ _ _ _ _ (set_log_lock 1)) in Hv1. wstep. wstep.
  apply (view_set_log _ _ _ _ _ (set_log_committing 0)) in Hv1.
  wcall (wakeup_view _ _ _ _ _ ChanLog Hv1) as [] s2 Hv2; [|wstep].
  - fields. rewrite written_proc. exact Hproc.
  - apply (view_set_log _ _ _ _ _ (set_log_lock 0)) in Hv2. rewrite !written_upd_log in Hv2.
    rewrite upd_log_proc, !upd_log_upd in Hv2. erewrite upd_log_ext in Hv2; [exact Hv2|].
    cbn beta. rewrite written_log. fold l. fields. clear - Hlock Hcom Hout. destruct l. cbn in *. now subst.
Qed.
End end_op.

(** ** Theorems *)

(** The log and the cache between two operations of the file system, or inside
    one: the blocks of the running transaction are exactly the dirty ones, and
    the header on the disk is empty. *)
Record log_inv (s : kstate) : Prop := {
  li_cache : cache [] s;
  li_geo : log_geo (ks_log s) (ks_disk s);
  li_txn : txn_ok (ks_log s) (dirty s);
  li_lock : log_lock (ks_log s) = 0;
  li_committing : log_committing (ks_log s) = 0;
  li_hdr : exists h, ks_disk s !! log_start (ks_log s) = Some h /\ hdr_n h = 0;
  li_procs : length (ks_proc s) = nproc }.

(** Block [k] is not part of the log. *)
Definition home_block (s : kstate) (k : Z) : Prop :=
  ~ in_log (log_start (ks_log s)) (log_size (ks_log s)) k.

Lemma self_view s : cache [] s -> bio_view [] (lblk s) (dirty s) s s.
Proof. intros Hc. split; [exact Hc|set_solver|done|done|done]. Qed.

(** The facts about an [end_op] that the theorems use. *)
Lemma end_op_run s :
  log_inv s -> log_outstanding (ks_log s) = 1 ->
  exists h s', ks_disk s !! log_start (ks_log s) = Some h /\ length h = Z.to_nat BSIZE /\
    hdr_n h = 0 /\
    let ws := end_writes (ks_log s) (lblk s) h in
    end_op s = Ok tt s' /\ bio_view [] (overlay ws (lblk s)) (fun _ => False)
      (upd_ks_proc (map (wake ChanLog))
         (upd_ks_log (fun l => set_log_outstanding 0 (set_lh_n 0 l)) (written ws s))) s'.
Proof.
  intros [Hc Hgeo Htx Hlock Hcom (h & Hh & Hz) Hproc] Hout.
  pose proof (self_view s Hc) as Hv.
  assert (~ dirty s (log_start (ks_log s))) as Hnd.
  { intros Hd%(tx_dirty _ _ Htx). apply (tx_home _ _ Htx _ Hd).
    pose proof (lg_size _ _ Hgeo). unfold in_log. lia. }
  assert (lblk s (log_start (ks_log s)) = Some h) as HL.
  { rewrite <- Hh. eapply view_clean; [exact Hv|set_solver|exact Hnd]. }
  assert (length h = Z.to_nat BSIZE) as Hlen by (eapply ca_disk; eauto).
  destruct (proj1 (wp_Ok _ _ _) (end_op_spec _ _ _ _ h Hv Hgeo Htx HL Hlen Hlock Hcom Hout Hproc))
    as ([] & s' & Hrun & Hv'). eauto 10.
Qed.

Lemma crash_ready s h :
  log_inv s -> ks_disk s !! log_start (ks_log s) = Some h -> hdr_n h = 0 ->
  (forall p, p `prefix_of` end_writes (ks_log s) (lblk s) h ->
     recoverable (ks_log s) (wr p (ks_disk s)) (fun k => ks_disk s !! k) \/
     recoverable (ks_log s) (wr p (ks_disk s)) (lblk s)) /\
  settled (ks_log s) (wr (end_writes (ks_log s) (lblk s) h) (ks_disk s)) (lblk s).
Proof.
  intros [Hc Hgeo Htx _ _ _ _] Hh Hz. pose proof (self_view s Hc) as Hv.
  assert (length h = Z.to_nat BSIZE) as Hlen by (eapply ca_disk; eauto).
  assert (forall k, dirty s k -> 0 < k < 2 ^ 31 /\ is_Some (ks_disk s !! k)) as HD
    by (intros k; eapply view_dirty; exact Hv).
  assert (forall k, is_Some (ks_disk s !! k) -> is_Some (lblk s k)) as HL.
  { intros k [d Hd]. destruct (view_total _ _ _ _ _ _ _ Hv Hd) as (d' & ? & _). eauto. }
  assert (forall k, ~ dirty s k -> lblk s k = ks_disk s !! k) as Hclean
    by (intros k Hk; eapply view_clean; [exact Hv|set_solver|exact Hk]).
  unfold end_writes. destruct (Z.ltb_spec 0 (lh_n (ks_log s))) as [Hn|Hn].
  - split; [intros p; now apply (crash_recoverable _ _ _ (dirty s))|].
    now apply (commit_settled _ _ _ (dirty s)).
  - assert (settled (ks_log s) (ks_disk s) (lblk s)) as Hr.
    { exists h. split; [exact Hh|]. split; [exact Hlen|].
      split; [exact Hz|]. intros k _. symmetry. apply Hclean.
      intros Hd%(tx_dirty _ _ Htx). unfold logged in Hd.
      replace (Z.to_nat (lh_n (ks_log s))) with O in Hd by lia. now apply elem_of_nil in Hd. }
    split; [|exact Hr]. intros p ->%prefix_nil_inv. right.
    now apply (settled_recoverable _ _ Hgeo).
Qed.

(** The state outside of the cache, the disk, the log and the processes. *)
Definition others (s : kstate) : kstate :=
  set_ks_bcache [] (set_ks_disk ∅ (set_ks_writes [] (set_ks_log (mkLog 0 0 0 0 0 0 [] 0) (set_ks_proc [] s)))).

Lemma written_others ws R : others (written ws R) = others R.
Proof.
  unfold written. revert R. induction ws as [|w ws IH]; intros R; [reflexivity|]. cbn [foldl]. now rewrite IH.
Qed.

Lemma end_op_settles s :
  log_inv s -> log_outstanding (ks_log s) = 1 ->
  exists s', end_op s = Ok tt s' /\ log_inv s' /\ log_outstanding (ks_log s') = 0 /\
    (forall k, ~ dirty s' k) /\
    (forall k, home_block s k -> lblk s' k = lblk s k /\ ks_disk s' !! k = lblk s k) /\
    others s' = others s /\ ks_proc s' = map (wake ChanLog) (ks_proc s) /\
    ks_log s' = set_log_outstanding 0 (set_lh_n 0 (ks_log s)) /\
    (forall k, is_Some (ks_disk s !! k) -> is_Some (ks_disk s' !! k)).
Proof.
  intros Hinv Hout. destruct (end_op_run s Hinv Hout) as (h & s' & Hh & Hlen & Hz & Hrun & Hv).
  set (ws := end_writes (ks_log s) (lblk s) h) in *.
  destruct (crash_ready s h Hinv Hh Hz) as [_ (z & Hs' & Hl' & Hz' & Hhome)]. fold ws in Hs', Hhome.
  pose proof Hinv as [Hc Hgeo Htx Hlock Hcom _ Hproc]. pose proof Hv as [Hc' _ Hl Hd Hr].
  assert (ks_disk s' = wr ws (ks_disk s)) as Edisk.
  { rewrite (rest_disk _ _ Hr). cbn. now rewrite written_disk. }
  assert (ks_log s' = set_log_outstanding 0 (set_lh_n 0 (ks_log s))) as Elog.
  { apply (f_equal ks_log) in Hr. cbn in Hr. now rewrite written_log in Hr. }
  assert (ks_proc s' = map (wake ChanLog) (ks_proc s)) as Eproc.
  { apply (f_equal ks_proc) in Hr. cbn in Hr. now rewrite written_proc in Hr. }
  assert (forall k, ~ dirty s' k) as Hclean by (intros k Hk; now apply Hd in Hk).
  exists s'. split; [exact Hrun|]. split; [split|split; [|split; [|split; [|split; [|split; [|split]]]]]]; rewrite ?Elog, ?Edisk; fields.
  - exact Hc'.
  - destruct (log_geo_wr _ _ ws Hgeo). split; fields; assumption.
  - pose proof (lg_size _ _ Hgeo). split; fields; [lia|apply NoDup_nil_2| |].
    + intros k. split; [intros Hk; now destruct (Hclean k)|intros Hk; now apply elem_of_nil in Hk].
    + intros k Hk. now apply elem_of_nil in Hk.
  - exact Hlock.
  - exact Hcom.
  - eauto.
  - now rewrite Eproc, length_map.
  - reflexivity.
  - exact Hclean.
  - intros k Hk. pose proof (Hhome k Hk) as E. cbn beta in E. split; [|exact E].
    assert (lblk s' k = ks_disk s' !! k) as ->; [|now rewrite Edisk].
    eapply (view_clean [] (lblk s') (dirty s')); [apply self_view, Hc'|set_solver|apply Hclean].
  - apply (f_equal others) in Hr. cbn in Hr. transitivity (others (written ws s)); [exact Hr|apply written_others].
  - exact Eproc.
  - reflexivity.
  - intros k. apply wr_is_Some.
Qed.

(** C9: the last [end_op] of a transaction puts every block of it in its home
    place: outside of the log the disk is what the cache showed, nothing is
    dirty, and the log is ready for the next transaction. *)
Theorem end_op_installs s :
  log_inv s -> log_outstanding (ks_log s) = 1 ->
  exists s', end_op s = Ok tt s' /\ log_inv s' /\ log_outstanding (ks_log s') = 0 /\
    (forall k, ~ dirty s' k) /\
    forall k, home_block s k -> lblk s' k = lblk s k /\ ks_disk s' !! k = lblk s k.
Proof.
  intros Hinv Hout. destruct (end_op_settles s Hinv Hout) as (s' & H1 & H2 & H3 & H4 & H5 & _). eauto 10.
Qed.

(** *** Booting *)

(** The kernel's memory after [clear_bss], as far as the block layer goes. *)
Record fresh (s : kstate) : Prop := {
  fr_zeroed : zeroed s;
  fr_klog : kl_ok (ks_klog s);
  fr_len : length (lh_block (ks_log s)) = Z.to_nat LOGBLOCKS }.

(** The superblock says where the log [l] is. *)
Definition describes (sb : superblock) (l : log) : Prop :=
  i32 (sb_logstart sb) = log_start l /\ i32 (sb_nlog sb) = log_size l.

Lemma overlay_wr ws m k : overlay ws (fun k => m !! k) k = wr ws m !! k.
Proof.
  induction ws as [|w ws IH] using rev_ind; [done|]. rewrite overlay_app, wr_app. cbn.
  unfold write. case_decide as E; [subst; now rewrite lookup_insert_eq|].
  now rewrite lookup_insert_ne.
Qed.

(** The log's place, read off the superblock. *)
Definition log_at (sb : superblock) (s : kstate) : log :=
  set_log_lock 0 (set_log_dev 0 (set_log_size (i32 (sb_nlog sb))
    (set_log_start (i32 (sb_logstart sb)) (ks_log s)))).

Lemma boot_run s sb h :
  let l := log_at sb s in
  fresh s -> log_geo l (ks_disk s) -> ks_disk s !! log_start l = Some h -> hdr_wf l (ks_disk s) h ->
  exists s', (_ <- binit;; init_log 0 sb) s = Ok tt s' /\ cache [] s' /\ (forall k, ~ dirty s' k) /\
    ks_disk s' = recovered (log_start l) (ks_disk s) /\
    ks_writes s' = ks_writes s ++ recovery_writes (log_start l) h (fun k => ks_disk s !! k) /\
    (forall k, lblk s' k = recovered (log_start l) (ks_disk s) !! k) /\
    log_same l (ks_log s') /\ lh_n (ks_log s') = 0 /\
    length (lh_block (ks_log s')) = Z.to_nat LOGBLOCKS /\ ks_proc s' = ks_proc s.
Proof.
  intros l [Hz Hkl Hlen] Hgeo Hh Hwf. destruct (booted_view s Hz) as (u & Hb).
  destruct (proj1 (wp_Ok _ _ _) Hb) as ([] & s1 & Hrun1 & Hv1).
  assert (length h = Z.to_nat BSIZE) as Hlh by (destruct Hz as (_ & _ & Hd); eauto).
  destruct (proj1 (wp_Ok _ _ _) (init_log_spec _ (upd_ks_uart u s) s1 h sb Hv1 Hgeo Hkl Hh Hlh Hwf))
    as ([] & s2 & Hrun2 & R' & Hd & Hw & Hkl' & Hp & Hsame & Hn & Hbl & _ & Hv2).
  exists s2. rewrite (bind_Ok _ _ _ _ _ Hrun1). split; [exact Hrun2|].
  destruct Hv2 as [Hc _ Hl Hdt Hr]. split; [exact Hc|].
  split; [intros k Hk; now apply Hdt in Hk|].
  assert (ks_writes s2 = ks_writes R' /\ ks_log s2 = ks_log R') as [Ew El]
    by (split; [now apply (f_equal ks_writes) in Hr|now apply (f_equal ks_log) in Hr]).
  assert (recovered (log_start l) (ks_disk s) =
          wr (recovery_writes (log_start l) h (fun k => ks_disk s !! k)) (ks_disk s)) as Erec.
  { unfold recovered. now rewrite Hh. }
  split; [rewrite (rest_disk _ _ Hr), Hd; now rewrite Erec|].
  split; [rewrite Ew, Hw; reflexivity|].
  split; [intros k; rewrite Hl, Erec; apply overlay_wr|].
  rewrite El. do 3 (split; [assumption|]). exact (eq_trans (f_equal ks_proc Hr) Hp).
Qed.

Lemma describes_geo sb l s :
  describes sb l -> fresh s -> log_geo l (ks_disk s) -> log_geo (log_at sb s) (ks_disk s).
Proof.
  intros [Es En] [_ _ Hlen] []. unfold log_at.
  split; fields; rewrite ?Es, ?En; try assumption; reflexivity.
Qed.

(** Booting from a disk that a crash left. *)
Lemma boot_recoverable s sb l M :
  fresh s -> describes sb l -> log_geo l (ks_disk s) -> recoverable l (ks_disk s) M ->
  exists s', (_ <- binit;; init_log 0 sb) s = Ok tt s' /\ cache [] s' /\
    forall k, ~ in_log (log_start l) (log_size l) k -> lblk s' k = M k.
Proof.
  intros Hf Hsb Hgeo (h & Hh & Hlen & Hwf & Hhome). pose proof Hsb as [Es En].
  assert (log_start (log_at sb s) = log_start l /\ log_size (log_at sb s) = log_size l) as [E1 E2]
    by (split; [exact Es|exact En]).
  destruct (boot_run s sb h Hf (describes_geo sb l s Hsb Hf Hgeo)) as (s' & Hrun & Hc & _ & _ & _ & Hl & _).
  - now rewrite E1.
  - destruct Hwf as [H1 H2 H3]. split; rewrite ?E1, ?E2; assumption.
  - exists s'. split; [exact Hrun|]. split; [exact Hc|]. intros k Hk. rewrite Hl, E1. now apply Hhome.
Qed.

Lemma end_op_crash s :
  log_inv s -> log_outstanding (ks_log s) = 1 ->
  exists s' ws, end_op s = Ok tt s' /\ ks_writes s' = ks_writes s ++ ws /\
    ks_disk s' = wr ws (ks_disk s) /\
    forall p s1 sb, p `prefix_of` ws -> fresh s1 -> describes sb (ks_log s) ->
      ks_disk s1 = wr p (ks_disk s) ->
      exists s2, (_ <- binit;; init_log 0 sb) s1 = Ok tt s2 /\ cache [] s2 /\
        ((forall k, home_block s k -> lblk s2 k = ks_disk s !! k) \/
         (forall k, home_block s k -> lblk s2 k = lblk s k)).
Proof.
  intros Hinv Hout. destruct (end_op_run s Hinv Hout) as (h & s' & Hh & Hlen & Hz & Hrun & Hv).
  destruct (crash_ready s h Hinv Hh Hz) as [Hcrash _].
  set (ws := end_writes (ks_log s) (lblk s) h) in *. exists s', ws. split; [exact Hrun|].
  pose proof (bv_rest _ _ _ _ _ Hv) as Hr. split; [|split].
  - apply (f_equal ks_writes) in Hr. cbn in Hr. now rewrite written_writes in Hr.
  - rewrite (rest_disk _ _ Hr). cbn. now rewrite written_disk.
  - intros p s1 sb Hp Hf Hsb Hd.
    assert (log_geo (ks_log s) (ks_disk s1)) as Hgeo.
    { rewrite Hd. apply log_geo_wr, (li_geo _ Hinv). }
    destruct (Hcrash p Hp) as [Hrec|Hrec]; rewrite <- Hd in Hrec;
      destruct (boot_recoverable s1 sb _ _ Hf Hsb Hgeo Hrec) as (s2 & Hrun2 & Hc2 & Hl2);
      exists s2; split; [exact Hrun2| |exact Hrun2|]; (split; [exact Hc2|]); auto.
Qed.

(** C4: a crash at any point of the commit is invisible: whichever prefix of the
    writes of [end_op] reached the disk, the kernel that boots from it ends with
    all of the transaction's blocks, or with none of them. *)
Theorem end_op_crash_atomic s :
  log_inv s -> log_outstanding (ks_log s) = 1 ->
  exists s' ws, end_op s = Ok tt s' /\ ks_writes s' = ks_writes s ++ ws /\
    ks_disk s' = wr ws (ks_disk s) /\
    forall p s1 sb, p `prefix_of` ws -> fresh s1 -> describes sb (ks_log s) ->
      ks_disk s1 = wr p (ks_disk s) ->
      exists s2, (_ <- binit;; init_log 0 sb) s1 = Ok tt s2 /\ cache [] s2 /\
        ((forall k, home_block s k -> lblk s2 k = ks_disk s !! k) \/
         (forall k, home_block s k -> lblk s2 k = lblk s k)).
Proof. exact (end_op_crash s). Qed.

(** C5: recovery does what the header says: each image goes to its home and no
    other block outside of the log changes; the header on the disk is empty
    afterwards. *)
Theorem recovery_installs_log s sb h :
  let l := log_at sb s in
  fresh s -> log_geo l (ks_disk s) -> ks_disk s !! log_start l = Some h -> hdr_wf l (ks_disk s) h ->
  exists s', (_ <- binit;; init_log 0 sb) s = Ok tt s' /\ cache [] s' /\
    (forall i, 0 <= i < hdr_n h -> lblk s' (hdr_block i h) = ks_disk s !! (log_start l + i + 1)) /\
    (forall k, k <> log_start l -> k ∉ hdr_blocks h -> lblk s' k = ks_disk s !! k) /\
    (forall k, lblk s' k = ks_disk s' !! k) /\
    exists h', ks_disk s' !! log_start l = Some h' /\ hdr_n h' = 0.
Proof.
  intros l Hf Hgeo Hh Hwf.
  assert (length h = Z.to_nat BSIZE) as Hlen by (destruct Hf as [(_ & _ & Hd) _ _]; eauto).
  destruct (boot_run s sb h Hf Hgeo Hh Hwf) as (s' & Hrun & Hc & _ & Hd & _ & Hl & _). fold l in Hd, Hl.
  exists s'. split; [exact Hrun|]. split; [exact Hc|].
  pose proof (recovered_here l (ks_disk s) h Hh) as Hrec.
  assert (forall k, k <> log_start l -> recovered (log_start l) (ks_disk s) !! k =
            wr (map (fun i => (hdr_block i h, default [] (ks_disk s !! (log_start l + i + 1))))
                    (upto (hdr_n h))) (ks_disk s) !! k) as Hk.
  { intros k Hk. destruct (decide (0 < hdr_n h)) as [Hn|Hn].
    - rewrite Hrec, wr_app by exact Hn. cbn. now apply lookup_insert_ne.
    - assert (hdr_n h = 0) as Hz by (pose proof (hw_n _ _ _ Hwf); lia).
      rewrite (recovered_empty l _ _ Hh Hz). now rewrite Hz. }
  split; [|split; [|split; [now intros k; rewrite Hl, Hd|]]].
  - intros i Hi. destruct (hw_home _ _ _ Hwf (hdr_block i h)) as (Hout & _ & _).
    { unfold hdr_blocks. apply list_elem_of_fmap. exists i. now rewrite elem_of_upto. }
    rewrite Hl, Hk by (intros E; apply Hout; rewrite E; now apply start_in with (m := ks_disk s)).
    destruct (lg_disk _ _ Hgeo (log_start l + i + 1)) as [d Hd'].
    { pose proof (hw_n _ _ _ Hwf). unfold in_log. lia. }
    rewrite Hd'. apply wr_eq; [apply (rec_NoDup l (ks_disk s) h Hwf)|].
    apply list_elem_of_fmap. exists i. rewrite Hd'. now rewrite elem_of_upto.
  - intros k Hne Hnk. rewrite Hl, Hk by exact Hne. apply wr_ne.
    now rewrite (rec_keys l (ks_disk s) h).
  - rewrite Hd. now apply (recovered_header l (ks_disk s) h).
Qed.

(** C6: recovery may itself be interrupted: whichever prefix of its writes
    reached the disk, the next boot ends with the blocks that the first would
    have produced. *)
Theorem recovery_idempotent s sb h :
  let l := log_at sb s in
  fresh s -> log_geo l (ks_disk s) -> ks_disk s !! log_start l = Some h -> hdr_wf l (ks_disk s) h ->
  exists s' ws, (_ <- binit;; init_log 0 sb) s = Ok tt s' /\ ks_writes s' = ks_writes s ++ ws /\
    forall p s1, p `prefix_of` ws -> fresh s1 -> ks_disk s1 = wr p (ks_disk s) ->
      exists s2, (_ <- binit;; init_log 0 sb) s1 = Ok tt s2 /\
        forall k, ~ in_log (log_start l) (log_size l) k -> lblk s2 k = lblk s' k.
Proof.
  intros l Hf Hgeo Hh Hwf.
  assert (length h = Z.to_nat BSIZE) as Hlen by (destruct Hf as [(_ & _ & Hd) _ _]; eauto).
  destruct (boot_run s sb h Hf Hgeo Hh Hwf) as (s' & Hrun & _ & _ & _ & Hw & Hl & _). fold l in Hw, Hl.
  eexists s', _. split; [exact Hrun|]. split; [exact Hw|]. intros p s1 Hp Hf1 Hd1.
  pose proof (recovery_replay l (ks_disk s) h Hgeo Hwf Hh Hlen p Hp) as Hrec. rewrite <- Hd1 in Hrec.
  assert (log_geo l (ks_disk s1)) as Hgeo1 by (rewrite Hd1; now apply log_geo_wr).
  destruct (boot_recoverable s1 sb l _ Hf1 (conj eq_refl eq_refl) Hgeo1 Hrec) as (s2 & Hrun2 & _ & Hl2).
  exists s2. split; [exact Hrun2|]. intros k Hk. now rewrite Hl2, Hl.
Qed.

Lemma recovered_inv s sb h s' :
  let l := log_at sb s in
  fresh s -> log_geo l (ks_disk s) -> ks_disk s !! log_start l = Some h -> hdr_wf l (ks_disk s) h ->
  log_committing (ks_log s) = 0 -> length (ks_proc s) = nproc ->
  cache [] s' -> (forall k, ~ dirty s' k) -> ks_disk s' = recovered (log_start l) (ks_disk s) ->
  log_same l (ks_log s') -> lh_n (ks_log s') = 0 ->
  length (lh_block (ks_log s')) = Z.to_nat LOGBLOCKS -> ks_proc s' = ks_proc s ->
  log_inv s' /\ log_start (ks_log s') = log_start l /\ log_size (ks_log s') = log_size l /\
    log_outstanding (ks_log s') = log_outstanding (ks_log s) /\
    (forall k, is_Some (ks_disk s !! k) -> is_Some (ks_disk s' !! k)).
Proof.
  intros l Hf Hgeo Hh Hwf Hcom Hproc Hc Hnd Hd Hsame Hn Hbl Hp.
  assert (length h = Z.to_nat BSIZE) as Hlen by (destruct Hf as [(_ & _ & Hdd) _ _]; eauto).
  assert (log_start (ks_log s') = log_start l /\ log_size (ks_log s') = log_size l /\
          log_outstanding (ks_log s') = log_outstanding (ks_log s) /\
          log_committing (ks_log s') = 0 /\ log_lock (ks_log s') = 0 /\ log_dev (ks_log s') = 0)
    as (E1 & E2 & E3 & E4 & E5 & E6) by (rewrite Hsame; auto 10).
  assert (forall k, is_Some (ks_disk s !! k) -> is_Some (ks_disk s' !! k)) as Hdisk.
  { intros k Hk. rewrite Hd. unfold recovered. rewrite Hh. now apply wr_is_Some. }
  split; [|auto]. destruct Hgeo as [G1 G2 G3 G4 G5 G6]. split; try assumption.
  - split; rewrite ?E1, ?E2; try assumption. intros k Hk. now apply Hdisk, G6.
  - split; unfold logged; rewrite Hn; cbn; [rewrite E2; lia|apply NoDup_nil_2| |].
    + intros k. split; [intros Hk; now destruct (Hnd k)|intros Hk; now apply elem_of_nil in Hk].
    + intros k Hk. now apply elem_of_nil in Hk.
  - rewrite E1, Hd. apply (recovered_header l (ks_disk s) h); assumption.
  - now rewrite Hp.
Qed.

(** Booting establishes the invariant of the log. *)
Theorem boot_establishes_inv s sb h :
  let l := log_at sb s in
  fresh s -> log_geo l (ks_disk s) -> ks_disk s !! log_start l = Some h -> hdr_wf l (ks_disk s) h ->
  log_committing (ks_log s) = 0 -> length (ks_proc s) = nproc ->
  exists s', (_ <- binit;; init_log 0 sb) s = Ok tt s' /\ log_inv s' /\
    log_start (ks_log s') = log_start l /\ log_size (ks_log s') = log_size l /\
    (forall k, ~ dirty s' k) /\ (forall k, is_Some (ks_disk s !! k) -> is_Some (ks_disk s' !! k)).
Proof.
  intros l Hf Hgeo Hh Hwf Hcom Hproc. destruct (boot_run s sb h Hf Hgeo Hh Hwf)
    as (s' & Hrun & Hc & Hnd & Hd & _ & _ & Hsame & Hn & Hbl & Hp).
  destruct (recovered_inv s sb h s' Hf Hgeo Hh Hwf Hcom Hproc Hc Hnd Hd Hsame Hn Hbl Hp)
    as (Hinv & E1 & E2 & _ & Hdisk).
  exists s'. auto 10.
Qed.

(** *** Inside a transaction *)

Section update.
Context (s : kstate) (k : Z) (d : list Z) (Hinv : log_inv s).
Context (Hn : lh_n (ks_log s) < log_size (ks_log s) - 1) (Hhome : home_block s k).

(** The view after an update of block [k]. *)
Abbreviation updated := (bio_view [] (write k d (lblk s)) (mark k (dirty s))
                           (upd_ks_log (add_block k) s)).

Lemma update_run :
  1 <= log_outstanding (ks_log s) -> 0 < k < 2 ^ 31 -> is_Some (ks_disk s !! k) ->
  length d = Z.to_nat BSIZE ->
  wp (b <- bread 0 k;; _ <- set_bdata b d;; _ <- log_write b;; brelse b) (fun _ s' => updated s') s.
Proof.
  clear Hhome. intros Hout Hk Hdisk Hd. destruct Hinv as [Hc Hgeo Htx Hlock _ _ _].
  wcall (view_bread _ _ _ _ _ k (self_view s Hc)) as b s1 Hv1; [exact Hk|exact Hdisk|cbn; lia| |].
  { left. eapply roomy_logged; [exact Htx|apply Hgeo|apply Hgeo]. }
  wcall (view_set_bdata _ _ _ _ _ k b d Hv1) as [] s2 Hv2; [set_solver|exact Hd|].
  wcall (log_write_spec _ _ _ _ _ k b Hv2) as [] s3 Hv3; try assumption; [set_solver|].
  eapply view_brelse; [exact Hv3|]. left. now left.
Qed.

Lemma add_block_same (g : log -> Z) l :
  (forall x y z, g (set_lh_n x (set_lh_block y z)) = g z) -> g (add_block k l) = g l.
Proof. intros Hg. unfold add_block. case_decide; [reflexivity|apply Hg]. Qed.

Lemma update_inv s' :
  updated s' -> log_inv s' /\ ks_log s' = add_block k (ks_log s) /\
    (forall k', lblk s' k' = if decide (k' = k) then Some d else lblk s k') /\
    ks_disk s' = ks_disk s /\ ks_writes s' = ks_writes s.
Proof.
  destruct Hinv as [Hc Hgeo Htx Hlock Hcom Hhdr Hproc]. intros [Hc' _ Hl Hdt Hr].
  assert (ks_log s' = add_block k (ks_log s) /\ ks_disk s' = ks_disk s /\ ks_writes s' = ks_writes s /\
          ks_proc s' = ks_proc s) as (El & Ed & Ew & Ep).
  { split; [exact (f_equal ks_log Hr)|]. split; [exact (f_equal ks_disk Hr)|].
    split; [exact (f_equal ks_writes Hr)|exact (f_equal ks_proc Hr)]. }
  split; [|auto 10]. pose proof (add_block_txn _ _ Hgeo _ Htx k Hn Hhome) as Htx'.
  split; rewrite ?El, ?Ed, ?Ep; try assumption.
  - now apply add_block_geo.
  - destruct Htx' as [T1 T2 T3 T4]. split; try assumption. intros k'. now rewrite Hdt.
  - now rewrite (add_block_same log_lock).
  - now rewrite (add_block_same log_committing).
  - now rewrite (add_block_same log_start).
Qed.
End update.

(** the way the file system updates a block.  The new contents are shown from
    now on, the block joins the transaction (once), and the disk does not change
    before the commit. *)
Theorem logged_update s k d :
  log_inv s -> 1 <= log_outstanding (ks_log s) -> lh_n (ks_log s) < log_size (ks_log s) - 1 ->
  0 < k < 2 ^ 31 -> is_Some (ks_disk s !! k) -> home_block s k -> length d = Z.to_nat BSIZE ->
  exists s', (b <- bread 0 k;; _ <- set_bdata b d;; _ <- log_write b;; brelse b) s = Ok tt s' /\
    log_inv s' /\ ks_log s' = add_block k (ks_log s) /\
    (forall k', lblk s' k' = if decide (k' = k) then Some d else lblk s k') /\
    ks_disk s' = ks_disk s /\ ks_writes s' = ks_writes s.
Proof.
  intros Hinv Hout Hn Hk Hdisk Hhome Hd.
  destruct (proj1 (wp_Ok _ _ _) (update_run s k d Hinv Hn Hout Hk Hdisk Hd)) as ([] & s' & Hrun & Hv).
  exists s'. split; [exact Hrun|]. now apply update_inv.
Qed.

(** *** Starting a transaction *)

Lemma acquire_free s : log_lock (ks_log s) = 0 -> acquire_log s = Ok tt (upd_ks_log (set_log_lock 1) s).
Proof. intros H. unfold acquire_log, getlog, gets, bind. cbn [obind]. now rewrite H. Qed.

Lemma acquire_taken s : log_lock (ks_log s) <> 0 -> acquire_log s = Hang s.
Proof.
  intros H. unfold acquire_log, getlog, gets, bind. cbn [obind].
  now destruct (Z.eqb_spec (log_lock (ks_log s)) 0).
Qed.

(** The state in which [sleep c] leaves the processor. *)
Definition asleep (p : nat) (c : chan) : kstate -> kstate :=
  upd_ks_proc (fun l => alter (set_p_state SLEEPING) p (alter (set_p_chan c) p l)).

Lemma sleep_run s p c :
  ks_current s = Some p -> (p < length (ks_proc s))%nat ->
  exists k, sleep c s = Switch (asleep p c s) k.
Proof.
  intros Hp [q Hq]%lookup_lt_is_Some. unfold sleep, myproc, gets, bind at 1. cbn [obind].
  rewrite Hp. rewrite (bind_Ok _ _ _ _ _ (modproc_run s p _ q Hq)).
  erewrite bind_Ok by (eapply modproc_run; fields; rewrite lookup_alter_proc, decide_True, Hq by done;
                       reflexivity).
  unfold bind, swtch_sched. cbn [obind]. eexists. reflexivity.
Qed.

(** [begin_op] up to its first test. *)
Definition must_wait (l : log) : bool :=
  negb (log_committing l =? 0) || (log_size l - 5 <? lh_n l + (log_outstanding l + 1) * 5).

Lemma begin_op_step s fuel :
  log_lock (ks_log s) = 0 ->
  begin_op (S fuel) s =
    (if must_wait (ks_log s) then _ <- sleep ChanLog;; begin_op_loop fuel
     else _ <- modlog (upd_log_outstanding (fun n => i32 (n + 1)));; release_log)
      (upd_ks_log (set_log_lock 1) s).
Proof.
  intros Hlock. unfold begin_op. rewrite (bind_Ok _ _ _ _ _ (acquire_free s Hlock)). cbn [begin_op_loop].
  unfold getlog, gets, bind at 1. cbn [obind]. fields. unfold must_wait.
  destruct (negb (log_committing (ks_log s) =? 0)); [reflexivity|]. now destruct (log_size (ks_log s) - 5 <? _).
Qed.

Lemma begin_op_goes s fuel :
  log_lock (ks_log s) = 0 -> must_wait (ks_log s) = false ->
  begin_op (S fuel) s = Ok tt (upd_ks_log (upd_log_outstanding (fun n => i32 (n + 1))) s).
Proof.
  intros Hlock Hw. rewrite (begin_op_step s fuel Hlock), Hw.
  transitivity (Ok tt (upd_ks_log (fun l => set_log_lock 0
      (upd_log_outstanding (fun n => i32 (n + 1)) (set_log_lock 1 l))) s)); [reflexivity|]. f_equal.
  apply upd_log_ext. cbn beta. clear - Hlock. destruct (ks_log s). cbn in *. now subst.
Qed.

(** [begin_op] with room in the log starts an operation at once; with too
    little room, or while a commit runs, the process sleeps on the log until
    [end_op] wakes it: and it sleeps with the lock of the log taken. *)
Theorem begin_op_runs s fuel p :
  log_lock (ks_log s) = 0 -> ks_current s = Some p -> (p < length (ks_proc s))%nat ->
  let l := ks_log s in
  let wait := negb (log_committing l =? 0) ||
              (log_size l - 5 <? lh_n l + (log_outstanding l + 1) * 5) in
  if wait then
    exists k, begin_op (S fuel) s = Switch (asleep p ChanLog (upd_ks_log (set_log_lock 1) s)) k
  else
    begin_op (S fuel) s = Ok tt (upd_ks_log (upd_log_outstanding (fun n => i32 (n + 1))) s).
Proof.
  intros Hlock Hp Hlen l wait.
  change (if must_wait l then
    exists k, begin_op (S fuel) s = Switch (asleep p ChanLog (upd_ks_log (set_log_lock 1) s)) k
    else begin_op (S fuel) s = Ok tt (upd_ks_log (upd_log_outstanding (fun n => i32 (n + 1))) s)).
  destruct (must_wait l) eqn:Hw; [|now apply begin_op_goes].
  rewrite (begin_op_step s fuel Hlock). fold l. rewrite Hw.
  destruct (sleep_run (upd_ks_log (set_log_lock 1) s) p ChanLog Hp Hlen) as (k & Hk).
  unfold bind. rewrite Hk. cbn [obind]. eexists. reflexivity.
Qed.

(** C33: no operation on the log can run while the sleeper holds the lock: each
    spins for ever, [end_op], which would wake it, included. *)
Theorem sleeping_begin_op_deadlocks s fuel p :
  log_lock (ks_log s) = 0 -> ks_current s = Some p -> (p < length (ks_proc s))%nat ->
  log_size (ks_log s) - 5 < lh_n (ks_log s) + (log_outstanding (ks_log s) + 1) * 5 ->
  exists s1 k, begin_op (S fuel) s = Switch s1 k /\
    forall s2 fuel2 b, ks_log s2 = ks_log s1 ->
      begin_op fuel2 s2 = Hang s2 /\ end_op s2 = Hang s2 /\ log_write b s2 = Hang s2.
Proof.
  intros Hlock Hp Hlen Hfull. unfold begin_op at 1. rewrite (bind_Ok _ _ _ _ _ (acquire_free s Hlock)).
  cbn [begin_op_loop]. unfold getlog, gets, bind at 1. cbn [obind]. fields.
  destruct (sleep_run (upd_ks_log (set_log_lock 1) s) p ChanLog Hp Hlen) as (k & Hk).
  destruct (Z.ltb_spec (log_size (ks_log s) - 5) (lh_n (ks_log s) + (log_outstanding (ks_log s) + 1) * 5)); [|lia].
  eexists _, _. split.
  - destruct (negb (log_committing (ks_log s) =? 0)); unfold bind; rewrite Hk; reflexivity.
  - intros s2 fuel2 b E. assert (log_lock (ks_log s2) <> 0) as Ht by (rewrite E; cbn; lia).
    unfold begin_op, end_op, log_write, bind. rewrite (acquire_taken s2 Ht). auto.
Qed.

(** [log_write] outside of a transaction, or with the log full, panics. *)
Theorem log_write_panics s b :
  log_lock (ks_log s) = 0 ->
  let l := ks_log s in
  log_size l - 1 <= lh_n l \/ log_outstanding l < 1 ->
  exists msg s', log_write b s = Panic msg s' /\
    msg = (if log_size l - 1 <=? lh_n l then str "log: too big" else str "log: outside of trans").
Proof.
  intros Hlock l Herr. unfold log_write. rewrite (bind_Ok _ _ _ _ _ (acquire_free s Hlock)).
  unfold getlog, gets, bind at 1. cbn [obind]. fields. fold l.
  destruct (Z.leb_spec (log_size l - 1) (lh_n l)).
  - unfold bind, when. rewrite panic_run. cbn [obind]. eauto.
  - destruct (Z.ltb_spec (log_outstanding l) 1); [|lia].
    unfold bind, when, ret. cbn [obind]. rewrite panic_run. cbn [obind]. eauto.
Qed.

(** ** Examples

    A disk of 48 blocks with the log in blocks 2 to 31. *)
Definition fill (n : Z) (f : Z -> list Z) : disk := list_to_map (map (fun k => (k, f k)) (upto n)).

Lemma fill_lookup n f k : 0 <= k < n -> fill n f !! k = Some (f k).
Proof.
  intros Hk. apply elem_of_list_to_map_1.
  - rewrite <- list_fmap_compose. unfold upto. rewrite <- list_fmap_compose.
    apply NoDup_fmap_2; [|apply NoDup_seq]. intros i j E. cbn in E. lia.
  - apply list_elem_of_fmap. exists k. now rewrite elem_of_upto.
Qed.

Lemma fill_Some n f k d : fill n f !! k = Some d -> d = f k.
Proof.
  intros H%elem_of_list_to_map_2. apply list_elem_of_fmap in H as (k' & [= -> ->] & _). reflexivity.
Qed.

Definition sevens : list Z := replicate (Z.to_nat BSIZE) 7.
Definition eights : list Z := replicate (Z.to_nat BSIZE) 8.
Definition zeros : list Z := replicate (Z.to_nat BSIZE) 0.

Definition demo_image (k : Z) : list Z := if k <? 40 then zeros else sevens.
Definition demo_fs : kstate := disk_state (fill 48 demo_image).
Definition demo_sb : superblock := mkSuperblock FSMAGIC FSSIZE 954 200 30 2 32 45.

Lemma demo_lookup k : 0 <= k < 48 -> ks_disk demo_fs !! k = Some (demo_image k).
Proof. exact (fill_lookup 48 demo_image k). Qed.

Lemma demo_fresh : fresh demo_fs.
Proof.
  split; [|unfold kl_ok; cbn; split; [reflexivity|split; lia || (unfold LOG_BUFSIZE; lia)]|reflexivity].
  apply disk_state_zeroed. intros k d ->%fill_Some. unfold demo_image. now destruct (k <? 40).
Qed.

Lemma demo_geo : log_geo (log_at demo_sb demo_fs) (ks_disk demo_fs).
Proof.
  split; change (log_start (log_at demo_sb demo_fs)) with 2;
    change (log_size (log_at demo_sb demo_fs)) with 30; unfold LOGBLOCKS; try lia; [reflexivity..|].
  intros k [Hk1 Hk2]. exact (mk_is_Some _ _ (demo_lookup k ltac:(lia))).
Qed.

Lemma demo_hdr : ks_disk demo_fs !! log_start (log_at demo_sb demo_fs) = Some zeros.
Proof. exact (demo_lookup 2 ltac:(lia)). Qed.

Lemma demo_hdr_n : hdr_n zeros = 0.
Proof. reflexivity. Qed.

(** The demo machine, booted, and inside an operation that has updated block 40. *)
Lemma demo_booted :
  exists s, log_inv s /\ log_start (ks_log s) = 2 /\ log_size (ks_log s) = 30 /\
    log_outstanding (ks_log s) = 0 /\ lh_n (ks_log s) = 0 /\ is_Some (ks_disk s !! 40).
Proof.
  pose proof (empty_hdr_wf _ _ demo_geo (ks_disk demo_fs) zeros demo_hdr_n) as Hwf.
  destruct (boot_run demo_fs demo_sb zeros demo_fresh demo_geo demo_hdr Hwf)
    as (s' & Hrun & Hc & Hnd & Hd & _ & _ & Hsame & Hn & Hbl & Hp).
  destruct (recovered_inv demo_fs demo_sb zeros s' demo_fresh demo_geo demo_hdr Hwf eq_refl eq_refl
              Hc Hnd Hd Hsame Hn Hbl Hp) as (Hinv & E1 & E2 & E3 & Hdisk).
  exists s'. split; [exact Hinv|]. split; [exact E1|]. split; [exact E2|]. split; [exact E3|].
  split; [exact Hn|]. apply Hdisk. exact (mk_is_Some _ _ (demo_lookup 40 ltac:(lia))).
Qed.

Lemma log_inv_start s f :
  log_inv s -> log_inv (upd_ks_log (upd_log_outstanding f) s).
Proof.
  intros [[C1 C2 C3 C4 C5 C6] [G1 G2 G3 G4 G5 G6] [T1 T2 T3 T4] H1 H2 H3 H4].
  split; fields; try assumption; split; fields; assumption.
Qed.

Lemma demo_txn :
  exists s, log_inv s /\ log_start (ks_log s) = 2 /\ log_size (ks_log s) = 30 /\
    log_outstanding (ks_log s) = 1 /\ lh_n (ks_log s) = 1 /\ is_Some (ks_disk s !! 40) /\
    lblk s 40 = Some eights.
Proof.
  destruct demo_booted as (s0 & Hinv0 & E1 & E2 & E3 & E4 & Hd0).
  set (s1 := upd_ks_log (upd_log_outstanding (fun n => i32 (n + 1))) s0).
  pose proof (log_inv_start s0 (fun n => i32 (n + 1)) Hinv0) as Hinv1. fold s1 in Hinv1.
  assert (log_outstanding (ks_log s1) = 1) as Hout by (cbn; now rewrite E3).
  assert (lh_n (ks_log s1) < log_size (ks_log s1) - 1) as Hn by (cbn; rewrite E4, E2; lia).
  assert (home_block s1 40) as Hh by (unfold home_block, in_log; cbn; rewrite E1, E2; lia).
  destruct (proj1 (wp_Ok _ _ _) (update_run s1 40 eights Hinv1 Hn ltac:(lia) ltac:(lia) Hd0 eq_refl))
    as ([] & s2 & _ & Hv).
  destruct (update_inv s1 40 eights Hinv1 Hn Hh s2 Hv) as (Hinv2 & El & Hl & Ed & _).
  exists s2. split; [exact Hinv2|]. rewrite El, Ed, Hl.
  assert (40 ∉ logged (ks_log s1)) as Hni by (unfold logged; cbn; rewrite E4; apply not_elem_of_nil).
  unfold add_block. rewrite decide_False by exact Hni. cbn. rewrite E3, E4. auto 10.
Qed.

(** The demo disk after a crash that left the update of block 40 in the log. *)
Definition crashed_image (k : Z) : list Z :=
  if k =? 2 then hdr_image 1 [40] zeros else if k =? 3 then eights else demo_image k.
Definition demo_crashed : kstate := disk_state (fill 48 crashed_image).

Lemma crashed_lookup k : 0 <= k < 48 -> ks_disk demo_crashed !! k = Some (crashed_image k).
Proof. exact (fill_lookup 48 crashed_image k). Qed.

Lemma crashed_fresh : fresh demo_crashed.
Proof.
  split; [|unfold kl_ok; cbn; split; [reflexivity|split; lia || (unfold LOG_BUFSIZE; lia)]|reflexivity].
  apply disk_state_zeroed. intros k d ->%fill_Some.
  unfold crashed_image, demo_image. destruct (k =? 2); [now vm_compute|].
  destruct (k =? 3); [reflexivity|]. now destruct (k <? 40).
Qed.

Lemma crashed_geo : log_geo (log_at demo_sb demo_crashed) (ks_disk demo_crashed).
Proof.
  split; change (log_start (log_at demo_sb demo_crashed)) with 2;
    change (log_size (log_at demo_sb demo_crashed)) with 30; unfold LOGBLOCKS; try lia; [reflexivity..|].
  intros k [Hk1 Hk2]. exact (mk_is_Some _ _ (crashed_lookup k ltac:(lia))).
Qed.

Definition crashed_hdr : list Z := hdr_image 1 [40] zeros.

Lemma crashed_hdr_at : ks_disk demo_crashed !! log_start (log_at demo_sb demo_crashed) = Some crashed_hdr.
Proof. exact (crashed_lookup 2 ltac:(lia)). Qed.

Lemma crashed_n : hdr_n crashed_hdr = 1.
Proof. vm_compute. reflexivity. Qed.
Lemma crashed_blocks : hdr_blocks crashed_hdr = [40].
Proof. vm_compute. reflexivity. Qed.

Lemma crashed_wf : hdr_wf (log_at demo_sb demo_crashed) (ks_disk demo_crashed) crashed_hdr.
Proof.
  split; change (log_start (log_at demo_sb demo_crashed)) with 2;
    change (log_size (log_at demo_sb demo_crashed)) with 30;
    rewrite ?crashed_n, ?crashed_blocks; [lia|apply NoDup_singleton|].
  intros k ->%list_elem_of_singleton. split; [unfold in_log; lia|]. split; [lia|].
  exact (mk_is_Some _ _ (crashed_lookup 40 ltac:(lia))).
Qed.

(** *** Witnesses *)

Lemma end_op_installs_witness :
  exists s, lblk s 40 = Some eights /\
  exists s', end_op s = Ok tt s' /\ log_inv s' /\ log_outstanding (ks_log s') = 0 /\
    (forall k, ~ dirty s' k) /\
    forall k, home_block s k -> lblk s' k = lblk s k /\ ks_disk s' !! k = lblk s k.
Proof.
  destruct demo_txn as (s & Hinv & _ & _ & Hout & _ & _ & Hl). exists s. split; [exact Hl|].
  exact (end_op_installs s Hinv Hout).
Defined.

Lemma end_op_crash_atomic_witness :
  exists s, lblk s 40 = Some eights /\
  exists s' ws, end_op s = Ok tt s' /\ ks_writes s' = ks_writes s ++ ws /\
    ks_disk s' = wr ws (ks_disk s) /\
    forall p s1 sb, p `prefix_of` ws -> fresh s1 -> describes sb (ks_log s) ->
      ks_disk s1 = wr p (ks_disk s) ->
      exists s2, (_ <- binit;; init_log 0 sb) s1 = Ok tt s2 /\ cache [] s2 /\
        ((forall k, home_block s k -> lblk s2 k = ks_disk s !! k) \/
         (forall k, home_block s k -> lblk s2 k = lblk s k)).
Proof.
  destruct demo_txn as (s & Hinv & _ & _ & Hout & _ & _ & Hl). exists s. split; [exact Hl|].
  exact (end_op_crash_atomic s Hinv Hout).
Defined.

Lemma recovery_installs_log_witness :
  let l := log_at demo_sb demo_crashed in
  exists s', (_ <- binit;; init_log 0 demo_sb) demo_crashed = Ok tt s' /\ cache [] s' /\
    (forall i, 0 <= i < hdr_n crashed_hdr ->
       lblk s' (hdr_block i crashed_hdr) = ks_disk demo_crashed !! (log_start l + i + 1)) /\
    (forall k, k <> log_start l -> k ∉ hdr_blocks crashed_hdr ->
       lblk s' k = ks_disk demo_crashed !! k) /\
    (forall k, lblk s' k = ks_disk s' !! k) /\
    exists h', ks_disk s' !! log_start l = Some h' /\ hdr_n h' = 0.
Proof.
  exact (recovery_installs_log demo_crashed demo_sb crashed_hdr crashed_fresh crashed_geo
           crashed_hdr_at crashed_wf).
Defined.

Lemma recovery_idempotent_witness :
  let l := log_at demo_sb demo_crashed in
  exists s' ws, (_ <- binit;; init_log 0 demo_sb) demo_crashed = Ok tt s' /\
    ks_writes s' = ks_writes demo_crashed ++ ws /\
    forall p s1, p `prefix_of` ws -> fresh s1 -> ks_disk s1 = wr p (ks_disk demo_crashed) ->
      exists s2, (_ <- binit;; init_log 0 demo_sb) s1 = Ok tt s2 /\
        forall k, ~ in_log (log_start l) (log_size l) k -> lblk s2 k = lblk s' k.
Proof.
  exact (recovery_idempotent demo_crashed demo_sb crashed_hdr crashed_fresh crashed_geo
           crashed_hdr_at crashed_wf).
Defined.

Lemma boot_establishes_inv_witness :
  let l := log_at demo_sb demo_crashed in
  exists s', (_ <- binit;; init_log 0 demo_sb) demo_crashed = Ok tt s' /\ log_inv s' /\
    log_start (ks_log s') = log_start l /\ log_size (ks_log s') = log_size l /\
    (forall k, ~ dirty s' k) /\
    (forall k, is_Some (ks_disk demo_crashed !! k) -> is_Some (ks_disk s' !! k)).
Proof.
  exact (boot_establishes_inv demo_crashed demo_sb crashed_hdr crashed_fresh crashed_geo
           crashed_hdr_at crashed_wf eq_refl eq_refl).
Defined.

Lemma logged_update_witness :
  exists s, lh_n (ks_log s) = 1 /\
  exists s', (b <- bread 0 40;; _ <- set_bdata b zeros;; _ <- log_write b;; brelse b) s = Ok tt s' /\
    log_inv s' /\ ks_log s' = add_block 40 (ks_log s) /\
    (forall k', lblk s' k' = if decide (k' = 40) then Some zeros else lblk s k') /\
    ks_disk s' = ks_disk s /\ ks_writes s' = ks_writes s.
Proof.
  destruct demo_txn as (s & Hinv & E1 & E2 & Hout & Hn & Hd & _). exists s. split; [exact Hn|].
  apply (logged_update s 40 zeros);
    [exact Hinv|lia|lia|lia|exact Hd|unfold home_block, in_log; lia|reflexivity].
Defined.

(** Five operations in progress, as seen by a sixth. *)
Definition demo_busy : kstate :=
  set_ks_current (Some O) (upd_ks_log (fun l => set_log_size 30 (set_log_outstanding 5 l)) demo_fs).

Lemma begin_op_runs_witness :
  exists k, begin_op 1 demo_busy =
    Switch (asleep 0 ChanLog (upd_ks_log (set_log_lock 1) demo_busy)) k.
Proof. exact (begin_op_runs demo_busy 0 0 eq_refl eq_refl
  ltac:(apply Nat.ltb_lt; reflexivity)). Defined.

Lemma sleeping_begin_op_deadlocks_witness :
  exists s1 k, begin_op 1 demo_busy = Switch s1 k /\
    forall s2 fuel2 b, ks_log s2 = ks_log s1 ->
      begin_op fuel2 s2 = Hang s2 /\ end_op s2 = Hang s2 /\ log_write b s2 = Hang s2.
Proof.
  exact (sleeping_begin_op_deadlocks demo_busy 0 0 eq_refl eq_refl
    ltac:(apply Nat.ltb_lt; reflexivity) ltac:(apply Z.ltb_lt; reflexivity)).
Defined.

Lemma log_write_panics_witness :
  exists msg s', log_write 0 demo_fs = Panic msg s' /\ msg = str "log: too big".
Proof.
  apply (log_write_panics demo_fs 0); [reflexivity|left; apply Z.leb_le; reflexivity].
Defined.
