(* ===== verification/Update.v ===== *)
(** * Updating blocks inside a transaction

    The file system changes a block by [bread], a change of the data,
    [log_write] and [brelse], between [begin_op] and [end_op].  [in_op] is the
    state of such an operation: what the blocks show, and how many more blocks
    the log has room for. *)
From S2P Require Import Prelude State Printf Bio Blocks Log Txn.

Section op.
Context {view : view_pred} `{HB : !BlockCache view}.

(** An operation that may still log [n] blocks. *)
Record in_op (n : Z) (hs : holders) (L : blockmap) (D : Z -> Prop) (R s : kstate) : Prop := {
  op_view : view hs L D R s;
  op_geo : log_geo (ks_log R) (ks_disk R);
  op_txn : txn_ok (ks_log R) D;
  op_lock : log_lock (ks_log R) = 0;
  op_out : 1 <= log_outstanding (ks_log R);
  op_room : 0 <= n /\ lh_n (ks_log R) + n <= log_size (ks_log R) - 1 }.

(** Two logs that differ at most in what is logged. *)
Record same_log (l l' : log) : Prop := {
  sl_start : log_start l' = log_start l;
  sl_size : log_size l' = log_size l;
  sl_outstanding : log_outstanding l' = log_outstanding l;
  sl_committing : log_committing l' = log_committing l }.

Lemma same_log_refl l : same_log l l.
Proof. now split. Qed.

Lemma same_log_trans l1 l2 l3 : same_log l1 l2 -> same_log l2 l3 -> same_log l1 l3.
Proof. intros [? ? ? ?] [? ? ? ?]. split; congruence. Qed.

(** Two states that differ at most in what is logged. *)
Definition relog (R R' : kstate) : Prop := exists l, R' = set_ks_log l R /\ same_log (ks_log R) l.

Lemma relog_refl R : relog R R.
Proof. exists (ks_log R). split; [now destruct R|apply same_log_refl]. Qed.

Lemma relog_trans R1 R2 R3 : relog R1 R2 -> relog R2 R3 -> relog R1 R3.
Proof.
  intros (l2 & -> & H2) (l3 & -> & H3). exists l3. split; [reflexivity|]. eapply same_log_trans; [exact H2|exact H3].
Qed.

(** A block that is not part of the log. *)
Definition loggable (R : kstate) (k : Z) : Prop :=
  0 < k < 2 ^ 31 /\ is_Some (ks_disk R !! k) /\ ~ in_log (log_start (ks_log R)) (log_size (ks_log R)) k.

Lemma loggable_relog R R' k : relog R R' -> loggable R k -> loggable R' k.
Proof. intros (l & -> & [H1 H2 _ _]) Hk. unfold loggable. cbn. now rewrite H1, H2. Qed.

Lemma op_roomy n hs L D R s :
  in_op n hs L D R s -> Z.of_nat (length hs) <= n -> roomy hs D.
Proof.
  intros [Hv Hgeo Htx _ _ [Hn Hroom]] Hhs. exists (logged (ks_log R) ++ hs.*1). split.
  - rewrite length_app, length_fmap. unfold logged. rewrite length_take.
    pose proof (tx_n _ _ Htx). pose proof (lg_size _ _ Hgeo). unfold LOGBLOCKS, NBUF in *. lia.
  - intros k Hk. rewrite elem_of_app. destruct Hk as [Hk|Hk]; [auto|left]. now apply (tx_dirty _ _ Htx).
Qed.

Lemma op_bread n hs L D R s k :
  in_op n hs L D R s -> 0 < k < 2 ^ 31 -> is_Some (ks_disk R !! k) -> Z.of_nat (length hs) <= n -> n <= 1000 ->
  wp (bread 0 k) (fun i s' => in_op n ((k, i) :: hs) L D R s') s.
Proof.
  intros Ho Hk Hd Hhs Hmax. pose proof Ho as [Hv Hgeo Htx Hlock Hout Hroom].
  eapply wpx_conseq; [eapply view_bread; [exact Hv|exact Hk|exact Hd| |left; eapply op_roomy; eauto]|].
  - pose proof (lg_size _ _ Hgeo). pose proof (tx_n _ _ Htx). unfold LOGBLOCKS in *. lia.
  - intros i s' Hv'. now split.
Qed.

(** Changes outside of the cache, the disk and the log. *)
Lemma op_outside f n hs L D R s :
  outside f -> ks_log (f R) = ks_log R -> in_op n hs L D R s -> in_op n hs L D (f R) (f s).
Proof.
  intros Hf Hl [Hv Hgeo Htx Hlock Hout Hroom]. destruct (Hf R) as (_ & Hd & _).
  split; rewrite ?Hl, ?Hd; try assumption. now apply view_outside.
Qed.

Lemma op_weaken n n' hs L D R s : in_op n hs L D R s -> 0 <= n' <= n -> in_op n' hs L D R s.
Proof. intros [Hv Hgeo Htx Hlock Hout [Hn Hroom]] Hn'. split; try assumption. lia. Qed.

(** What logging block [k] costs: nothing if it is in the transaction already
    ([log_write] wants room for one more block even then). *)
Definition paid (D : Z -> Prop) (k c : Z) : Prop := c = 1 \/ c = 0 /\ D k.

Lemma paid_mark D k k' c : paid D k c -> paid (mark k' D) k c.
Proof. intros [?|[? ?]]; [now left|right; split; [assumption|now right]]. Qed.

(** The data of a held block are replaced, and the block is logged. *)
Lemma op_put n c hs L D R s k i d :
  in_op n hs L D R s -> (k, i) ∈ hs -> loggable R k -> length d = Z.to_nat BSIZE -> paid D k c -> 1 <= n ->
  wp (_ <- set_bdata i d;; log_write i)
    (fun _ s' => exists R', relog R R' /\ in_op (n - c) hs (write k d L) (mark k D) R' s') s.
Proof.
  intros [Hv Hgeo Htx Hlock Hout [Hn0 Hroom]] Hin (Hk & Hd & Hnl) Hlen Hc Hn.
  wcall view_set_bdata as [] s1 Hv1; [exact Hv|exact Hin|exact Hlen|].
  set (l := ks_log R) in *.
  assert (lh_n l < log_size l - 1) as Hfit by lia.
  eapply wpx_conseq; [eapply log_write_spec; [exact Hv1|exact Hin|exact Hgeo|exact Htx|exact Hlock|exact Hout|exact Hfit]|].
  intros [] s2 Hv2.
  assert (forall g, (forall x y z, g (set_lh_n x (set_lh_block y z)) = g z) -> g (add_block k l) = g l :> Z) as Hsame.
  { intros g Hg. apply (add_block_same k g l Hg). }
  exists (upd_ks_log (add_block k) R). split.
  - exists (add_block k l). split; [reflexivity|]. split; now apply Hsame.
  - split.
    + exact Hv2.
    + now apply add_block_geo.
    + apply (add_block_txn l _ Hgeo D Htx k); [exact Hfit|exact Hnl].
    + change (log_lock (add_block k l) = 0). now rewrite (Hsame log_lock).
    + change (1 <= log_outstanding (add_block k l)). now rewrite (Hsame log_outstanding).
    + change (0 <= n - c /\ lh_n (add_block k l) + (n - c) <= log_size (add_block k l) - 1).
      rewrite (Hsame log_size) by reflexivity. split; [destruct Hc as [->|[-> _]]; lia|].
      destruct Hc as [->|[-> HD]]; unfold add_block; case_decide as Hlg; fields; try lia.
      destruct Hlg. now apply (tx_dirty _ _ Htx).
Qed.

Lemma op_brelse n hs L D R s k i :
  in_op n ((k, i) :: hs) L D R s -> D k \/ L k = ks_disk R !! k ->
  wp (brelse i) (fun _ s' => in_op n hs L D R s') s.
Proof.
  intros [Hv Hgeo Htx Hlock Hout Hroom] Hk.
  eapply wpx_conseq; [eapply view_brelse; [exact Hv|exact Hk]|]. intros [] s' Hv'. now split.
Qed.

Lemma op_bdata n hs L D R s k i :
  in_op n hs L D R s -> (k, i) ∈ hs ->
  wp (bdata i) (fun d s' => s' = s /\ L k = Some d /\ length d = Z.to_nat BSIZE) s.
Proof. intros Ho Hin. eapply view_bdata; [apply Ho|exact Hin]. Qed.

(** bread, a new contents, log_write, brelse. *)
Lemma op_update n hs L D R s k d :
  in_op n hs L D R s -> loggable R k -> length d = Z.to_nat BSIZE ->
  1 <= n <= 1000 -> Z.of_nat (length hs) <= n ->
  wp (bp <- bread 0 k;; _ <- set_bdata bp d;; _ <- log_write bp;; brelse bp)
    (fun _ s' => exists R', relog R R' /\ in_op (n - 1) hs (write k d L) (mark k D) R' s') s.
Proof.
  intros Ho Hk Hlen Hn Hhs. pose proof Hk as (Hr & Hd & _).
  wcall op_bread as bp s1 Ho1; [exact Ho|exact Hr|exact Hd|exact Hhs|lia|].
  apply wpx_assoc.
  wcall (op_put _ 1) as [] s2 (R2 & HR & Ho2); [exact Ho1|left|exact Hk|exact Hlen|now left|lia|].
  eapply wpx_conseq; [eapply op_brelse; [exact Ho2|left; now left]|]. intros [] s3 Ho3. eauto.
Qed.
End op.
