(* ===== verification/Fs.v ===== *)
(** * The file system: kernel/fs.c

    Blocks, inodes, directories and path names.  An inode pointer is an index of
    [ks_icache]; a pointer that the code compares with null is an [option].
    On-disk structs are read and written field by field in the data of a
    buffer, at the offsets the C layout gives them. *)
From S2P Require Import Prelude State Printf Klog Bio Log.

(** ** Model *)

(** *** Layout of the structs on disk (include/fs.h) *)

Definition SIZEOF_SUPERBLOCK : Z := 32.
Definition SIZEOF_DINODE : Z := 64.
Definition SIZEOF_DIRENT : Z := 16.

(** The superblock in the data of a block. *)
Definition superblock_of (d : list Z) : superblock :=
  mkSuperblock (get_le 4 0 d) (get_le 4 4 d) (get_le 4 8 d) (get_le 4 12 d)
    (get_le 4 16 d) (get_le 4 20 d) (get_le 4 24 d) (get_le 4 28 d).

(** [struct dinode] at byte [off] of a block: [type] at 0, [major] at 2, [minor]
    at 4, [nlink] at 6, [size] at 8, [addrs] at 12. *)
Definition dinode_at (off : nat) (d : list Z) : dinode :=
  mkDinode (i16 (get_le 2 off d)) (i16 (get_le 2 (off + 2) d)) (i16 (get_le 2 (off + 4) d))
    (i16 (get_le 2 (off + 6) d)) (get_le 4 (off + 8) d)
    (map (fun i => get_le 4 (off + 12 + 4 * Z.to_nat i) d) (upto (NDIRECT + 1))).

Definition put_addr (off : nat) (addrs d : list Z) (i : Z) : list Z :=
  put_le 4 (off + 12 + 4 * Z.to_nat i) (default 0 (lget i addrs)) d.

Definition put_dinode (off : nat) (di : dinode) (d : list Z) : list Z :=
  let d := put_le 2 off (di_type di) d in
  let d := put_le 2 (off + 2) (di_major di) d in
  let d := put_le 2 (off + 4) (di_minor di) d in
  let d := put_le 2 (off + 6) (di_nlink di) d in
  let d := put_le 4 (off + 8) (di_size di) d in
  fold_left (put_addr off (di_addrs di)) (upto (NDIRECT + 1)) d.

(** [struct dirent]: [inum] at 0, [name] at 2. *)
Definition dirent_of (d : list Z) : dirent := mkDirent (get_le 2 0 d) (bytes_at 2 14 d).
Definition dirent_bytes (de : dirent) : list Z := le_bytes 2 (de_inum de) ++ de_name de.

Definition IPB : Z := BSIZE / SIZEOF_DINODE.
Definition IBLOCK (i : Z) (sb : superblock) : Z := u32 (i / IPB + sb_inodestart sb).
Definition BBLOCK (b : Z) (sb : superblock) : Z := u32 (b / BPB + sb_bmapstart sb).

(** The offset of inode [inum] in its block. *)
Definition dinode_off (inum : Z) : nat := Z.to_nat (inum mod IPB * SIZEOF_DINODE).

(** *** Access to the inode cache *)

Definition getinode (i : nat) : K inode := s <- get;; of_opt (ks_icache s !! i).
Definition modinode (i : nat) (f : inode -> inode) : K unit :=
  s <- get;;
  _ <- of_opt (ks_icache s !! i);;
  modify (upd_ks_icache (alter f i)).
Definition modinode_d (i : nat) (f : dinode -> dinode) : K unit := modinode i (upd_ip_d f).
Definition getsb : K superblock := gets ks_sb.

Definition readsb (dev : Z) : K unit :=
  bp <- bread (u32 dev) 1;;
  d <- bdata bp;;
  _ <- modify (set_ks_sb (superblock_of d));;
  brelse bp.

Definition fsinit (dev : Z) : K unit :=
  _ <- readsb dev;;
  sb <- getsb;;
  _ <- (if negb (sb_magic sb =? FSMAGIC) then
          _ <- LOG_E (str "Invalid magic number %x (expected %x)" ++ [10]) [AInt (sb_magic sb); AInt FSMAGIC];;
          panic (str "invalid fs magic")
        else
          LOG_I (str "File system mounted: %d blocks, %d inodes" ++ [10]) [AInt (sb_size sb); AInt (sb_ninodes sb)]);;
  _ <- init_log dev sb;;
  for_each (seq 0 (Z.to_nat NINODE)) (fun i =>
    _ <- modinode i (set_ip_ref 0);;
    modinode i (set_ip_valid 0)).

(** *** Blocks *)

(** The data of buffer [bp] updated by [f]. *)
Definition mod_bdata (bp : nat) (f : list Z -> list Z) : K unit :=
  d <- bdata bp;; set_bdata bp (f d).

(** The inner loop's body of [balloc] for bit [bi] of the bitmap block [bp] for
    the blocks from [b] on. *)
Definition balloc_bit (dev b : Z) (bp : nat) (bi : Z) : K (option Z) :=
  let m := Z.shiftl 1 (bi mod 8) in
  d <- bdata bp;;
  byte <- of_opt (lget (bi / 8) d);;
  if Z.land byte m =? 0 then
    d' <- of_opt (lset (bi / 8) (Z.lor byte m) d);;
    _ <- set_bdata bp d';;
    _ <- log_write bp;;
    _ <- brelse bp;;
    bp <- bread dev (u32 (b + bi));;
    _ <- set_bdata bp (replicate (Z.to_nat BSIZE) 0);;
    _ <- log_write bp;;
    _ <- brelse bp;;
    ret (Some (u32 (b + bi)))
  else ret None.

(** The outer loop's body: the bitmap block for the blocks from [b] on. *)
Definition balloc_block (dev b : Z) : K (option Z) :=
  sb <- getsb;;
  bp <- bread dev (BBLOCK b sb);;
  r <- for_find (upto (Z.min BPB (i32 (sb_size sb) - b))) (balloc_bit dev b bp);;
  match r with
  | Some r => ret (Some r)
  | None => _ <- brelse bp;; ret None
  end.

Definition balloc (dev : Z) : K Z :=
  sb <- getsb;;
  r <- for_find (map (fun k => k * BPB) (upto ((i32 (sb_size sb) + BPB - 1) / BPB))) (balloc_block dev);;
  match r with
  | Some r => ret r
  | None => panic (str "balloc: out of blocks")
  end.

Definition bfree (dev b : Z) : K unit :=
  sb <- getsb;;
  bp <- bread (u32 dev) (BBLOCK b sb);;
  let bi := b mod BPB in
  let m := Z.shiftl 1 (bi mod 8) in
  d <- bdata bp;;
  byte <- of_opt (lget (bi / 8) d);;
  _ <- when (Z.land byte m =? 0) (panic (str "freeing free block"));;
  d' <- of_opt (lset (bi / 8) (Z.ldiff byte m) d);;
  _ <- set_bdata bp d';;
  _ <- log_write bp;;
  brelse bp.

(** *** Inodes *)

(** The scan of [iget]: the slot that has the inode, or the first empty one. *)
Fixpoint iget_scan (l : list nat) (dev inum : Z) (empty : option nat) : K (option nat * option nat) :=
  match l with
  | [] => ret (None, empty)
  | i :: l' =>
      ip <- getinode i;;
      if (0 <? ip_ref ip) && (ip_dev ip =? dev) && (ip_inum ip =? inum) then
        _ <- modinode i (upd_ip_ref (fun n => i32 (n + 1)));;
        ret (Some i, empty)
      else
        iget_scan l' dev inum
          (match empty with
           | None => if ip_ref ip =? 0 then Some i else None
           | Some e => Some e
           end)
  end.

Definition iget (dev inum : Z) : K nat :=
  let! (hit, empty) := iget_scan (seq 0 (Z.to_nat NINODE)) dev inum None in
  match hit with
  | Some i => ret i
  | None =>
      match empty with
      | None => panic (str "iget: no inodes")
      | Some i =>
          _ <- modinode i (set_ip_dev dev);;
          _ <- modinode i (set_ip_inum inum);;
          _ <- modinode i (set_ip_ref 1);;
          _ <- modinode i (set_ip_valid 0);;
          ret i
      end
  end.

Definition ilock (o : option nat) : K unit :=
  match o with
  | None => panic (str "ilock")
  | Some i =>
      ip <- getinode i;;
      if ip_ref ip <? 1 then panic (str "ilock")
      else if ip_valid ip =? 0 then
        sb <- getsb;;
        bp <- bread (ip_dev ip) (IBLOCK (ip_inum ip) sb);;
        d <- bdata bp;;
        let di := dinode_at (dinode_off (ip_inum ip)) d in
        _ <- modinode_d i (fun _ => di);;
        _ <- brelse bp;;
        _ <- modinode i (set_ip_valid 1);;
        when (di_type di =? 0) (panic (str "ilock: no type"))
      else ret tt
  end.

Definition iunlock (o : option nat) : K unit :=
  match o with
  | None => panic (str "iunlock")
  | Some i => ip <- getinode i;; when (ip_ref ip <? 1) (panic (str "iunlock"))
  end.

Definition iupdate (i : nat) : K unit :=
  ip <- getinode i;;
  sb <- getsb;;
  bp <- bread (ip_dev ip) (IBLOCK (ip_inum ip) sb);;
  _ <- mod_bdata bp (put_dinode (dinode_off (ip_inum ip)) (ip_d ip));;
  _ <- log_write bp;;
  brelse bp.

Definition iput (o : option nat) : K unit :=
  i <- of_opt o;;
  ip <- getinode i;;
  _ <- when ((ip_ref ip =? 1) && negb (ip_valid ip =? 0) && (di_nlink (ip_d ip) =? 0))
         (_ <- modinode_d i (set_di_type 0);;
          _ <- iupdate i;;
          modinode i (set_ip_valid 0));;
  modinode i (upd_ip_ref (fun n => i32 (n - 1))).

Definition iunlockput (o : option nat) : K unit := _ <- iunlock o;; iput o.

(** The body of the loop of [ialloc]. *)
Definition ialloc_one (dev type inum : Z) : K (option nat) :=
  sb <- getsb;;
  bp <- bread dev (IBLOCK inum sb);;
  d <- bdata bp;;
  let off := dinode_off inum in
  if di_type (dinode_at off d) =? 0 then
    _ <- set_bdata bp (put_le 2 off type (splice off (replicate (Z.to_nat SIZEOF_DINODE) 0) d));;
    _ <- log_write bp;;
    _ <- brelse bp;;
    ip <- iget dev inum;;
    ret (Some ip)
  else _ <- brelse bp;; ret None.

Definition ialloc (dev type : Z) : K (option nat) :=
  sb <- getsb;;
  r <- for_find (map (fun k => k + 1) (upto (i32 (sb_ninodes sb) - 1))) (ialloc_one dev type);;
  match r with
  | Some ip => ret (Some ip)
  | None => panic (str "ialloc: no inodes")
  end.

(** *** The contents of inodes *)

Definition addr_get (i : nat) (bn : Z) : K Z := ip <- getinode i;; of_opt (lget bn (di_addrs (ip_d ip))).
Definition addr_set (i : nat) (bn addr : Z) : K unit :=
  ip <- getinode i;;
  l <- of_opt (lset bn addr (di_addrs (ip_d ip)));;
  modinode_d i (set_di_addrs l).

(** [a[bn]] of an indirect block. *)
Definition ind_get (bn : Z) (d : list Z) : Z := get_le 4 (Z.to_nat (4 * bn)) d.
Definition ind_put (bn addr : Z) (d : list Z) : list Z := put_le 4 (Z.to_nat (4 * bn)) addr d.

(** Entry [bn] of the indirect block [addr]. *)
Definition bmap_indirect (i : nat) (addr bn : Z) (create : bool) : K Z :=
  ip <- getinode i;;
  bp <- bread (ip_dev ip) addr;;
  d <- bdata bp;;
  addr <- (if (ind_get bn d =? 0) && create then
             addr <- balloc (ip_dev ip);;
             _ <- mod_bdata bp (ind_put bn addr);;
             _ <- log_write bp;;
             ret addr
           else ret (ind_get bn d));;
  _ <- brelse bp;;
  ret addr.

Definition bmap (i : nat) (bn : Z) (create : bool) : K Z :=
  if bn <? NDIRECT then
    addr <- addr_get i bn;;
    if addr =? 0 then
      if negb create then ret 0
      else ip <- getinode i;;
           addr <- balloc (ip_dev ip);;
           _ <- addr_set i bn addr;;
           ret addr
    else ret addr
  else
    let bn := u32 (bn - NDIRECT) in
    if bn <? NINDIRECT then
      addr <- addr_get i NDIRECT;;
      if addr =? 0 then
        if negb create then ret 0
        else ip <- getinode i;;
             addr <- balloc (ip_dev ip);;
             _ <- addr_set i NDIRECT addr;;
             bmap_indirect i addr bn create
      else bmap_indirect i addr bn create
    else panic (str "bmap: out of range").

(** The bytes of block [addr] of a file that a read of [m] bytes at [off] takes. *)
Definition readi_block (i : nat) (addr off m : Z) : K (list Z) :=
  if addr =? 0 then ret (replicate (Z.to_nat m) 0)
  else
    ip <- getinode i;;
    bp <- bread (ip_dev ip) addr;;
    d <- bdata bp;;
    _ <- brelse bp;;
    ret (bytes_at (Z.to_nat (off mod BSIZE)) (Z.to_nat m) d).

Fixpoint readi_loop (fuel : nat) (i : nat) (off n tot : Z) (dst : list Z) : K (list Z) :=
  if tot <? n then
    match fuel with
    | O => out_of_fuel
    | S fuel' =>
        addr <- bmap i (off / BSIZE) false;;
        let m := BSIZE - off mod BSIZE in
        let m := if n - tot <? m then n - tot else m in
        bs <- readi_block i addr off m;;
        readi_loop fuel' i (u32 (off + m)) n (u32 (tot + m)) (dst ++ bs)
    end
  else ret dst.

(** The result and the bytes stored at [dst]. *)
Definition readi (i : nat) (off n : Z) : K (Z * list Z) :=
  ip <- getinode i;;
  let size := di_size (ip_d ip) in
  if (size <? off) || (u32 (off + n) <? off) then ret (-1, [])
  else
    let n := if size <? u32 (off + n) then u32 (size - off) else n in
    dst <- readi_loop (Z.to_nat (n / BSIZE + 2)) i off n 0 [];;
    ret (i32 n, dst).

(** [src]: the bytes from the pointer on; [None] is [return -1] in the loop. *)
Fixpoint writei_loop (fuel : nat) (i : nat) (src : list Z) (off n tot : Z) : K (option Z) :=
  if tot <? n then
    match fuel with
    | O => out_of_fuel
    | S fuel' =>
        addr <- bmap i (off / BSIZE) true;;
        if addr =? 0 then ret None
        else
          ip <- getinode i;;
          bp <- bread (ip_dev ip) addr;;
          let m := BSIZE - off mod BSIZE in
          let m := if n - tot <? m then n - tot else m in
          if decide (m <= Z.of_nat (length src)) then
            _ <- mod_bdata bp (splice (Z.to_nat (off mod BSIZE)) (take (Z.to_nat m) src));;
            _ <- log_write bp;;
            _ <- brelse bp;;
            writei_loop fuel' i (drop (Z.to_nat m) src) (u32 (off + m)) n (u32 (tot + m))
          else fault
    end
  else ret (Some off).

Definition writei (i : nat) (src : list Z) (off n : Z) : K Z :=
  ip <- getinode i;;
  if (di_size (ip_d ip) <? off) || (u32 (off + n) <? off) then ret (-1)
  else
    r <- writei_loop (Z.to_nat (n / BSIZE + 2)) i src off n 0;;
    match r with
    | None => ret (-1)
    | Some off =>
        _ <- when (0 <? n)
               (ip <- getinode i;;
                _ <- when (di_size (ip_d ip) <? off) (modinode_d i (set_di_size off));;
                iupdate i);;
        ret (i32 n)
    end.

(** *** Directories *)

(** The comparison loop of [dirlookup]: [n] characters are left. [None]: it
    reads past the end of one of the arrays. *)
Fixpoint dir_match (n : nat) (name dname : list Z) : option bool :=
  match n with
  | O => Some true
  | S n' =>
      match name, dname with
      | c :: name', e :: dname' =>
          if negb (c =? e) then Some false
          else if c =? 0 then Some true else dir_match n' name' dname'
      | _, _ => None
      end
  end.

(** [dirlookup] from offset [off] on: the inode and [*poff]. *)
Fixpoint dirlookup_loop (fuel : nat) (dp : nat) (name : list Z) (off : Z) : K (option (nat * Z)) :=
  ip <- getinode dp;;
  if off <? di_size (ip_d ip) then
    match fuel with
    | O => out_of_fuel
    | S fuel' =>
        let! (n, bs) := readi dp off SIZEOF_DIRENT in
        _ <- when (negb (n =? SIZEOF_DIRENT)) (panic (str "dirlookup read"));;
        let de := dirent_of bs in
        if de_inum de =? 0 then dirlookup_loop fuel' dp name (u32 (off + SIZEOF_DIRENT))
        else
          m <- of_opt (dir_match (Z.to_nat DIRSIZ) name (de_name de));;
          if (m : bool) then
            ip <- getinode dp;;
            r <- iget (ip_dev ip) (de_inum de);;
            ret (Some (r, off))
          else dirlookup_loop fuel' dp name (u32 (off + SIZEOF_DIRENT))
    end
  else ret None.

Definition dirlookup (dp : nat) (name : list Z) : K (option (nat * Z)) :=
  ip <- getinode dp;;
  _ <- when (negb (di_type (ip_d ip) =? T_DIR)) (panic (str "dirlookup not DIR"));;
  dirlookup_loop (Z.to_nat (di_size (ip_d ip) / SIZEOF_DIRENT + 1)) dp name 0.

(** The scan of [dirlink] for an empty entry: its offset. *)
Fixpoint dirlink_loop (fuel : nat) (dp : nat) (off : Z) : K Z :=
  ip <- getinode dp;;
  if off <? i32 (di_size (ip_d ip)) then
    match fuel with
    | O => out_of_fuel
    | S fuel' =>
        let! (n, bs) := readi dp (u32 off) SIZEOF_DIRENT in
        _ <- when (negb (n =? SIZEOF_DIRENT)) (panic (str "dirlink read"));;
        if de_inum (dirent_of bs) =? 0 then ret off
        else dirlink_loop fuel' dp (i32 (off + SIZEOF_DIRENT))
    end
  else ret off.

(** All [DIRSIZ] bytes of [name] are copied, those behind its NUL too. *)
Definition dirlink (dp : nat) (name : list Z) (inum : Z) : K Z :=
  o <- dirlookup dp name;;
  match o with
  | Some (ip, _) => _ <- iput (Some ip);; ret (-1)
  | None =>
      ip <- getinode dp;;
      off <- dirlink_loop (Z.to_nat (di_size (ip_d ip) / SIZEOF_DIRENT + 1)) dp 0;;
      if decide (DIRSIZ <= Z.of_nat (length name)) then
        let de := mkDirent (u16 inum) (take (Z.to_nat DIRSIZ) name) in
        n <- writei dp (dirent_bytes de) (u32 off) SIZEOF_DIRENT;;
        _ <- when (negb (n =? SIZEOF_DIRENT)) (panic (str "dirlink"));;
        ret 0
      else fault
  end.

(** *** Path names *)

Definition slash : Z := 47.

Fixpoint skip_slashes (path : list Z) : list Z :=
  match path with
  | c :: path' => if c =? slash then skip_slashes path' else path
  | [] => []
  end.

(** The element at the front of the path, and what follows it. *)
Fixpoint span_elem (path : list Z) : list Z * list Z :=
  match path with
  | c :: path' => if c =? slash then ([], path)
                  else let '(e, r) := span_elem path' in (c :: e, r)
  | [] => ([], [])
  end.

(** [path]: the C string; [name]: the array the element is copied to. *)
Definition skipelem (path name : list Z) : option (list Z * list Z) :=
  match skip_slashes path with
  | [] => None
  | path =>
      let '(s, path) := span_elem path in
      let len := Z.of_nat (length s) in
      let name := if DIRSIZ <=? len then splice 0 (take (Z.to_nat DIRSIZ) s) name
                  else splice 0 (s ++ [0]) name in
      Some (skip_slashes path, name)
  end.

Fixpoint namex_loop (fuel : nat) (ip : nat) (path : list Z) (parent : bool) (name : list Z)
  : K (option nat * list Z) :=
  match skipelem path name with
  | None =>
      if parent then _ <- iput (Some ip);; ret (None, name) else ret (Some ip, name)
  | Some (path, name) =>
      match fuel with
      | O => out_of_fuel
      | S fuel' =>
          _ <- ilock (Some ip);;
          ipv <- getinode ip;;
          if negb (di_type (ip_d ipv) =? T_DIR) then _ <- iunlockput (Some ip);; ret (None, name)
          else if parent && bool_decide (path = []) then _ <- iunlock (Some ip);; ret (Some ip, name)
          else
            o <- dirlookup ip name;;
            match o with
            | None => _ <- iunlockput (Some ip);; ret (None, name)
            | Some (next, _) => _ <- iunlockput (Some ip);; namex_loop fuel' next path parent name
            end
      end
  end.

(** The result and the array [name] afterwards. *)
Definition namex (path : list Z) (parent : bool) (name : list Z) : K (option nat * list Z) :=
  ip <- iget ROOTDEV ROOTINO;;
  namex_loop (S (length path)) ip path parent name.

(** [junk]: the uninitialised bytes of the local [name]. *)
Definition namei (junk path : list Z) : K (option nat) :=
  r <- namex path false junk;; ret (fst r).

Definition nameiparent (path name : list Z) : K (option nat * list Z) := namex path true name.

Definition itrunc_direct (i : nat) (k : Z) : K unit :=
  addr <- addr_get i k;;
  when (negb (addr =? 0))
    (ip <- getinode i;;
     _ <- bfree (ip_dev ip) addr;;
     addr_set i k 0).

Definition itrunc_indirect (i : nat) (bp : nat) (j : Z) : K unit :=
  d <- bdata bp;;
  when (negb (ind_get j d =? 0)) (ip <- getinode i;; bfree (ip_dev ip) (ind_get j d)).

Definition itrunc (i : nat) : K unit :=
  _ <- for_each (upto NDIRECT) (itrunc_direct i);;
  addr <- addr_get i NDIRECT;;
  _ <- when (negb (addr =? 0))
         (ip <- getinode i;;
          bp <- bread (ip_dev ip) addr;;
          _ <- for_each (upto NINDIRECT) (itrunc_indirect i bp);;
          _ <- brelse bp;;
          _ <- bfree (ip_dev ip) addr;;
          addr_set i NDIRECT 0);;
  _ <- modinode_d i (set_di_size 0);;
  iupdate i.
