(* ===== verification/Layout.v ===== *)
(** * Inodes on disk

    Sixteen inodes of 64 bytes share a block (kernel/fs.c reads them in [ilock]
    and [ialloc] and writes them in [iupdate]).  Encoding and decoding are inverse
    to each other, and writing one inode leaves its neighbours alone. *)
From S2P Require Import Prelude State Fs.

(** The ranges of the fields of [struct dinode]. *)
Definition short (x : Z) : Prop := - 2 ^ 15 <= x < 2 ^ 15.
Definition uint (x : Z) : Prop := 0 <= x < 2 ^ 32.

Record typed (di : dinode) : Prop := {
  ty_type : short (di_type di);
  ty_major : short (di_major di);
  ty_minor : short (di_minor di);
  ty_nlink : short (di_nlink di);
  ty_size : uint (di_size di);
  ty_addrs : length (di_addrs di) = 13%nat /\ Forall uint (di_addrs di) }.

Definition is_byte (x : Z) : Prop := 0 <= x < 256.

Lemma le_value_bound bs : Forall is_byte bs -> 0 <= le_value bs < 256 ^ Z.of_nat (length bs).
Proof.
  induction 1 as [|b bs Hb Hbs IH]; [cbn; lia|]. cbn [le_value length].
  rewrite Nat2Z.inj_succ, Z.pow_succ_r by lia. unfold is_byte in Hb. lia.
Qed.

Lemma get_le_bound n off d :
  Forall is_byte d -> 0 <= get_le n off d < 256 ^ Z.of_nat n.
Proof.
  intros Hd. unfold get_le. assert (Forall is_byte (bytes_at off n d)) as Hb by now apply Forall_take, Forall_drop.
  pose proof (le_value_bound _ Hb) as Hv. assert (length (bytes_at off n d) <= n)%nat as Hl
    by (unfold bytes_at; rewrite length_take; lia).
  assert (256 ^ Z.of_nat (length (bytes_at off n d)) <= 256 ^ Z.of_nat n) by (apply Z.pow_le_mono_r; lia). lia.
Qed.

Lemma i16_range x : short (i16 x).
Proof. unfold short, i16. pose proof (Z.mod_pos_bound (x + 2 ^ 15) (2 ^ 16)). lia. Qed.

Lemma i16_mod x : i16 (x mod 256 ^ Z.of_nat 2) = i16 x.
Proof. exact (i16_u16 x). Qed.

(** *** The addresses *)

Definition addr_off (off : nat) (i : Z) : nat := (off + 12 + 4 * Z.to_nat i)%nat.

Lemma put_addr_length off addrs d i :
  0 <= i < 13 -> (off + 64 <= length d)%nat -> length (put_addr off addrs d i) = length d.
Proof. intros Hi Hd. unfold put_addr. apply length_put_le. lia. Qed.

Lemma put_addrs_length off addrs l : forall d,
  (forall i, i ∈ l -> 0 <= i < 13) -> (off + 64 <= length d)%nat ->
  length (fold_left (put_addr off addrs) l d) = length d.
Proof.
  induction l as [|i l IH]; intros d Hl Hd; [reflexivity|]. cbn [fold_left].
  pose proof (put_addr_length off addrs d i (Hl i ltac:(left)) Hd) as E.
  rewrite IH; [exact E|intros j Hj; apply Hl; now right|now rewrite E].
Qed.

(** Bytes that are outside of the written addresses keep their value. *)
Lemma put_addrs_ne off addrs n off' l : forall d,
  (forall i, i ∈ l -> 0 <= i < 13 /\ (off' + n <= addr_off off i \/ addr_off off i + 4 <= off')%nat) ->
  (off + 64 <= length d)%nat ->
  get_le n off' (fold_left (put_addr off addrs) l d) = get_le n off' d.
Proof.
  induction l as [|i l IH]; intros d Hl Hd; [reflexivity|]. cbn [fold_left].
  destruct (Hl i ltac:(left)) as [Hi Hne]. rewrite IH.
  - unfold put_addr. apply get_put_le_ne; [lia|exact Hne].
  - intros j Hj. apply Hl. now right.
  - now rewrite put_addr_length.
Qed.

Lemma put_addrs_eq off addrs i l : forall d,
  NoDup l -> i ∈ l -> (forall j, j ∈ l -> 0 <= j < 13) -> (off + 64 <= length d)%nat ->
  get_le 4 (addr_off off i) (fold_left (put_addr off addrs) l d) = default 0 (lget i addrs) mod 2 ^ 32.
Proof.
  induction l as [|j l IH]; intros d Hnd Hin Hl Hd; [now apply elem_of_nil in Hin|]. cbn [fold_left].
  apply NoDup_cons in Hnd as [Hj Hnd].
  assert (0 <= j < 13) as Hjr by (apply Hl; left).
  destruct (decide (i = j)) as [->|Hne].
  - rewrite put_addrs_ne.
    + unfold put_addr. rewrite get_put_le_eq by lia. reflexivity.
    + intros k Hk. assert (0 <= k < 13) by (apply Hl; now right). split; [assumption|].
      assert (k <> j) by congruence. unfold addr_off. lia.
    + now rewrite put_addr_length.
  - apply IH; [exact Hnd| |intros k Hk; apply Hl; now right|now rewrite put_addr_length].
    now apply elem_of_cons in Hin as [?|?].
Qed.

(** *** The whole inode *)

Ltac lens := repeat (rewrite length_put_le by lens); lia.

Section encode.
Context (off : nat) (di : dinode) (d : list Z) (Hd : (off + 64 <= length d)%nat).

(** The five fields before the addresses. *)
Definition put_head : list Z :=
  put_le 4 (off + 8) (di_size di) (put_le 2 (off + 6) (di_nlink di) (put_le 2 (off + 4) (di_minor di)
    (put_le 2 (off + 2) (di_major di) (put_le 2 off (di_type di) d)))).

Lemma put_head_length : length put_head = length d.
Proof. unfold put_head. repeat (rewrite length_put_le; [|lens]). reflexivity. Qed.

Lemma put_dinode_head : put_dinode off di d = fold_left (put_addr off (di_addrs di)) (upto (NDIRECT + 1)) put_head.
Proof. reflexivity. Qed.

Lemma upto_addrs i : i ∈ upto (NDIRECT + 1) -> 0 <= i < 13.
Proof. intros Hi%elem_of_upto. exact Hi. Qed.

Lemma put_dinode_length : length (put_dinode off di d) = length d.
Proof.
  rewrite put_dinode_head, put_addrs_length; [exact put_head_length|exact upto_addrs|].
  rewrite put_head_length. exact Hd.
Qed.

(** A field of the head survives the writes of the addresses. *)
Lemma put_dinode_field n off' :
  (off' + n <= off + 12)%nat -> get_le n off' (put_dinode off di d) = get_le n off' put_head.
Proof.
  intros Hn. rewrite put_dinode_head. apply put_addrs_ne.
  - intros i Hi%upto_addrs. split; [exact Hi|]. unfold addr_off. lia.
  - rewrite put_head_length. exact Hd.
Qed.

(** Bytes outside of the inode are not written. *)
Lemma put_dinode_ne n off' :
  (off' + n <= off \/ off + 64 <= off')%nat -> get_le n off' (put_dinode off di d) = get_le n off' d.
Proof.
  intros Hn. rewrite put_dinode_head, put_addrs_ne.
  - unfold put_head. repeat (rewrite get_put_le_ne; [|lens|lia]). reflexivity.
  - intros i Hi%upto_addrs. split; [exact Hi|]. unfold addr_off. lia.
  - rewrite put_head_length. exact Hd.
Qed.

Lemma dinode_at_put : typed di -> dinode_at off (put_dinode off di d) = di.
Proof.
  intros [Ht Hma Hmi Hnl Hsz [Hla Hfa]]. unfold dinode_at. rewrite !put_dinode_field by lia.
  assert (map (fun i => get_le 4 (off + 12 + 4 * Z.to_nat i) (put_dinode off di d)) (upto (NDIRECT + 1)) = di_addrs di)
    as ->.
  { apply list_eq. intros i. rewrite lookup_map_upto. case_decide as Hi.
    - change (off + 12 + 4 * Z.to_nat (Z.of_nat i))%nat with (addr_off off (Z.of_nat i)).
      unfold NDIRECT in Hi. rewrite put_dinode_head, put_addrs_eq.
      + unfold lget. rewrite decide_True by lia. rewrite Nat2Z.id.
        destruct (lookup_lt_is_Some_2 (di_addrs di) i) as [x Hx]; [lia|]. rewrite Hx. cbn [default id].
        f_equal. apply Z.mod_small. exact (proj1 (Forall_forall _ _) Hfa x (list_elem_of_lookup_2 _ _ _ Hx)).
      + unfold upto. apply NoDup_fmap_2; [|apply NoDup_seq]. intros a b. lia.
      + apply elem_of_upto. unfold NDIRECT. lia.
      + exact upto_addrs.
      + rewrite put_head_length. exact Hd.
    - symmetry. apply lookup_ge_None. unfold NDIRECT in Hi. lia. }
  unfold put_head.
  assert (get_le 4 (off + 8) put_head = di_size di) as E5.
  { unfold put_head. rewrite get_put_le_eq by lens. apply Z.mod_small. exact Hsz. }
  unfold put_head in E5. rewrite E5. clear E5.
  rewrite (get_put_le_ne 4 (off + 8)) by lens. rewrite (get_put_le_ne 4 (off + 8)) by lens.
  rewrite (get_put_le_ne 4 (off + 8)) by lens. rewrite (get_put_le_ne 4 (off + 8)) by lens.
  rewrite (get_put_le_eq 2 (off + 6)) by lens. rewrite !(get_put_le_ne 2 (off + 6)) by lens.
  rewrite (get_put_le_eq 2 (off + 4)) by lens. rewrite !(get_put_le_ne 2 (off + 4)) by lens.
  rewrite (get_put_le_eq 2 (off + 2)) by lens. rewrite !(get_put_le_ne 2 (off + 2)) by lens.
  rewrite (get_put_le_eq 2 off) by lens. rewrite !i16_mod, !i16_id by assumption. now destruct di.
Qed.
End encode.

(** The neighbours in the block. *)
Lemma dinode_at_put_ne off di d off' :
  (off + 64 <= length d)%nat -> (off' + 64 <= off \/ off + 64 <= off')%nat ->
  dinode_at off' (put_dinode off di d) = dinode_at off' d.
Proof.
  intros Hd Hne. unfold dinode_at. rewrite !put_dinode_ne by lia. f_equal.
  apply map_ext_in. intros i Hi. apply list_elem_of_In, elem_of_upto in Hi. unfold NDIRECT in Hi.
  apply put_dinode_ne; lia.
Qed.

(** Decoding any bytes gives a well-typed inode. *)
Lemma dinode_at_typed off d : Forall is_byte d -> typed (dinode_at off d).
Proof.
  intros Hd. split; cbn; try apply i16_range; [apply (get_le_bound 4 (off + 8) d Hd)|].
  split; [reflexivity|]. apply Forall_forall. intros x Hx. apply list_elem_of_fmap in Hx as (i & -> & _).
  apply (get_le_bound 4 _ d Hd).
Qed.

(** *** Encoding what has been decoded *)

Lemma le_bytes_mod n : forall x, le_bytes n (x mod 256 ^ Z.of_nat n) = le_bytes n x.
Proof.
  induction n as [|n IH]; intros x; [reflexivity|]. cbn [le_bytes]. rewrite Nat2Z.inj_succ, Z.pow_succ_r by lia.
  pose proof (Z.pow_pos_nonneg 256 (Z.of_nat n) ltac:(lia) ltac:(lia)). rewrite Z.rem_mul_r by lia. f_equal.
  - rewrite Z.mul_comm, Z_mod_plus_full. apply Z.mod_mod. lia.
  - rewrite <- (IH (x / 256)). f_equal. rewrite Z.mul_comm, Z.div_add, Z.div_small by (try apply Z.mod_pos_bound; lia).
    apply Z.add_0_l.
Qed.

Lemma le_bytes_value bs : Forall is_byte bs -> le_bytes (length bs) (le_value bs) = bs.
Proof.
  induction 1 as [|b bs Hb _ IH]; [reflexivity|]. unfold is_byte in Hb. cbn [length le_bytes le_value]. f_equal.
  - rewrite Z.mul_comm, Z_mod_plus_full. now apply Z.mod_small.
  - rewrite Z.mul_comm, Z.div_add, (Z.div_small b) by lia. exact IH.
Qed.

(** Writing the field that is there changes nothing. *)
Lemma put_le_same n off v d :
  Forall is_byte d -> (off + n <= length d)%nat -> v mod 256 ^ Z.of_nat n = get_le n off d -> put_le n off v d = d.
Proof.
  intros Hd Hl Hv. unfold put_le. rewrite <- le_bytes_mod, Hv. unfold get_le.
  assert (length (bytes_at off n d) = n) as Hn by (unfold bytes_at; rewrite length_take, length_drop; lia).
  assert (Forall is_byte (bytes_at off n d)) as Hb by now apply Forall_take, Forall_drop.
  pose proof (le_bytes_value _ Hb) as E. rewrite Hn in E. rewrite E. unfold splice. rewrite Hn.
  unfold bytes_at. rewrite <- drop_drop, take_drop. apply take_drop.
Qed.

Lemma i16_put n off d : i16 (get_le n off d) mod 256 ^ Z.of_nat 2 = get_le n off d mod 256 ^ Z.of_nat 2.
Proof.
  unfold i16. change (256 ^ Z.of_nat 2) with (2 ^ 16). set (x := get_le n off d). mlia.
Qed.

(** An inode that has been read and is written back leaves the bytes as they were. *)
Lemma put_dinode_same off d :
  Forall is_byte d -> (off + 64 <= length d)%nat -> put_dinode off (dinode_at off d) d = d.
Proof.
  intros Hd Hl. unfold put_dinode, dinode_at. cbn [di_type di_major di_minor di_nlink di_size di_addrs].
  assert (forall o, (o + 2 <= length d)%nat -> put_le 2 o (i16 (get_le 2 o d)) d = d) as H16.
  { intros o Ho. apply put_le_same; [exact Hd|exact Ho|]. rewrite i16_put.
    apply Z.mod_small, (get_le_bound 2 o d Hd). }
  assert (forall o, (o + 4 <= length d)%nat -> put_le 4 o (get_le 4 o d) d = d) as H32.
  { intros o Ho. apply put_le_same; [exact Hd|exact Ho|]. apply Z.mod_small, (get_le_bound 4 o d Hd). }
  rewrite !H16, H32 by lia. set (addrs := map _ _).
  enough (forall l, (forall i, i ∈ l -> 0 <= i < 13) -> fold_left (put_addr off addrs) l d = d) as Hf
    by (apply Hf, upto_addrs).
  induction l as [|i l IH]; intros Hi; [reflexivity|]. cbn [fold_left].
  assert (0 <= i < 13) as Hr by (apply Hi; left). unfold put_addr at 2.
  assert (lget i addrs = Some (get_le 4 (off + 12 + 4 * Z.to_nat i) d)) as ->.
  { unfold lget. rewrite decide_True by lia. unfold addrs. rewrite lookup_map_upto, decide_True by (unfold NDIRECT; lia).
    now rewrite Z2Nat.id by lia. }
  cbn [default id]. rewrite H32 by lia. apply IH. intros j Hj. apply Hi. now right.
Qed.

(** ** Properties *)

(** C38: what [iupdate] writes, [ilock] reads back; the other inodes of the block
    and its length do not change. *)
Theorem dinode_roundtrip off di d :
  typed di -> (off + 64 <= length d)%nat ->
  dinode_at off (put_dinode off di d) = di /\
  length (put_dinode off di d) = length d /\
  forall off', (off' + 64 <= off \/ off + 64 <= off')%nat ->
    dinode_at off' (put_dinode off di d) = dinode_at off' d.
Proof.
  intros Ht Hd. split; [now apply dinode_at_put|]. split; [now apply put_dinode_length|].
  intros off' Hne. now apply dinode_at_put_ne.
Qed.

Lemma dinode_roundtrip_witness :
  let di := mkDinode 2 0 (-1) 1 4096 (46 :: replicate 12 0) in
  dinode_at 64 (put_dinode 64 di (replicate 1024 7)) = di.
Proof.
  cbv zeta. apply (dinode_roundtrip 64); [|rewrite length_replicate; lia].
  split; try (split; cbn; lia). split; [reflexivity|]. repeat constructor; lia.
Defined.
