(* ===== verification/Inodes.v ===== *)
(** * The contents of files

    The file that an inode describes, as a function of the blocks that the
    buffer cache shows: [block_addr] is the address of a block of the file,
    [file_byte] a byte of it.  [readi] (kernel/fs.c) is proved to return the bytes
    of the file, for any buffer cache that keeps the laws of [BlockCache]. *)
From S2P Require Import Prelude State Printf Bio Blocks Fs.

(** ** Specification *)

Definition block (L : blockmap) (k : Z) : list Z := default [] (L k).
Definition indirect (di : dinode) : Z := default 0 (lget NDIRECT (di_addrs di)).

Definition block_addr (L : blockmap) (di : dinode) (bn : Z) : Z :=
  if bn <? NDIRECT then default 0 (lget bn (di_addrs di))
  else if indirect di =? 0 then 0 else ind_get (bn - NDIRECT) (block L (indirect di)).

(** A block with address 0 is a hole: it reads as zeros. *)
Definition file_byte (L : blockmap) (di : dinode) (off : Z) : Z :=
  let a := block_addr L di (off / BSIZE) in
  if a =? 0 then 0 else default 0 (block L a !! Z.to_nat (off mod BSIZE)).

Definition file_bytes (L : blockmap) (di : dinode) (off n : Z) : list Z :=
  map (fun k => file_byte L di (off + k)) (upto n).

(** A block that can be read. *)
Definition usable (R : kstate) (a : Z) : Prop := 0 < a < 2 ^ 31 /\ is_Some (ks_disk R !! a).

Record file_ok (L : blockmap) (R : kstate) (di : dinode) : Prop := {
  fo_addrs : length (di_addrs di) = 13%nat;
  fo_size : 0 <= di_size di <= MAXFILE * BSIZE;
  fo_indirect : indirect di = 0 \/ usable R (indirect di);
  fo_block : forall bn, 0 <= bn < MAXFILE ->
    block_addr L di bn = 0 \/ usable R (block_addr L di bn) }.

(** ** Lemmas *)

Lemma length_file_bytes L di off n : length (file_bytes L di off n) = Z.to_nat n.
Proof. unfold file_bytes. now rewrite length_map, length_upto. Qed.

Lemma file_bytes_app L di off n m :
  0 <= n -> 0 <= m -> file_bytes L di off (n + m) = file_bytes L di off n ++ file_bytes L di (off + n) m.
Proof.
  intros Hn Hm. apply list_eq. intros k. unfold file_bytes.
  destruct (decide (Z.of_nat k < n)).
  - rewrite lookup_app_l by (rewrite length_map, length_upto; lia).
    rewrite !lookup_map_upto, !decide_True by lia. reflexivity.
  - rewrite lookup_app_r by (rewrite length_map, length_upto; lia).
    rewrite length_map, length_upto, !lookup_map_upto.
    case_decide; [rewrite decide_True by lia|now rewrite decide_False by lia].
    do 2 f_equal. lia.
Qed.

(** The part of the file that lies in one block. *)
Lemma file_bytes_block L di off m :
  0 <= off -> 0 <= m -> off mod BSIZE + m <= BSIZE ->
  let a := block_addr L di (off / BSIZE) in
  (a <> 0 -> length (block L a) = Z.to_nat BSIZE) ->
  file_bytes L di off m =
    if a =? 0 then replicate (Z.to_nat m) 0
    else bytes_at (Z.to_nat (off mod BSIZE)) (Z.to_nat m) (block L a).
Proof.
  intros Ho Hm Hend a Hlen. unfold BSIZE in *.
  assert (forall k, 0 <= k < m -> file_byte L di (off + k) =
            if a =? 0 then 0 else default 0 (block L a !! (Z.to_nat (off mod 1024) + Z.to_nat k)%nat)) as Hb.
  { intros k Hk. unfold file_byte, BSIZE. replace ((off + k) / 1024) with (off / 1024) by mlia.
    fold a. destruct (a =? 0); [reflexivity|]. do 2 f_equal. mlia. }
  apply list_eq. intros k. unfold file_bytes. rewrite lookup_map_upto. case_decide as Hk.
  - rewrite (Hb (Z.of_nat k)) by lia. destruct (Z.eqb_spec a 0) as [Ha|Ha].
    + rewrite lookup_replicate_2 by lia. reflexivity.
    + unfold bytes_at. rewrite lookup_take_lt, lookup_drop, Nat2Z.id by lia.
      destruct (lookup_lt_is_Some_2 (block L a) (Z.to_nat (off mod 1024) + k)) as [x Hx];
        [rewrite (Hlen Ha); mlia|]. now rewrite Hx.
  - destruct (Z.eqb_spec a 0) as [Ha|Ha].
    + symmetry. apply lookup_ge_None. rewrite length_replicate. lia.
    + symmetry. apply lookup_ge_None. unfold bytes_at. rewrite length_take. lia.
Qed.

(** ** Reading *)

Section reading.
Context {view : view_pred} `{!BlockCache view}.
Context (L : blockmap) (D : Z -> Prop) (R : kstate).
Hypothesis Hroom : roomy [] D.

Lemma view_icache hs s : view hs L D R s -> ks_icache s = ks_icache R /\ ks_sb s = ks_sb R.
Proof. intros Hv. destruct (view_rest _ _ _ _ _ Hv) as [bc ->]. auto. Qed.

Lemma wp_getinode hs i ip s :
  view hs L D R s -> ks_icache R !! i = Some ip -> wp (getinode i) (fun r s' => r = ip /\ s' = s) s.
Proof.
  intros Hv Hi. apply wp_Ok. exists ip, s. unfold getinode, bind, get. cbn.
  destruct (view_icache _ _ Hv) as [-> _]. rewrite Hi. auto.
Qed.

Lemma view_block hs s k d :
  view hs L D R s -> L k = Some d -> usable R k -> block L k = d /\ length d = Z.to_nat BSIZE.
Proof.
  intros Hv HL [_ [d0 Hd]]. destruct (view_total _ _ _ _ _ _ _ Hv Hd) as (d' & HL' & Hlen).
  unfold block. rewrite HL in *. injection HL' as <-. auto.
Qed.

Lemma usable_length hs s k : view hs L D R s -> usable R k -> length (block L k) = Z.to_nat BSIZE.
Proof.
  intros Hv [_ [d Hd]]. destruct (view_total _ _ _ _ _ _ _ Hv Hd) as (d' & HL & Hlen).
  unfold block. now rewrite HL.
Qed.

(** bread, a use of the data, brelse: nothing changes. *)
Lemma read_block {A} (f : list Z -> A) k s :
  view [] L D R s -> usable R k ->
  wp (bp <- bread 0 k;; d <- bdata bp;; _ <- brelse bp;; ret (f d))
    (fun r s' => r = f (block L k) /\ view [] L D R s') s.
Proof.
  intros Hv Hk. pose proof Hk as [Hr Hd].
  wcall view_bread as bp s1 Hv1; [exact Hv|exact Hr|exact Hd|cbn; lia|now left|].
  wcall view_bdata as d s2 [-> [HL Hlen]]; [exact Hv1|left|].
  wcall view_brelse as [] s2 Hv2; [exact Hv1|eapply view_settled; [exact Hv|apply not_elem_of_nil]|].
  apply wpx_ret. split; [|exact Hv2]. f_equal. symmetry. apply (view_block _ _ _ _ Hv HL Hk).
Qed.

Context (i : nat) (ip : inode).
Hypothesis Hip : ks_icache R !! i = Some ip.
Hypothesis Hdev : ip_dev ip = 0.
Hypothesis Hok : file_ok L R (ip_d ip).

Lemma bmap_addr bn s :
  view [] L D R s -> 0 <= bn < MAXFILE ->
  wp (bmap i bn false) (fun r s' => r = block_addr L (ip_d ip) bn /\ view [] L D R s') s.
Proof.
  intros Hv Hbn. unfold bmap, block_addr, addr_get. pose proof (fo_addrs _ _ _ Hok) as Hlen.
  assert (forall k, 0 <= k < 13 -> wp (x <- getinode i;; of_opt (lget k (di_addrs (ip_d x))))
            (fun r s' => r = default 0 (lget k (di_addrs (ip_d ip))) /\ s' = s) s) as Hget.
  { intros k Hk. wcall wp_getinode as x s1 [-> ->]; [exact Hv|exact Hip|].
    destruct (lget_lt k (di_addrs (ip_d ip))) as [a ->]; [lia|]. cbn. auto. }
  destruct (Z.ltb_spec bn NDIRECT) as [Hb|Hb].
  - wcall Hget as a s1 [-> ->]; [unfold NDIRECT in *; lia|].
    destruct (Z.eqb_spec (default 0 (lget bn (di_addrs (ip_d ip)))) 0) as [->|]; cbn; auto.
  - unfold MAXFILE in Hbn. rewrite u32_id by (unfold NDIRECT, NINDIRECT, BSIZE in *; mlia).
    rewrite (proj2 (Z.ltb_lt _ _)) by lia.
    wcall Hget as a s1 [-> ->]; [unfold NDIRECT; lia|]. fold (indirect (ip_d ip)).
    destruct (Z.eqb_spec (indirect (ip_d ip)) 0) as [Ha|Ha]; [cbn; auto|].
    unfold bmap_indirect. wcall wp_getinode as x s1 [-> ->]; [exact Hv|exact Hip|]. rewrite Hdev.
    destruct (fo_indirect _ _ _ Hok) as [|Hu]; [contradiction|]. pose proof Hu as [Hr Hd].
    wcall view_bread as bp s1 Hv1; [exact Hv|exact Hr|exact Hd|cbn; lia|now left|].
    wcall view_bdata as d s2 [-> [HL Hl]]; [exact Hv1|left|].
    rewrite andb_false_r. wsteps.
    wcall view_brelse as [] s2 Hv2; [exact Hv1|eapply view_settled; [exact Hv|apply not_elem_of_nil]|].
    apply wpx_ret. split; [|exact Hv2]. f_equal. symmetry. apply (view_block _ _ _ _ Hv HL Hu).
Qed.

Lemma readi_block_bytes off m s :
  view [] L D R s -> 0 <= off -> off / BSIZE < MAXFILE -> 0 <= m -> off mod BSIZE + m <= BSIZE ->
  wp (readi_block i (block_addr L (ip_d ip) (off / BSIZE)) off m)
    (fun r s' => r = file_bytes L (ip_d ip) off m /\ view [] L D R s') s.
Proof.
  intros Hv Ho Hb Hm Hend. unfold readi_block.
  assert (0 <= off / BSIZE < MAXFILE) as Hbn by (unfold BSIZE in *; mlia).
  pose proof (fo_block _ _ _ Hok _ Hbn) as Ha.
  rewrite file_bytes_block;
    [|exact Ho|exact Hm|exact Hend|intros; eapply usable_length; [exact Hv|tauto]].
  destruct (Z.eqb_spec (block_addr L (ip_d ip) (off / BSIZE)) 0); [apply wpx_ret; auto|].
  destruct Ha as [|Hu]; [contradiction|].
  wcall wp_getinode as x s1 [-> ->]; [exact Hv|exact Hip|]. rewrite Hdev.
  now apply (read_block (bytes_at (Z.to_nat (off mod BSIZE)) (Z.to_nat m))).
Qed.

Lemma readi_loop_bytes fuel : forall off n tot dst s,
  view [] L D R s -> 0 <= off -> 0 <= tot <= n -> n < 2 ^ 32 -> off + (n - tot) <= di_size (ip_d ip) ->
  (tot < n -> off mod BSIZE + (n - tot) <= Z.of_nat fuel * BSIZE) ->
  wp (readi_loop fuel i off n tot dst)
    (fun r s' => r = dst ++ file_bytes L (ip_d ip) off (n - tot) /\ view [] L D R s') s.
Proof.
  pose proof (fo_size _ _ _ Hok) as Hsz. unfold MAXFILE, NDIRECT, NINDIRECT in Hsz.
  change ((12 + BSIZE / 4) * BSIZE) with 274432 in Hsz.
  induction fuel as [|fuel IH]; intros off n tot dst s Hv Ho Ht Hn Hend Hfuel; cbn [readi_loop];
    destruct (Z.ltb_spec tot n) as [Hlt|Hge].
  - specialize (Hfuel Hlt). pose proof (Z.mod_pos_bound off BSIZE ltac:(easy)). lia.
  - replace n with tot by lia. rewrite Z.sub_diag. apply wpx_ret. now rewrite app_nil_r.
  - assert (0 <= off / BSIZE < MAXFILE) as Hbn.
    { change MAXFILE with 268. unfold BSIZE. mlia. }
    wcall bmap_addr as a s1 [-> Hv1]; [exact Hv|exact Hbn|].
    set (m := if n - tot <? BSIZE - off mod BSIZE then n - tot else BSIZE - off mod BSIZE).
    assert (0 <= m <= n - tot /\ off mod BSIZE + m <= BSIZE) as [Hm Hmb]
      by (unfold m, BSIZE; destruct (Z.ltb_spec (n - tot) (1024 - off mod 1024)); mlia).
    wcall readi_block_bytes as bs s2 [-> Hv2]; [exact Hv1|exact Ho|apply Hbn|apply Hm|exact Hmb|].
    rewrite !u32_id by lia.
    eapply wpx_conseq; [apply IH; [exact Hv2|lia|lia|lia|lia|]|].
    + specialize (Hfuel Hlt). revert Hfuel. unfold m, BSIZE.
      destruct (Z.ltb_spec (n - tot) (1024 - off mod 1024)); [lia|].
      rewrite Nat2Z.inj_succ. intros. replace ((off + _) mod 1024) with 0 by mlia. mlia.
    + intros r s3 [-> Hv3]. split; [|exact Hv3]. rewrite <- app_assoc. f_equal.
      rewrite <- file_bytes_app by lia. f_equal. lia.
  - replace n with tot by lia. rewrite Z.sub_diag. apply wpx_ret. now rewrite app_nil_r.
Qed.

(** What [readi] returns. *)
Definition read_result (off n : Z) : Z * list Z :=
  let size := di_size (ip_d ip) in
  if (off <=? size) && (off + n <? 2 ^ 32) then
    let n := Z.min n (size - off) in (n, file_bytes L (ip_d ip) off n)
  else (-1, []).

Lemma readi_spec off n s :
  view [] L D R s -> 0 <= off < 2 ^ 32 -> 0 <= n < 2 ^ 32 ->
  wp (readi i off n) (fun r s' => r = read_result off n /\ view [] L D R s') s.
Proof.
  intros Hv Ho Hn. unfold readi, read_result. pose proof (fo_size _ _ _ Hok) as Hsz.
  change (MAXFILE * BSIZE) with 274432 in Hsz. set (size := di_size (ip_d ip)) in *.
  wcall wp_getinode as x s1 [-> ->]; [exact Hv|exact Hip|]. fold size.
  destruct (Z.leb_spec off size) as [Hle|Hgt].
  2: { rewrite (proj2 (Z.ltb_lt size off)) by lia. apply wpx_ret. auto. }
  rewrite (proj2 (Z.ltb_ge size off)) by lia. cbn [orb andb].
  destruct (Z.ltb_spec (off + n) (2 ^ 32)) as [Hov|Hov].
  2: { rewrite (proj2 (Z.ltb_lt _ off)); [apply wpx_ret; auto|unfold u32; mlia]. }
  rewrite !(u32_id (off + n)), (proj2 (Z.ltb_ge _ off)) by lia.
  assert ((if size <? off + n then u32 (size - off) else n) = Z.min n (size - off)) as ->.
  { destruct (Z.ltb_spec size (off + n)); [rewrite u32_id|]; lia. }
  wcall readi_loop_bytes as r s1 [-> Hv1]; [exact Hv|lia|lia|lia|lia| |].
  - unfold BSIZE. mlia.
  - apply wpx_ret. rewrite Z.sub_0_r, i32_id by lia. auto.
Qed.
End reading.
