(* ===== verification/Icache.v ===== *)
(** * The inode cache

    [iget] (kernel/fs.c) searches [icache.inode] for a live slot that holds the
    inode, and takes the first free slot otherwise.  [iget_ref] says so in one
    step; [icache_ok] is the invariant that makes an inode number stand for one
    slot. *)
From S2P Require Import Prelude State Printf Bio Fs.

(** ** Specification *)

(** A live slot holds inode [inum] of device [dev]. *)
Definition holds (dev inum : Z) (ip : inode) : Prop :=
  0 < ip_ref ip /\ ip_dev ip = dev /\ ip_inum ip = inum.

#[export] Instance holds_dec dev inum ip : Decision (holds dev inum ip).
Proof. unfold holds. apply _. Defined.

Definition unused (ip : inode) : Prop := ip_ref ip = 0.

#[export] Instance unused_dec ip : Decision (unused ip).
Proof. unfold unused. apply _. Defined.

(** The slot that [iget] returns and the cache it leaves. *)
Definition iget_ref (dev inum : Z) (c : list inode) : option (nat * list inode) :=
  match list_find (holds dev inum) c with
  | Some (i, ip) => Some (i, <[i := upd_ip_ref (fun n => i32 (n + 1)) ip]> c)
  | None =>
      match list_find unused c with
      | Some (i, ip) => Some (i, <[i := mkInode dev inum 1 0 (ip_d ip)]> c)
      | None => None
      end
  end.

Record icache_ok (c : list inode) : Prop := {
  ic_length : length c = Z.to_nat NINODE;
  ic_ref : forall i ip, c !! i = Some ip -> 0 <= ip_ref ip;
  ic_unique : forall i j ip jp, c !! i = Some ip -> c !! j = Some jp ->
    0 < ip_ref ip -> holds (ip_dev ip) (ip_inum ip) jp -> i = j }.

(** ** Lemmas *)

Lemma getinode_run i ip s : ks_icache s !! i = Some ip -> getinode i s = Ok ip s.
Proof. intros H. unfold getinode, bind, get. cbn. now rewrite H. Qed.

Lemma modinode_run i f ip s :
  ks_icache s !! i = Some ip ->
  modinode i f s = Ok tt (set_ks_icache (<[i := f ip]> (ks_icache s)) s).
Proof.
  intros H. unfold modinode, bind, get, modify. cbn. rewrite H. cbn. f_equal.
  unfold upd_ks_icache. f_equal. apply list_eq. intros j. destruct (decide (i = j)) as [<-|Hne].
  - rewrite list_lookup_alter_eq, list_lookup_insert_eq, H by eauto using lookup_lt_Some. reflexivity.
  - now rewrite list_lookup_alter_ne, list_lookup_insert_ne.
Qed.

Lemma iget_scan_run dev inum s m : forall k empty,
  (k + m = length (ks_icache s))%nat ->
  match list_find (holds dev inum) (drop k (ks_icache s)) with
  | Some (j, ip) => exists e, iget_scan (seq k m) dev inum empty s =
      Ok (Some (k + j)%nat, e)
        (set_ks_icache (<[(k + j)%nat := upd_ip_ref (fun n => i32 (n + 1)) ip]> (ks_icache s)) s)
  | None => iget_scan (seq k m) dev inum empty s =
      Ok (None, match empty with
                | Some e => Some e
                | None => (fun p => k + fst p)%nat <$> list_find unused (drop k (ks_icache s))
                end) s
  end.
Proof.
  induction m as [|m IH]; intros k empty Hk; cbn [seq iget_scan].
  - rewrite drop_ge by lia. cbn. destruct empty; reflexivity.
  - destruct (lookup_lt_is_Some_2 (ks_icache s) k) as [ip Hip]; [lia|].
    rewrite (bind_Ok _ _ _ _ _ (getinode_run _ _ _ Hip)).
    rewrite (drop_S _ _ _ Hip). cbn [list_find].
    assert ((0 <? ip_ref ip) && (ip_dev ip =? dev) && (ip_inum ip =? inum) =
            bool_decide (holds dev inum ip)) as ->.
    { apply eq_true_iff_eq. rewrite bool_decide_eq_true, !andb_true_iff, Z.ltb_lt, !Z.eqb_eq.
      unfold holds. tauto. }
    destruct (decide (holds dev inum ip)) as [Hh|Hh].
    + rewrite bool_decide_true by exact Hh. rewrite Nat.add_0_r.
      rewrite (bind_Ok _ _ _ _ _ (modinode_run _ _ _ _ Hip)). eexists. reflexivity.
    + rewrite bool_decide_false by exact Hh.
      specialize (IH (S k)
        (match empty with None => if ip_ref ip =? 0 then Some k else None | Some e => Some e end) ltac:(lia)).
      destruct (list_find (holds dev inum) (drop (S k) (ks_icache s))) as [[j jp]|]; cbn [fmap option_fmap option_map prod_map fst id].
      * replace (k + S j)%nat with (S k + j)%nat by lia. exact IH.
      * rewrite IH. do 2 f_equal. destruct empty as [e|]; [reflexivity|].
        case_decide as Hu; unfold unused in Hu.
        -- rewrite Hu. cbn. do 2 f_equal. lia.
        -- apply Z.eqb_neq in Hu. rewrite Hu. destruct (list_find unused _) as [[j jp]|]; [|reflexivity].
           cbn. do 2 f_equal. lia.
Qed.

(** [iget] is [iget_ref]. *)
Lemma iget_run dev inum s :
  length (ks_icache s) = Z.to_nat NINODE ->
  match iget_ref dev inum (ks_icache s) with
  | Some (i, c) => iget dev inum s = Ok i (set_ks_icache c s)
  | None => iget dev inum s = panic (str "iget: no inodes") s
  end.
Proof.
  intros Hlen. unfold iget, iget_ref.
  pose proof (iget_scan_run dev inum s (Z.to_nat NINODE) O None ltac:(lia)) as Hs.
  rewrite drop_0 in Hs. destruct (list_find (holds dev inum) (ks_icache s)) as [[j ip]|].
  - destruct Hs as [e He]. now rewrite (bind_Ok _ _ _ _ _ He).
  - rewrite (bind_Ok _ _ _ _ _ Hs).
    destruct (list_find unused (ks_icache s)) as [[j ip]|] eqn:E; cbn [fmap option_fmap option_map fst]; [|reflexivity].
    apply list_find_Some in E as (Hj & Hu & _).
    rewrite Nat.add_0_l. unfold bind. rewrite (modinode_run _ _ _ _ Hj). cbn [obind].
    pose proof (lookup_lt_Some _ _ _ Hj) as Hl.
    do 3 (erewrite modinode_run by (fields; apply list_lookup_insert_eq; now rewrite ?length_insert);
          cbn [obind]).
    unfold ret. fields. rewrite !list_insert_insert_eq. reflexivity.
Qed.

(** How [iget_ref] changes one slot. *)
Definition taken (dev inum : Z) (ip ip' : inode) : Prop :=
  ip_dev ip' = dev /\ ip_inum ip' = inum /\ ip_ref ip' = ip_ref ip + 1 /\ ip_d ip' = ip_d ip /\
  ip_valid ip' = if decide (holds dev inum ip) then ip_valid ip else 0.

Lemma iget_ref_hit dev inum c i ip :
  icache_ok c -> c !! i = Some ip -> holds dev inum ip -> ip_ref ip < 2 ^ 31 - 1 ->
  exists ip', iget_ref dev inum c = Some (i, <[i := ip']> c) /\ taken dev inum ip ip'.
Proof.
  intros Hok Hi Hh Hr. unfold iget_ref.
  destruct (list_find (holds dev inum) c) as [[j jp]|] eqn:E.
  - apply list_find_Some in E as (Hj & Hhj & _). destruct Hhj as (Hp & <- & <-).
    assert (j = i) as -> by exact (ic_unique _ Hok j i jp ip Hj Hi Hp Hh).
    rewrite Hi in Hj. injection Hj as <-. eexists. split; [reflexivity|].
    unfold taken. fields. rewrite i32_id by lia. now rewrite decide_True.
  - apply list_find_None in E. exfalso. eapply (Forall_lookup_1 _ _ _ _ E Hi). exact Hh.
Qed.

Lemma iget_ref_miss dev inum c i ip :
  (forall j jp, c !! j = Some jp -> ~ holds dev inum jp) -> c !! i = Some ip -> unused ip ->
  exists i ip ip', c !! i = Some ip /\ unused ip /\
    iget_ref dev inum c = Some (i, <[i := ip']> c) /\ taken dev inum ip ip'.
Proof.
  intros Hno Hi Hu. unfold iget_ref.
  destruct (list_find (holds dev inum) c) as [[j jp]|] eqn:E.
  { apply list_find_Some in E as (Hj & Hhj & _). now destruct (Hno j jp Hj). }
  destruct (list_find unused c) as [[j jp]|] eqn:E'.
  - apply list_find_Some in E' as (Hj & Huj & _). exists j, jp. eexists. split; [exact Hj|].
    split; [exact Huj|]. split; [reflexivity|]. unfold taken. fields. unfold unused in Huj. rewrite Huj.
    rewrite decide_False by now apply (Hno j jp). auto.
  - apply list_find_None in E'. exfalso. eapply (Forall_lookup_1 _ _ _ _ E' Hi). exact Hu.
Qed.

(** Taking a reference keeps the invariant, when the slot already holds the
    inode or no slot does. *)
Lemma taken_ok dev inum c i ip ip' :
  icache_ok c -> c !! i = Some ip -> taken dev inum ip ip' ->
  holds dev inum ip \/ (forall j jp, c !! j = Some jp -> ~ holds dev inum jp) ->
  icache_ok (<[i := ip']> c).
Proof.
  intros [Hlen Hrf Huq] Hi (Hd & Hn & Hr & _) Hno. pose proof (lookup_lt_Some _ _ _ Hi) as Hl.
  pose proof (Hrf _ _ Hi).
  assert (forall j jp, <[i := ip']> c !! j = Some jp -> j <> i -> c !! j = Some jp) as Hother.
  { intros j jp Hj Hne. now rewrite list_lookup_insert_ne in Hj by auto. }
  assert (forall jp, <[i := ip']> c !! i = Some jp -> jp = ip') as Hself.
  { intros jp Hj. rewrite list_lookup_insert_eq in Hj by exact Hl. now injection Hj. }
  assert (forall j jp, c !! j = Some jp -> holds dev inum jp -> j = i) as Hone.
  { intros j jp Hj Hh. destruct Hno as [(Hp & <- & <-)|Hno]; [|now destruct (Hno j jp Hj)].
    symmetry. exact (Huq i j ip jp Hi Hj Hp Hh). }
  split.
  - now rewrite length_insert.
  - intros j jp Hj. destruct (decide (j = i)) as [->|Hne]; [apply Hself in Hj as ->; lia|eauto].
  - intros j k jp kp Hj Hk Hp Hh.
    destruct (decide (j = i)) as [->|Hji], (decide (k = i)) as [->|Hki]; [reflexivity|..].
    + apply Hself in Hj as ->. rewrite Hd, Hn in Hh. symmetry. eauto.
    + apply Hself in Hk as ->. apply (Hone j jp); [eauto|]. destruct Hh as (_ & E1 & E2).
      split; [exact Hp|]. split; congruence.
    + eauto.
Qed.

(** Dropping references, or filling the slot, keeps it too. *)
Lemma release_ok c i ip ip' :
  icache_ok c -> c !! i = Some ip -> ip_dev ip' = ip_dev ip -> ip_inum ip' = ip_inum ip ->
  0 <= ip_ref ip' <= ip_ref ip -> icache_ok (<[i := ip']> c).
Proof.
  intros [Hlen Hrf Huq] Hi Hd Hn Hr. pose proof (lookup_lt_Some _ _ _ Hi) as Hl.
  assert (forall j jp, <[i := ip']> c !! j = Some jp ->
            exists jp0, c !! j = Some jp0 /\ ip_dev jp = ip_dev jp0 /\ ip_inum jp = ip_inum jp0 /\
              0 <= ip_ref jp <= ip_ref jp0) as Hold.
  { intros j jp Hj. destruct (decide (j = i)) as [->|Hne].
    - rewrite list_lookup_insert_eq in Hj by exact Hl. injection Hj as <-. eauto.
    - rewrite list_lookup_insert_ne in Hj by auto. pose proof (Hrf _ _ Hj). exists jp. auto with lia. }
  split.
  - now rewrite length_insert.
  - intros j jp Hj. destruct (Hold _ _ Hj) as (jp0 & _ & _ & _ & ?). lia.
  - intros j k jp kp Hj Hk Hp (Hpk & Hdk & Hnk).
    destruct (Hold _ _ Hj) as (jp0 & Hj0 & Hdj & Hnj & ?).
    destruct (Hold _ _ Hk) as (kp0 & Hk0 & Hdk0 & Hnk0 & ?).
    apply (Huq j k jp0 kp0 Hj0 Hk0); [lia|]. split; [lia|]. split; congruence.
Qed.

(** ** Theorem *)

(** C24: invariant.  No inode is in two live slots, and [iget] keeps it so: it adds
    a reference to the slot that holds the inode, or takes an unused slot when no
    slot does, and changes no other slot.  It panics when the inode is in no slot
    and every slot is live. *)
Theorem iget_keeps_cache dev inum s :
  let c := ks_icache s in
  icache_ok c -> (forall i ip, c !! i = Some ip -> ip_ref ip < 2 ^ 31 - 1) ->
  (exists i ip ip', c !! i = Some ip /\ iget dev inum s = Ok i (set_ks_icache (<[i := ip']> c) s) /\
     taken dev inum ip ip' /\ icache_ok (<[i := ip']> c) /\
     (holds dev inum ip \/ unused ip /\ forall j jp, c !! j = Some jp -> ~ holds dev inum jp)) \/
  ((forall j jp, c !! j = Some jp -> 0 < ip_ref jp /\ ~ holds dev inum jp) /\
   exists s', iget dev inum s = Panic (str "iget: no inodes") s').
Proof.
  intros c Hok Hmax. pose proof (iget_run dev inum s (ic_length _ Hok)) as Hrun. fold c in Hrun.
  destruct (list_find (holds dev inum) c) as [[i ip]|] eqn:E.
  - apply list_find_Some in E as (Hi & Hh & _). left.
    destruct (iget_ref_hit _ _ _ _ _ Hok Hi Hh (Hmax _ _ Hi)) as (ip' & Hg & Ht). rewrite Hg in Hrun.
    exists i, ip, ip'. split; [exact Hi|]. split; [exact Hrun|]. split; [exact Ht|].
    split; [eapply taken_ok; eauto|auto].
  - apply list_find_None in E. rewrite Forall_lookup in E.
    destruct (list_find unused c) as [[j jp]|] eqn:E'.
    + apply list_find_Some in E' as (Hj & Hu & _). left.
      destruct (iget_ref_miss _ _ _ _ _ E Hj Hu) as (i & ip & ip' & Hi & Hui & Hg & Ht). rewrite Hg in Hrun.
      exists i, ip, ip'. split; [exact Hi|]. split; [exact Hrun|]. split; [exact Ht|].
      split; [eapply taken_ok; eauto|auto].
    + right. unfold iget_ref in Hrun.
      rewrite (proj2 (list_find_None _ _)) in Hrun by (apply Forall_lookup; exact E).
      rewrite E' in Hrun. apply list_find_None in E'. rewrite Forall_lookup in E'. split.
      * intros k kp Hk. pose proof (ic_ref _ Hok _ _ Hk). pose proof (E' _ _ Hk) as Hu. unfold unused in Hu.
        split; [lia|]. eapply E, Hk.
      * rewrite Hrun, panic_run. eauto.
Qed.

(** The root directory is in use; inode 7 is fetched into the next slot. *)
Definition demo_icache : list inode :=
  mkInode 0 1 1 0 zero_dinode :: replicate 49 zero_inode.

Lemma demo_icache_ok : icache_ok demo_icache.
Proof.
  split.
  - reflexivity.
  - intros [|i] ip H; [injection H as <-; now vm_compute|].
    apply lookup_replicate_1 in H as [-> _]. now vm_compute.
  - intros [|i] [|j] ip jp Hi Hj Hp Hh; [reflexivity|..].
    + apply lookup_replicate_1 in Hj as [-> _]. now destruct Hh.
    + apply lookup_replicate_1 in Hi as [-> _]. easy.
    + apply lookup_replicate_1 in Hi as [-> _]. easy.
Qed.

Lemma demo_icache_small i ip : demo_icache !! i = Some ip -> ip_ref ip < 2 ^ 31 - 1.
Proof.
  destruct i as [|i]; intros H; [injection H as <-; now vm_compute|].
  apply lookup_replicate_1 in H as [-> _]. now vm_compute.
Qed.

Lemma iget_keeps_cache_witness :
  exists i ip ip', demo_icache !! i = Some ip /\ taken 0 7 ip ip' /\ icache_ok (<[i := ip']> demo_icache) /\
    iget 0 7 (set_ks_icache demo_icache demo_state) =
    Ok i (set_ks_icache (<[i := ip']> demo_icache) (set_ks_icache demo_icache demo_state)).
Proof.
  destruct (iget_keeps_cache 0 7 (set_ks_icache demo_icache demo_state) demo_icache_ok demo_icache_small)
    as [(i & ip & ip' & Hi & Hg & Ht & Hok & _)|[H _]].
  - exists i, ip, ip'. exact (conj Hi (conj Ht (conj Hok Hg))).
  - exfalso. destruct (H 1%nat zero_inode eq_refl) as [Hp _]. revert Hp. now vm_compute.
Defined.
