(* ===== verification/Paths.v ===== *)
(** * Directories and path names

    A directory is the list of its entries and a path is the list of the names
    between its slashes.  [dirlookup] and [skipelem] (kernel/fs.c) are proved to
    compute the first entry with a name and the first name of a path. *)
From S2P Require Import Prelude State Printf Bio Blocks Fs Inodes.

(** ** Specification *)

(** The string in an array of [n] characters, which has a NUL only when it is
    shorter than the array. *)
Fixpoint until_nul (n : nat) (l : list Z) : list Z :=
  match n, l with
  | S n', c :: l' => if c =? 0 then [] else c :: until_nul n' l'
  | _, _ => []
  end.
Definition name_in (l : list Z) : list Z := until_nul (Z.to_nat DIRSIZ) l.

Definition dirents (L : blockmap) (di : dinode) : list dirent :=
  map (fun k => dirent_of (file_bytes L di (k * SIZEOF_DIRENT) SIZEOF_DIRENT))
    (upto (di_size di / SIZEOF_DIRENT)).

Definition is_entry (name : list Z) (de : dirent) : Prop :=
  de_inum de <> 0 /\ name_in (de_name de) = name.

#[export] Instance is_entry_dec name de : Decision (is_entry name de).
Proof. unfold is_entry. apply _. Defined.

(** The first entry in use with the name. *)
Definition dir_entry (L : blockmap) (di : dinode) (name : list Z) : option (nat * dirent) :=
  list_find (is_entry name) (dirents L di).

(** The fields between slashes, and those that are not empty. *)
Fixpoint path_fields (path : list Z) : list (list Z) :=
  match path with
  | [] => [[]]
  | c :: path' =>
      if c =? slash then [] :: path_fields path'
      else match path_fields path' with
           | e :: es => (c :: e) :: es
           | [] => []
           end
  end.
Definition path_elems (path : list Z) : list (list Z) := filter (fun e => e <> []) (path_fields path).

(** ** Names *)

Lemma dir_match_spec n : forall name dname,
  (n <= length name)%nat -> (n <= length dname)%nat ->
  dir_match n name dname = Some (bool_decide (until_nul n dname = until_nul n name)).
Proof.
  induction n as [|n IH]; intros name dname Hn Hd; [reflexivity|].
  destruct name as [|c name]; [now cbn in Hn|]. destruct dname as [|e dname]; [now cbn in Hd|].
  cbn [dir_match until_nul]. cbn in Hn, Hd.
  destruct (Z.eqb_spec c e) as [->|Hne]; cbn [negb].
  - destruct (Z.eqb_spec e 0) as [->|He]; [reflexivity|]. rewrite IH by lia. f_equal.
    apply bool_decide_ext. split; [now intros ->|now intros [= ->]].
  - rewrite bool_decide_false; [reflexivity|].
    destruct (Z.eqb_spec e 0), (Z.eqb_spec c 0); subst; congruence.
Qed.

Lemma until_nul_short n e l :
  0 ∉ e -> (length e < n)%nat -> until_nul n (e ++ 0 :: l) = e.
Proof.
  revert n. induction e as [|c e IH]; intros n H0 Hn; destruct n as [|n]; cbn in *; try lia; [reflexivity|].
  apply not_elem_of_cons in H0 as [Hc H0]. destruct (Z.eqb_spec c 0); [congruence|].
  now rewrite IH by (auto; lia).
Qed.

Lemma until_nul_full n e : 0 ∉ e -> until_nul n e = take n e.
Proof.
  revert n. induction e as [|c e IH]; intros n H0; destruct n as [|n]; try reflexivity.
  apply not_elem_of_cons in H0 as [Hc H0]. cbn. destruct (Z.eqb_spec c 0); [congruence|]. now rewrite IH.
Qed.

Lemma until_nul_take n e : until_nul n e = until_nul n (take n e).
Proof.
  revert e. induction n as [|n IH]; intros [|c e]; try reflexivity. cbn. destruct (c =? 0); [reflexivity|].
  now rewrite <- IH.
Qed.

(** ** Paths *)

Lemma path_fields_cons path : exists e es, path_fields path = e :: es.
Proof.
  induction path as [|c path (e & es & IH)]; cbn; [eauto|]. destruct (c =? slash); [eauto|].
  rewrite IH. eauto.
Qed.

Lemma path_elems_slash path : path_elems (slash :: path) = path_elems path.
Proof. unfold path_elems. cbn [path_fields]. rewrite Z.eqb_refl. now rewrite filter_cons_False by auto. Qed.

Lemma path_elems_skip path : path_elems (skip_slashes path) = path_elems path.
Proof.
  induction path as [|c path IH]; [reflexivity|]. cbn [skip_slashes].
  destruct (Z.eqb_spec c slash) as [->|]; [|reflexivity]. now rewrite path_elems_slash.
Qed.

Lemma path_elems_length path : (length (path_elems path) <= S (length path))%nat.
Proof.
  unfold path_elems. etransitivity; [apply length_filter|].
  induction path as [|c path IH]; [reflexivity|]. cbn. destruct (c =? slash); [cbn; lia|].
  destruct (path_fields path); cbn in *; lia.
Qed.

Lemma skip_slashes_head path c rest : skip_slashes path = c :: rest -> c <> slash.
Proof.
  induction path as [|d path IH]; [discriminate|]. cbn. destruct (Z.eqb_spec d slash); [exact IH|].
  now intros [= -> ->].
Qed.

Lemma span_elem_fields path e r :
  span_elem path = (e, r) ->
  path = e ++ r /\ path_fields path = e :: match r with [] => [] | _ :: r' => path_fields r' end /\
  match r with [] => True | c :: _ => c = slash end.
Proof.
  revert e r. induction path as [|c path IH]; intros e r; cbn.
  - now intros [= <- <-].
  - destruct (Z.eqb_spec c slash) as [->|Hc]; [now intros [= <- <-]|].
    destruct (span_elem path) as [e' r'] eqn:E. intros [= <- <-].
    destruct (IH _ _ eq_refl) as (-> & Hf & Hr). rewrite Hf. auto.
Qed.

Lemma path_elems_cons path e r :
  skip_slashes path = path -> path <> [] -> span_elem path = (e, r) ->
  e <> [] /\ path_elems path = e :: path_elems r.
Proof.
  intros Hs Hne Hsp. destruct (span_elem_fields _ _ _ Hsp) as (Hp & Hf & Hr).
  assert (e <> []) as He.
  { intros ->. cbn in Hp. destruct path as [|c path]; [contradiction|].
    apply skip_slashes_head in Hs. rewrite <- Hp in Hr. contradiction. }
  split; [exact He|]. unfold path_elems. rewrite Hf, filter_cons_True by exact He. f_equal.
  destruct r as [|c r]; [reflexivity|]. subst c. symmetry. apply path_elems_slash.
Qed.

Lemma skip_slashes_idemp path : skip_slashes (skip_slashes path) = skip_slashes path.
Proof.
  induction path as [|c path IH]; [reflexivity|]. cbn. destruct (c =? slash) eqn:E; [exact IH|].
  cbn. now rewrite E.
Qed.

Lemma path_elems_nil path : skip_slashes path = path -> path_elems path = [] -> path = [].
Proof.
  intros Hs He. destruct path as [|c path]; [reflexivity|].
  destruct (span_elem (c :: path)) as [e r] eqn:E.
  destruct (path_elems_cons _ _ _ Hs ltac:(easy) E) as [_ Hc]. rewrite He in Hc. discriminate.
Qed.

Lemma span_elem_nul path e r : span_elem path = (e, r) -> 0 ∉ path -> 0 ∉ e.
Proof.
  intros Hsp H0. destruct (span_elem_fields _ _ _ Hsp) as (-> & _).
  intros Hin. apply H0. apply elem_of_app. auto.
Qed.

Lemma skip_slashes_nul path :
  0 ∉ path -> (0 ∉ skip_slashes path) /\ (length (skip_slashes path) <= length path)%nat.
Proof.
  induction path as [|c path IH]; intros H0; [auto|]. cbn.
  pose proof (proj1 (not_elem_of_cons _ _ _) H0) as [Hc H0'].
  destruct (c =? slash); [|auto]. destruct (IH H0'). split; [assumption|lia].
Qed.

Lemma skipelem_spec path name :
  0 ∉ path -> length name = Z.to_nat DIRSIZ ->
  match path_elems path with
  | [] => skipelem path name = None
  | e :: es => exists rest name', skipelem path name = Some (rest, name') /\
      path_elems rest = es /\ (rest = [] <-> es = []) /\ (0 ∉ rest) /\ (length rest < length path)%nat /\
      length name' = length name /\ name_in name' = take (Z.to_nat DIRSIZ) e
  end.
Proof.
  intros H0 Hn. unfold skipelem. rewrite <- path_elems_skip.
  pose proof (skip_slashes_idemp path) as Hs.
  destruct (skip_slashes_nul path H0) as [Hns Hls].
  destruct (skip_slashes path) as [|c p] eqn:E; [reflexivity|]. cbv zeta.
  destruct (span_elem (c :: p)) as [e r] eqn:Esp.
  destruct (path_elems_cons _ _ _ Hs ltac:(easy) Esp) as [Hne ->].
  pose proof (span_elem_nul _ _ _ Esp Hns) as H0e.
  destruct (span_elem_fields _ _ _ Esp) as (Hp & _ & _).
  assert ((0 ∉ r) /\ (length r < length path)%nat) as [H0r Hlr].
  { split; [intros Hin; apply Hns; rewrite Hp; apply elem_of_app; auto|].
    apply (f_equal length) in Hp. rewrite length_app in Hp. destruct e; [contradiction|]. cbn in *. lia. }
  eexists _, _. split; [reflexivity|]. split; [apply path_elems_skip|]. split; [split|].
  - intros Hr. now rewrite <- path_elems_skip, Hr.
  - intros He. apply path_elems_nil; [apply skip_slashes_idemp|]. now rewrite path_elems_skip.
  - destruct (skip_slashes_nul r H0r) as [H1 H2].
    split; [exact H1|]. split; [lia|].
    unfold DIRSIZ in *. destruct (Z.leb_spec 14 (Z.of_nat (length e))) as [Hl|Hl].
    + split; [apply length_splice; rewrite length_take; lia|]. unfold name_in, DIRSIZ, splice.
      rewrite take_0, app_nil_l, until_nul_take, take_app_le by (rewrite length_take; lia).
      rewrite take_take, Nat.min_id, until_nul_full, take_take; [reflexivity|].
      intros Hin. apply H0e. rewrite <- (take_drop (Z.to_nat 14) e). apply elem_of_app. auto.
    + split; [apply length_splice; rewrite length_app; cbn; lia|]. unfold name_in, DIRSIZ, splice.
      rewrite take_0, app_nil_l, <- app_assoc. cbn [app].
      rewrite until_nul_short by (auto; lia). now rewrite take_ge by lia.
Qed.

(** ** Directories *)

Section directories.
Context {view : view_pred} `{!BlockCache view}.
Context (L : blockmap) (D : Z -> Prop) (R : kstate).
Hypothesis Hroom : roomy [] D.
Context (dp : nat) (ip : inode).
Hypothesis Hip : ks_icache R !! dp = Some ip.
Hypothesis Hdev : ip_dev ip = 0.
Hypothesis Hok : file_ok L R (ip_d ip).
Hypothesis Hsize : di_size (ip_d ip) mod SIZEOF_DIRENT = 0.
Abbreviation entry k := (dirent_of (file_bytes L (ip_d ip) (k * SIZEOF_DIRENT) SIZEOF_DIRENT)).

Lemma entry_name_length k : length (de_name (entry k)) = Z.to_nat DIRSIZ.
Proof.
  cbn. unfold bytes_at. rewrite length_take, length_drop, length_file_bytes. reflexivity.
Qed.

Lemma readi_entry k s :
  view [] L D R s -> 0 <= k -> k * SIZEOF_DIRENT < di_size (ip_d ip) ->
  exists s1, readi dp (k * SIZEOF_DIRENT) SIZEOF_DIRENT s =
    Ok (SIZEOF_DIRENT, file_bytes L (ip_d ip) (k * SIZEOF_DIRENT) SIZEOF_DIRENT) s1 /\ view [] L D R s1.
Proof.
  intros Hv Hk Hlt. unfold SIZEOF_DIRENT in *. pose proof (fo_size _ _ _ Hok) as Hsz.
  change (MAXFILE * BSIZE) with 274432 in Hsz.
  destruct (proj1 (wp_Ok _ _ _) (readi_spec L D R Hroom dp ip Hip Hdev Hok (k * 16) 16 s Hv
    ltac:(lia) ltac:(lia))) as (r & s1 & Hrun & -> & Hv1).
  exists s1. split; [|exact Hv1]. rewrite Hrun. unfold read_result.
  rewrite (proj2 (Z.leb_le _ _)), (proj2 (Z.ltb_lt _ _)) by lia. cbn [andb].
  rewrite Z.min_l by mlia. reflexivity.
Qed.

Lemma dirlookup_loop_run name m : forall k s,
  view [] L D R s -> length name = Z.to_nat DIRSIZ ->
  Z.of_nat (k + m) = di_size (ip_d ip) / SIZEOF_DIRENT ->
  exists s1, view [] L D R s1 /\
    dirlookup_loop (S m) dp name (Z.of_nat k * SIZEOF_DIRENT) s =
    match list_find (is_entry (name_in name)) (drop k (dirents L (ip_d ip))) with
    | Some (j, de) => (r <- iget 0 (de_inum de);; ret (Some (r, Z.of_nat (k + j) * SIZEOF_DIRENT))) s1
    | None => ret None s1
    end.
Proof.
  pose proof (fo_size _ _ _ Hok) as Hsz. change (MAXFILE * BSIZE) with 274432 in Hsz.
  induction m as [|m IH]; intros k s Hv Hname Hk; cbn [dirlookup_loop];
    destruct (proj1 (wp_Ok _ _ _) (wp_getinode L D R [] dp ip s Hv Hip)) as (x & s0 & Hg & -> & ->);
    rewrite (bind_Ok _ _ _ _ _ Hg).
  - rewrite (proj2 (Z.ltb_ge _ _)) by (unfold SIZEOF_DIRENT in *; mlia). exists s. split; [exact Hv|].
    rewrite drop_ge; [reflexivity|]. unfold dirents. rewrite length_map, length_upto. lia.
  - assert (Z.of_nat k * SIZEOF_DIRENT < di_size (ip_d ip)) as Hlt by (unfold SIZEOF_DIRENT in *; mlia).
    rewrite (proj2 (Z.ltb_lt _ _)) by exact Hlt.
    destruct (readi_entry (Z.of_nat k) s Hv ltac:(lia) Hlt) as (s1 & Hrd & Hv1).
    rewrite (bind_Ok _ _ _ _ _ Hrd). rewrite Z.eqb_refl. cbn [negb when]. unfold bind at 1. cbn [ret obind].
    assert (dirents L (ip_d ip) !! k = Some (entry (Z.of_nat k))) as Hent.
    { unfold dirents. rewrite lookup_map_upto, decide_True; [reflexivity|lia]. }
    rewrite (drop_S _ _ _ Hent). cbn [list_find].
    replace (u32 (Z.of_nat k * SIZEOF_DIRENT + SIZEOF_DIRENT)) with (Z.of_nat (S k) * SIZEOF_DIRENT)
      by (unfold SIZEOF_DIRENT in *; rewrite u32_id; mlia).
    destruct (IH (S k) s1 Hv1 Hname ltac:(lia)) as (s2 & Hv2 & Hrec).
    assert (exists s2, view [] L D R s2 /\
      dirlookup_loop (S m) dp name (Z.of_nat (S k) * SIZEOF_DIRENT) s1 =
      match prod_map S id <$> list_find (is_entry (name_in name)) (drop (S k) (dirents L (ip_d ip))) with
      | Some (j, de) => (r <- iget 0 (de_inum de);; ret (Some (r, Z.of_nat (k + j) * SIZEOF_DIRENT))) s2
      | None => ret None s2
      end) as Hnext.
    { exists s2. split; [exact Hv2|]. rewrite Hrec.
      destruct (list_find _ _) as [[j de]|]; [|reflexivity]. cbn. now rewrite Nat.add_succ_r. }
    destruct (Z.eqb_spec (de_inum (entry (Z.of_nat k))) 0) as [H0|H0].
    + rewrite decide_False by (now intros [? _]). exact Hnext.
    + rewrite (dir_match_spec (Z.to_nat DIRSIZ)) by (rewrite ?entry_name_length, ?Hname; reflexivity).
      unfold of_opt, bind at 1. cbn [ret obind]. fold (name_in name). fold (name_in (de_name (entry (Z.of_nat k)))).
      case_decide as Hc; unfold is_entry in Hc.
      * rewrite bool_decide_true by tauto. exists s1. split; [exact Hv1|].
        destruct (proj1 (wp_Ok _ _ _) (wp_getinode L D R [] dp ip s1 Hv1 Hip)) as (x & s0 & Hg1 & -> & ->).
        rewrite (bind_Ok _ _ _ _ _ Hg1), Hdev, Nat.add_0_r. reflexivity.
      * rewrite bool_decide_false by tauto. exact Hnext.
Qed.

(** [dirlookup] is [iget] of the first entry with the name. *)
Lemma dirlookup_run name s :
  view [] L D R s -> di_type (ip_d ip) = T_DIR -> length name = Z.to_nat DIRSIZ ->
  exists s1, view [] L D R s1 /\
    dirlookup dp name s =
    match dir_entry L (ip_d ip) (name_in name) with
    | Some (j, de) => (r <- iget 0 (de_inum de);; ret (Some (r, Z.of_nat j * SIZEOF_DIRENT))) s1
    | None => ret None s1
    end.
Proof.
  intros Hv Ht Hname. unfold dirlookup.
  destruct (proj1 (wp_Ok _ _ _) (wp_getinode L D R [] dp ip s Hv Hip)) as (x & s0 & Hg & -> & ->).
  rewrite (bind_Ok _ _ _ _ _ Hg), Ht. cbn [Z.eqb negb when].
  pose proof (fo_size _ _ _ Hok) as [Hsz _].
  replace (Z.to_nat (di_size (ip_d ip) / SIZEOF_DIRENT + 1)) with (S (Z.to_nat (di_size (ip_d ip) / SIZEOF_DIRENT)))
    by (unfold SIZEOF_DIRENT; mlia).
  apply (dirlookup_loop_run name _ O s Hv Hname). unfold SIZEOF_DIRENT. mlia.
Qed.
End directories.
