(* ===== verification/Mkfs.v ===== *)
(** * Making a file system image: mkfs/mkfs.c

    The state is the image, block by block, and the globals of the program.  The
    reads and writes of the image succeed inside the file and are the [exit(1)]
    of the program outside of it; messages are not modelled. *)
From S2P Require Import Prelude State Fs.

(** ** Model *)

Record mkfs_state := mkMkfs {
  mk_image : gmap Z (list Z);
  mk_sb : superblock; mk_freeinode : Z; mk_freeblock : Z; mk_bitmap : list Z }.

Abbreviation MkM A := (M mkfs_state A).

Definition exit1 {A} (msg : list Z) : MkM A := fun s => Panic msg s.

Definition upd_image (f : gmap Z (list Z) -> gmap Z (list Z)) (s : mkfs_state) : mkfs_state :=
  mkMkfs (f (mk_image s)) (mk_sb s) (mk_freeinode s) (mk_freeblock s) (mk_bitmap s).
Definition set_freeinode (x : Z) (s : mkfs_state) : mkfs_state :=
  mkMkfs (mk_image s) (mk_sb s) x (mk_freeblock s) (mk_bitmap s).
Definition set_freeblock (x : Z) (s : mkfs_state) : mkfs_state :=
  mkMkfs (mk_image s) (mk_sb s) (mk_freeinode s) x (mk_bitmap s).
Definition set_bitmap (x : list Z) (s : mkfs_state) : mkfs_state :=
  mkMkfs (mk_image s) (mk_sb s) (mk_freeinode s) (mk_freeblock s) x.
Definition set_mk_sb (x : superblock) (s : mkfs_state) : mkfs_state :=
  mkMkfs (mk_image s) x (mk_freeinode s) (mk_freeblock s) (mk_bitmap s).

Definition wsect (sec : Z) (buf : list Z) : MkM unit := modify (upd_image (<[sec := buf]>)).

Definition rsect (sec : Z) : MkM (list Z) :=
  s <- get;;
  match mk_image s !! sec with
  | Some d => ret d
  | None => exit1 (str "read")
  end.

Definition winode (inum : Z) (ip : dinode) : MkM unit :=
  sb <- gets mk_sb;;
  let bn := u32 (inum / IPB + sb_inodestart sb) in
  buf <- rsect bn;;
  wsect bn (put_dinode (dinode_off inum) ip buf).

Definition rinode (inum : Z) : MkM dinode :=
  sb <- gets mk_sb;;
  let bn := u32 (inum / IPB + sb_inodestart sb) in
  buf <- rsect bn;;
  ret (dinode_at (dinode_off inum) buf).

Definition mk_ialloc (type : Z) : MkM Z :=
  inum <- gets mk_freeinode;;
  _ <- modify (set_freeinode (u32 (inum + 1)));;
  _ <- winode inum (mkDinode (i16 type) 0 0 1 0 (replicate 13 0));;
  ret inum.

Definition balloc_mark (b : Z) : MkM unit :=
  bm <- gets mk_bitmap;;
  x <- of_opt (lget (b / 8) bm);;
  bm' <- of_opt (lset (b / 8) (Z.lor x (Z.shiftl 1 (b mod 8))) bm);;
  modify (set_bitmap bm').

Definition mk_balloc : MkM Z :=
  b <- gets mk_freeblock;;
  _ <- modify (set_freeblock (u32 (b + 1)));;
  _ <- balloc_mark b;;
  ret b.

(** The loop of [iappend]: [data] is what is left. *)
Fixpoint iappend_loop (fuel : nat) (din : dinode) (off : Z) (data : list Z) : MkM (dinode * Z) :=
  match data with
  | [] => ret (din, off)
  | _ =>
      match fuel with
      | O => out_of_fuel
      | S fuel' =>
          let bn := off / BSIZE in
          if NDIRECT <=? bn then exit1 (str "iappend: file too large")
          else
            addr <- of_opt (lget bn (di_addrs din));;
            din <- (if addr =? 0 then
                      b <- mk_balloc;;
                      l <- of_opt (lset bn b (di_addrs din));;
                      ret (set_di_addrs l din)
                    else ret din);;
            addr <- of_opt (lget bn (di_addrs din));;
            buf <- rsect addr;;
            let m := Z.min (BSIZE - off mod BSIZE) (Z.of_nat (length data)) in
            _ <- wsect addr (splice (Z.to_nat (off mod BSIZE)) (take (Z.to_nat m) data) buf);;
            iappend_loop fuel' din (u32 (off + m)) (drop (Z.to_nat m) data)
      end
  end.

Definition iappend (inum : Z) (data : list Z) : MkM unit :=
  din <- rinode inum;;
  let! (din, off) := iappend_loop (length data) din (di_size din) data in
  winode inum (set_di_size off din).

Definition NBITMAP : Z := FSSIZE / BPB + 1.

Definition write_bitmap : MkM unit :=
  for_each (upto NBITMAP) (fun i =>
    bm <- gets mk_bitmap;;
    sb <- gets mk_sb;;
    let start := i * BSIZE in
    let last := Z.min (start + BSIZE) (FSSIZE / 8 + 1) in
    let bits := take (Z.to_nat (last - start)) (drop (Z.to_nat start) bm) in
    wsect (u32 (sb_bmapstart sb + i)) (splice 0 bits (replicate (Z.to_nat BSIZE) 0))).

(** The bytes of a superblock. *)
Definition superblock_bytes (sb : superblock) : list Z :=
  le_bytes 4 (sb_magic sb) ++ le_bytes 4 (sb_size sb) ++ le_bytes 4 (sb_nblocks sb) ++
  le_bytes 4 (sb_ninodes sb) ++ le_bytes 4 (sb_nlog sb) ++ le_bytes 4 (sb_logstart sb) ++
  le_bytes 4 (sb_inodestart sb) ++ le_bytes 4 (sb_bmapstart sb).

(** [strcpy] into a zeroed [de.name]. *)
Definition mk_dirent (inum : Z) (name : list Z) : list Z :=
  dirent_bytes (mkDirent (u16 inum) (splice 0 name (replicate (Z.to_nat DIRSIZ) 0))).

(** The layout the program plans. *)
Definition mk_layout : superblock * Z :=
  let ninodes := 200 in
  let nlog := 30 in
  let logstart := 2 in
  let inodestart := u32 (logstart + nlog) in
  let inodeblocks := ninodes / IPB + 1 in
  let bmapstart := u32 (inodestart + inodeblocks) in
  let freeblock := u32 (bmapstart + NBITMAP) in
  (mkSuperblock FSMAGIC FSSIZE (u32 (FSSIZE - freeblock)) ninodes nlog logstart inodestart bmapstart, freeblock).

(** [main] after it has created the file. *)
Definition mkfs_main : MkM unit :=
  _ <- for_each (upto FSSIZE) (fun i => wsect i (replicate (Z.to_nat BSIZE) 0));;
  _ <- modify (set_bitmap (replicate (Z.to_nat (FSSIZE / 8 + 1)) 0));;
  _ <- modify (set_mk_sb (fst mk_layout));;
  _ <- modify (set_freeblock (snd mk_layout));;
  _ <- for_each (upto (snd mk_layout)) balloc_mark;;
  sb <- gets mk_sb;;
  _ <- wsect 1 (splice 0 (superblock_bytes sb) (replicate (Z.to_nat BSIZE) 0));;
  rootino <- mk_ialloc T_DIR;;
  _ <- iappend rootino (mk_dirent rootino (str "."));;
  _ <- iappend rootino (mk_dirent rootino (str ".."));;
  write_bitmap.

(** [main]: its exit status, given the number of arguments and the result of
    [open], which has emptied the file.  What it prints is left out. *)
Definition mkfs (argc fsfd : Z) : MkM Z :=
  if argc <? 2 then ret 1
  else if fsfd <? 0 then ret 1
  else _ <- mkfs_main;; ret 0.

(** The program's state when it starts, with an empty file. *)
Definition mkfs_start : mkfs_state :=
  mkMkfs ∅ (mkSuperblock 0 0 0 0 0 0 0 0) 1 0 (replicate (Z.to_nat (FSSIZE / 8 + 1)) 0).

Definition mkfs_image : gmap Z (list Z) :=
  match mkfs_main mkfs_start with Ok _ s => mk_image s | _ => ∅ end.
