(* ===== verification/Tree.v ===== *)
(** * The tree on the disk

    What the file system is, seen from the blocks: inodes in use, directories
    whose entries name them, and a bitmap that marks the blocks they own.
    [tree_check] and [bitmap_check] decide it for an image, and the image that
    mkfs/mkfs.c makes is proved to be such a tree. *)
From S2P Require Import Prelude State Blocks Fs Inodes Paths Mkfs.

(** ** Specification *)

(** Inode [inum] on the disk. *)
Definition disk_inode (L : blockmap) (sb : superblock) (inum : Z) : dinode :=
  dinode_at (dinode_off inum) (block L (IBLOCK inum sb)).

(** The inode at the end of the path [es] from inode [inum]; with [parent], the
    directory that its last name is in. *)
Fixpoint resolve (L : blockmap) (sb : superblock) (parent : bool) (inum : Z) (es : list (list Z)) : option Z :=
  match es with
  | [] => if parent then None else Some inum
  | e :: es' =>
      let di := disk_inode L sb inum in
      if negb (di_type di =? T_DIR) then None
      else if parent && bool_decide (es' = []) then Some inum
      else match dir_entry L di (take (Z.to_nat DIRSIZ) e) with
           | Some (_, de) => resolve L sb parent (de_inum de) es'
           | None => None
           end
  end.

(** An inode that is in use. *)
Definition allocated (L : blockmap) (sb : superblock) (inum : Z) : Prop :=
  0 < inum < sb_ninodes sb /\ di_type (disk_inode L sb inum) <> 0.

(** The entries of a directory name inodes in use. *)
Record dir_ok (L : blockmap) (sb : superblock) (di : dinode) : Prop := {
  do_size : di_size di mod SIZEOF_DIRENT = 0;
  do_entries : forall k de, dirents L di !! k = Some de -> de_inum de <> 0 -> allocated L sb (de_inum de) }.

(** The tree on the disk. *)
Record tree_ok (L : blockmap) (sb : superblock) (R : kstate) : Prop := {
  tr_root : allocated L sb ROOTINO;
  tr_iblock : forall inum, allocated L sb inum -> usable R (IBLOCK inum sb);
  tr_file : forall inum, allocated L sb inum -> file_ok L R (disk_inode L sb inum);
  tr_nlink : forall inum, allocated L sb inum -> di_nlink (disk_inode L sb inum) <> 0;
  tr_dir : forall inum, allocated L sb inum -> di_type (disk_inode L sb inum) = T_DIR ->
    dir_ok L sb (disk_inode L sb inum) }.


(** The bit of block [b] in the bitmap. *)
Definition marked (L : blockmap) (sb : superblock) (b : Z) : bool :=
  Z.testbit (default 0 (block L (BBLOCK b sb) !! Z.to_nat (b mod BPB / 8))) (b mod 8).

(** The first block behind the bitmap. *)
Definition data_start (sb : superblock) : Z := sb_bmapstart sb + (sb_size sb / BPB + 1).

(** A block of the metadata, or one that an inode in use owns. *)
Definition owned (L : blockmap) (sb : superblock) (b : Z) : Prop :=
  b < data_start sb \/
  exists inum, allocated L sb inum /\
    (b = indirect (disk_inode L sb inum) \/
     exists bn, 0 <= bn < MAXFILE /\ b = block_addr L (disk_inode L sb inum) bn).

Definition bitmap_ok (L : blockmap) (sb : superblock) : Prop :=
  forall b, 0 <= b < sb_size sb -> marked L sb b = true <-> owned L sb b.

(** ** Deciding it for an image *)

Section check.
Context (L : blockmap) (sb : superblock) (disk : gmap Z (list Z)).

Definition usable_check (a : Z) : bool := (0 <? a) && (a <? 2 ^ 31) && bool_decide (is_Some (disk !! a)).
Definition allocated_check (inum : Z) : bool :=
  (0 <? inum) && (inum <? sb_ninodes sb) && negb (di_type (disk_inode L sb inum) =? 0).
Definition file_check (di : dinode) : bool :=
  Nat.eqb (length (di_addrs di)) 13 && (0 <=? di_size di) && (di_size di <=? MAXFILE * BSIZE) &&
  ((indirect di =? 0) || usable_check (indirect di)) &&
  forallb (fun bn => (block_addr L di bn =? 0) || usable_check (block_addr L di bn)) (upto MAXFILE).
Definition dir_check (di : dinode) : bool :=
  (di_size di mod SIZEOF_DIRENT =? 0) &&
  forallb (fun de => (de_inum de =? 0) || allocated_check (de_inum de)) (dirents L di).
Definition inode_check (inum : Z) : bool :=
  let di := disk_inode L sb inum in
  negb (allocated_check inum) ||
  (usable_check (IBLOCK inum sb) && file_check di && negb (di_nlink di =? 0) &&
   (negb (di_type di =? T_DIR) || dir_check di)).
Definition tree_check : bool :=
  allocated_check ROOTINO && forallb inode_check (upto (sb_ninodes sb)).

Definition owned_blocks : list Z :=
  flat_map (fun inum => if allocated_check inum then
                          let di := disk_inode L sb inum in
                          indirect di :: map (block_addr L di) (upto MAXFILE)
                        else []) (upto (sb_ninodes sb)).
Definition bitmap_check : bool :=
  let l := owned_blocks in
  forallb (fun b => eqb (marked L sb b) ((b <? data_start sb) || existsb (Z.eqb b) l)) (upto (sb_size sb)).

Lemma usable_check_ok R a : ks_disk R = disk -> usable_check a = true -> usable R a.
Proof.
  intros HR H. apply andb_true_iff in H as [[H1%Z.ltb_lt H2%Z.ltb_lt]%andb_true_iff H3%bool_decide_eq_true].
  split; [split; assumption|now rewrite HR].
Qed.

Lemma allocated_check_ok inum : allocated_check inum = true <-> allocated L sb inum.
Proof.
  unfold allocated_check, allocated.
  rewrite !andb_true_iff, !Z.ltb_lt, negb_true_iff, Z.eqb_neq. tauto.
Qed.

Lemma forallb_upto (f : Z -> bool) n i : forallb f (upto n) = true -> 0 <= i < n -> f i = true.
Proof.
  intros H Hi. rewrite forallb_forall in H. apply H, list_elem_of_In, elem_of_upto, Hi.
Qed.

Lemma file_check_ok R di : ks_disk R = disk -> file_check di = true -> file_ok L R di.
Proof.
  intros HR H. apply andb_true_iff in H as [H H5]. apply andb_true_iff in H as [H H4].
  apply andb_true_iff in H as [H H3]. apply andb_true_iff in H as [H1 H2].
  split.
  - now apply Nat.eqb_eq.
  - split; now apply Z.leb_le.
  - apply orb_true_iff in H4 as [H4%Z.eqb_eq|H4]; [auto|right; now apply usable_check_ok].
  - intros bn Hbn. apply (forallb_upto _ _ bn) in H5; [|exact Hbn].
    apply orb_true_iff in H5 as [H5%Z.eqb_eq|H5]; [auto|right; now apply usable_check_ok].
Qed.

Lemma dir_check_ok di : dir_check di = true -> dir_ok L sb di.
Proof.
  intros [H1%Z.eqb_eq H2]%andb_true_iff. split; [exact H1|]. intros k de Hk Hne.
  rewrite forallb_forall in H2.
  specialize (H2 de (proj1 (list_elem_of_In _ _) (list_elem_of_lookup_2 _ _ _ Hk))).
  apply orb_true_iff in H2 as [H2%Z.eqb_eq|H2]; [contradiction|now apply allocated_check_ok].
Qed.

Lemma tree_check_ok R : ks_disk R = disk -> tree_check = true -> tree_ok L sb R.
Proof.
  intros HR [Hroot%allocated_check_ok H]%andb_true_iff.
  assert (forall inum, allocated L sb inum ->
    let di := disk_inode L sb inum in
    usable R (IBLOCK inum sb) /\ file_ok L R di /\ di_nlink di <> 0 /\ (di_type di = T_DIR -> dir_ok L sb di)) as Hi.
  { intros inum Ha. pose proof (forallb_upto _ _ inum H ltac:(destruct Ha; lia)) as Hc. unfold inode_check in Hc.
    rewrite (proj2 (allocated_check_ok _) Ha) in Hc. cbn [negb orb] in Hc.
    apply andb_true_iff in Hc as [Hc H4]. apply andb_true_iff in Hc as [Hc H3%negb_true_iff%Z.eqb_neq].
    apply andb_true_iff in Hc as [H1 H2]. split; [now apply usable_check_ok|].
    split; [now apply file_check_ok|]. split; [exact H3|]. intros Ht. rewrite Ht in H4.
    now apply dir_check_ok. }
  split; [exact Hroot|..]; intros inum Ha; now apply Hi.
Qed.

Lemma owned_blocks_ok b : b ∈ owned_blocks <->
  exists inum, allocated L sb inum /\
    (b = indirect (disk_inode L sb inum) \/
     exists bn, 0 <= bn < MAXFILE /\ b = block_addr L (disk_inode L sb inum) bn).
Proof.
  unfold owned_blocks. rewrite list_elem_of_In, in_flat_map. split.
  - intros (inum & _ & Hb). destruct (allocated_check inum) eqn:Ha; [|easy].
    exists inum. split; [now apply allocated_check_ok|]. destruct Hb as [<-|Hb]; [auto|].
    right. apply in_map_iff in Hb as (bn & <- & Hbn). exists bn. split; [|reflexivity].
    now apply list_elem_of_In, elem_of_upto in Hbn.
  - intros (inum & Ha & Hb). exists inum. split.
    + apply list_elem_of_In, elem_of_upto. destruct Ha. lia.
    + rewrite (proj2 (allocated_check_ok _) Ha). destruct Hb as [->|(bn & Hbn & ->)]; [now left|].
      right. apply in_map, list_elem_of_In, elem_of_upto, Hbn.
Qed.

Lemma bitmap_check_ok : bitmap_check = true -> bitmap_ok L sb.
Proof.
  intros H b Hb. apply (forallb_upto _ _ b) in H; [|exact Hb]. apply eqb_prop in H. rewrite H.
  unfold owned. rewrite orb_true_iff, Z.ltb_lt, <- owned_blocks_ok, existsb_exists.
  split; intros [Hm|Hm]; auto; right.
  - destruct Hm as (x & Hx & ->%Z.eqb_eq). now apply list_elem_of_In.
  - exists b. rewrite Z.eqb_refl. now rewrite <- list_elem_of_In.
Qed.
End check.

(** ** The image of mkfs *)

Definition blocks_of (img : gmap Z (list Z)) : blockmap := fun k => img !! k.
Definition image_blocks : blockmap := blocks_of mkfs_image.
Definition image_sb : superblock := superblock_of (block image_blocks 1).

Lemma image_tree R : ks_disk R = mkfs_image -> tree_ok image_blocks image_sb R.
Proof. intros HR. apply (tree_check_ok _ _ _ _ HR). vm_compute. reflexivity. Qed.

Definition sizes_check (img : gmap Z (list Z)) : bool :=
  forallb (fun k => match img !! k with Some d => Nat.eqb (length d) (Z.to_nat BSIZE) | None => false end)
    (upto FSSIZE).

Lemma sizes_check_ok img : sizes_check img = true ->
  forall k, 0 <= k < FSSIZE -> exists d, img !! k = Some d /\ length d = Z.to_nat BSIZE.
Proof.
  intros H k Hk. apply (forallb_upto _ _ k) in H; [|exact Hk]. cbv beta in H.
  destruct (img !! k) as [d|]; [|discriminate]. exists d. split; [reflexivity|]. now apply Nat.eqb_eq.
Qed.

Lemma image_sizes : forall k, 0 <= k < FSSIZE -> exists d, mkfs_image !! k = Some d /\ length d = Z.to_nat BSIZE.
Proof. apply sizes_check_ok. vm_compute. reflexivity. Qed.

(** C25: invariant.  The image that mkfs makes is a file system: its superblock is
    the planned one, the inodes in use and the directories are well formed, and
    the bitmap marks the blocks that are in use and no other. *)
Theorem mkfs_makes_file_system R :
  ks_disk R = mkfs_image ->
  image_sb = fst mk_layout /\ tree_ok image_blocks image_sb R /\ bitmap_ok image_blocks image_sb /\
  forall k, 0 <= k < FSSIZE -> exists d, mkfs_image !! k = Some d /\ length d = Z.to_nat BSIZE.
Proof.
  intros HR. split; [vm_compute; reflexivity|]. split; [exact (image_tree R HR)|].
  split; [apply bitmap_check_ok; vm_compute; reflexivity|]. exact image_sizes.
Qed.

Lemma disk_set d s : ks_disk (set_ks_disk d s) = d.
Proof. reflexivity. Qed.

Lemma mkfs_makes_file_system_witness :
  bitmap_ok image_blocks image_sb /\ tree_ok image_blocks image_sb (set_ks_disk mkfs_image demo_state).
Proof.
  destruct (mkfs_makes_file_system (set_ks_disk mkfs_image demo_state) (disk_set _ _)) as (_ & Ht & Hb & _).
  exact (conj Hb Ht).
Defined.
