(* ===== verification/Namei.v ===== *)
(** * Path name resolution

    [namei] and [nameiparent] (kernel/fs.c) walk from the root directory along
    the names of a path, with the inodes of the walk in the inode cache.  The
    walk is proved to end at the inode that the path denotes in the tree on the
    disk, and to leave the reference counts as they were but for the result. *)
From S2P Require Import Prelude State Printf Bio Blocks Fs Inodes Icache Paths Mkfs Tree.

(** ** Specification *)

(** The valid slots of the cache hold what is on the disk. *)
Definition coherent (L : blockmap) (sb : superblock) (c : list inode) : Prop :=
  forall i ip, c !! i = Some ip -> 0 < ip_ref ip ->
    ip_dev ip = 0 /\ allocated L sb (ip_inum ip) /\
    (ip_valid ip <> 0 -> ip_d ip = disk_inode L sb (ip_inum ip)).

(** [c] has the references of [c0] and those in [held]. *)
Definition refs (c0 : list inode) (held : list nat) (c : list inode) : Prop :=
  length c = length c0 /\
  forall i ip ip0, c !! i = Some ip -> c0 !! i = Some ip0 ->
    ip_ref ip = ip_ref ip0 + Z.of_nat (count_occ Nat.eq_dec held i).

(** Two slots are unused, as the walk needs, and the counts are far from [INT_MAX]. *)
Definition spare (c0 : list inode) : Prop :=
  (exists i j ip jp, i <> j /\ c0 !! i = Some ip /\ unused ip /\ c0 !! j = Some jp /\ unused jp) /\
  (forall i ip, c0 !! i = Some ip -> 0 <= ip_ref ip < 2 ^ 30).

(** ** The walk *)

Section walk.
Context {view : view_pred} `{!BlockCache view}.
Context (L : blockmap) (D : Z -> Prop) (R : kstate) (c0 : list inode).
Abbreviation sb := (ks_sb R).
Hypothesis Hroom : roomy [] D.
Hypothesis Htree : tree_ok L sb R.
Hypothesis Hspare : spare c0.

(** The state of the walk: the cache is [c], the references are those of [c0] and
    those in [held]. *)
Record walking (held : list nat) (c : list inode) (s : kstate) : Prop := {
  wk_view : view [] L D (set_ks_icache c R) s;
  wk_ok : icache_ok c;
  wk_coh : coherent L sb c;
  wk_refs : refs c0 held c }.

Lemma wk_icache held c s : walking held c s -> ks_icache s = c.
Proof. intros Hw. now destruct (view_icache _ _ _ _ _ (wk_view _ _ _ Hw)) as [-> _]. Qed.

Lemma wk_sb held c s : walking held c s -> ks_sb s = sb.
Proof. intros Hw. now destruct (view_icache _ _ _ _ _ (wk_view _ _ _ Hw)) as [_ ->]. Qed.

Lemma view_set_icache c c' s :
  view [] L D (set_ks_icache c R) s -> view [] L D (set_ks_icache c' R) (set_ks_icache c' s).
Proof.
  intros Hv. apply (view_outside _ _ _ _ _ (fun s => set_ks_icache c' s)) in Hv; [exact Hv|].
  intros s'. auto.
Qed.

(** A slot changes: what is to be shown of the new contents. *)
Lemma walking_insert held held' c s s' i ip ip' :
  walking held c s -> c !! i = Some ip ->
  view [] L D (set_ks_icache (<[i := ip']> c) R) s' -> icache_ok (<[i := ip']> c) ->
  (0 < ip_ref ip' -> ip_dev ip' = 0 /\ allocated L sb (ip_inum ip') /\
     (ip_valid ip' <> 0 -> ip_d ip' = disk_inode L sb (ip_inum ip'))) ->
  (forall j, Z.of_nat (count_occ Nat.eq_dec held' j) =
             Z.of_nat (count_occ Nat.eq_dec held j) + if decide (j = i) then ip_ref ip' - ip_ref ip else 0) ->
  walking held' (<[i := ip']> c) s'.
Proof.
  intros [_ Hok Hcoh [Hlen Hrf]] Hi Hv Hok' Hnew Hcnt. pose proof (lookup_lt_Some _ _ _ Hi) as Hl. split.
  - exact Hv.
  - exact Hok'.
  - intros j jp Hj Hp. destruct (decide (j = i)) as [->|Hne].
    + rewrite list_lookup_insert_eq in Hj by exact Hl. injection Hj as <-. now apply Hnew.
    + rewrite list_lookup_insert_ne in Hj by auto. eapply Hcoh; eauto.
  - split; [now rewrite length_insert|]. intros j jp jp0 Hj Hj0. rewrite Hcnt.
    destruct (decide (j = i)) as [->|Hne].
    + rewrite list_lookup_insert_eq in Hj by exact Hl. injection Hj as <-.
      pose proof (Hrf _ _ _ Hi Hj0). lia.
    + rewrite list_lookup_insert_ne in Hj by auto. pose proof (Hrf _ _ _ Hj Hj0). lia.
Qed.

(** Slot [i] is held by the walk and has inode [inum]. *)
Definition slot (c : list inode) (i : nat) (inum : Z) : Prop :=
  exists ip, c !! i = Some ip /\ holds 0 inum ip.

Lemma refs_bound held c i ip :
  refs c0 held c -> (length held <= 2)%nat -> c !! i = Some ip -> ip_ref ip < 2 ^ 31 - 1.
Proof.
  intros [Hlen Hrf] Hh Hi. destruct (lookup_lt_is_Some_2 c0 i) as [ip0 Hi0];
    [rewrite <- Hlen; now apply lookup_lt_Some in Hi|].
  rewrite (Hrf _ _ _ Hi Hi0). destruct Hspare as [_ Hb]. pose proof (Hb _ _ Hi0).
  pose proof (count_occ_bound Nat.eq_dec i held). lia.
Qed.

Lemma refs_unused held c :
  refs c0 held c -> (length held <= 1)%nat -> exists j jp, c !! j = Some jp /\ unused jp.
Proof.
  intros [Hlen Hrf] Hh. destruct Hspare as [(i & j & ip & jp & Hne & Hi & Hui & Hj & Huj) _].
  assert (forall k kp, c0 !! k = Some kp -> unused kp -> ~ In k held -> exists j jp, c !! j = Some jp /\ unused jp) as Hk.
  { intros k kp Hk Hu Hin. destruct (lookup_lt_is_Some_2 c k) as [kp' Hk'];
      [rewrite Hlen; now apply lookup_lt_Some in Hk|].
    exists k, kp'. split; [exact Hk'|]. unfold unused in *. rewrite (Hrf _ _ _ Hk' Hk), Hu.
    apply (count_occ_not_In Nat.eq_dec) in Hin. rewrite Hin. reflexivity. }
  destruct (In_dec Nat.eq_dec i held) as [Hin|Hin]; [|exact (Hk i ip Hi Hui Hin)].
  destruct (In_dec Nat.eq_dec j held) as [Hin'|Hin']; [|exact (Hk j jp Hj Huj Hin')].
  destruct held as [|a [|b held]]; cbn in *; [easy| |lia].
  destruct Hin as [<-|[]], Hin' as [<-|[]]. contradiction.
Qed.

Lemma slot_insert c i ip ip' j n :
  c !! i = Some ip -> (holds 0 n ip -> holds 0 n ip') -> slot c j n -> slot (<[i := ip']> c) j n.
Proof.
  intros Hi Hh (jp & Hj & Hn). destruct (decide (j = i)) as [->|Hne].
  - rewrite Hi in Hj. injection Hj as <-. exists ip'. split; [|auto].
    apply list_lookup_insert_eq. now apply lookup_lt_Some in Hi.
  - exists jp. now rewrite list_lookup_insert_ne by auto.
Qed.

Lemma count_occ_cons_diff held i j d :
  d = 1 -> Z.of_nat (count_occ Nat.eq_dec (i :: held) j) =
           Z.of_nat (count_occ Nat.eq_dec held j) + if decide (j = i) then d else 0.
Proof.
  intros ->. cbn. destruct (decide (j = i)) as [->|Hne].
  - destruct (Nat.eq_dec i i); [lia|congruence].
  - destruct (Nat.eq_dec i j); [congruence|lia].
Qed.

(** [iget] adds the inode to those held. *)
Lemma taken_walking held c s i ip ip' inum :
  walking held c s -> allocated L sb inum -> c !! i = Some ip -> taken 0 inum ip ip' ->
  holds 0 inum ip \/ unused ip /\ (forall j jp, c !! j = Some jp -> ~ holds 0 inum jp) ->
  walking (i :: held) (<[i := ip']> c) (set_ks_icache (<[i := ip']> c) s) /\
  slot (<[i := ip']> c) i inum /\ (forall j n, slot c j n -> slot (<[i := ip']> c) j n).
Proof.
  intros Hw Ha Hi Ht Hcase. pose proof (wk_ok _ _ _ Hw) as Hok. pose proof (ic_ref _ Hok _ _ Hi) as Hnn.
  assert (icache_ok (<[i := ip']> c)) as Hok' by (eapply taken_ok; [exact Hok|exact Hi|exact Ht|tauto]).
  destruct Ht as (Hd & Hn & Hr & Hdi & Hv). split; [|split].
  - eapply walking_insert; [exact Hw|exact Hi|eapply view_set_icache, Hw|exact Hok'| |intros j; apply count_occ_cons_diff; lia].
    intros _. rewrite Hd, Hn. split; [reflexivity|]. split; [exact Ha|]. rewrite Hv, Hdi.
    destruct (decide (holds 0 inum ip)) as [(Hp & Hd0 & Hn0)|]; [|easy].
    intros Hvn. rewrite <- Hn0. now apply (wk_coh _ _ _ Hw i ip Hi Hp).
  - exists ip'. split; [apply list_lookup_insert_eq; now apply lookup_lt_Some in Hi|].
    split; [lia|auto].
  - intros j n. apply (slot_insert _ _ _ _ _ _ Hi). intros (Hp & Hd0 & Hn0).
    destruct Hcase as [(_ & _ & E)|[Hu _]]; [|unfold unused in Hu; lia]. split; [lia|]. split; congruence.
Qed.

Lemma iget_walk held c s inum :
  walking held c s -> (length held <= 1)%nat -> allocated L sb inum ->
  wp (iget 0 inum) (fun i s' => exists c', walking (i :: held) c' s' /\ slot c' i inum /\
        (forall j n, slot c j n -> slot c' j n)) s.
Proof.
  intros Hw Hheld Ha. pose proof (wk_icache _ _ _ Hw) as Hc. pose proof (wk_ok _ _ _ Hw) as Hok.
  assert (forall i ip ip', c !! i = Some ip -> taken 0 inum ip ip' ->
            iget_ref 0 inum c = Some (i, <[i := ip']> c) ->
            holds 0 inum ip \/ unused ip /\ (forall j jp, c !! j = Some jp -> ~ holds 0 inum jp) ->
            wp (iget 0 inum) (fun i s' => exists c', walking (i :: held) c' s' /\ slot c' i inum /\
              (forall j n, slot c j n -> slot c' j n)) s) as Hgo.
  { intros i ip ip' Hi Ht Hg Hcase. apply wp_Ok. exists i. eexists. split; [|exists (<[i := ip']> c);
      exact (taken_walking _ _ _ _ _ _ _ Hw Ha Hi Ht Hcase)].
    pose proof (iget_run 0 inum s) as Hrun. rewrite Hc, Hg in Hrun. apply Hrun, Hok. }
  destruct (list_find (holds 0 inum) c) as [[i ip]|] eqn:E.
  - apply list_find_Some in E as (Hi & Hh & _).
    destruct (iget_ref_hit _ _ _ _ _ Hok Hi Hh) as (ip' & Hg & Ht);
      [eapply refs_bound; [apply Hw|lia|exact Hi]|]. eapply Hgo; eauto.
  - apply list_find_None in E. rewrite Forall_lookup in E.
    destruct (refs_unused held c (wk_refs _ _ _ Hw) Hheld) as (j & jp & Hj & Hu).
    destruct (iget_ref_miss _ _ _ _ _ E Hj Hu) as (i & ip & ip' & Hi & Hui & Hg & Ht). eapply Hgo; eauto.
Qed.

(** Slot [i] is held and its inode has been read. *)
Definition locked (c : list inode) (i : nat) (inum : Z) : Prop :=
  exists ip, c !! i = Some ip /\ holds 0 inum ip /\ ip_valid ip <> 0 /\ ip_d ip = disk_inode L sb inum.

Lemma locked_slot c i inum : locked c i inum -> slot c i inum.
Proof. intros (ip & Hi & Hh & _). exists ip. auto. Qed.

Lemma walk_getinode held c s i ip : walking held c s -> c !! i = Some ip -> getinode i s = Ok ip s.
Proof. intros Hw Hi. apply getinode_run. now rewrite (wk_icache _ _ _ Hw). Qed.

(** Reading the inode into its slot. *)
Lemma walking_fill held c s i ip inum :
  walking held c s -> c !! i = Some ip -> holds 0 inum ip ->
  let ip' := set_ip_valid 1 (upd_ip_d (fun _ => disk_inode L sb inum) ip) in
  forall s', view [] L D (set_ks_icache (<[i := ip']> c) R) s' ->
  walking held (<[i := ip']> c) s' /\ locked (<[i := ip']> c) i inum /\
  (forall j n, slot c j n -> slot (<[i := ip']> c) j n).
Proof.
  intros Hw Hi (Hp & Hd & Hn) ip' s' Hv. pose proof (wk_ok _ _ _ Hw) as Hok.
  destruct (wk_coh _ _ _ Hw i ip Hi Hp) as (_ & Ha & _). split; [|split].
  - eapply walking_insert; [exact Hw|exact Hi|exact Hv| | |].
    + eapply release_ok; [exact Hok|exact Hi|reflexivity|reflexivity|]. cbn. lia.
    + intros _. cbn. split; [exact Hd|]. split; [exact Ha|]. now rewrite Hn.
    + intros j. cbn. case_decide; lia.
  - exists ip'. split; [apply list_lookup_insert_eq; now apply lookup_lt_Some in Hi|].
    split; [split; [exact Hp|split; [exact Hd|exact Hn]]|]. split; [easy|reflexivity].
  - intros j n. apply (slot_insert _ _ _ _ _ _ Hi). now intros (? & ? & ?).
Qed.

Lemma ilock_walk held c s i inum :
  walking held c s -> slot c i inum ->
  wp (ilock (Some i)) (fun _ s' => exists c', walking held c' s' /\ locked c' i inum /\
        (forall j n, slot c j n -> slot c' j n)) s.
Proof.
  intros Hw (ip & Hi & Hh). pose proof Hh as (Hp & Hd & Hn).
  destruct (wk_coh _ _ _ Hw i ip Hi Hp) as (_ & Ha & Hval). rewrite Hn in Ha, Hval.
  unfold ilock, wp. wstep. apply (wpx_of_Ok _ _ _ _ _ _ (walk_getinode _ _ _ _ _ Hw Hi)).
  rewrite (proj2 (Z.ltb_ge _ _)) by lia. destruct (Z.eqb_spec (ip_valid ip) 0) as [Hv0|Hv0].
  2: { apply wpx_ret. exists c. split; [exact Hw|]. split; [|auto]. exists ip. auto. }
  unfold getsb. wsteps. rewrite (wk_sb _ _ _ Hw), Hd, Hn.
  pose proof (tr_iblock _ _ _ Htree _ Ha) as Hu. pose proof Hu as [Hr Hdk].
  wcall view_bread as bp s1 Hv1; [exact (wk_view _ _ _ Hw)|exact Hr|exact Hdk|cbn; lia|now left|].
  wcall view_bdata as d s2 [-> [HL Hlen]]; [exact Hv1|left|].
  assert (dinode_at (dinode_off inum) d = disk_inode L sb inum) as ->.
  { unfold disk_inode, block. now rewrite HL. }
  set (ip1 := upd_ip_d (fun _ => disk_inode L sb inum) ip).
  assert (ks_icache s1 = c) as Hc1 by now destruct (view_icache _ _ _ _ _ Hv1) as [-> _].
  wstep. apply (wpx_of_Ok _ _ _ _ _ _ (modinode_run i _ ip s1 ltac:(now rewrite Hc1))). rewrite Hc1.
  apply (view_outside _ _ _ _ _ (fun s => set_ks_icache (<[i := ip1]> c) s)) in Hv1; [|intros s'; auto].
  wcall view_brelse as [] s2 Hv2; [exact Hv1| |].
  { exact (view_settled _ _ _ _ _ _ (wk_view _ _ _ Hw) (not_elem_of_nil _)). }
  assert (ks_icache s2 = <[i := ip1]> c) as Hc2 by now destruct (view_icache _ _ _ _ _ Hv2) as [-> _].
  pose proof (lookup_lt_Some _ _ _ Hi) as Hl.
  wstep. apply (wpx_of_Ok _ _ _ _ _ _ (modinode_run i _ ip1 s2 ltac:(rewrite Hc2; now apply list_lookup_insert_eq))).
  rewrite Hc2, list_insert_insert_eq.
  destruct Ha as [_ Hty]. rewrite (proj2 (Z.eqb_neq _ _) Hty). apply wpx_ret.
  eexists. eapply walking_fill; [exact Hw|exact Hi|exact Hh|].
  apply (view_outside _ _ _ _ _ (fun s => set_ks_icache (<[i := set_ip_valid 1 ip1]> c) s)) in Hv2;
    [exact Hv2|intros s'; auto].
Qed.

(** [iput] gives the reference up; the inode has links, so it stays on the disk. *)
Lemma iput_walk held c s i inum :
  walking (i :: held) c s -> (length held <= 1)%nat -> slot c i inum ->
  wp (iput (Some i)) (fun _ s' => exists c', walking held c' s' /\
        (forall j n, j ∈ held -> slot c j n -> slot c' j n)) s.
Proof.
  intros Hw Hheld (ip & Hi & Hp & Hd & Hn). unfold iput, wp.
  wstep. cbn [of_opt]. wstep. wstep. apply (wpx_of_Ok _ _ _ _ _ _ (walk_getinode _ _ _ _ _ Hw Hi)).
  destruct (wk_coh _ _ _ Hw i ip Hi Hp) as (_ & Ha & Hval). pose proof (tr_nlink _ _ _ Htree _ Ha) as Hnl.
  assert ((ip_ref ip =? 1) && negb (ip_valid ip =? 0) && (di_nlink (ip_d ip) =? 0) = false) as ->.
  { destruct (Z.eqb_spec (ip_valid ip) 0) as [|Hv]; [now rewrite andb_false_r|].
    rewrite (Hval Hv). apply Z.eqb_neq in Hnl. rewrite Hnl. now rewrite andb_false_r. }
  pose proof (refs_bound _ _ _ _ (wk_refs _ _ _ Hw) ltac:(cbn; lia) Hi) as Hb.
  cbn [when]. wstep. wstep.
  apply (wpx_of_Ok _ _ _ _ _ _ (modinode_run i _ ip s ltac:(now rewrite (wk_icache _ _ _ Hw)))).
  rewrite (wk_icache _ _ _ Hw). set (ip' := upd_ip_ref (fun n => i32 (n - 1)) ip).
  assert (ip_ref ip' = ip_ref ip - 1) as Hr by (unfold ip'; fields; rewrite i32_id; lia).
  assert (refs c0 held (<[i := ip']> c)) as Hrefs.
  { destruct (wk_refs _ _ _ Hw) as [Hlen Hrf]. split; [now rewrite length_insert|]. intros j jp jp0 Hj Hj0.
    destruct (decide (i = j)) as [<-|Hne].
    - rewrite list_lookup_insert_eq in Hj by (now apply lookup_lt_Some in Hi). injection Hj as <-.
      rewrite Hr, (Hrf _ _ _ Hi Hj0). cbn. destruct (Nat.eq_dec i i); [lia|congruence].
    - rewrite list_lookup_insert_ne in Hj by auto. rewrite (Hrf _ _ _ Hj Hj0). cbn.
      destruct (Nat.eq_dec i j); [congruence|lia]. }
  exists (<[i := ip']> c). split.
  - eapply walking_insert; [exact Hw|exact Hi|eapply view_set_icache, Hw| | |].
    + eapply release_ok; [apply Hw|exact Hi|reflexivity|reflexivity|lia].
    + intros _. cbn. rewrite Hn in *. auto.
    + intros j. rewrite (count_occ_cons_diff held i j 1) by reflexivity. case_decide; lia.
  - intros j n Hj (jp & Hjp & Hh). destruct (decide (j = i)) as [->|Hne].
    2: { exists jp. now rewrite list_lookup_insert_ne by auto. }
    rewrite Hi in Hjp. injection Hjp as <-. exists ip'.
    split; [apply list_lookup_insert_eq; now apply lookup_lt_Some in Hi|].
    destruct Hh as (_ & ? & ?). split; [|auto].
    destruct Hrefs as [Hlen Hrf]. rewrite length_insert in Hlen.
    destruct (lookup_lt_is_Some_2 c0 i) as [jp0 Hj0]; [rewrite <- Hlen; now apply lookup_lt_Some in Hi|].
    rewrite (Hrf i ip' jp0) by (auto; apply list_lookup_insert_eq; now apply lookup_lt_Some in Hi).
    destruct Hspare as [_ Hb0]. pose proof (Hb0 _ _ Hj0). pose proof (proj1 (count_occ_In Nat.eq_dec held i) (proj1 (list_elem_of_In _ _) Hj)).
    lia.
Qed.

Lemma walking_swap i j c s : walking [i; j] c s -> walking [j; i] c s.
Proof.
  intros [Hv Hok Hcoh [Hlen Hrf]]. split; [exact Hv|exact Hok|exact Hcoh|]. split; [exact Hlen|].
  intros k kp kp0 Hk Hk0. rewrite (Hrf _ _ _ Hk Hk0). cbn.
  destruct (Nat.eq_dec i k), (Nat.eq_dec j k); lia.
Qed.

Lemma iunlockput_walk held c s i inum :
  walking (i :: held) c s -> (length held <= 1)%nat -> slot c i inum ->
  wp (iunlockput (Some i)) (fun _ s' => exists c', walking held c' s' /\
        (forall j n, j ∈ held -> slot c j n -> slot c' j n)) s.
Proof.
  intros Hw Hheld Hs. pose proof Hs as (ip & Hi & Hp & _). unfold iunlockput, iunlock.
  cbv iota. wstep. wstep. apply (wpx_of_Ok _ _ _ _ _ _ (walk_getinode _ _ _ _ _ Hw Hi)).
  rewrite (proj2 (Z.ltb_ge _ _)) by lia. apply wpx_ret. eapply iput_walk; eauto.
Qed.

Lemma file_ok_icache c di : file_ok L R di -> file_ok L (set_ks_icache c R) di.
Proof. intros [H1 H2 H3 H4]. now split. Qed.

Lemma dirlookup_walk c s dp inum name :
  walking [dp] c s -> locked c dp inum -> di_type (disk_inode L sb inum) = T_DIR ->
  length name = Z.to_nat DIRSIZ ->
  wp (dirlookup dp name) (fun r s' =>
    match dir_entry L (disk_inode L sb inum) (name_in name) with
    | Some (k, de) => exists n c', r = Some (n, Z.of_nat k * SIZEOF_DIRENT) /\ allocated L sb (de_inum de) /\
        walking [n; dp] c' s' /\ slot c' n (de_inum de) /\ slot c' dp inum
    | None => r = None /\ walking [dp] c s'
    end) s.
Proof.
  intros Hw Hlk Ht Hname. pose proof (locked_slot _ _ _ Hlk) as Hsl.
  destruct Hlk as (ip & Hi & (Hp & Hd & Hn) & Hval & Hdi).
  destruct (wk_coh _ _ _ Hw dp ip Hi Hp) as (_ & Ha & _). rewrite Hn in Ha.
  pose proof (tr_dir _ _ _ Htree _ Ha Ht) as Hdir. pose proof (tr_file _ _ _ Htree _ Ha) as Hfile.
  destruct (dirlookup_run L D (set_ks_icache c R) Hroom dp ip Hi Hd ltac:(rewrite Hdi; now apply file_ok_icache)
    ltac:(rewrite Hdi; apply Hdir) name s (wk_view _ _ _ Hw) ltac:(now rewrite Hdi) Hname) as (s1 & Hv1 & Hrun).
  rewrite Hdi in Hrun.
  assert (walking [dp] c s1) as Hw1 by (destruct Hw; now split).
  destruct (dir_entry L (disk_inode L sb inum) (name_in name)) as [[k de]|] eqn:E.
  - eapply wpx_eq; [exact Hrun|]. apply list_find_Some in E as (Hk & [Hne _] & _).
    pose proof (do_entries _ _ _ Hdir _ _ Hk Hne) as Hal.
    apply wpx_bind. eapply wpx_conseq; [apply (iget_walk _ _ _ _ Hw1); [cbn; lia|exact Hal]|].
    intros n s2 (c2 & Hw2 & Hs2 & Hkeep). apply wpx_ret. exists n, c2.
    split; [reflexivity|]. split; [exact Hal|]. split; [exact Hw2|]. split; [exact Hs2|]. now apply Hkeep.
  - apply (wpx_of_Ok _ _ _ _ _ _ Hrun). auto.
Qed.

(** The loop of [namex]: the walk from inode [inum] along the elements of the
    path. *)
Lemma namex_loop_walk parent fuel : forall c s ip inum path name,
  walking [ip] c s -> slot c ip inum -> (0 ∉ path) -> length name = Z.to_nat DIRSIZ ->
  (length (path_elems path) <= fuel)%nat ->
  wp (namex_loop fuel ip path parent name) (fun r s' =>
    match resolve L sb parent inum (path_elems path) with
    | Some inum' => exists i c' name', r = (Some i, name') /\ walking [i] c' s' /\ slot c' i inum' /\
        (parent = true -> Some (name_in name') = take (Z.to_nat DIRSIZ) <$> last (path_elems path))
    | None => exists c' name', r = (None, name') /\ walking [] c' s'
    end) s.
Proof.
  induction fuel as [|fuel IH]; intros c s ip inum path name Hw Hs H0 Hname Hfuel;
    pose proof (skipelem_spec path name H0 Hname) as Hsk; cbn [namex_loop];
    destruct (path_elems path) as [|e es] eqn:Epath; cbn [length resolve] in *.
  1, 3: rewrite Hsk; destruct parent;
    [eapply wpx_bind, wpx_conseq; [eapply iput_walk; [exact Hw|cbn; lia|exact Hs]|];
     intros [] s1 (c1 & Hw1 & _); apply wpx_ret; eauto
    |apply wpx_ret; exists ip, c, name; split; [reflexivity|]; split; [exact Hw|]; split; [exact Hs|easy]].
  - lia.
  - destruct Hsk as (rest & name' & -> & Hes & Hnil & H0r & _ & Hlen' & Hin). cbv iota beta.
    wcall ilock_walk as [] s1 (c1 & Hw1 & Hlk & _); [exact Hw|exact Hs|].
    pose proof (locked_slot _ _ _ Hlk) as Hs1. pose proof Hlk as (ipv & Hi & _ & _ & Hdi).
    wstep. apply (wpx_of_Ok _ _ _ _ _ _ (walk_getinode _ _ _ _ _ Hw1 Hi)). rewrite Hdi.
    destruct (di_type (disk_inode L sb inum) =? T_DIR) eqn:Hty; cbn [negb].
    2: { wcall iunlockput_walk as [] s2 (c2 & Hw2 & _); [exact Hw1|cbn; lia|exact Hs1|].
         apply wpx_ret. eauto. }
    apply Z.eqb_eq in Hty.
    replace (bool_decide (es = [])) with (bool_decide (rest = [])) by now apply bool_decide_ext.
    destruct (parent && bool_decide (rest = [])) eqn:Ep.
    { apply andb_true_iff in Ep as [-> Hr%bool_decide_eq_true]. apply Hnil in Hr as ->.
      unfold iunlock. wstep. wstep. apply (wpx_of_Ok _ _ _ _ _ _ (walk_getinode _ _ _ _ _ Hw1 Hi)).
      destruct Hs1 as (ip1 & Hi1 & Hp1 & Hd1). rewrite Hi in Hi1. injection Hi1 as <-.
      rewrite (proj2 (Z.ltb_ge _ _)) by lia. apply wpx_ret, wpx_ret.
      exists ip, c1, name'. split; [reflexivity|]. split; [exact Hw1|]. split; [exists ipv; split; [exact Hi|split; assumption]|].
      intros _. cbn. now rewrite Hin. }
    wcall dirlookup_walk as r s2 Hr; [exact Hw1|exact Hlk|exact Hty|now rewrite Hlen'|].
    rewrite Hin in Hr. destruct (dir_entry L (disk_inode L sb inum) (take (Z.to_nat DIRSIZ) e)) as [[k de]|].
    + destruct Hr as (n & c2 & -> & Hal & Hw2 & Hsn & Hsd). cbv iota beta.
      wcall iunlockput_walk as [] s3 (c3 & Hw3 & Hkeep); [exact (walking_swap _ _ _ _ Hw2)|cbn; lia|exact Hsd|].
      eapply wpx_conseq; [eapply IH; [exact Hw3|apply Hkeep; [left|exact Hsn]|exact H0r|now rewrite Hlen'|]|].
      * rewrite Hes. lia.
      * intros r s4. rewrite Hes. destruct (resolve L sb parent (de_inum de) es) as [inum'|]; [|auto].
        intros (i & c' & nm & Hr & Hw' & Hs' & Hlast). exists i, c', nm. split; [exact Hr|].
        split; [exact Hw'|]. split; [exact Hs'|]. intros Hpar. rewrite (Hlast Hpar).
        destruct es as [|e' es]; [|reflexivity].
        rewrite Hpar, bool_decide_true in Ep by now apply Hnil. discriminate.
    + destruct Hr as [-> Hw2]. cbv iota beta.
      wcall iunlockput_walk as [] s3 (c3 & Hw3 & _); [exact Hw2|cbn; lia|apply Hs1|].
      apply wpx_ret. eauto.
Qed.
End walk.

Lemma walking_start `{BlockCache view} L D R s :
  view [] L D R s -> icache_ok (ks_icache R) -> coherent L (ks_sb R) (ks_icache R) ->
  walking (view:=view) L D R (ks_icache R) [] (ks_icache R) s.
Proof.
  intros Hv Hok Hcoh. split; [now destruct R|exact Hok|exact Hcoh|]. split; [reflexivity|].
  intros i ip ip0 Hi Hi0. rewrite Hi in Hi0. injection Hi0 as <-. cbn. lia.
Qed.

(** [namex] from the root directory. *)
Lemma namex_walk `{BlockCache view} L D R parent path name s :
  let sb := ks_sb R in
  view [] L D R s -> roomy [] D -> tree_ok L sb R ->
  icache_ok (ks_icache R) -> coherent L sb (ks_icache R) -> spare (ks_icache R) ->
  (0 ∉ path) -> length name = Z.to_nat DIRSIZ ->
  wp (namex path parent name) (fun r s' =>
    match resolve L sb parent ROOTINO (path_elems path) with
    | Some inum => exists i c name', r = (Some i, name') /\ walking (view:=view) L D R (ks_icache R) [i] c s' /\ slot c i inum /\
        (parent = true -> Some (name_in name') = take (Z.to_nat DIRSIZ) <$> last (path_elems path))
    | None => exists c name', r = (None, name') /\ walking (view:=view) L D R (ks_icache R) [] c s'
    end) s.
Proof.
  intros sb Hv Hroom Htree Hok Hcoh Hspare H0 Hname. unfold namex.
  pose proof (walking_start _ _ _ _ Hv Hok Hcoh) as Hw.
  wcall iget_walk as i s1 (c & Hw1 & Hs & _); [exact Hspare|exact Hw|cbn; lia|exact (tr_root _ _ _ Htree)|].
  eapply namex_loop_walk; [exact Hroom|exact Htree|exact Hspare|exact Hw1|exact Hs|exact H0|exact Hname|].
  apply path_elems_length.
Qed.

(** ** Theorems *)

(** C8: [namei] finds the inode that the path denotes in the tree on the disk: it
    returns a slot of the inode cache that holds it, with one more reference, or
    null when there is no such inode.  All other references are given back, no
    slot is left incoherent, and no block changes. *)
Theorem namei_resolves `{BlockCache view} L D R s junk path :
  let sb := ks_sb R in
  view [] L D R s -> roomy [] D -> tree_ok L sb R ->
  icache_ok (ks_icache R) -> coherent L sb (ks_icache R) -> spare (ks_icache R) ->
  (0 ∉ path) -> length junk = Z.to_nat DIRSIZ ->
  wp (namei junk path) (fun r s' => exists c,
    view [] L D (set_ks_icache c R) s' /\ icache_ok c /\ coherent L sb c /\
    match resolve L sb false ROOTINO (path_elems path) with
    | Some inum => exists i, r = Some i /\ slot c i inum /\ refs (ks_icache R) [i] c
    | None => r = None /\ refs (ks_icache R) [] c
    end) s.
Proof.
  intros sb Hv Hroom Htree Hok Hcoh Hspare H0 Hjunk. unfold namei, namex.
  wcall namex_walk as r s1 Hr; [exact Hv|exact Hroom|exact Htree|exact Hok|exact Hcoh|exact Hspare|exact H0|exact Hjunk|].
  apply wpx_ret. fold sb in Hr. destruct (resolve L sb false ROOTINO (path_elems path)) as [inum|].
  - destruct Hr as (i & c & name & -> & [Hv1 Hok1 Hcoh1 Hrf1] & Hs & _). exists c. eauto 10.
  - destruct Hr as (c & name & -> & [Hv1 Hok1 Hcoh1 Hrf1]). exists c. eauto.
Qed.

(** [nameiparent] finds the directory that the last name of the path is in,
    and stores that name, cut to [DIRSIZ] characters. *)
Theorem nameiparent_resolves `{BlockCache view} L D R s path name :
  let sb := ks_sb R in
  view [] L D R s -> roomy [] D -> tree_ok L sb R ->
  icache_ok (ks_icache R) -> coherent L sb (ks_icache R) -> spare (ks_icache R) ->
  (0 ∉ path) -> length name = Z.to_nat DIRSIZ ->
  wp (nameiparent path name) (fun r s' => exists c,
    view [] L D (set_ks_icache c R) s' /\ icache_ok c /\ coherent L sb c /\
    match resolve L sb true ROOTINO (path_elems path) with
    | Some inum => exists i, fst r = Some i /\ slot c i inum /\ refs (ks_icache R) [i] c /\
        Some (name_in (snd r)) = take (Z.to_nat DIRSIZ) <$> last (path_elems path)
    | None => fst r = None /\ refs (ks_icache R) [] c
    end) s.
Proof.
  intros sb Hv Hroom Htree Hok Hcoh Hspare H0 Hname. unfold nameiparent.
  eapply wpx_conseq; [eapply namex_walk; [exact Hv|exact Hroom|exact Htree|exact Hok|exact Hcoh|exact Hspare|exact H0|exact Hname]|].
  intros r s1 Hr. fold sb in Hr. destruct (resolve L sb true ROOTINO (path_elems path)) as [inum|].
  - destruct Hr as (i & c & nm & -> & [Hv1 Hok1 Hcoh1 Hrf1] & Hs & Hlast). exists c. cbn. eauto 15.
  - destruct Hr as (c & nm & -> & [Hv1 Hok1 Hcoh1 Hrf1]). exists c. cbn. eauto.
Qed.

(** ** Examples: the file system that mkfs makes *)

Definition demo_start : kstate := set_ks_sb image_sb (disk_state mkfs_image).

Lemma image_sized : blocks_sized mkfs_image.
Proof.
  apply (bool_decide_unpack _). vm_compute. exact I.
Qed.

Lemma unused_icache_ok : icache_ok (replicate 50 zero_inode).
Proof.
  split.
  - reflexivity.
  - intros i ip [-> _]%lookup_replicate_1. easy.
  - intros i j ip jp [-> _]%lookup_replicate_1 _ Hp. easy.
Qed.

Lemma unused_coherent L sb : coherent L sb (replicate 50 zero_inode).
Proof. intros i ip [-> _]%lookup_replicate_1 Hp. easy. Qed.

Lemma unused_spare : spare (replicate 50 zero_inode).
Proof.
  split; [exists 0%nat, 1%nat, zero_inode, zero_inode; repeat split; easy|].
  intros i ip [-> _]%lookup_replicate_1. easy.
Qed.

Lemma zeroed_sb sb s : zeroed s -> zeroed (set_ks_sb sb s).
Proof. intros (H1 & H2 & H3). split; [exact H1|]. split; [exact H2|exact H3]. Qed.

Lemma formatted_view sb disk :
  blocks_sized disk ->
  exists u s, bio_view [] (blocks_of disk) (fun _ => False) (upd_ks_uart u (set_ks_sb sb (disk_state disk))) s.
Proof.
  intros Hd. destruct (booted_view _ (zeroed_sb sb _ (disk_state_zeroed _ Hd))) as (u & Hw).
  destruct (proj1 (wp_Ok _ _ _) Hw) as (_ & s & _ & Hv). exists u, s. exact Hv.
Qed.

Lemma demo_view : exists u s, bio_view [] image_blocks (fun _ => False) (upd_ks_uart u demo_start) s.
Proof. exact (formatted_view image_sb mkfs_image image_sized). Qed.

Lemma formatted_disk u sb disk : ks_disk (upd_ks_uart u (set_ks_sb sb (disk_state disk))) = disk.
Proof. reflexivity. Qed.

Lemma demo_tree u : tree_ok image_blocks (ks_sb (upd_ks_uart u demo_start)) (upd_ks_uart u demo_start).
Proof. exact (image_tree _ (formatted_disk u image_sb mkfs_image)). Qed.

Lemma roomy_clean : roomy [] (fun _ => False).
Proof. exists []. split; [unfold NBUF; cbn; lia|]. intros k [Hk|[]]. exact Hk. Qed.

Lemma namei_resolves_witness :
  exists u s, bio_view [] image_blocks (fun _ => False) (upd_ks_uart u demo_start) s /\
    wp (namei (replicate 14 0) (str "/./.."))
      (fun r _ => exists i, r = Some i) s.
Proof.
  destruct demo_view as (u & s & Hv). exists u, s. split; [exact Hv|].
  assert (resolve image_blocks image_sb false ROOTINO (path_elems (str "/./..")) = Some 1) as Hr
    by (vm_compute; reflexivity).
  eapply wpx_conseq.
  - apply (namei_resolves image_blocks (fun _ => False) (upd_ks_uart u demo_start) s (replicate 14 0) (str "/./..")
      Hv roomy_clean (demo_tree u) unused_icache_ok (unused_coherent _ _) unused_spare).
    + apply (bool_decide_unpack _). vm_compute. exact Logic.I.
    + reflexivity.
  - intros r s' (c & _ & _ & _ & Hc).
    change (ks_sb (upd_ks_uart u demo_start)) with image_sb in Hc. rewrite Hr in Hc.
    destruct Hc as (i & -> & _). exists i. reflexivity.
Defined.

Lemma nameiparent_resolves_witness :
  exists u s, bio_view [] image_blocks (fun _ => False) (upd_ks_uart u demo_start) s /\
    wp (nameiparent (str "/../file") (replicate 14 0))
      (fun r _ => name_in (snd r) = str "file") s.
Proof.
  destruct demo_view as (u & s & Hv). exists u, s. split; [exact Hv|].
  assert (resolve image_blocks image_sb true ROOTINO (path_elems (str "/../file")) = Some 1) as Hr
    by (vm_compute; reflexivity).
  assert (take (Z.to_nat DIRSIZ) <$> last (path_elems (str "/../file")) = Some (str "file")) as Hl
    by (vm_compute; reflexivity).
  eapply wpx_conseq.
  - apply (nameiparent_resolves image_blocks (fun _ => False) (upd_ks_uart u demo_start) s (str "/../file") (replicate 14 0)
      Hv roomy_clean (demo_tree u) unused_icache_ok (unused_coherent _ _) unused_spare).
    + apply (bool_decide_unpack _). vm_compute. exact Logic.I.
    + reflexivity.
  - intros r s' (c & _ & _ & _ & Hc).
    change (ks_sb (upd_ks_uart u demo_start)) with image_sb in Hc. rewrite Hr in Hc.
    destruct Hc as (i & _ & _ & _ & Hn). rewrite Hl in Hn. now injection Hn.
Defined.
