(* ===== verification/Alloc.v ===== *)
(** * Allocating blocks

    [balloc] takes the first block whose bit in the bitmap is clear, sets the bit
    and clears the block; [bfree] clears the bit (kernel/fs.c).  Both run inside
    an operation of the log. *)
From S2P Require Import Prelude State Printf Bio Blocks Log Txn Update Fs Inodes Paths Mkfs Tree Namei.

Lemma bind_eq {St A B} (m m' : M St A) (f : A -> M St B) s s' : m s = m' s' -> bind m f s = bind m' f s'.
Proof. intros H. unfold bind. now rewrite H. Qed.

(** ** Bits of a block *)

Definition bit (d : list Z) (bi : Z) : bool := Z.testbit (default 0 (d !! Z.to_nat (bi / 8))) (bi mod 8).

Lemma land_pow2 x k : 0 <= k -> (Z.land x (Z.shiftl 1 k) =? 0) = negb (Z.testbit x k).
Proof.
  intros Hk. rewrite Z.shiftl_1_l. destruct (Z.testbit x k) eqn:E; cbn [negb].
  - apply Z.eqb_neq. intros E0. assert (Z.testbit (Z.land x (2 ^ k)) k = true) as Hb
      by now rewrite Z.land_spec, E, Z.pow2_bits_true.
    rewrite E0, Z.bits_0 in Hb. discriminate.
  - apply Z.eqb_eq, Z.bits_inj'. intros j Hj. rewrite Z.land_spec, Z.bits_0, Z.pow2_bits_eqb by lia.
    destruct (Z.eqb_spec k j) as [->|]; [now rewrite E|apply andb_false_r].
Qed.

(** The byte with bit [bi] replaced by [x]. *)
Lemma bit_insert d bi x bj :
  0 <= bi -> 0 <= bj -> (Z.to_nat (bi / 8) < length d)%nat ->
  (forall j, 0 <= j -> j <> bi mod 8 -> Z.testbit x j = Z.testbit (default 0 (d !! Z.to_nat (bi / 8))) j) ->
  bit (<[Z.to_nat (bi / 8) := x]> d) bj = if bj =? bi then Z.testbit x (bi mod 8) else bit d bj.
Proof.
  intros Hi Hj Hlen Hx. unfold bit. destruct (decide (Z.to_nat (bj / 8) = Z.to_nat (bi / 8))) as [E|E].
  - rewrite E, list_lookup_insert_eq by exact Hlen. cbn [default].
    destruct (Z.eqb_spec bj bi) as [->|Hne]; [reflexivity|]. apply Hx; [mlia|mlia].
  - rewrite list_lookup_insert_ne by auto. destruct (Z.eqb_spec bj bi) as [->|Hne]; [congruence|reflexivity].
Qed.

Lemma marked_bit L sb b : 0 <= b < BPB -> marked L sb b = bit (block L (BBLOCK b sb)) b.
Proof. intros Hb. unfold marked, bit. now rewrite Z.mod_small. Qed.

(** A search that succeeds at [y]. *)
Lemma for_find_first {A R} (body : A -> K (option R)) pre y post s :
  (forall x, x ∈ pre -> body x s = Ok None s) ->
  for_find (pre ++ y :: post) body s =
  (o <- body y;; match o with Some r => ret (Some r) | None => for_find post body end) s.
Proof.
  induction pre as [|x pre IH]; intros H; [reflexivity|]. cbn [app for_find].
  rewrite (bind_Ok _ _ _ _ _ (H x ltac:(left))). apply IH. intros z Hz. apply H. now right.
Qed.

Lemma for_find_none {A R} (body : A -> K (option R)) l s :
  (forall x, x ∈ l -> body x s = Ok None s) -> for_find l body s = Ok None s.
Proof.
  induction l as [|x l IH]; intros H; [reflexivity|]. cbn [for_find].
  rewrite (bind_Ok _ _ _ _ _ (H x ltac:(left))). apply IH. intros z Hz. apply H. now right.
Qed.

(** ** The disk *)

(** A disk with one block of bitmap, as mkfs makes it, whose data blocks can be
    logged. *)
Record disk_geo (R : kstate) : Prop := {
  dg_size : 0 < sb_size (ks_sb R) <= BPB;
  dg_bmap : loggable R (sb_bmapstart (ks_sb R));
  dg_data : forall b, data_start (ks_sb R) <= b < sb_size (ks_sb R) -> loggable R b }.

(** The blocks before the data blocks are marked. *)
Definition meta_marked (L : blockmap) (sb : superblock) : Prop :=
  forall b, 0 <= b < data_start sb -> b < sb_size sb -> marked L sb b = true.

Lemma disk_geo_same R R' :
  (forall k, loggable R k -> loggable R' k) -> ks_sb R' = ks_sb R -> disk_geo R -> disk_geo R'.
Proof. intros Hl Hs [H1 H2 H3]. split; rewrite Hs; auto. Qed.

Lemma bblock R b : disk_geo R -> 0 <= b < BPB -> BBLOCK b (ks_sb R) = sb_bmapstart (ks_sb R).
Proof.
  intros [_ (H & _) _] Hb. unfold BBLOCK. rewrite Z.div_small by exact Hb. apply u32_id. lia.
Qed.

(** Block [d] with bit [bi] replaced. *)
Definition with_bit (bi : Z) (v : bool) (d : list Z) : list Z :=
  let x := default 0 (d !! Z.to_nat (bi / 8)) in
  let m := Z.shiftl 1 (bi mod 8) in
  <[Z.to_nat (bi / 8) := if v then Z.lor x m else Z.ldiff x m]> d.

Lemma bit_with_bit bi v d bj :
  0 <= bi < BPB -> 0 <= bj -> length d = Z.to_nat BSIZE ->
  bit (with_bit bi v d) bj = if bj =? bi then v else bit d bj.
Proof.
  intros Hi Hj Hlen. unfold with_bit, BPB, BSIZE in *. assert (0 <= bi mod 8) as Hm by mlia.
  rewrite bit_insert; [|lia|exact Hj|rewrite Hlen; mlia|].
  - destruct (Z.eqb_spec bj bi); [|reflexivity]. rewrite Z.shiftl_1_l. destruct v.
    + rewrite Z.lor_spec, Z.pow2_bits_true by exact Hm. apply orb_true_r.
    + rewrite Z.ldiff_spec, Z.pow2_bits_true by exact Hm. apply andb_false_r.
  - intros j Hj0 Hne. rewrite Z.shiftl_1_l. destruct v.
    + rewrite Z.lor_spec, Z.pow2_bits_false by congruence. apply orb_false_r.
    + rewrite Z.ldiff_spec, Z.pow2_bits_false by congruence. apply andb_true_r.
Qed.

Lemma length_with_bit bi v d : length (with_bit bi v d) = length d.
Proof. apply length_insert. Qed.

(** ** A bit of the bitmap *)

Section alloc.
Context {view : view_pred} `{HB : !BlockCache view}.
Context (L : blockmap) (D : Z -> Prop) (R : kstate) (hs : holders).
Abbreviation sb := (ks_sb R).
Abbreviation bmap_block := (sb_bmapstart sb).
Hypothesis Hgeo : disk_geo R.
Hypothesis Hnheld : bmap_block ∉ hs.*1.

Lemma marked_block b : 0 <= b < BPB -> marked L sb b = bit (block L bmap_block) b.
Proof. intros Hb. now rewrite marked_bit, bblock. Qed.

Lemma op_sb n hs' L' D' s : in_op (view:=view) n hs' L' D' R s -> ks_sb s = sb.
Proof. intros Ho. now destruct (view_icache _ _ _ _ _ (op_view _ _ _ _ _ _ Ho)) as [_ ->]. Qed.

Abbreviation held bp := ((bmap_block, bp) :: hs).

Lemma bitmap_length n hs' s : in_op (view:=view) n hs' L D R s -> length (block L bmap_block) = Z.to_nat BSIZE.
Proof. intros Ho. eapply usable_length; [apply Ho|]. destruct (dg_bmap _ Hgeo) as (H1 & H2 & _). now split. Qed.

Lemma bitmap_byte n hs' s bi :
  in_op (view:=view) n hs' L D R s -> 0 <= bi < BPB ->
  lget (bi / 8) (block L bmap_block) = Some (default 0 (block L bmap_block !! Z.to_nat (bi / 8))).
Proof.
  intros Ho Hb. pose proof (bitmap_length _ _ _ Ho) as Hl.
  destruct (lget_lt (bi / 8) (block L bmap_block)) as [x Hx].
  { rewrite Hl. unfold BPB, BSIZE in *. mlia. }
  rewrite Hx. apply lget_Some in Hx as [_ ->]. reflexivity.
Qed.

Lemma bitmap_index n hs' s bi (v : bool) :
  in_op (view:=view) n hs' L D R s -> 0 <= bi < BPB ->
  let d := block L bmap_block in
  let x := default 0 (d !! Z.to_nat (bi / 8)) in
  let m := Z.shiftl 1 (bi mod 8) in
  lset (bi / 8) (if v then Z.lor x m else Z.ldiff x m) d = Some (with_bit bi v d).
Proof.
  intros Ho Hb d x m. apply lset_Some. unfold d. rewrite (bitmap_length _ _ _ Ho).
  unfold BPB, BSIZE in *. mlia.
Qed.

Lemma bitmap_data n bp s :
  in_op (view:=view) n (held bp) L D R s -> wp (bdata bp) (fun d s' => s' = s /\ d = block L bmap_block) s.
Proof.
  intros Ho. eapply wpx_conseq; [apply (op_bdata _ _ _ _ _ _ bmap_block bp Ho); left|].
  intros d s' (-> & HL & _). split; [reflexivity|]. unfold block. now rewrite HL.
Qed.

(** Bit [bi] of the bitmap is changed and the block is logged and released. *)
Lemma bitmap_put n c bp s bi v :
  in_op (view:=view) n (held bp) L D R s -> 0 <= bi < BPB -> paid D bmap_block c -> 1 <= n ->
  wp (_ <- (_ <- set_bdata bp (with_bit bi v (block L bmap_block));; log_write bp);; brelse bp)
    (fun _ s' => exists R', relog R R' /\
       in_op (view:=view) (n - c) hs (write bmap_block (with_bit bi v (block L bmap_block)) L) (mark bmap_block D) R' s') s.
Proof.
  intros Ho Hb Hc Hn.
  assert (length (with_bit bi v (block L bmap_block)) = Z.to_nat BSIZE) as Hlb.
  { rewrite length_with_bit. exact (bitmap_length _ _ _ Ho). }
  wcall (op_put n c) as [] s1 (R1 & HR1 & Ho1); [exact Ho|left|exact (dg_bmap _ Hgeo)|exact Hlb|exact Hc|exact Hn|].
  eapply wpx_conseq; [eapply op_brelse; [exact Ho1|left; now left]|].
  intros [] s2 Ho2. eauto.
Qed.

(** *** balloc *)

(** A bit that is set. *)
Lemma balloc_bit_set n bp bi s :
  in_op (view:=view) n (held bp) L D R s -> 0 <= bi < BPB -> bit (block L bmap_block) bi = true ->
  balloc_bit 0 0 bp bi s = Ok None s.
Proof.
  intros Ho Hb Hbit. unfold balloc_bit.
  destruct (proj1 (wp_Ok _ _ _) (bitmap_data _ _ _ Ho)) as (d & s1 & Hrun & -> & ->).
  rewrite (bind_Ok _ _ _ _ _ Hrun), (bitmap_byte _ _ _ bi Ho Hb). cbn [of_opt].
  unfold bind, ret. cbn [obind]. rewrite land_pow2 by mlia. unfold bit in Hbit. now rewrite Hbit.
Qed.

Definition zero_block : list Z := replicate (Z.to_nat BSIZE) 0.

(** What [balloc] leaves when it takes block [b]. *)
Definition allocated_block (b : Z) : blockmap :=
  write b zero_block (write bmap_block (with_bit b true (block L bmap_block)) L).

(** The first bit that is clear. *)
Lemma balloc_bit_clear n c bp b s :
  in_op (view:=view) n (held bp) L D R s -> data_start sb <= b < sb_size sb -> 0 <= b ->
  bit (block L bmap_block) b = false ->
  paid D bmap_block c -> c + 1 <= n <= 1000 -> Z.of_nat (length hs) <= n - c ->
  wp (balloc_bit 0 0 bp b)
    (fun r s' => r = Some b /\ exists R', relog R R' /\
       in_op (view:=view) (n - c - 1) hs (allocated_block b) (mark b (mark bmap_block D)) R' s') s.
Proof.
  intros Ho Hb Hb0 Hbit Hc Hn Hhs. pose proof (dg_size _ Hgeo) as Hsz. assert (0 <= b < BPB) as HbB by lia.
  unfold balloc_bit.
  wcall bitmap_data as d s1 [-> ->]; [exact Ho|].
  rewrite (bitmap_byte _ _ _ b Ho HbB). cbn [of_opt]. wstep. wstep.
  rewrite land_pow2 by mlia. unfold bit in Hbit. rewrite Hbit. cbn [negb].
  rewrite (bitmap_index _ _ _ b true Ho HbB). cbn [of_opt]. wstep. wstep.
  apply wpx_assoc, wpx_assoc.
  wcall bitmap_put as [] s1 (R1 & HR1 & Ho1); [exact Ho|exact HbB|exact Hc|destruct Hc as [->|[-> _]]; lia|].
  pose proof (loggable_relog _ _ _ HR1 (dg_data _ Hgeo b Hb)) as Hlog. rewrite Z.add_0_l.
  pose proof Hlog as (Hr & Hd & _). rewrite u32_id by lia.
  wcall op_bread as bp2 s3 Ho3; [exact Ho1|exact Hr|exact Hd|exact Hhs|destruct Hc as [->|[-> _]]; lia|].
  apply wpx_assoc.
  wcall (op_put _ 1) as [] s4 (R2 & HR2 & Ho4);
    [exact Ho3|left|exact Hlog|now rewrite length_replicate|now left|lia|].
  wcall op_brelse as [] s5 Ho5; [exact Ho4|left; now left|].
  apply wpx_ret. split; [reflexivity|]. exists R2. split; [eapply relog_trans; eauto|exact Ho5].
Qed.

(** Releasing the bitmap block unchanged. *)
Lemma bitmap_settled n s : in_op (view:=view) n hs L D R s -> D bmap_block \/ L bmap_block = ks_disk R !! bmap_block.
Proof. intros Ho. eapply view_settled; [apply Ho|exact Hnheld]. Qed.

(** The blocks in the order in which [balloc] looks at them. *)
Definition first_free : option (nat * Z) := list_find (fun b => marked L sb b = false) (upto (sb_size sb)).

(** The search in the one group of blocks. *)
Lemma balloc_group n s :
  in_op (view:=view) n hs L D R s -> Z.of_nat (length hs) <= n <= 1000 ->
  exists bp s1, in_op (view:=view) n (held bp) L D R s1 /\
    balloc 0 s =
      (r <- (r <- (r <- for_find (upto (sb_size sb)) (balloc_bit 0 0 bp);;
                   match r with Some r => ret (Some r) | None => _ <- brelse bp;; ret None end);;
             match r with Some r => ret (Some r) | None => ret None end);;
       match r with Some r => ret r | None => panic (str "balloc: out of blocks") end) s1.
Proof.
  intros Ho Hn. pose proof (dg_size _ Hgeo) as Hsz. destruct (dg_bmap _ Hgeo) as (Hr & Hd & _).
  assert (i32 (sb_size sb) = sb_size sb) as Ei by (apply i32_id; unfold BPB, BSIZE in *; lia).
  assert (map (fun k => k * BPB) (upto ((sb_size sb + BPB - 1) / BPB)) = [0]) as Egroups.
  { replace ((sb_size sb + BPB - 1) / BPB) with 1 by (unfold BPB, BSIZE in *; mlia). reflexivity. }
  destruct (proj1 (wp_Ok _ _ _) (op_bread _ _ _ _ _ _ bmap_block Ho Hr Hd ltac:(lia) ltac:(lia))) as (bp & s1 & Hb & Ho1).
  exists bp, s1. split; [exact Ho1|].
  assert (balloc_block 0 0 s =
    (r <- for_find (upto (sb_size sb)) (balloc_bit 0 0 bp);;
     match r with Some r => ret (Some r) | None => _ <- brelse bp;; ret None end) s1) as Hblock.
  { unfold balloc_block, getsb, gets, bind at 1. cbn [obind].
    rewrite (op_sb _ _ _ _ _ Ho), (bblock R 0) by (exact Hgeo || unfold BPB, BSIZE; lia).
    rewrite (bind_Ok _ _ _ _ _ Hb), Ei. now rewrite Z.sub_0_r, Z.min_r by lia. }
  unfold balloc, getsb, gets, bind at 1. cbn [obind]. rewrite (op_sb _ _ _ _ _ Ho), Ei, Egroups.
  cbn [for_find]. apply bind_eq, bind_eq. exact Hblock.
Qed.

(** The bits before the first free block are skipped. *)
Lemma balloc_skip n bp s (l : list Z) :
  in_op (view:=view) n (held bp) L D R s ->
  (forall x, x ∈ l -> x ∈ upto (sb_size sb) /\ marked L sb x <> false) ->
  forall x, x ∈ l -> balloc_bit 0 0 bp x s = Ok None s.
Proof.
  intros Ho Hl x Hx. pose proof (dg_size _ Hgeo) as Hsz. destruct (Hl x Hx) as [Hu%elem_of_upto Hm].
  eapply balloc_bit_set; [exact Ho|lia|]. rewrite <- marked_block by lia. now destruct (marked L sb x).
Qed.

Lemma balloc_free n c s i b :
  in_op (view:=view) n hs L D R s -> meta_marked L sb -> first_free = Some (i, b) ->
  paid D bmap_block c -> c + 1 <= n <= 1000 -> Z.of_nat (length hs) <= n - c ->
  wp (balloc 0) (fun r s' => r = b /\ exists R', relog R R' /\
       in_op (view:=view) (n - c - 1) hs (allocated_block b) (mark b (mark bmap_block D)) R' s') s.
Proof.
  intros Ho Hmeta Hf Hc Hn Hhs. pose proof (dg_size _ Hgeo) as Hsz.
  apply list_find_Some in Hf as (Hi & Hfree & Hbefore).
  assert (b ∈ upto (sb_size sb)) as Hbin by (eapply list_elem_of_lookup_2, Hi).
  pose proof (proj1 (elem_of_upto _ _) Hbin) as Hb.
  destruct (balloc_group n s Ho) as (bp & s1 & Ho1 & Hrun); [destruct Hc as [->|[-> _]]; lia|].
  eapply wpx_eq; [exact Hrun|]. rewrite <- (take_drop_middle _ _ _ Hi). wstep. wstep. wstep.
  eapply wpx_eq; [apply for_find_first, (balloc_skip _ _ _ _ Ho1)|].
  { intros x (j & Hj)%list_elem_of_lookup_1. apply lookup_take_Some in Hj as [Hj Hlt].
    split; [eapply list_elem_of_lookup_2, Hj|]. apply (Hbefore j x Hj Hlt). }
  wcall (balloc_bit_clear n c) as r s2 (-> & R' & HR & Ho2);
    [exact Ho1| |lia|rewrite <- marked_block by lia; exact Hfree|exact Hc|exact Hn|exact Hhs|].
  { destruct (decide (data_start sb <= b)); [lia|]. rewrite Hmeta in Hfree by lia. discriminate. }
  wsteps. eauto.
Qed.

Lemma balloc_none n s :
  in_op (view:=view) n hs L D R s -> first_free = None -> Z.of_nat (length hs) <= n <= 1000 ->
  exists s', balloc 0 s = Panic (str "balloc: out of blocks") s'.
Proof.
  intros Ho Hf Hn. destruct (balloc_group n s Ho Hn) as (bp & s1 & Ho1 & Hrun).
  apply list_find_None in Hf. rewrite Forall_forall in Hf.
  assert (for_find (upto (sb_size sb)) (balloc_bit 0 0 bp) s1 = Ok None s1) as Hnone.
  { apply for_find_none, (balloc_skip _ _ _ _ Ho1). intros x Hx. split; [exact Hx|]. exact (Hf x Hx). }
  destruct (proj1 (wp_Ok _ _ _) (op_brelse _ _ _ _ _ _ _ _ Ho1 (bitmap_settled _ _ Ho))) as ([] & s2 & Hrel & _).
  eexists. rewrite Hrun, (bind_Ok _ _ _ None s2); [apply panic_run|].
  rewrite (bind_Ok _ _ _ None s2); [reflexivity|]. rewrite (bind_Ok _ _ _ _ _ Hnone). cbv beta iota.
  rewrite (bind_Ok _ _ _ _ _ Hrel). reflexivity.
Qed.

(** *** bfree *)

(** What [bfree] leaves. *)
Definition freed_block (b : Z) : blockmap := write bmap_block (with_bit b false (block L bmap_block)) L.

Lemma bfree_group n b s :
  in_op (view:=view) n hs L D R s -> 0 <= b < BPB -> Z.of_nat (length hs) <= n <= 1000 ->
  exists bp s1, in_op (view:=view) n (held bp) L D R s1 /\
    bfree 0 b s =
      (_ <- when (negb (marked L sb b)) (panic (str "freeing free block"));;
       _ <- set_bdata bp (with_bit b false (block L bmap_block));;
       _ <- log_write bp;; brelse bp) s1.
Proof.
  intros Ho Hb Hn. destruct (dg_bmap _ Hgeo) as (Hr & Hd & _).
  destruct (proj1 (wp_Ok _ _ _) (op_bread _ _ _ _ _ _ bmap_block Ho Hr Hd ltac:(lia) ltac:(lia))) as (bp & s1 & Hrd & Ho1).
  exists bp, s1. split; [exact Ho1|].
  destruct (proj1 (wp_Ok _ _ _) (bitmap_data _ _ _ Ho1)) as (d & s2 & Hdat & -> & ->).
  unfold bfree, getsb, gets, bind at 1. cbn [obind].
  rewrite (op_sb _ _ _ _ _ Ho), (bblock R b Hgeo Hb). change (u32 0) with 0.
  rewrite (bind_Ok _ _ _ _ _ Hrd). cbv zeta. rewrite Z.mod_small by exact Hb.
  rewrite (bind_Ok _ _ _ _ _ Hdat), (bitmap_byte _ _ _ b Ho Hb). cbn [of_opt].
  unfold bind at 1. cbn [ret obind]. rewrite land_pow2 by mlia.
  change (Z.testbit _ _) with (bit (block L bmap_block) b). rewrite <- marked_block by exact Hb.
  rewrite (bitmap_index _ _ _ b false Ho Hb). reflexivity.
Qed.

Lemma bfree_marked n c b s :
  in_op (view:=view) n hs L D R s -> 0 <= b < BPB -> marked L sb b = true ->
  paid D bmap_block c -> 1 <= n <= 1000 -> Z.of_nat (length hs) <= n ->
  wp (bfree 0 b) (fun _ s' => exists R', relog R R' /\
       in_op (view:=view) (n - c) hs (freed_block b) (mark bmap_block D) R' s') s.
Proof.
  intros Ho Hb Hm Hc Hn Hhs. destruct (bfree_group n b s Ho Hb) as (bp & s1 & Ho1 & Hrun); [lia|].
  eapply wpx_eq; [exact Hrun|]. rewrite Hm. cbn [negb when]. wstep. wstep. apply wpx_assoc.
  apply (bitmap_put n c); [exact Ho1|exact Hb|exact Hc|lia].
Qed.

Lemma bfree_unmarked n b s :
  in_op (view:=view) n hs L D R s -> 0 <= b < BPB -> marked L sb b = false ->
  Z.of_nat (length hs) <= n <= 1000 ->
  exists s', bfree 0 b s = Panic (str "freeing free block") s'.
Proof.
  intros Ho Hb Hm Hn. destruct (bfree_group n b s Ho Hb Hn) as (bp & s1 & Ho1 & Hrun).
  eexists. rewrite Hrun, Hm. cbn [negb when]. unfold bind at 1. rewrite panic_run. reflexivity.
Qed.

(** *** What the two leave, by the blocks *)

(** The marks after a change of one bit. *)
Lemma marked_with_bit n s b v L' :
  in_op (view:=view) n hs L D R s -> 0 <= b < BPB ->
  L' bmap_block = Some (with_bit b v (block L bmap_block)) ->
  forall b', 0 <= b' < BPB -> marked L' sb b' = if b' =? b then v else marked L sb b'.
Proof.
  intros Ho Hb HL b' Hb'. rewrite marked_bit, bblock, marked_block by assumption. unfold block at 1.
  rewrite HL. cbn [default]. apply bit_with_bit; [exact Hb|lia|]. exact (bitmap_length _ _ _ Ho).
Qed.
End alloc.

Arguments first_free : clear implicits.

(** [b] was free in [L] and is an empty block in [L']. *)
Record taken_block (sb : superblock) (b : Z) (L L' : blockmap) : Prop := {
  tb_free : marked L sb b = false;
  tb_data : data_start sb <= b < sb_size sb;
  tb_marks : forall c, 0 <= c < BPB -> marked L' sb c = (c =? b) || marked L sb c;
  tb_zero : L' b = Some zero_block;
  tb_same : forall k, k <> b -> k <> sb_bmapstart sb -> L' k = L k }.

Lemma data_start_bmap R : disk_geo R -> 0 < sb_bmapstart (ks_sb R) < data_start (ks_sb R).
Proof. intros [H1 (H2 & _) _]. unfold data_start, BPB, BSIZE in *. mlia. Qed.

Section taken.
Context {view : view_pred} `{HB : !BlockCache view}.

(** [balloc] with room for one more block. *)
Lemma balloc_takes L D R hs n c s i b :
  disk_geo R -> meta_marked L (ks_sb R) -> sb_bmapstart (ks_sb R) ∉ hs.*1 ->
  in_op (view:=view) n hs L D R s -> first_free L R = Some (i, b) ->
  paid D (sb_bmapstart (ks_sb R)) c -> c + 1 <= n <= 1000 -> Z.of_nat (length hs) <= n - c ->
  wp (balloc 0) (fun r s' => r = b /\ exists L' D' R', relog R R' /\ in_op (view:=view) (n - c - 1) hs L' D' R' s' /\
       taken_block (ks_sb R) b L L' /\ forall k, D' k <-> k = b \/ k = sb_bmapstart (ks_sb R) \/ D k) s.
Proof.
  intros Hgeo Hmeta Hnh Ho Hf Hc Hn Hhs. pose proof (dg_size _ Hgeo) as Hsz.
  eapply wpx_conseq; [eapply (balloc_free L D R hs Hgeo n c); eassumption|].
  intros r s' (-> & R' & HR & Ho'). split; [reflexivity|].
  pose proof (data_start_bmap _ Hgeo) as Hds.
  apply list_find_Some in Hf as (Hi & Hfree & _).
  assert (0 <= b < sb_size (ks_sb R)) as Hb by (apply elem_of_upto, (list_elem_of_lookup_2 _ _ _ Hi)).
  assert (data_start (ks_sb R) <= b) as Hbd.
  { destruct (decide (data_start (ks_sb R) <= b)); [assumption|]. rewrite Hmeta in Hfree by lia. discriminate. }
  eexists _, _, R'. split; [exact HR|]. split; [exact Ho'|]. split; [|unfold mark; reflexivity].
  split; [exact Hfree|lia|..].
  - intros b' Hb'. rewrite (marked_with_bit L D R hs Hgeo n s b true _ Ho) by
      (assumption || lia || (unfold allocated_block, write; rewrite decide_False, decide_True by lia; reflexivity)).
    now destruct (b' =? b).
  - unfold allocated_block, write. now rewrite decide_True.
  - intros k Hk Hkb. unfold allocated_block, write. now rewrite !decide_False.
Qed.
End taken.

(** ** Theorems *)

(** C15: functional.  [balloc] returns the first block whose bit is clear: it sets
    the bit, clears the block and changes nothing else; it panics when every bit
    is set. *)
Theorem balloc_first_fit {view : view_pred} `{!BlockCache view} n L D R s :
  disk_geo R -> meta_marked L (ks_sb R) -> 2 <= n <= 1000 -> in_op (view:=view) n [] L D R s ->
  match first_free L R with
  | Some (_, b) =>
      wp (balloc 0) (fun r s' => r = b /\ exists L' D' R',
        relog R R' /\ in_op (view:=view) (n - 2) [] L' D' R' s' /\ taken_block (ks_sb R) b L L') s
  | None => exists s', balloc 0 s = Panic (str "balloc: out of blocks") s'
  end.
Proof.
  intros Hgeo Hmeta Hn Ho. assert (Z.of_nat (length ([] : holders)) = 0) as H0 by reflexivity.
  destruct (first_free L R) as [[i b]|] eqn:Hf.
  - eapply wpx_conseq; [eapply (balloc_takes L D R [] n 1 s i b);
      [exact Hgeo|exact Hmeta|apply not_elem_of_nil|exact Ho|exact Hf|now left|lia|rewrite H0; lia]|].
    intros r s' (-> & L' & D' & R' & HR & Ho' & Ht & _). split; [reflexivity|].
    exists L', D', R'. replace (n - 2) with (n - 1 - 1) by lia. auto.
  - eapply (balloc_none L D R []); [exact Hgeo|apply not_elem_of_nil|exact Ho|exact Hf|rewrite H0; lia].
Qed.

(** An operation that has just begun, on the disk that mkfs makes. *)
Definition demo_log : log := mkLog 2 30 1 0 0 0 (replicate 30 0) 0.
Definition demo_op (u : list Z -> list Z) : kstate := set_ks_log demo_log (upd_ks_uart u demo_start).

Lemma started_op {view : view_pred} `{!BlockCache view} l L R s :
  view [] L (fun _ => False) R s -> log_geo l (ks_disk R) -> lh_n l = 0 -> log_lock l = 0 ->
  1 <= log_outstanding l ->
  in_op (view:=view) (log_size l - 1) [] L (fun _ => False) (set_ks_log l R) (set_ks_log l s).
Proof.
  intros Hv Hgeo Hn Hlock Hout. pose proof (lg_size _ _ Hgeo) as Hsz.
  assert (logged l = []) as Hl by (unfold logged; now rewrite Hn).
  split.
  - apply (view_outside _ _ _ _ _ (set_ks_log l)); [intros s'; auto|exact Hv].
  - exact Hgeo.
  - change (txn_ok l (fun _ => False)). split; rewrite ?Hl, ?Hn.
    + lia.
    + apply NoDup_nil_2.
    + intros k. split; [intros []|intros Hk; now apply not_elem_of_nil in Hk].
    + intros k Hk. now apply not_elem_of_nil in Hk.
  - exact Hlock.
  - exact Hout.
  - change (0 <= log_size l - 1 /\ lh_n l + (log_size l - 1) <= log_size l - 1). lia.
Qed.

(** A disk with [FSSIZE] blocks. *)
Lemma sized_geo (m : disk) :
  (forall k, 0 <= k < FSSIZE -> exists d, m !! k = Some d /\ length d = Z.to_nat BSIZE) -> log_geo demo_log m.
Proof.
  intros Hm. split; try easy. intros k Hk. unfold in_log in Hk. cbn in Hk.
  destruct (Hm k) as (d & -> & _); [unfold FSSIZE; lia|eauto].
Qed.

Lemma sized_loggable (R : kstate) :
  (forall k, 0 <= k < FSSIZE -> exists d, ks_disk R !! k = Some d /\ length d = Z.to_nat BSIZE) ->
  ks_log R = demo_log -> forall k, 32 <= k < FSSIZE -> loggable R k.
Proof.
  intros Hm Hl k Hk. unfold loggable. rewrite Hl. cbn [log_start log_size demo_log].
  split; [unfold FSSIZE in *; lia|]. split; [|unfold in_log; lia].
  destruct (Hm k) as (d & -> & _); [lia|eauto].
Qed.

Lemma sized_disk_geo (R : kstate) :
  (forall k, 0 <= k < FSSIZE -> exists d, ks_disk R !! k = Some d /\ length d = Z.to_nat BSIZE) ->
  ks_log R = demo_log -> ks_sb R = fst mk_layout -> disk_geo R.
Proof.
  intros Hm Hl Hs. pose proof (sized_loggable R Hm Hl) as Hk. split; rewrite Hs.
  - vm_compute. split; [reflexivity|discriminate].
  - apply Hk. vm_compute. split; [discriminate|reflexivity].
  - change (data_start (fst mk_layout)) with 46. change (sb_size (fst mk_layout)) with FSSIZE.
    intros b Hb. apply Hk. lia.
Qed.

Lemma image_layout : image_sb = fst mk_layout.
Proof. vm_compute. reflexivity. Qed.

Lemma op_disk u sb l disk : ks_disk (set_ks_log l (upd_ks_uart u (set_ks_sb sb (disk_state disk)))) = disk.
Proof. reflexivity. Qed.

Lemma op_superblock u sb l disk : ks_sb (set_ks_log l (upd_ks_uart u (set_ks_sb sb (disk_state disk)))) = sb.
Proof. reflexivity. Qed.

Lemma op_log u sb l disk : ks_log (set_ks_log l (upd_ks_uart u (set_ks_sb sb (disk_state disk)))) = l.
Proof. reflexivity. Qed.

Lemma demo_op_sb u : ks_sb (demo_op u) = image_sb.
Proof. exact (op_superblock u image_sb demo_log mkfs_image). Qed.

Lemma demo_op_geo u : disk_geo (demo_op u).
Proof.
  unfold demo_op, demo_start. apply sized_disk_geo.
  - rewrite op_disk. exact image_sizes.
  - apply op_log.
  - rewrite op_superblock. exact image_layout.
Qed.

Lemma demo_op_starts : exists u s, in_op (view:=bio_view) 29 [] image_blocks (fun _ => False) (demo_op u) s.
Proof.
  destruct demo_view as (u & s & Hv). exists u, (set_ks_log demo_log s).
  apply (started_op demo_log); [exact Hv| |reflexivity|reflexivity|discriminate].
  apply sized_geo. unfold demo_start. rewrite formatted_disk. exact image_sizes.
Qed.

Lemma image_meta_marked : meta_marked image_blocks image_sb.
Proof.
  assert (forallb (marked image_blocks image_sb) (upto (data_start image_sb)) = true) as H by (vm_compute; reflexivity).
  intros b Hb _. now apply (forallb_upto _ _ b) in H.
Qed.

Lemma demo_op_marked u : meta_marked image_blocks (ks_sb (demo_op u)).
Proof. rewrite demo_op_sb. exact image_meta_marked. Qed.

Lemma demo_first_free u : first_free image_blocks (demo_op u) = Some (47%nat, 47).
Proof. unfold first_free. rewrite demo_op_sb. vm_compute. reflexivity. Qed.

Lemma balloc_first_fit_witness :
  exists u s, in_op (view:=bio_view) 29 [] image_blocks (fun _ => False) (demo_op u) s /\
    wp (balloc 0) (fun r _ => r = 47) s.
Proof.
  destruct demo_op_starts as (u & s & Ho). exists u, s. split; [exact Ho|].
  pose proof (balloc_first_fit (view:=bio_view) 29 image_blocks (fun _ => False) (demo_op u) s
    (demo_op_geo u) (demo_op_marked u) ltac:(lia) Ho) as Hb.
  rewrite demo_first_free in Hb.
  eapply wpx_conseq; [exact Hb|]. intros r s' [-> _]. reflexivity.
Defined.

(** C29: functional.  [bfree] clears the bit of a block and changes nothing else; it
    panics when the bit is clear already. *)
Theorem bfree_clears_bit {view : view_pred} `{!BlockCache view} n L D R s b :
  disk_geo R -> 0 <= b < BPB -> 1 <= n <= 1000 -> in_op (view:=view) n [] L D R s ->
  if marked L (ks_sb R) b then
    wp (bfree 0 b) (fun _ s' => exists L' D' R', relog R R' /\ in_op (view:=view) (n - 1) [] L' D' R' s' /\
      (forall c, 0 <= c < BPB -> marked L' (ks_sb R) c = negb (c =? b) && marked L (ks_sb R) c) /\
      (forall k, k <> sb_bmapstart (ks_sb R) -> L' k = L k)) s
  else exists s', bfree 0 b s = Panic (str "freeing free block") s'.
Proof.
  intros Hgeo Hb Hn Ho. assert (Z.of_nat (length ([] : holders)) = 0) as H0 by reflexivity.
  destruct (marked L (ks_sb R) b) eqn:Hm.
  - eapply wpx_conseq; [eapply (bfree_marked L D R [] Hgeo n 1); [exact Ho|exact Hb|exact Hm|now left|lia|rewrite H0; lia]|].
    intros [] s' (R' & HR & Ho'). eexists _, _, R'. split; [exact HR|]. split; [exact Ho'|].
    split.
    + intros c Hc. rewrite (marked_with_bit L D R [] Hgeo n s b false _ Ho Hb) by
        (exact Hc || (unfold freed_block, write; now rewrite decide_True)).
      now destruct (c =? b).
    + intros k Hk. unfold freed_block, write. now rewrite decide_False.
  - eapply (bfree_unmarked L D R []); [exact Hgeo|exact Ho|exact Hb|exact Hm|rewrite H0; lia].
Qed.

Lemma demo_marked_46 u : marked image_blocks (ks_sb (demo_op u)) 46 = true.
Proof. rewrite demo_op_sb. vm_compute. reflexivity. Qed.

Lemma demo_marked_47 u : marked image_blocks (ks_sb (demo_op u)) 47 = false.
Proof. rewrite demo_op_sb. vm_compute. reflexivity. Qed.

(** Block 46, the first data block, is the root directory's. *)
Lemma bfree_clears_bit_witness :
  exists u s, in_op (view:=bio_view) 29 [] image_blocks (fun _ => False) (demo_op u) s /\
    wp (bfree 0 46) (fun _ _ => True) s /\ exists s', bfree 0 47 s = Panic (str "freeing free block") s'.
Proof.
  destruct demo_op_starts as (u & s & Ho). exists u, s. split; [exact Ho|].
  pose proof (fun b Hb => bfree_clears_bit (view:=bio_view) 29 image_blocks (fun _ => False) (demo_op u) s b
    (demo_op_geo u) Hb ltac:(lia) Ho) as Hf.
  split.
  - specialize (Hf 46 ltac:(easy)). rewrite demo_marked_46 in Hf.
    eapply wpx_conseq; [exact Hf|]. intros; exact Logic.I.
  - specialize (Hf 47 ltac:(easy)). rewrite demo_marked_47 in Hf. exact Hf.
Defined.
