(* ===== verification/Slots.v ===== *)
(** * The blocks of a file

    A file has an address for its indirect block and one for each of its blocks
    ([baddr]); the addresses that are not 0 are the blocks it owns.  [wfile]: they
    are different marked data blocks.  [grows] relates a file before and after
    blocks have been added to it, as [bmap] and [writei] (kernel/fs.c) do. *)
From S2P Require Import Prelude State Bio Blocks Log Update Fs Inodes Tree Alloc.

(** ** Specification *)

(** Slot [-1] is the indirect block, slot [bn] block [bn] of the file. *)
Definition baddr (L : blockmap) (di : dinode) (x : Z) : Z :=
  if x <? 0 then indirect di else block_addr L di x.
Definition in_file (x : Z) : Prop := -1 <= x < MAXFILE.

Definition owns (L : blockmap) (di : dinode) (k : Z) : Prop :=
  k <> 0 /\ exists x, in_file x /\ baddr L di x = k.

Record wfile (L : blockmap) (R : kstate) (di : dinode) : Prop := {
  wf_ok : file_ok L R di;
  wf_data : forall x, in_file x -> baddr L di x <> 0 ->
    data_start (ks_sb R) <= baddr L di x < sb_size (ks_sb R) /\ marked L (ks_sb R) (baddr L di x) = true;
  wf_sep : forall x y, in_file x -> in_file y -> baddr L di x <> 0 -> baddr L di x = baddr L di y -> x = y }.

(** The file after blocks have been added to it. *)
Record grows (R : kstate) (L : blockmap) (di : dinode) (L' : blockmap) (di' : dinode) : Prop := {
  gr_slot : forall x, in_file x -> baddr L' di' x = baddr L di x \/
    baddr L di x = 0 /\ marked L (ks_sb R) (baddr L' di' x) = false;
  gr_same : forall k, k <> sb_bmapstart (ks_sb R) -> ~ owns L' di' k -> L' k = L k;
  gr_marks : forall c, 0 <= c < BPB ->
    marked L' (ks_sb R) c = true <-> marked L (ks_sb R) c = true \/ owns L' di' c;
  gr_type : di_type di' = di_type di;
  gr_nlink : di_nlink di' = di_nlink di;
  gr_dev : di_major di' = di_major di /\ di_minor di' = di_minor di }.

(** The blocks that can be allocated. *)
Definition free_blocks (L : blockmap) (R : kstate) : list Z :=
  filter (fun b => marked L (ks_sb R) b = false) (upto (sb_size (ks_sb R))).
Definition free_count (L : blockmap) (R : kstate) : Z := Z.of_nat (length (free_blocks L R)).

(** ** Lemmas *)

Lemma in_file_nonneg x : in_file x -> 0 <= x -> 0 <= x < MAXFILE.
Proof. unfold in_file. lia. Qed.

Lemma slot_block L di x : 0 <= x -> baddr L di x = block_addr L di x.
Proof. intros Hx. unfold baddr. now rewrite (proj2 (Z.ltb_ge _ _)) by lia. Qed.

Lemma owns_slot L di x : in_file x -> baddr L di x <> 0 -> owns L di (baddr L di x).
Proof. intros Hx Hne. split; [exact Hne|]. now exists x. Qed.

Lemma wfile_zero L R di x : wfile L R di -> disk_geo R -> in_file x ->
  baddr L di x = 0 \/ 0 < baddr L di x < sb_size (ks_sb R) /\ data_start (ks_sb R) <= baddr L di x.
Proof.
  intros Hw Hg Hx. destruct (decide (baddr L di x = 0)); [now left|right].
  destruct (wf_data _ _ _ Hw x Hx n). pose proof (data_start_bmap _ Hg). lia.
Qed.

Lemma file_grows_refl R L di : wfile L R di -> grows R L di L di.
Proof.
  intros Hw. split; try (split; reflexivity); try reflexivity; auto.
  intros c _. split; [auto|]. intros [H|(H0 & x & Hx & <-)]; [exact H|]. now apply (wf_data _ _ _ Hw).
Qed.

Lemma grows_owns R L di L' di' k : grows R L di L' di' -> owns L di k -> owns L' di' k.
Proof.
  intros Hg (Hk & x & Hx & Hs). split; [exact Hk|]. exists x. split; [exact Hx|].
  destruct (gr_slot _ _ _ _ _ Hg x Hx) as [->|[H0 _]]; [exact Hs|congruence].
Qed.

Lemma file_grows_trans R L1 d1 L2 d2 L3 d3 :
  disk_geo R -> wfile L3 R d3 -> grows R L1 d1 L2 d2 -> grows R L2 d2 L3 d3 -> grows R L1 d1 L3 d3.
Proof.
  intros Hgeo Hw H12 H23. pose proof (dg_size _ Hgeo) as Hsz. split.
  - intros x Hx. pose proof (gr_slot _ _ _ _ _ H12 x Hx) as G12.
    destruct (gr_slot _ _ _ _ _ H23 x Hx) as [E|[E0 Hm]].
    + rewrite E. exact G12.
    + destruct (decide (baddr L3 d3 x = 0)) as [Hz|Hz].
      { destruct G12 as [G|[G _]]; left; congruence. }
      right. destruct G12 as [G|[G _]]; (split; [congruence|]);
      (destruct (wf_data _ _ _ Hw x Hx Hz) as [Hr _];
       destruct (marked L1 (ks_sb R) (baddr L3 d3 x)) eqn:E1; [|reflexivity];
       pose proof (data_start_bmap _ Hgeo);
       pose proof (proj2 (gr_marks _ _ _ _ _ H12 (baddr L3 d3 x) ltac:(lia)) (or_introl E1)); congruence).
  - intros k Hk Hno. rewrite (gr_same _ _ _ _ _ H23 k Hk Hno). apply (gr_same _ _ _ _ _ H12 k Hk).
    intros Ho. apply Hno. eapply grows_owns; [exact H23|exact Ho].
  - intros c Hc. rewrite (gr_marks _ _ _ _ _ H23 c Hc), (gr_marks _ _ _ _ _ H12 c Hc).
    split; [intros [[?|Ho]|?]; auto|intros [?|?]; auto]. right. eapply grows_owns; [exact H23|exact Ho].
  - rewrite (gr_type _ _ _ _ _ H23). apply (gr_type _ _ _ _ _ H12).
  - rewrite (gr_nlink _ _ _ _ _ H23). apply (gr_nlink _ _ _ _ _ H12).
  - destruct (gr_dev _ _ _ _ _ H23) as [-> ->]. apply (gr_dev _ _ _ _ _ H12).
Qed.

Lemma marked_frame R L L' c :
  disk_geo R -> 0 <= c < BPB -> L' (sb_bmapstart (ks_sb R)) = L (sb_bmapstart (ks_sb R)) ->
  marked L' (ks_sb R) c = marked L (ks_sb R) c.
Proof. intros Hg Hc HL. rewrite !(marked_block _ R Hg) by exact Hc. unfold block. now rewrite HL. Qed.

(** ** A block is added to the file *)

(** Slot [x] was empty and now has the empty block [b]. *)
Record fills (R : kstate) (x b : Z) (L : blockmap) (di : dinode) (L' : blockmap) (di' : dinode) : Prop := {
  fl_addrs : exists l, length l = 13%nat /\ di' = set_di_addrs l di;
  fl_empty : baddr L di x = 0;
  fl_slot : forall y, in_file y -> baddr L' di' y = if y =? x then b else baddr L di y;
  fl_zero : L' b = Some zero_block;
  fl_data : forall y, 0 <= y < MAXFILE -> baddr L di y <> 0 -> L' (baddr L di y) = L (baddr L di y);
  fl_same : forall k, k <> b -> k <> sb_bmapstart (ks_sb R) -> ~ (k <> 0 /\ k = indirect di) -> L' k = L k;
  fl_marks : forall c, 0 <= c < BPB -> marked L' (ks_sb R) c = (c =? b) || marked L (ks_sb R) c;
  fl_free : marked L (ks_sb R) b = false;
  fl_range : data_start (ks_sb R) <= b < sb_size (ks_sb R) }.

Lemma zero_block_byte k : default 0 (zero_block !! k) = 0.
Proof.
  unfold zero_block. destruct (decide (k < Z.to_nat BSIZE)%nat).
  - now rewrite lookup_replicate_2 by assumption.
  - rewrite (proj2 (lookup_ge_None _ _)); [reflexivity|]. rewrite length_replicate. lia.
Qed.

Section fills.
Context (R : kstate) (x b : Z) (L L' : blockmap) (di di' : dinode).
Hypothesis Hgeo : disk_geo R.
Hypothesis Hw : wfile L R di.
Hypothesis Hx : in_file x.
Hypothesis Hf : fills R x b L di L' di'.

Lemma fills_b : 0 < b < BPB.
Proof. pose proof (data_start_bmap _ Hgeo). pose proof (dg_size _ Hgeo). pose proof (fl_range _ _ _ _ _ _ _ Hf). lia. Qed.

(** The new block is none of the file's. *)
Lemma fills_fresh y : in_file y -> baddr L di y <> b.
Proof.
  intros Hy E. pose proof fills_b. destruct (wf_data _ _ _ Hw y Hy) as [_ Hm]; [lia|].
  rewrite E, (fl_free _ _ _ _ _ _ _ Hf) in Hm. discriminate.
Qed.

Lemma fills_marks_old c : 0 <= c < BPB -> marked L (ks_sb R) c = true -> marked L' (ks_sb R) c = true.
Proof. intros Hc Hm. rewrite (fl_marks _ _ _ _ _ _ _ Hf) by exact Hc. now rewrite Hm, orb_true_r. Qed.

Lemma fills_usable y : in_file y -> baddr L' di' y = 0 \/ usable R (baddr L' di' y).
Proof.
  intros Hy. rewrite (fl_slot _ _ _ _ _ _ _ Hf) by exact Hy. destruct (y =? x).
  - right. destruct (dg_data _ Hgeo b (fl_range _ _ _ _ _ _ _ Hf)) as (H1 & H2 & _). now split.
  - unfold baddr. destruct (Z.ltb_spec y 0); [exact (fo_indirect _ _ _ (wf_ok _ _ _ Hw))|].
    apply (fo_block _ _ _ (wf_ok _ _ _ Hw)). now apply in_file_nonneg.
Qed.

Lemma fills_wfile : wfile L' R di'.
Proof.
  pose proof fills_b as Hb. pose proof (data_start_bmap _ Hgeo) as Hds. pose proof (dg_size _ Hgeo) as Hsz.
  destruct (fl_addrs _ _ _ _ _ _ _ Hf) as (l & Hl & E). split.
  - split.
    + rewrite E. exact Hl.
    + rewrite E. exact (fo_size _ _ _ (wf_ok _ _ _ Hw)).
    + exact (fills_usable (-1) ltac:(unfold in_file; easy)).
    + intros bn Hbn. rewrite <- slot_block by lia. apply fills_usable. unfold in_file. lia.
  - intros y Hy. rewrite (fl_slot _ _ _ _ _ _ _ Hf) by exact Hy. destruct (Z.eqb_spec y x) as [->|Hne].
    + intros _. split; [apply (fl_range _ _ _ _ _ _ _ Hf)|]. rewrite (fl_marks _ _ _ _ _ _ _ Hf) by lia.
      now rewrite Z.eqb_refl.
    + intros Hz. destruct (wf_data _ _ _ Hw y Hy Hz) as [Hr Hm]. split; [exact Hr|].
      apply fills_marks_old; [lia|exact Hm].
  - intros y z Hy Hz. rewrite !(fl_slot _ _ _ _ _ _ _ Hf) by assumption.
    pose proof (fills_fresh y Hy). pose proof (fills_fresh z Hz).
    destruct (Z.eqb_spec y x), (Z.eqb_spec z x); intros; try congruence. now apply (wf_sep _ _ _ Hw).
Qed.

(** Holes and empty blocks both read as zeros. *)
Lemma fills_byte off :
  0 <= off -> off / BSIZE < MAXFILE -> file_byte L' di' off = file_byte L di off.
Proof.
  intros Ho Hb. assert (0 <= off / BSIZE < MAXFILE) as Hbn by (unfold BSIZE in *; mlia).
  assert (in_file (off / BSIZE)) as Hin by (unfold in_file; lia). pose proof fills_b.
  unfold file_byte. rewrite <- !slot_block by lia. rewrite (fl_slot _ _ _ _ _ _ _ Hf) by exact Hin.
  destruct (Z.eqb_spec (off / BSIZE) x) as [E|Hne].
  - rewrite E, (fl_empty _ _ _ _ _ _ _ Hf). cbn [Z.eqb]. rewrite (proj2 (Z.eqb_neq b 0)) by lia.
    unfold block. rewrite (fl_zero _ _ _ _ _ _ _ Hf). apply zero_block_byte.
  - destruct (Z.eqb_spec (baddr L di (off / BSIZE)) 0) as [E|Hz]; [reflexivity|].
    unfold block. now rewrite (fl_data _ _ _ _ _ _ _ Hf).
Qed.

Lemma fills_grows : grows R L di L' di'.
Proof.
  pose proof fills_b as Hb. destruct (fl_addrs _ _ _ _ _ _ _ Hf) as (l & Hl & E). split.
  - intros y Hy. rewrite (fl_slot _ _ _ _ _ _ _ Hf) by exact Hy. destruct (Z.eqb_spec y x) as [->|]; [right|now left].
    split; [apply (fl_empty _ _ _ _ _ _ _ Hf)|apply (fl_free _ _ _ _ _ _ _ Hf)].
  - intros k Hk Hno. apply (fl_same _ _ _ _ _ _ _ Hf); [|exact Hk|].
    + intros ->. apply Hno. split; [lia|]. exists x. split; [exact Hx|].
      rewrite (fl_slot _ _ _ _ _ _ _ Hf) by exact Hx. now rewrite Z.eqb_refl.
    + intros [Hz ->]. apply Hno. split; [exact Hz|]. exists (-1). split; [unfold in_file; easy|].
      rewrite (fl_slot _ _ _ _ _ _ _ Hf) by (unfold in_file; easy).
      destruct (Z.eqb_spec (-1) x) as [<-|]; [|reflexivity].
      destruct (Hz (fl_empty _ _ _ _ _ _ _ Hf)).
  - intros c Hc. rewrite (fl_marks _ _ _ _ _ _ _ Hf) by exact Hc. rewrite orb_true_iff, Z.eqb_eq. split.
    + intros [->|Hm]; [right|now left]. split; [lia|]. exists x. split; [exact Hx|].
      rewrite (fl_slot _ _ _ _ _ _ _ Hf) by exact Hx. now rewrite Z.eqb_refl.
    + intros [Hm|(Hz & y & Hy & Hs)]; [now right|]. rewrite (fl_slot _ _ _ _ _ _ _ Hf) in Hs by exact Hy.
      destruct (y =? x); [left; congruence|right]. rewrite <- Hs. apply (wf_data _ _ _ Hw y Hy). congruence.
  - now rewrite E.
  - now rewrite E.
  - rewrite E. now split.
Qed.
End fills.

(** ** The three ways to add a block *)

Lemma indirect_insert x b di :
  0 <= x < NDIRECT -> indirect (set_di_addrs (<[Z.to_nat x := b]> (di_addrs di)) di) = indirect di.
Proof.
  intros Hx. unfold indirect, NDIRECT in *. fields. unfold lget. rewrite !decide_True by lia.
  now rewrite list_lookup_insert_ne by lia.
Qed.

Lemma zero_entry bn : ind_get bn zero_block = 0.
Proof.
  unfold ind_get, get_le, bytes_at, zero_block. rewrite drop_replicate, take_replicate.
  generalize (4 `min` (Z.to_nat BSIZE - Z.to_nat (4 * bn)))%nat as n.
  induction n as [|n IH]; [reflexivity|]. cbn [replicate le_value]. lia.
Qed.

Lemma length_ind_put bn v d : 0 <= bn < NINDIRECT -> length d = Z.to_nat BSIZE -> length (ind_put bn v d) = length d.
Proof. intros Hbn Hd. apply length_put_le. rewrite Hd. unfold NINDIRECT, BSIZE in *. mlia. Qed.

Lemma ind_get_put bn v d bn' :
  0 <= bn < NINDIRECT -> 0 <= bn' < NINDIRECT -> length d = Z.to_nat BSIZE -> 0 <= v < 2 ^ 32 ->
  ind_get bn' (ind_put bn v d) = if bn' =? bn then v else ind_get bn' d.
Proof.
  intros Hbn Hbn' Hd Hv. unfold ind_get, ind_put.
  assert (Z.to_nat (4 * bn) + 4 <= length d)%nat as Hlen by (rewrite Hd; unfold NINDIRECT, BSIZE in *; mlia).
  destruct (Z.eqb_spec bn' bn) as [->|Hne].
  - rewrite get_put_le_eq by exact Hlen. apply Z.mod_small. exact Hv.
  - apply get_put_le_ne; [exact Hlen|lia].
Qed.

Section adding.
Context (R : kstate) (b : Z) (L L1 : blockmap) (di : dinode).
Hypothesis Hgeo : disk_geo R.
Hypothesis Hw : wfile L R di.
Hypothesis Ht : taken_block (ks_sb R) b L L1.

Lemma taken_ne y : in_file y -> baddr L di y <> 0 -> baddr L di y <> b /\ baddr L di y <> sb_bmapstart (ks_sb R).
Proof.
  intros Hy Hz. pose proof (data_start_bmap _ Hgeo). pose proof (dg_size _ Hgeo).
  destruct (wf_data _ _ _ Hw y Hy Hz) as [Hr Hm]. split; [|lia].
  intros E. rewrite E, (tb_free _ _ _ _ Ht) in Hm. discriminate.
Qed.

Lemma taken_slot_block y : in_file y -> baddr L di y <> 0 -> L1 (baddr L di y) = L (baddr L di y).
Proof. intros Hy Hz. destruct (taken_ne y Hy Hz). now apply (tb_same _ _ _ _ Ht). Qed.

Lemma taken_indirect : indirect di <> 0 -> L1 (indirect di) = L (indirect di).
Proof. intros Hz. exact (taken_slot_block (-1) ltac:(unfold in_file; easy) Hz). Qed.

(** Slots that are read from the same indirect block. *)
Lemma taken_slot di' y :
  indirect di' = indirect di -> NDIRECT <= y < MAXFILE -> baddr L1 di' y = baddr L di y.
Proof.
  intros Hi Hy. unfold NDIRECT in *. rewrite !slot_block by lia. unfold block_addr.
  rewrite (proj2 (Z.ltb_ge _ _)) by (unfold NDIRECT; lia). rewrite Hi.
  destruct (Z.eqb_spec (indirect di) 0) as [|Hz]; [reflexivity|]. unfold block.
  now rewrite (taken_indirect Hz).
Qed.

Lemma taken_fills x l L' :
  length l = 13%nat -> baddr L di x = 0 -> 
  (forall y, in_file y -> baddr L' (set_di_addrs l di) y = if y =? x then b else baddr L di y) ->
  (forall k, ~ (k <> 0 /\ k = indirect di) -> L' k = L1 k) ->
  L' b = L1 b ->
  fills R x b L di L' (set_di_addrs l di).
Proof.
  intros Hl He Hs Hsame Hb. pose proof (data_start_bmap _ Hgeo) as Hds. split.
  - exists l. now split.
  - exact He.
  - exact Hs.
  - rewrite Hb. apply (tb_zero _ _ _ _ Ht).
  - intros y Hy Hz. assert (in_file y) as Hyf by (unfold in_file; lia).
    rewrite Hsame; [now apply taken_slot_block|]. intros [_ E].
    enough (y = -1) by lia. apply (wf_sep _ _ _ Hw); [exact Hyf|unfold in_file; easy|exact Hz|exact E].
  - intros k Hk Hkb Hi. rewrite Hsame by exact Hi. now apply (tb_same _ _ _ _ Ht).
  - intros c Hc. rewrite <- (tb_marks _ _ _ _ Ht c Hc). apply (marked_frame R); [exact Hgeo|exact Hc|].
    apply Hsame. intros [Hz E]. destruct (taken_ne (-1)) as [_ H]; [unfold in_file; easy|exact (eq_ind _ (fun z => z <> 0) Hz _ E)|].
    now apply H.
  - apply (tb_free _ _ _ _ Ht).
  - apply (tb_data _ _ _ _ Ht).
Qed.

(** [addrs[x]] of a file. *)
Lemma fills_direct x :
  0 <= x < NDIRECT -> baddr L di x = 0 ->
  fills R x b L di L1 (set_di_addrs (<[Z.to_nat x := b]> (di_addrs di)) di).
Proof.
  intros Hx He. pose proof (fo_addrs _ _ _ (wf_ok _ _ _ Hw)) as Hlen. unfold NDIRECT in Hx.
  apply taken_fills; [now rewrite length_insert|exact He| |reflexivity|reflexivity].
  intros y Hy. destruct (decide (NDIRECT <= y)) as [Hge|Hlt].
  - rewrite (proj2 (Z.eqb_neq y x)) by (unfold NDIRECT in *; lia).
    apply taken_slot; [now apply indirect_insert|]. unfold in_file in Hy. lia.
  - unfold NDIRECT in Hlt. unfold baddr. destruct (Z.ltb_spec y 0).
    + rewrite (proj2 (Z.eqb_neq y x)) by lia. now apply indirect_insert.
    + unfold block_addr. rewrite (proj2 (Z.ltb_lt _ _)) by (unfold NDIRECT; lia). fields.
      unfold lget. rewrite decide_True by lia. destruct (Z.eqb_spec y x) as [->|Hne].
      * now rewrite list_lookup_insert_eq by lia.
      * rewrite list_lookup_insert_ne by lia. now rewrite decide_True by lia.
Qed.

(** [addrs[NDIRECT]]: the indirect block. *)
Lemma fills_pointer :
  indirect di = 0 ->
  fills R (-1) b L di L1 (set_di_addrs (<[Z.to_nat NDIRECT := b]> (di_addrs di)) di).
Proof.
  intros He. pose proof (fo_addrs _ _ _ (wf_ok _ _ _ Hw)) as Hlen.
  assert (indirect (set_di_addrs (<[Z.to_nat NDIRECT := b]> (di_addrs di)) di) = b) as Hi.
  { unfold indirect. fields. unfold lget. rewrite decide_True by easy.
    rewrite list_lookup_insert_eq by (rewrite Hlen; unfold NDIRECT; lia). reflexivity. }
  apply taken_fills; [now rewrite length_insert|exact He| |reflexivity|reflexivity].
  intros y Hy. unfold baddr, block_addr. destruct (Z.ltb_spec y 0).
  - rewrite (proj2 (Z.eqb_eq y (-1))) by (unfold in_file in Hy; lia). exact Hi.
  - rewrite (proj2 (Z.eqb_neq y (-1))) by lia. destruct (Z.ltb_spec y NDIRECT) as [Hd|Hd].
    + fields. unfold lget. unfold NDIRECT in *. rewrite !decide_True by lia. now rewrite list_lookup_insert_ne by lia.
    + rewrite Hi, He. cbn [Z.eqb]. destruct (b =? 0); [reflexivity|].
      unfold block. rewrite (tb_zero _ _ _ _ Ht). apply zero_entry.
Qed.

(** An entry of the indirect block. *)
Lemma fills_entry x :
  NDIRECT <= x < MAXFILE -> indirect di <> 0 -> baddr L di x = 0 ->
  length (block L (indirect di)) = Z.to_nat BSIZE ->
  fills R x b L di (write (indirect di) (ind_put (x - NDIRECT) b (block L1 (indirect di))) L1) di.
Proof.
  intros Hx Hi He Hlen. pose proof (fo_addrs _ _ _ (wf_ok _ _ _ Hw)) as Hla.
  pose proof (dg_size _ Hgeo) as Hsz. pose proof (tb_data _ _ _ _ Ht) as Hbr. pose proof (data_start_bmap _ Hgeo) as Hds.
  assert (in_file (-1)) as Hin by (unfold in_file; easy).
  assert (block L1 (indirect di) = block L (indirect di)) as Eb.
  { unfold block. now rewrite (taken_indirect Hi). }
  assert (set_di_addrs (di_addrs di) di = di) as Edi by now destruct di.
  set (L' := write _ _ _). enough (fills R x b L di L' (set_di_addrs (di_addrs di) di)) as H by (now rewrite Edi in H).
  subst L'. apply taken_fills; [exact Hla|exact He| | |].
  - rewrite Edi. intros y Hy.
    unfold baddr, block_addr. destruct (Z.ltb_spec y 0).
    { rewrite (proj2 (Z.eqb_neq y x)) by (unfold NDIRECT in *; lia). reflexivity. }
    destruct (Z.ltb_spec y NDIRECT) as [Hd|Hd].
    { rewrite (proj2 (Z.eqb_neq y x)) by lia. reflexivity. }
    rewrite (proj2 (Z.eqb_neq (indirect di) 0)) by exact Hi. unfold block at 1, write.
    rewrite decide_True by reflexivity. cbn [default id]. rewrite Eb.
    unfold in_file, MAXFILE in *. rewrite ind_get_put; [|lia|lia|exact Hlen|unfold BPB, BSIZE in *; lia].
    destruct (Z.eqb_spec (y - NDIRECT) (x - NDIRECT)), (Z.eqb_spec y x); try reflexivity; lia.
  - intros k Hk. unfold write. rewrite decide_False; [reflexivity|]. intros ->. now apply Hk.
  - unfold write. rewrite decide_False; [reflexivity|]. intros E.
    destruct (taken_ne (-1) Hin Hi) as [H _]. now apply H.
Qed.
End adding.

(** ** The data of a block of the file are replaced *)

Section putting.
Context (R : kstate) (L : blockmap) (di : dinode) (bn : Z) (d : list Z).
Hypothesis Hgeo : disk_geo R.
Hypothesis Hw : wfile L R di.
Hypothesis Hbn : 0 <= bn < MAXFILE.
Hypothesis Hne : baddr L di bn <> 0.
Abbreviation L' := (write (baddr L di bn) d L).

Lemma put_in_file : in_file bn.
Proof. unfold in_file. lia. Qed.

Lemma put_other k : k <> baddr L di bn -> L' k = L k.
Proof. intros Hk. unfold write. now rewrite decide_False. Qed.

Lemma put_indirect : indirect di <> 0 -> baddr L di bn <> indirect di.
Proof.
  intros Hi E. enough (bn = -1) by lia.
  apply (wf_sep _ _ _ Hw); [exact put_in_file|unfold in_file; easy|exact Hne|exact E].
Qed.

Lemma put_bmap : baddr L di bn <> sb_bmapstart (ks_sb R).
Proof. destruct (wf_data _ _ _ Hw bn put_in_file Hne). pose proof (data_start_bmap _ Hgeo). lia. Qed.

Lemma put_slot y : baddr L' di y = baddr L di y.
Proof.
  unfold baddr at 1 3. destruct (y <? 0); [reflexivity|]. unfold block_addr. destruct (y <? NDIRECT); [reflexivity|].
  destruct (Z.eqb_spec (indirect di) 0) as [|Hi]; [reflexivity|]. unfold block. rewrite put_other; [reflexivity|].
  pose proof (put_indirect Hi). congruence.
Qed.

Lemma put_marked c : 0 <= c < BPB -> marked L' (ks_sb R) c = marked L (ks_sb R) c.
Proof.
  intros Hc. apply (marked_frame R); [exact Hgeo|exact Hc|]. apply put_other.
  pose proof put_bmap. congruence.
Qed.

Lemma put_owns k : owns L' di k <-> owns L di k.
Proof.
  split; intros (Hk & y & Hy & Hs); (split; [exact Hk|]); exists y; (split; [exact Hy|]);
    [rewrite <- put_slot; exact Hs|rewrite put_slot; exact Hs].
Qed.

Lemma put_wfile : wfile L' R di.
Proof.
  pose proof (dg_size _ Hgeo) as Hsz. pose proof (data_start_bmap _ Hgeo). split.
  - destruct (wf_ok _ _ _ Hw) as [H1 H2 H3 H4]. split; [exact H1|exact H2|exact H3|].
    intros y Hy. rewrite <- slot_block by lia. rewrite put_slot, slot_block by lia. now apply H4.
  - intros y Hy. rewrite put_slot. intros Hz. destruct (wf_data _ _ _ Hw y Hy Hz) as [Hr Hm].
    split; [exact Hr|]. rewrite put_marked by lia. exact Hm.
  - intros y z. rewrite !put_slot. apply (wf_sep _ _ _ Hw).
Qed.

Lemma put_grows : grows R L di L' di.
Proof.
  split; try reflexivity; [| | |now split].
  - intros y _. left. apply put_slot.
  - intros k _ Hno. apply put_other. intros ->. apply Hno, put_owns, owns_slot; [exact put_in_file|exact Hne].
  - intros c Hc. rewrite put_marked by exact Hc. split; [auto|]. intros [Hm|Ho]; [exact Hm|].
    apply put_owns in Ho as (Hz & y & Hy & <-). now apply (wf_data _ _ _ Hw).
Qed.

Lemma put_byte off :
  0 <= off -> off / BSIZE < MAXFILE ->
  file_byte L' di off =
    if off / BSIZE =? bn then default 0 (d !! Z.to_nat (off mod BSIZE)) else file_byte L di off.
Proof.
  intros Ho Hb. assert (0 <= off / BSIZE) as H0 by (unfold BSIZE in *; mlia).
  unfold file_byte. rewrite <- !slot_block, put_slot by lia.
  destruct (Z.eqb_spec (baddr L di (off / BSIZE)) 0) as [E|Hz].
  - destruct (Z.eqb_spec (off / BSIZE) bn) as [E'|]; [congruence|reflexivity].
  - unfold block. destruct (Z.eqb_spec (off / BSIZE) bn) as [E|Hn].
    + rewrite E. unfold write. now rewrite decide_True.
    + rewrite put_other; [reflexivity|]. intros E. apply Hn.
      apply (wf_sep _ _ _ Hw); [unfold in_file; lia|exact put_in_file|exact Hz|exact E].
Qed.
End putting.

(** ** Counting the free blocks *)

Lemma NoDup_upto n : NoDup (upto n).
Proof. unfold upto. apply NoDup_fmap_2; [intros a b; lia|apply NoDup_seq]. Qed.

Lemma elem_of_free_blocks L R c :
  c ∈ free_blocks L R <-> marked L (ks_sb R) c = false /\ 0 <= c < sb_size (ks_sb R).
Proof. unfold free_blocks. now rewrite list_elem_of_filter, elem_of_upto. Qed.

Lemma NoDup_free_blocks L R : NoDup (free_blocks L R).
Proof. apply NoDup_filter, NoDup_upto. Qed.

Lemma taken_free_blocks R b L L' :
  disk_geo R -> taken_block (ks_sb R) b L L' -> free_blocks L R ≡ₚ b :: free_blocks L' R.
Proof.
  intros Hg Ht. pose proof (dg_size _ Hg) as Hsz. pose proof (tb_data _ _ _ _ Ht) as Hb.
  pose proof (data_start_bmap _ Hg) as Hds.
  apply NoDup_Permutation; [apply NoDup_free_blocks|constructor; [|apply NoDup_free_blocks]|].
  - rewrite elem_of_free_blocks, (tb_marks _ _ _ _ Ht) by lia. rewrite Z.eqb_refl. now intros [].
  - intros c. rewrite elem_of_cons, !elem_of_free_blocks. split.
    + intros [Hm Hc]. rewrite (tb_marks _ _ _ _ Ht) by lia. rewrite Hm, orb_false_r.
      destruct (Z.eqb_spec c b); [now left|right; auto].
    + intros [->|[Hm Hc]]; [split; [apply (tb_free _ _ _ _ Ht)|lia]|].
      rewrite (tb_marks _ _ _ _ Ht) in Hm by lia. apply orb_false_iff in Hm as [_ Hm]. auto.
Qed.

Lemma taken_count R b L L' :
  disk_geo R -> taken_block (ks_sb R) b L L' -> free_count L R = free_count L' R + 1.
Proof.
  intros Hg Ht. unfold free_count. rewrite (taken_free_blocks R b L L' Hg Ht). cbn [length]. lia.
Qed.

Lemma free_first L R : 1 <= free_count L R -> exists i b, first_free L R = Some (i, b).
Proof.
  unfold free_count. intros Hc. destruct (free_blocks L R) as [|c l] eqn:E; [cbn in Hc; lia|].
  assert (c ∈ free_blocks L R) as Hin by (rewrite E; left).
  apply elem_of_free_blocks in Hin as [Hm Hr].
  destruct (list_find_elem_of (fun b => marked L (ks_sb R) b = false) (upto (sb_size (ks_sb R))) c) as [[i b] Hf];
    [now apply elem_of_upto|exact Hm|]. exists i, b. exact Hf.
Qed.

(** The marks decide how many blocks are free. *)
Lemma count_marks L L' R :
  disk_geo R -> (forall c, 0 <= c < BPB -> marked L' (ks_sb R) c = marked L (ks_sb R) c) ->
  free_count L' R = free_count L R.
Proof.
  intros Hg Hm. unfold free_count. f_equal. apply Permutation_length, NoDup_Permutation; try apply NoDup_free_blocks.
  pose proof (dg_size _ Hg). intros c. rewrite !elem_of_free_blocks. split; intros [H1 H2]; (split; [|exact H2]).
  - rewrite <- Hm by lia. exact H1.
  - rewrite Hm by lia. exact H1.
Qed.
