(* ===== verification/Writing.v ===== *)
(** * Writing files

    [bmap] with [create] gives a file the block that it asks for and changes no
    byte of it; [writei] (kernel/fs.c) then stores the data block by block and
    writes the inode back.  All of it runs inside an operation of the log, whose
    room for blocks is counted. *)
From S2P Require Import Prelude State Printf Bio Blocks Log Txn Update Fs Inodes Icache Tree Alloc Slots.

Lemma op_max {view : view_pred} `{!BlockCache view} n hs L D R s : in_op (view:=view) n hs L D R s -> n <= 29.
Proof.
  intros [_ Hgeo Htx _ _ [_ Hr]]. pose proof (lg_size _ _ Hgeo). pose proof (tx_n _ _ Htx).
  unfold LOGBLOCKS in *. lia.
Qed.

Lemma splice_byte off bs d k :
  (off + length bs <= length d)%nat ->
  default 0 (splice off bs d !! k) =
    if decide (off <= k < off + length bs)%nat then default 0 (bs !! (k - off)%nat) else default 0 (d !! k).
Proof.
  intros H. unfold splice. destruct (decide (k < off)%nat) as [H1|H1].
  - rewrite lookup_app_l by (rewrite length_take; lia). rewrite decide_False by lia. now rewrite lookup_take_lt.
  - rewrite lookup_app_r by (rewrite length_take; lia). rewrite length_take, Nat.min_l by lia.
    case_decide as H2; [now rewrite lookup_app_l by lia|].
    rewrite lookup_app_r by lia. rewrite lookup_drop. do 2 f_equal. lia.
Qed.

(** A block of statements and what follows it. *)
Lemma wpx_block {A B C F} (m1 : K A) (m2 : A -> K B) (m3 : A -> K C) (m4 : A -> K unit) (k : K F) E Q s :
  wpx E (x <- m1;; _ <- m2 x;; _ <- m3 x;; m4 x) (fun _ s' => wpx E k Q s') s ->
  wpx E (x <- m1;; _ <- m2 x;; _ <- m3 x;; _ <- m4 x;; k) Q s.
Proof.
  unfold wpx, bind. destruct (m1 s) as [x s1| | | | |]; cbn [obind]; try easy.
  destruct (m2 x s1) as [y s2| | | | |]; cbn [obind]; try easy.
  destruct (m3 x s2) as [z s3| | | | |]; cbn [obind]; try easy.
  destruct (m4 x s3) as [[] s4| | | | |]; cbn [obind]; easy.
Qed.

Section writing.
Context {view : view_pred} `{HB : !BlockCache view}.
Context (R : kstate) (i : nat) (ip : inode).
Hypothesis Hip : ks_icache R !! i = Some ip.
Hypothesis Hdev : ip_dev ip = 0.
Hypothesis Hgeo : disk_geo R.
Abbreviation sb := (ks_sb R).
Abbreviation bmap_block := (sb_bmapstart sb).

(** The kernel with [di] as the inode in slot [i]. *)
Definition with_di (di : dinode) : kstate := set_ks_icache (<[i := set_ip_d di ip]> (ks_icache R)) R.

(** An operation on the file of slot [i]. *)
Definition filing (n : Z) (hs : holders) (L : blockmap) (D : Z -> Prop) (di : dinode) (s : kstate) : Prop :=
  exists R', relog (with_di di) R' /\ in_op (view:=view) n hs L D R' s.

Lemma relog_di di R' : relog (with_di di) R' ->
  ks_sb R' = sb /\ ks_disk R' = ks_disk R /\ ks_icache R' !! i = Some (set_ip_d di ip) /\
  (forall k, loggable R k -> loggable R' k) /\ disk_geo R'.
Proof.
  intros HR. assert (forall k, loggable R k -> loggable R' k) as Hlog by (intros k; exact (loggable_relog _ _ k HR)).
  destruct HR as (l & E & Hs).
  split; [now rewrite E|]. split; [now rewrite E|]. split.
  - rewrite E. apply list_lookup_insert_eq. eapply lookup_lt_Some, Hip.
  - split; [exact Hlog|]. apply (disk_geo_same R); [exact Hlog|now rewrite E|exact Hgeo].
Qed.

Section at_state.
Context (n : Z) (hs : holders) (L : blockmap) (D : Z -> Prop) (di : dinode) (s : kstate).
Hypothesis Hfl : filing n hs L D di s.

Lemma filing_max : 0 <= n <= 29.
Proof. destruct Hfl as (R' & _ & Ho). split; [apply (op_room _ _ _ _ _ _ Ho)|exact (op_max _ _ _ _ _ _ Ho)]. Qed.

Lemma filing_getinode : getinode i s = Ok (set_ip_d di ip) s.
Proof.
  destruct Hfl as (R' & HR & Ho). apply getinode_run.
  destruct (view_icache _ _ _ _ _ (op_view _ _ _ _ _ _ Ho)) as [-> _]. apply (relog_di _ _ HR).
Qed.

Lemma filing_addr_get bn :
  length (di_addrs di) = 13%nat -> 0 <= bn < 13 -> addr_get i bn s = Ok (default 0 (lget bn (di_addrs di))) s.
Proof.
  intros Hl Hb. unfold addr_get. rewrite (bind_Ok _ _ _ _ _ filing_getinode). fields.
  destruct (lget_lt bn (di_addrs di)) as [x ->]; [lia|]. reflexivity.
Qed.

Lemma filing_set_di f : wp (modinode_d i f) (fun _ s' => filing n hs L D (f di) s') s.
Proof.
  destruct Hfl as (R' & HR & Ho). destruct (relog_di _ _ HR) as (Hsb & Hdk & Hic & Hl & _).
  assert (ks_icache s = ks_icache R') as Es by apply (view_icache _ _ _ _ _ (op_view _ _ _ _ _ _ Ho)).
  set (c' := <[i := set_ip_d (f di) ip]> (ks_icache R)).
  eapply wpx_of_Ok.
  { unfold modinode_d. apply (modinode_run i _ (set_ip_d di ip)). rewrite Es. exact Hic. }
  destruct HR as (l & -> & HR). exists (set_ks_log l (with_di (f di))). split.
  { exists l. split; [reflexivity|exact HR]. }
  destruct Ho as [Hv Hg Htx Hlk Hout Hrm].
  assert (outside (set_ks_icache c')) as Hout' by (intros s'; auto).
  apply (view_outside _ _ _ _ _ _ Hout') in Hv. split; [|exact Hg|exact Htx|exact Hlk|exact Hout|exact Hrm].
  replace (<[i := upd_ip_d f (set_ip_d di ip)]> (ks_icache s)) with c'; [exact Hv|].
  rewrite Es. unfold c', with_di. cbn [ks_icache upd_ks_log upd_ks_icache]. rewrite list_insert_insert_eq. reflexivity.
Qed.

Lemma filing_addr_set bn b :
  length (di_addrs di) = 13%nat -> 0 <= bn < 13 ->
  wp (addr_set i bn b) (fun _ s' => filing n hs L D (set_di_addrs (<[Z.to_nat bn := b]> (di_addrs di)) di) s') s.
Proof.
  intros Hl Hb. unfold addr_set. wstep. eapply wpx_of_Ok; [exact filing_getinode|]. fields.
  rewrite lset_Some by lia. cbn [of_opt]. wstep. wstep. exact (filing_set_di _).
Qed.

Lemma filing_bread k :
  loggable R k -> Z.of_nat (length hs) <= n -> wp (bread 0 k) (fun b s' => filing n ((k, b) :: hs) L D di s') s.
Proof.
  intros Hk Hn. pose proof filing_max as Hmax. destruct Hfl as (R' & HR & Ho). destruct (relog_di _ _ HR) as (_ & _ & _ & Hl & _).
  destruct (Hl k Hk) as (H1 & H2 & _).
  eapply wpx_conseq; [eapply op_bread; [exact Ho|exact H1|exact H2|exact Hn|lia]|].
  intros b s' Ho'. exists R'. now split.
Qed.

Lemma filing_bdata k b :
  (k, b) ∈ hs -> wp (bdata b) (fun d s' => s' = s /\ d = block L k /\ length d = Z.to_nat BSIZE) s.
Proof.
  intros Hin. destruct Hfl as (R' & HR & Ho). eapply wpx_conseq; [eapply op_bdata; [exact Ho|exact Hin]|].
  intros d s' (-> & HL & Hl). unfold block. rewrite HL. auto.
Qed.

Lemma filing_put c k b d :
  (k, b) ∈ hs -> loggable R k -> length d = Z.to_nat BSIZE -> paid D k c -> 1 <= n ->
  wp (_ <- set_bdata b d;; log_write b) (fun _ s' => filing (n - c) hs (write k d L) (mark k D) di s') s.
Proof.
  intros Hin Hk Hd Hc Hn. destruct Hfl as (R' & HR & Ho). destruct (relog_di _ _ HR) as (_ & _ & _ & Hl & _).
  eapply wpx_conseq; [eapply (op_put n c); [exact Ho|exact Hin|exact (Hl k Hk)|exact Hd|exact Hc|exact Hn]|].
  intros [] s' (R2 & HR2 & Ho2). exists R2. split; [eapply relog_trans; [exact HR|exact HR2]|exact Ho2].
Qed.

(** The same with the change as a function of the data. *)
Lemma filing_mod c k b (f : list Z -> list Z) :
  (k, b) ∈ hs -> loggable R k -> length (f (block L k)) = Z.to_nat BSIZE -> paid D k c -> 1 <= n ->
  wp (_ <- mod_bdata b f;; log_write b) (fun _ s' => filing (n - c) hs (write k (f (block L k)) L) (mark k D) di s') s.
Proof.
  intros Hin Hk Hd Hc Hn. destruct (proj1 (wp_Ok _ _ _) (filing_bdata k b Hin)) as (d & s1 & Hrun & -> & -> & _).
  eapply wpx_eq; [apply bind_eq; unfold mod_bdata; apply (bind_Ok _ _ _ _ _ Hrun)|]. now apply filing_put.
Qed.

Lemma filing_balloc c j b :
  meta_marked L sb -> bmap_block ∉ hs.*1 -> first_free L R = Some (j, b) ->
  paid D bmap_block c -> c + 1 <= n -> Z.of_nat (length hs) <= n - c ->
  wp (balloc 0) (fun r s' => r = b /\ exists L' D', filing (n - c - 1) hs L' D' di s' /\
    taken_block sb b L L' /\ forall k, D' k <-> k = b \/ k = bmap_block \/ D k) s.
Proof.
  intros Hm Hnh Hff Hc Hn Hhs. pose proof filing_max as Hmax. destruct Hfl as (R' & HR & Ho).
  destruct (relog_di _ _ HR) as (Hsb & _ & _ & _ & Hg').
  eapply wpx_conseq; [eapply (balloc_takes L D R' hs n c s j b)|].
  - exact Hg'.
  - now rewrite Hsb.
  - now rewrite Hsb.
  - exact Ho.
  - unfold first_free in *. now rewrite Hsb.
  - now rewrite Hsb.
  - lia.
  - exact Hhs.
  - intros r s' (-> & L' & D' & R2 & HR2 & Ho2 & Ht & HD). split; [reflexivity|]. rewrite Hsb in Ht, HD.
    exists L', D'. split; [|now split]. exists R2. split; [eapply relog_trans; [exact HR|exact HR2]|exact Ho2].
Qed.

Lemma filing_settled k : k ∉ hs.*1 -> D k \/ L k = ks_disk R !! k.
Proof.
  intros Hk. destruct Hfl as (R' & HR & Ho). destruct (relog_di _ _ HR) as (_ & Hd & _). rewrite <- Hd.
  eapply view_settled; [apply Ho|exact Hk].
Qed.

Lemma filing_length k : loggable R k -> length (block L k) = Z.to_nat BSIZE.
Proof.
  intros (H1 & H2 & _). destruct Hfl as (R' & HR & Ho). destruct (relog_di _ _ HR) as (_ & Hd & _).
  eapply usable_length; [apply Ho|]. split; [exact H1|]. now rewrite Hd.
Qed.
End at_state.

Lemma filing_brelse n hs L D di s k b :
  filing n ((k, b) :: hs) L D di s -> D k \/ L k = ks_disk R !! k ->
  wp (brelse b) (fun _ s' => filing n hs L D di s') s.
Proof.
  intros (R' & HR & Ho) Hk. destruct (relog_di _ _ HR) as (_ & Hd & _).
  eapply wpx_conseq; [eapply op_brelse; [exact Ho|now rewrite Hd]|]. intros [] s' Ho'. exists R'. now split.
Qed.

(** ** bmap with [create] *)

(** What logging the indirect block costs, when there is one or one is added. *)
Definition ind_paid (D : Z -> Prop) (di : dinode) (e : Z) : Prop :=
  e = 1 \/ e = 0 /\ indirect di <> 0 /\ D (indirect di).
Definition ind_missing (di : dinode) : Z := if indirect di =? 0 then 1 else 0.

Lemma ind_missing_nonneg di : 0 <= ind_missing di.
Proof. unfold ind_missing. destruct (indirect di =? 0); lia. Qed.

(** Room to log [r] blocks of the file, the bitmap, the indirect block and one
    more, and [f] free blocks besides that for a missing indirect block. *)
Record ready (r f : Z) (L : blockmap) (D : Z -> Prop) (di : dinode) (s : kstate) : Prop := {
  rd_file : wfile L R di;
  rd_meta : meta_marked L sb;
  rd_free : f + ind_missing di <= free_count L R;
  rd_log : exists n cb e, filing n [] L D di s /\ paid D bmap_block cb /\ ind_paid D di e /\ r + e + cb + 1 <= n }.

(** The file has block [bn], at [a], and its bytes are those of before. *)
Definition mapped (r f bn : Z) (L : blockmap) (di : dinode) (a : Z) (s : kstate) : Prop :=
  exists L' D' di' c, ready (r - 1 + c) (f - 1) L' D' di' s /\ paid D' a c /\
    a = baddr L' di' bn /\ a <> 0 /\ grows R L di L' di' /\ di_size di' = di_size di /\
    forall off, 0 <= off -> off / BSIZE < MAXFILE -> file_byte L' di' off = file_byte L di off.

Lemma paid_cost D k c : paid D k c -> 0 <= c <= 1.
Proof. intros [->|[-> _]]; lia. Qed.

Lemma ind_cost D di e : ind_paid D di e -> 0 <= e <= 1.
Proof. intros [->|[-> _]]; lia. Qed.

Lemma taken_meta b L L' : disk_geo R -> taken_block sb b L L' -> meta_marked L sb -> meta_marked L' sb.
Proof.
  intros Hg Ht Hm k Hk Hks. pose proof (dg_size _ Hg). rewrite (tb_marks _ _ _ _ Ht) by lia.
  now rewrite Hm, orb_true_r.
Qed.

Lemma marks_meta L L' :
  disk_geo R -> (forall c, 0 <= c < BPB -> marked L' sb c = marked L sb c) -> meta_marked L sb -> meta_marked L' sb.
Proof. intros Hg E Hm k Hk Hks. pose proof (dg_size _ Hg). rewrite E by lia. now apply Hm. Qed.

(** The block is there already. *)
Lemma mapped_present r f bn L D di s :
  ready r f L D di s -> baddr L di bn <> 0 -> mapped r f bn L di (baddr L di bn) s.
Proof.
  intros [Hw Hm Hf Hl] Hne. exists L, D, di, 1. split.
  - split; [exact Hw|exact Hm|lia|]. now replace (r - 1 + 1) with r by lia.
  - split; [now left|]. split; [reflexivity|]. split; [exact Hne|]. split; [now apply file_grows_refl|]. auto.
Qed.

(** A block that [balloc] takes for slot [x]. *)
Lemma filled r f x b L di L' D' di' s n cb e :
  wfile L R di -> fills R x b L di L' di' -> in_file x ->
  filing n [] L' D' di' s -> meta_marked L' sb -> paid D' bmap_block cb -> ind_paid D' di' e ->
  r + e + cb + 1 <= n -> f + ind_missing di' <= free_count L' R -> ready r f L' D' di' s.
Proof.
  intros Hw Hfl Hx Hs Hm Hcb He Hn Hf. split; [now apply (fills_wfile R x b L L' di di')|exact Hm|exact Hf|].
  exists n, cb, e. auto.
Qed.

Lemma ready_first r f L D di s : ready r f L D di s -> 1 <= f + ind_missing di ->
  exists j b, first_free L R = Some (j, b).
Proof. intros Hr Hf. apply free_first. pose proof (rd_free _ _ _ _ _ _ Hr). lia. Qed.

Lemma bmap_direct r f bn L D di s :
  ready r f L D di s -> 1 <= r -> 1 <= f -> 0 <= bn < NDIRECT ->
  wp (bmap i bn true) (mapped r f bn L di) s.
Proof.
  intros Hr Hr1 Hf1 Hbn. pose proof Hr as [Hw Hm Hf (n & cb & e & Hs & Hcb & He & Hn)].
  pose proof (fo_addrs _ _ _ (wf_ok _ _ _ Hw)) as Hlen. pose proof (paid_cost _ _ _ Hcb). pose proof (ind_cost _ _ _ He).
  assert (in_file bn) as Hin by (unfold in_file, NDIRECT in *; change MAXFILE with 268; lia).
  assert (baddr L di bn = default 0 (lget bn (di_addrs di))) as Eslot.
  { rewrite slot_block by lia. unfold block_addr. now rewrite (proj2 (Z.ltb_lt _ _)) by lia. }
  pose proof (ind_missing_nonneg di).
  unfold bmap. rewrite (proj2 (Z.ltb_lt _ _)) by lia. wstep.
  eapply wpx_of_Ok; [apply (filing_addr_get n [] L D di s Hs bn Hlen); unfold NDIRECT in *; lia|].
  rewrite <- Eslot. destruct (Z.eqb_spec (baddr L di bn) 0) as [Hz|Hne].
  2: { apply wpx_ret. now apply (mapped_present r f bn L D). }
  cbn [negb]. wstep. eapply wpx_of_Ok; [exact (filing_getinode _ _ _ _ _ _ Hs)|]. fields. rewrite Hdev.
  destruct (ready_first _ _ _ _ _ _ Hr) as (j & b & Hff); [lia|].
  wcall (filing_balloc n [] L D di s Hs cb j b) as r1 s1 (-> & L1 & D1 & Hs1 & Ht & HD);
    [exact Hm|apply not_elem_of_nil|exact Hff|exact Hcb|lia|cbn; lia|].
  wcall (filing_addr_set _ _ _ _ _ _ Hs1 bn b Hlen) as [] s2 Hs2; [unfold NDIRECT in *; lia|].
  apply wpx_ret. set (di' := set_di_addrs (<[Z.to_nat bn := b]> (di_addrs di)) di) in *.
  pose proof (fills_direct R b L L1 di Hgeo Hw Ht bn Hbn Hz) as Hfl. fold di' in Hfl.
  assert (indirect di' = indirect di) as Ei by now apply indirect_insert.
  pose proof (taken_count R b L L1 Hgeo Ht) as Hcount.
  exists L1, D1, di', 0. split; [|split; [|split; [|split; [|split; [|split]]]]].
  - eapply (filled _ _ bn b L di L1 D1 di' _ (n - cb - 1) 0 e); try eassumption.
    + now apply (taken_meta b L).
    + right. split; [reflexivity|]. apply HD. auto.
    + destruct He as [->|(-> & He1 & He2)]; [now left|right]. rewrite Ei. split; [reflexivity|].
      split; [exact He1|]. apply HD. auto.
    + lia.
    + unfold ind_missing in *. rewrite Ei. lia.
  - right. split; [reflexivity|]. apply HD. auto.
  - rewrite (fl_slot _ _ _ _ _ _ _ Hfl) by exact Hin. now rewrite Z.eqb_refl.
  - pose proof (fills_b R bn b L L1 di di' Hgeo Hfl). lia.
  - now apply (fills_grows R bn b L L1 di di').
  - reflexivity.
  - intros off. now apply (fills_byte R bn b L L1 di di').
Qed.

(** The indirect block is added when it is missing. *)
Definition pointed (r f : Z) (L : blockmap) (di : dinode) (a : Z) (s : kstate) : Prop :=
  exists L' D' di', ready r f L' D' di' s /\ a = indirect di' /\ a <> 0 /\
    grows R L di L' di' /\ di_size di' = di_size di /\
    forall off, 0 <= off -> off / BSIZE < MAXFILE -> file_byte L' di' off = file_byte L di off.

Lemma bmap_pointer r f L D di s :
  ready r f L D di s -> indirect di = 0 -> 1 <= r -> 0 <= f ->
  wp (addr <- balloc 0;; _ <- addr_set i NDIRECT addr;; ret addr) (pointed r f L di) s.
Proof.
  intros Hr Hz Hr1 Hf1. pose proof Hr as [Hw Hm Hf (n & cb & e & Hs & Hcb & He & Hn)].
  pose proof (fo_addrs _ _ _ (wf_ok _ _ _ Hw)) as Hlen. pose proof (paid_cost _ _ _ Hcb).
  assert (e = 1) as -> by (destruct He as [?|(_ & ? & _)]; congruence).
  unfold ind_missing in Hf. rewrite Hz in Hf. cbn [Z.eqb] in Hf.
  destruct (free_first L R) as (j & b & Hff); [lia|].
  wcall (filing_balloc n [] L D di s Hs cb j b) as r1 s1 (-> & L1 & D1 & Hs1 & Ht & HD);
    [exact Hm|apply not_elem_of_nil|exact Hff|exact Hcb|lia|cbn; lia|].
  wcall (filing_addr_set _ _ _ _ _ _ Hs1 NDIRECT b Hlen) as [] s2 Hs2; [easy|].
  apply wpx_ret. set (di' := set_di_addrs (<[Z.to_nat NDIRECT := b]> (di_addrs di)) di) in *.
  pose proof (fills_pointer R b L L1 di Hgeo Hw Ht Hz) as Hfl. fold di' in Hfl.
  assert (in_file (-1)) as Hin by (unfold in_file; easy).
  assert (indirect di' = b) as Ei.
  { change (baddr L1 di' (-1) = b). now rewrite (fl_slot _ _ _ _ _ _ _ Hfl (-1) Hin). }
  pose proof (fills_b R (-1) b L L1 di di' Hgeo Hfl) as Hb.
  pose proof (taken_count R b L L1 Hgeo Ht) as Hcount.
  exists L1, D1, di'. split; [|split; [|split; [|split; [|split]]]].
  - eapply (filled _ _ (-1) b L di L1 D1 di' _ (n - cb - 1) 0 0); try eassumption.
    + now apply (taken_meta b L).
    + right. split; [reflexivity|]. apply HD. auto.
    + right. rewrite Ei. split; [reflexivity|]. split; [lia|]. apply HD. auto.
    + lia.
    + unfold ind_missing. rewrite Ei, (proj2 (Z.eqb_neq b 0)) by lia. lia.
  - now rewrite Ei.
  - lia.
  - now apply (fills_grows R (-1) b L L1 di di').
  - reflexivity.
  - intros off. now apply (fills_byte R (-1) b L L1 di di').
Qed.

(** Entry [bn] of the indirect block. *)
Lemma bmap_entry r f bn L D di s :
  ready r f L D di s -> indirect di <> 0 -> 1 <= r -> 1 <= f -> NDIRECT <= bn < MAXFILE ->
  wp (bmap_indirect i (indirect di) (bn - NDIRECT) true) (mapped r f bn L di) s.
Proof.
  intros Hr Hi Hr1 Hf1 Hbn. pose proof Hr as [Hw Hm Hf (n & cb & e & Hs & Hcb & He & Hn)].
  pose proof (paid_cost _ _ _ Hcb) as Hcb1. pose proof (ind_cost _ _ _ He) as He1.
  assert (in_file bn) as Hin by (unfold in_file, NDIRECT in *; lia).
  assert (in_file (-1)) as Hin1 by (unfold in_file; easy).
  destruct (wf_data _ _ _ Hw (-1) Hin1 Hi) as [Hrange _]. change (baddr L di (-1)) with (indirect di) in Hrange.
  pose proof (dg_data _ Hgeo _ Hrange) as Hlog. pose proof (data_start_bmap _ Hgeo) as Hds.
  assert (baddr L di bn = ind_get (bn - NDIRECT) (block L (indirect di))) as Eslot.
  { rewrite slot_block by (unfold NDIRECT in *; lia). unfold block_addr.
    rewrite (proj2 (Z.ltb_ge _ _)), (proj2 (Z.eqb_neq _ _)) by (exact Hi || lia). reflexivity. }
  assert (ind_missing di = 0) as Hmis by (unfold ind_missing; now rewrite (proj2 (Z.eqb_neq _ _) Hi)).
  unfold bmap_indirect. wstep. eapply wpx_of_Ok; [exact (filing_getinode _ _ _ _ _ _ Hs)|]. fields. rewrite Hdev.
  pose proof (filing_settled n [] L D di s Hs (indirect di) (not_elem_of_nil _)) as Hset.
  wcall (filing_bread n [] L D di s Hs) as bp s1 Hs1; [exact Hlog|cbn; lia|].
  wcall (filing_bdata n _ L D di s1 Hs1 (indirect di) bp) as d s2 (-> & -> & Hlen); [left|].
  rewrite <- Eslot, andb_true_r. destruct (Z.eqb_spec (baddr L di bn) 0) as [Hz|Hne].
  2: { wsteps. wcall filing_brelse as [] s3 Hs3; [exact Hs1|exact Hset|].
       apply wpx_ret. apply (mapped_present r f bn L D); [|exact Hne].
       split; [exact Hw|exact Hm|exact Hf|]. exists n, cb, e. auto. }
  destruct (free_first L R) as (j & b & Hff); [lia|].
  wstep. wcall (filing_balloc n _ L D di s1 Hs1 cb j b) as r1 s2 (-> & L1 & D1 & Hs2 & Ht & HD);
    [exact Hm| |exact Hff|exact Hcb|lia|cbn; lia|].
  { cbn. intros ?%list_elem_of_singleton. lia. }
  pose proof (fills_entry R b L L1 di Hgeo Hw Ht bn Hbn Hi Hz Hlen) as Hfl.
  set (L2 := write _ _ L1) in Hfl. apply wpx_assoc.
  assert (block L1 (indirect di) = block L (indirect di)) as Eb.
  { unfold block. now rewrite (taken_indirect R b L L1 di Hgeo Hw Ht Hi). }
  assert (paid D1 (indirect di) e) as Hep.
  { destruct He as [->|(-> & _ & HDi)]; [now left|right]. split; [reflexivity|]. apply HD. auto. }
  wcall (filing_mod _ _ _ _ _ _ Hs2 e (indirect di) bp (ind_put (bn - NDIRECT) b)) as [] s3 Hs3;
    [left|exact Hlog| |exact Hep|lia|].
  { rewrite Eb, length_ind_put; [exact Hlen| |exact Hlen]. change NINDIRECT with 256. change MAXFILE with 268 in Hbn.
    unfold NDIRECT in *. lia. }
  wsteps. wcall filing_brelse as [] s4 Hs4; [exact Hs3|left; now left|].
  apply wpx_ret. fold L2 in Hs4.
  pose proof (fills_b R bn b L L2 di di Hgeo Hfl) as Hb.
  assert (forall k, mark (indirect di) D1 k <-> k = indirect di \/ k = b \/ k = bmap_block \/ D k) as HD'.
  { intros k. unfold mark. now rewrite HD. }
  exists L2, (mark (indirect di) D1), di, 0. split; [|split; [|split; [|split; [|split; [|split]]]]].
  - eapply (filled _ _ bn b L di L2 _ di _ (n - cb - 1 - e) 0 0); try eassumption.
    + apply (marks_meta L1); [exact Hgeo| |now apply (taken_meta b L)].
      intros c Hc. rewrite (fl_marks _ _ _ _ _ _ _ Hfl), (tb_marks _ _ _ _ Ht) by exact Hc. reflexivity.
    + right. split; [reflexivity|]. apply HD'. auto.
    + right. split; [reflexivity|]. split; [exact Hi|]. apply HD'. auto.
    + lia.
    + rewrite (count_marks L1 L2 R Hgeo); [pose proof (taken_count R b L L1 Hgeo Ht); lia|].
      intros c Hc. rewrite (fl_marks _ _ _ _ _ _ _ Hfl), (tb_marks _ _ _ _ Ht) by exact Hc. reflexivity.
  - right. split; [reflexivity|]. apply HD'. auto.
  - rewrite (fl_slot _ _ _ _ _ _ _ Hfl) by exact Hin. now rewrite Z.eqb_refl.
  - lia.
  - now apply (fills_grows R bn b L L2 di di).
  - reflexivity.
  - intros off. now apply (fills_byte R bn b L L2 di di).
Qed.

Lemma mapped_grows r f bn L di L1 di1 a s :
  grows R L di L1 di1 -> di_size di1 = di_size di ->
  (forall off, 0 <= off -> off / BSIZE < MAXFILE -> file_byte L1 di1 off = file_byte L di off) ->
  mapped r f bn L1 di1 a s -> mapped r f bn L di a s.
Proof.
  intros Hg Hsz Hb (L2 & D2 & di2 & c & Hr2 & Hp & Ha & Hne & Hg2 & Hsz2 & Hb2).
  exists L2, D2, di2, c. split; [exact Hr2|]. split; [exact Hp|]. split; [exact Ha|]. split; [exact Hne|].
  split; [eapply file_grows_trans; [exact Hgeo|apply (rd_file _ _ _ _ _ _ Hr2)|exact Hg|exact Hg2]|].
  split; [congruence|]. intros off H1 H2. now rewrite Hb2, Hb.
Qed.

Lemma bmap_creates r f bn L D di s :
  ready r f L D di s -> 1 <= r -> 1 <= f -> 0 <= bn < MAXFILE ->
  wp (bmap i bn true) (mapped r f bn L di) s.
Proof.
  intros Hr Hr1 Hf1 Hbn. destruct (decide (bn < NDIRECT)) as [Hd|Hd]; [apply (bmap_direct r f bn L D); auto; lia|].
  pose proof Hr as [Hw Hm Hf (n & cb & e & Hs & _)].
  pose proof (fo_addrs _ _ _ (wf_ok _ _ _ Hw)) as Hlen. change MAXFILE with 268 in Hbn. unfold NDIRECT in Hd.
  unfold bmap. rewrite (proj2 (Z.ltb_ge _ _)) by (unfold NDIRECT; lia).
  rewrite u32_id by (unfold NDIRECT; lia). change NINDIRECT with 256.
  rewrite (proj2 (Z.ltb_lt _ _)) by (unfold NDIRECT; lia).
  wstep. eapply wpx_of_Ok; [apply (filing_addr_get n [] L D di s Hs NDIRECT Hlen); easy|].
  fold (indirect di). destruct (Z.eqb_spec (indirect di) 0) as [Hz|Hi].
  2: { apply (bmap_entry r f bn L D); auto. unfold NDIRECT. change MAXFILE with 268. lia. }
  cbn [negb]. wstep. eapply wpx_of_Ok; [exact (filing_getinode _ _ _ _ _ _ Hs)|]. fields. rewrite Hdev.
  pose proof (bmap_pointer r f L D di s Hr Hz Hr1 ltac:(lia)) as Hp.
  destruct (proj1 (wp_Ok _ _ _) Hp) as (a & s1 & Hrun & (L1 & D1 & di1 & Hr1' & -> & Hi & Hg & Hsz & Hb)).
  apply bind_Ok_inv in Hrun as (b & s2 & Hrun1 & Hrun2). apply bind_Ok_inv in Hrun2 as ([] & s3 & Hrun2 & Hret).
  unfold ret in Hret. injection Hret as -> ->.
  wstep. eapply wpx_of_Ok; [exact Hrun1|]. wstep. eapply wpx_of_Ok; [exact Hrun2|].
  eapply wpx_conseq; [apply (bmap_entry r f bn L1 D1); auto; unfold NDIRECT; change MAXFILE with 268; lia|].
  intros a s4. now apply (mapped_grows r f bn L di L1 di1 a).
Qed.

(** ** writei *)

(** A file's byte after the bytes of [src] are stored from [off] on. *)
Definition stored (src : list Z) (off n : Z) (old : Z -> Z) (x : Z) : Z :=
  if decide (off <= x < off + n) then default 0 (src !! Z.to_nat (x - off)) else old x.

Lemma stored_ext src off n old old' x : old x = old' x -> stored src off n old x = stored src off n old' x.
Proof. intros E. unfold stored. case_decide; [reflexivity|exact E]. Qed.

Lemma ready_weaken r f r' f' L D di s : ready r f L D di s -> r' <= r -> f' <= f -> ready r' f' L D di s.
Proof.
  intros [Hw Hm Hf (n & cb & e & Hs & Hcb & He & Hn)] H1 H2. split; [exact Hw|exact Hm|lia|].
  exists n, cb, e. split; [exact Hs|]. split; [exact Hcb|]. split; [exact He|lia].
Qed.

(** Storing [bs] at [o] in the block of the file at [baddr L di bn]. *)
Lemma put_stored L di bn off bs x :
  wfile L R di -> bn = off / BSIZE -> 0 <= bn < MAXFILE -> baddr L di bn <> 0 -> 0 <= off ->
  length (block L (baddr L di bn)) = Z.to_nat BSIZE -> off mod BSIZE + Z.of_nat (length bs) <= BSIZE ->
  0 <= x -> x / BSIZE < MAXFILE ->
  file_byte (write (baddr L di bn) (splice (Z.to_nat (off mod BSIZE)) bs (block L (baddr L di bn))) L) di x =
    stored bs off (Z.of_nat (length bs)) (file_byte L di) x.
Proof.
  intros Hw Ebn Hbn Hne Ho Hlen Hfit Hx Hxb. unfold BSIZE in *.
  rewrite (put_byte R) by assumption. unfold stored. unfold BSIZE in *.
  destruct (Z.eqb_spec (x / 1024) bn) as [E|Hn].
  - rewrite splice_byte by (rewrite Hlen; mlia).
    destruct (decide (off <= x < off + Z.of_nat (length bs))) as [Hin|Hout].
    + rewrite decide_True by mlia. do 2 f_equal. mlia.
    + rewrite decide_False by mlia. unfold file_byte, BSIZE. rewrite E, <- slot_block by lia.
      now rewrite (proj2 (Z.eqb_neq _ _) Hne).
  - rewrite decide_False; [reflexivity|]. mlia.
Qed.

(** One round of the loop after [bmap]. *)
Lemma writei_put r f bn L di a s off bs :
  mapped r f bn L di a s -> bn = off / BSIZE -> 0 <= off -> 0 <= bn < MAXFILE -> 1 <= r ->
  off mod BSIZE + Z.of_nat (length bs) <= BSIZE ->
  wp (bp <- bread 0 a;; _ <- mod_bdata bp (splice (Z.to_nat (off mod BSIZE)) bs);; _ <- log_write bp;; brelse bp)
    (fun _ s' => exists L' D' di', ready (r - 1) (f - 1) L' D' di' s' /\ grows R L di L' di' /\ di_size di' = di_size di /\
       forall x, 0 <= x -> x / BSIZE < MAXFILE ->
         file_byte L' di' x = stored bs off (Z.of_nat (length bs)) (file_byte L di) x) s.
Proof.
  intros (L1 & D1 & di1 & c & [Hw Hm Hf (n & cb & e & Hs & Hcb & He & Hn)] & Hc & -> & Hne & Hg & Hsz & Hb) Ebn Ho Hbn Hr Hfit.
  pose proof (paid_cost _ _ _ Hc) as Hc1. pose proof (paid_cost _ _ _ Hcb) as Hcb1. pose proof (ind_cost _ _ _ He) as He1.
  assert (in_file bn) as Hin by (unfold in_file; lia).
  destruct (wf_data _ _ _ Hw bn Hin Hne) as [Hrange _]. pose proof (dg_data _ Hgeo _ Hrange) as Hlog.
  set (a := baddr L1 di1 bn) in *.
  wcall (filing_bread n [] L1 D1 di1 s Hs) as bp s1 Hs1; [exact Hlog|cbn; lia|].
  pose proof (filing_length _ _ _ _ _ _ Hs1 a Hlog) as Hlen. apply wpx_assoc.
  set (d := splice (Z.to_nat (off mod BSIZE)) bs (block L1 a)).
  assert (length d = Z.to_nat BSIZE) as Hd.
  { unfold d. rewrite length_splice; [exact Hlen|]. rewrite Hlen. unfold BSIZE in *. mlia. }
  wcall (filing_mod _ _ _ _ _ _ Hs1 c a bp (splice (Z.to_nat (off mod BSIZE)) bs)) as [] s2 Hs2;
    [left|exact Hlog|exact Hd|exact Hc|lia|]. fold d in Hs2.
  eapply wpx_conseq; [eapply filing_brelse; [exact Hs2|left; now left]|]. intros [] s3 Hs3.
  assert (forall k, 0 <= k < BPB -> marked (write a d L1) sb k = marked L1 sb k) as Hmk
    by (intros k; apply (put_marked R); assumption).
  exists (write a d L1), (mark a D1), di1. split; [|split; [|split]].
  - split; [now apply put_wfile|now apply (marks_meta L1)| |].
    + rewrite (count_marks L1) by assumption. exact Hf.
    + exists (n - c), cb, e. split; [exact Hs3|]. split; [now apply paid_mark|]. split; [|lia].
      destruct He as [?|(? & ? & ?)]; [now left|right]. split; [assumption|]. split; [assumption|]. now right.
  - eapply file_grows_trans; [exact Hgeo| |exact Hg|]; [now apply put_wfile|now apply put_grows].
  - exact Hsz.
  - intros x Hx Hxb. unfold d, a. rewrite put_stored; try assumption.
    apply stored_ext. now apply Hb.
Qed.

(** What a write from [off] on leaves. *)
Definition stores (r f : Z) (src : list Z) (off n : Z) (L : blockmap) (di : dinode) (s : kstate) : Prop :=
  exists L' D' di', ready r f L' D' di' s /\ grows R L di L' di' /\ di_size di' = di_size di /\
    forall x, 0 <= x -> x / BSIZE < MAXFILE -> file_byte L' di' x = stored src off n (file_byte L di) x.

Lemma stores_nothing r f src off L D di s : ready r f L D di s -> 0 <= r -> stores 0 (f - r) src off 0 L di s.
Proof.
  intros Hr H0. exists L, D, di. split; [apply (ready_weaken r f); [exact Hr|lia|lia]|].
  split; [now apply file_grows_refl; destruct Hr|]. split; [reflexivity|].
  intros x _ _. unfold stored. now rewrite decide_False by lia.
Qed.

Lemma stored_app src1 src2 off n1 n2 old x :
  Z.of_nat (length src1) = n1 -> 0 <= n2 ->
  stored src2 (off + n1) n2 (stored src1 off n1 old) x = stored (src1 ++ src2) off (n1 + n2) old x.
Proof.
  intros Hl Hn. unfold stored. do 2 case_decide; try case_decide; try lia; try reflexivity.
  - rewrite lookup_app_r by lia. f_equal. f_equal. lia.
  - rewrite lookup_app_l by lia. reflexivity.
Qed.

Lemma stored_split src off m n old x :
  0 <= m <= n -> m <= Z.of_nat (length src) ->
  stored (drop (Z.to_nat m) src) (off + m) (n - m) (stored (take (Z.to_nat m) src) off m old) x = stored src off n old x.
Proof.
  intros Hm Hl. rewrite stored_app by (rewrite ?length_take; lia). rewrite take_drop. do 2 f_equal. lia.
Qed.

(** A round of the loop: the piece of [m] bytes is stored, and the loop goes on. *)
Lemma writei_round E fuel r f off n tot src L D di s Q :
  let m := Z.min (n - tot) (BSIZE - off mod BSIZE) in
  ready r f L D di s -> 1 <= r <= f -> 0 <= off < MAXFILE * BSIZE -> 0 <= tot < n -> n < 2 ^ 32 ->
  n - tot <= Z.of_nat (length src) ->
  (forall L1 D1 di1 s1, ready (r - 1) (f - 1) L1 D1 di1 s1 -> grows R L di L1 di1 -> di_size di1 = di_size di ->
     (forall x, 0 <= x -> x / BSIZE < MAXFILE ->
        file_byte L1 di1 x = stored (take (Z.to_nat m) src) off m (file_byte L di) x) ->
     wpx E (writei_loop fuel i (drop (Z.to_nat m) src) (off + m) n (tot + m)) Q s1) ->
  wpx E (writei_loop (S fuel) i src off n tot) Q s.
Proof.
  intros m Hr Hr1 Ho Ht Hn Hsrc Hnext. cbn [writei_loop]. rewrite (proj2 (Z.ltb_lt _ _)) by lia.
  change (MAXFILE * BSIZE) with 274432 in Ho.
  assert (0 <= off / BSIZE < MAXFILE) as Hbn by (change MAXFILE with 268; unfold BSIZE; mlia).
  pose proof (Z.mod_pos_bound off BSIZE ltac:(easy)) as Hmod.
  apply wpx_bind. eapply wpx_conseq; [apply wp_weaken, (bmap_creates r f (off / BSIZE) L D di s Hr); [lia|lia|exact Hbn]|].
  intros a s1 Hmap. cbn beta.
  pose proof Hmap as (L0 & D0 & di0 & c0 & [_ _ _ (n0 & cb0 & e0 & Hs0 & _)] & _ & _ & Hne & _).
  rewrite (proj2 (Z.eqb_neq a 0) Hne). wstep.
  eapply wpx_of_Ok; [exact (filing_getinode _ _ _ _ _ _ Hs0)|]. fields. rewrite Hdev. cbv zeta.
  replace (if n - tot <? BSIZE - off mod BSIZE then n - tot else BSIZE - off mod BSIZE) with m
    by (unfold m; destruct (Z.ltb_spec (n - tot) (BSIZE - off mod BSIZE)); lia).
  assert (0 < m <= n - tot /\ off mod BSIZE + m <= BSIZE) as [Hm Hmb] by (unfold m; lia).
  destruct (decide (m <= Z.of_nat (length src))) as [_|]; [|lia].
  apply wpx_block. set (bs := take (Z.to_nat m) src).
  assert (Z.of_nat (length bs) = m) as Hbs by (unfold bs; rewrite length_take; lia).
  eapply wpx_conseq; [apply wp_weaken; eapply (writei_put r f (off / BSIZE) L di a s1 off bs Hmap); try reflexivity; lia|].
  intros _ s2 (L1 & D1 & di1 & Hr2 & Hg1 & Hsz1 & Hb1). rewrite !u32_id by (unfold BSIZE in *; lia). rewrite Hbs in Hb1. eauto.
Qed.

Lemma writei_loop_run fuel : forall r f off n tot src L D di s,
  ready r f L D di s -> 0 <= r <= f -> 0 <= off -> 0 <= tot <= n -> n < 2 ^ 32 -> off + (n - tot) <= MAXFILE * BSIZE ->
  n - tot <= Z.of_nat (length src) ->
  (tot < n -> off mod BSIZE + (n - tot) <= r * BSIZE) ->
  (tot < n -> off mod BSIZE + (n - tot) <= Z.of_nat fuel * BSIZE) ->
  wp (writei_loop fuel i src off n tot)
    (fun o s' => o = Some (off + (n - tot)) /\ stores 0 (f - r) src off (n - tot) L di s') s.
Proof.
  induction fuel as [|fuel IH]; intros r f off n tot src L D di s Hr Hr0 Ho Ht Hn Hend Hsrc Hroom Hfuel;
    (destruct (decide (tot < n)) as [Hlt|Hge];
      [|replace n with tot by lia; cbn [writei_loop]; rewrite Z.ltb_irrefl, Z.sub_diag, Z.add_0_r; apply wpx_ret;
        split; [reflexivity|]; apply (stores_nothing r f _ _ _ D); [exact Hr|lia]]);
    specialize (Hroom Hlt); specialize (Hfuel Hlt); pose proof (Z.mod_pos_bound off BSIZE ltac:(easy)) as Hmod.
  - lia.
  - change (MAXFILE * BSIZE) with 274432 in *. set (m := Z.min (n - tot) (BSIZE - off mod BSIZE)).
    apply (writei_round no_panic fuel r f off n tot src L D di s);
      [exact Hr|unfold BSIZE in *; lia|change (MAXFILE * BSIZE) with 274432; lia|lia|exact Hn|exact Hsrc|]. fold m.
    intros L1 D1 di1 s2 Hr2 Hg1 Hsz1 Hb1. assert (0 < m <= n - tot) as Hm by (unfold m; lia).
    assert (tot + m < n -> m = BSIZE - off mod BSIZE) as Efull by (unfold m; lia).
    eapply wpx_conseq; [eapply (IH (r - 1) (f - 1)); [exact Hr2|unfold BSIZE in *; lia|lia|lia|exact Hn|lia| | |]|].
    + rewrite length_drop. lia.
    + intros Hlt2. rewrite (Efull Hlt2). unfold BSIZE in *. mlia.
    + intros Hlt2. rewrite (Efull Hlt2). unfold BSIZE in *. mlia.
    + intros o s3 [-> (L2 & D2 & di2 & Hr3 & Hg2 & Hsz2 & Hb2)]. split; [f_equal; lia|].
      exists L2, D2, di2. split; [now replace (f - r) with (f - 1 - (r - 1)) by lia|].
      split; [eapply file_grows_trans; [exact Hgeo|apply (rd_file _ _ _ _ _ _ Hr3)|exact Hg1|exact Hg2]|].
      split; [congruence|]. intros x Hx Hxb. rewrite Hb2 by assumption.
      rewrite <- (stored_split src off m (n - tot)) by lia. replace (n - (tot + m)) with (n - tot - m) by lia.
      apply stored_ext. now apply Hb1.
Qed.

(** Behind the last block of a file. *)
Definition past_end (msg : list Z) (_ : kstate) : Prop := msg = str "bmap: out of range".

Lemma bmap_past create (Q : Z -> kstate -> Prop) s : wpx past_end (bmap i MAXFILE create) Q s.
Proof. reflexivity. Qed.

(** A write that goes past the largest file: the blocks before its end are written,
    and then [bmap] panics. *)
Lemma writei_loop_past fuel : forall r f off n tot src L D di s,
  ready r f L D di s -> 0 <= r <= f -> 0 <= off <= MAXFILE * BSIZE -> 0 <= tot -> n < 2 ^ 32 ->
  MAXFILE * BSIZE < off + (n - tot) -> n - tot <= Z.of_nat (length src) ->
  (off < MAXFILE * BSIZE -> off mod BSIZE + (MAXFILE * BSIZE - off) <= r * BSIZE) ->
  off mod BSIZE + (n - tot) <= Z.of_nat fuel * BSIZE ->
  wpx past_end (writei_loop fuel i src off n tot) (fun _ _ => False) s.
Proof.
  induction fuel as [|fuel IH]; intros r f off n tot src L D di s Hr Hr0 Ho Ht Hn Hend Hsrc Hroom Hfuel;
    pose proof (Z.mod_pos_bound off BSIZE ltac:(easy)) as Hmod; [lia|].
  change (MAXFILE * BSIZE) with 274432 in *. destruct (decide (off = 274432)) as [->|Hne].
  - cbn [writei_loop]. rewrite (proj2 (Z.ltb_lt _ _)) by lia. apply wpx_bind.
    change (274432 / BSIZE) with MAXFILE. apply bmap_past.
  - specialize (Hroom ltac:(lia)).
    assert (Z.min (n - tot) (BSIZE - off mod BSIZE) = BSIZE - off mod BSIZE) as Em by (unfold BSIZE in *; mlia).
    apply (writei_round past_end fuel r f off n tot src L D di s);
      [exact Hr|unfold BSIZE in *; lia|change (MAXFILE * BSIZE) with 274432; lia|lia|exact Hn|exact Hsrc|]. rewrite Em.
    intros L1 D1 di1 s1 Hr1 _ _ _.
    eapply (IH (r - 1) (f - 1)); [exact Hr1|unfold BSIZE in *; lia|unfold BSIZE in *; mlia|unfold BSIZE in *; lia|exact Hn|lia| | |].
    + rewrite length_drop. lia.
    + intros _. unfold BSIZE in *. mlia.
    + unfold BSIZE in *. mlia.
Qed.
End writing.
