(* ===== verification/Store.v ===== *)
(** * The file system under writes

    [fs_ok]: the tree on the disk, the bitmap and the owners of the blocks agree.
    A write of a file keeps it so, changes the bytes that it should and no other
    file; the file that is read afterwards is the one that was written. *)
From S2P Require Import Prelude State Printf Bio Blocks Log Txn Update Fs Layout Inodes Icache Paths Tree Alloc Slots Writing.

(** ** Specification *)

(** The blocks of the inodes lie before the bitmap and can be logged. *)
Record inode_geo (R : kstate) : Prop := {
  ig_log : forall inum, 0 < inum < sb_ninodes (ks_sb R) -> loggable R (IBLOCK inum (ks_sb R));
  ig_start : 0 <= sb_inodestart (ks_sb R);
  ig_end : sb_inodestart (ks_sb R) + sb_ninodes (ks_sb R) / IPB < sb_bmapstart (ks_sb R) }.

Record fs_ok (L : blockmap) (R : kstate) : Prop := {
  fs_tree : tree_ok L (ks_sb R) R;
  fs_bitmap : bitmap_ok L (ks_sb R);
  fs_disk : disk_geo R;
  fs_inodes : inode_geo R;
  fs_files : forall inum, allocated L (ks_sb R) inum -> wfile L R (disk_inode L (ks_sb R) inum);
  fs_owner : forall j k b, allocated L (ks_sb R) j -> allocated L (ks_sb R) k ->
    owns L (disk_inode L (ks_sb R) j) b -> owns L (disk_inode L (ks_sb R) k) b -> j = k }.

(** ** Lemmas *)

Section fs.
Context (R : kstate).
Hypothesis Hgeo : disk_geo R.
Hypothesis Hig : inode_geo R.
Abbreviation sb := (ks_sb R).

Lemma iblock_value inum : 0 < inum < sb_ninodes sb ->
  IBLOCK inum sb = inum / IPB + sb_inodestart sb /\ 0 < IBLOCK inum sb < sb_bmapstart sb.
Proof.
  intros Hi. destruct (ig_log _ Hig inum Hi) as (Hr & _). destruct (dg_bmap _ Hgeo) as (Hb & _).
  pose proof (ig_start _ Hig). pose proof (ig_end _ Hig).
  assert (inum / IPB <= sb_ninodes sb / IPB) by (apply Z.div_le_mono; [reflexivity|lia]).
  assert (0 <= inum / IPB) by (apply Z.div_pos; [lia|reflexivity]).
  assert (IBLOCK inum sb = inum / IPB + sb_inodestart sb) as E by (unfold IBLOCK; apply u32_id; lia).
  split; [exact E|]. lia.
Qed.

(** Two inodes are in different blocks or at different places of one. *)
Lemma iblock_apart j k : 0 < j < sb_ninodes sb -> 0 < k < sb_ninodes sb -> j <> k ->
  IBLOCK j sb <> IBLOCK k sb \/ (dinode_off j + 64 <= dinode_off k \/ dinode_off k + 64 <= dinode_off j)%nat.
Proof.
  intros Hj Hk Hne. destruct (iblock_value j Hj) as [-> _], (iblock_value k Hk) as [-> _].
  destruct (decide (j / IPB = k / IPB)) as [E|E]; [right|left; lia].
  unfold dinode_off. change IPB with 16 in *. unfold SIZEOF_DINODE. mlia.
Qed.

Lemma dinode_off_fits inum : (dinode_off inum + 64 <= Z.to_nat BSIZE)%nat.
Proof. unfold dinode_off. change IPB with 16. unfold SIZEOF_DINODE, BSIZE. mlia. Qed.

(** The fields of a file's inode are within their ranges. *)
Lemma file_typed L di :
  file_ok L R di -> short (di_type di) -> short (di_major di) -> short (di_minor di) -> short (di_nlink di) -> typed di.
Proof.
  intros Hf H1 H2 H3 H4. split; try assumption.
  - pose proof (fo_size _ _ _ Hf) as H. change (MAXFILE * BSIZE) with 274432 in H. unfold uint. lia.
  - pose proof (fo_addrs _ _ _ Hf) as Hl. split; [exact Hl|]. apply Forall_lookup. intros k a Hk.
    pose proof (lookup_lt_Some _ _ _ Hk) as Hlt.
    assert (lget (Z.of_nat k) (di_addrs di) = Some a) as Eg.
    { unfold lget. now rewrite decide_True, Nat2Z.id by lia. }
    assert (a = 0 \/ usable R a) as [->|[Hr _]]; [|unfold uint; lia|unfold uint; lia].
    destruct (decide (k = 12)%nat) as [->|Hk12].
    + pose proof (fo_indirect _ _ _ Hf) as H. unfold indirect in H.
      change (Z.of_nat 12) with NDIRECT in Eg. rewrite Eg in H. exact H.
    + pose proof (fo_block _ _ _ Hf (Z.of_nat k)) as H. unfold block_addr in H.
      rewrite (proj2 (Z.ltb_lt _ _)), Eg in H by (unfold NDIRECT; lia). apply H. change MAXFILE with 268. lia.
Qed.

Lemma disk_inode_short L inum :
  let di := disk_inode L sb inum in
  short (di_type di) /\ short (di_major di) /\ short (di_minor di) /\ short (di_nlink di).
Proof. repeat split; apply i16_range. Qed.
End fs.

Lemma owned_owns sb L0 b : 0 < data_start sb ->
  owned L0 sb b <-> b < data_start sb \/ exists j, allocated L0 sb j /\ owns L0 (disk_inode L0 sb j) b.
Proof.
  intros Hds. unfold owned. split; (intros [Hb|(j & Hj & Hb)]; [now left|]).
  - destruct (decide (b < data_start sb)); [now left|right]. exists j. split; [exact Hj|]. split; [lia|].
    destruct Hb as [->|(bn & Hbn & ->)].
    + exists (-1). split; [unfold in_file; easy|reflexivity].
    + exists bn. split; [unfold in_file; lia|apply slot_block; lia].
  - right. exists j. split; [exact Hj|]. destruct Hb as (_ & x & Hx & <-). unfold baddr.
    destruct (Z.ltb_spec x 0); [now left|right]. exists x. unfold in_file in Hx. split; [lia|reflexivity].
Qed.

(** ** What is left alone *)

Section kept.
Context (R : kstate) (L : blockmap) (inum : Z).
Hypothesis Hfs : fs_ok L R.
Abbreviation sb := (ks_sb R).
Hypothesis Ha : allocated L sb inum.
Abbreviation di := (disk_inode L sb inum).
Context (L1 : blockmap) (d1 : dinode).
Hypothesis Hw1 : wfile L1 R d1.
Hypothesis Hg : grows R L di L1 d1.

Lemma kept_range k : owns L1 d1 k -> data_start sb <= k < sb_size sb.
Proof. intros (Hk & x & Hx & <-). now apply (wf_data _ _ _ Hw1). Qed.

(** A block of another file. *)
Lemma kept_other j k :
  allocated L sb j -> j <> inum -> owns L (disk_inode L sb j) k -> k <> sb_bmapstart sb /\ ~ owns L1 d1 k /\ L1 k = L k.
Proof.
  intros Hj Hne Ho. pose proof Ho as (Hk & y & Hy & Hs).
  pose proof (fs_files _ _ Hfs j Hj) as Hwj.
  destruct (wf_data _ _ _ Hwj y Hy) as [Hr Hm]; [congruence|]. rewrite Hs in Hr, Hm.
  pose proof (data_start_bmap _ (fs_disk _ _ Hfs)) as Hds.
  assert (~ owns L1 d1 k) as Hno.
  { intros (_ & x & Hx & Hsx). destruct (gr_slot _ _ _ _ _ Hg x Hx) as [E|[_ E]].
    - apply Hne, (fs_owner _ _ Hfs j inum k Hj Ha Ho). split; [exact Hk|]. exists x. split; [exact Hx|congruence].
    - rewrite Hsx in E. congruence. }
  split; [lia|]. split; [exact Hno|]. apply (gr_same _ _ _ _ _ Hg); [lia|exact Hno].
Qed.

Lemma kept_iblock j : 0 < j < sb_ninodes sb -> L1 (IBLOCK j sb) = L (IBLOCK j sb).
Proof.
  intros Hj. destruct (iblock_value R (fs_disk _ _ Hfs) (fs_inodes _ _ Hfs) j Hj) as [_ Hr].
  pose proof (data_start_bmap _ (fs_disk _ _ Hfs)) as Hds.
  apply (gr_same _ _ _ _ _ Hg); [lia|]. intros Ho%kept_range. lia.
Qed.

(** After the inode has been written as well. *)
Context (d2 : dinode).
Hypothesis Hd2 : di_addrs d2 = di_addrs d1.
Hypothesis Ht2 : typed d2.
Hypothesis Hlen : length (block L (IBLOCK inum sb)) = Z.to_nat BSIZE.
Abbreviation ib := (IBLOCK inum sb).
Definition stored_inode : blockmap := write ib (put_dinode (dinode_off inum) d2 (block L1 ib)) L1.
Abbreviation L2 := stored_inode.

Lemma inum_range : 0 < inum < sb_ninodes sb.
Proof. apply Ha. Qed.

Lemma ib_range : 0 < ib < sb_bmapstart sb /\ sb_bmapstart sb < data_start sb.
Proof.
  split; [|apply (data_start_bmap _ (fs_disk _ _ Hfs))].
  apply (iblock_value R (fs_disk _ _ Hfs) (fs_inodes _ _ Hfs) inum inum_range).
Qed.

Lemma stored_ne k : k <> ib -> L2 k = L1 k.
Proof. intros Hk. unfold stored_inode, write. now rewrite decide_False. Qed.

Lemma stored_disk_inode j : 0 < j < sb_ninodes sb ->
  disk_inode L2 sb j = if j =? inum then d2 else disk_inode L sb j.
Proof.
  intros Hj. assert (block L1 ib = block L ib) as Eb by (unfold block; now rewrite (kept_iblock inum inum_range)).
  unfold disk_inode. destruct (Z.eqb_spec j inum) as [->|Hne].
  - unfold block at 1, stored_inode, write. rewrite decide_True by reflexivity. cbn [default id].
    apply dinode_at_put; [|exact Ht2]. rewrite Eb, Hlen. apply dinode_off_fits.
  - destruct (decide (IBLOCK j sb = ib)) as [E|E].
    + rewrite E. unfold block at 1, stored_inode, write. rewrite decide_True by reflexivity. cbn [default id].
      rewrite Eb. apply dinode_at_put_ne; [rewrite Hlen; apply dinode_off_fits|].
      destruct (iblock_apart R (fs_disk _ _ Hfs) (fs_inodes _ _ Hfs) j inum Hj inum_range Hne); [contradiction|assumption].
    + unfold block. rewrite stored_ne by exact E. now rewrite (kept_iblock j Hj).
Qed.

Lemma stored_slot x : in_file x -> baddr L2 d2 x = baddr L1 d1 x.
Proof.
  intros Hx. unfold baddr, block_addr, indirect. rewrite Hd2. fold (indirect d1).
  destruct (x <? 0); [reflexivity|]. destruct (x <? NDIRECT); [reflexivity|].
  destruct (Z.eqb_spec (indirect d1) 0) as [|Hi]; [reflexivity|]. unfold block. rewrite stored_ne; [reflexivity|].
  intros E. pose proof ib_range. assert (owns L1 d1 (indirect d1)) as Ho.
  { split; [exact Hi|]. exists (-1). split; [unfold in_file; easy|reflexivity]. }
  apply kept_range in Ho. lia.
Qed.

Lemma stored_byte x : 0 <= x -> x / BSIZE < MAXFILE -> file_byte L2 d2 x = file_byte L1 d1 x.
Proof.
  intros Hx Hb. assert (0 <= x / BSIZE) by (unfold BSIZE in *; mlia).
  assert (in_file (x / BSIZE)) as Hin by (unfold in_file; lia).
  unfold file_byte. rewrite <- !slot_block, stored_slot by assumption.
  destruct (Z.eqb_spec (baddr L1 d1 (x / BSIZE)) 0) as [|Hz]; [reflexivity|].
  unfold block. rewrite stored_ne; [reflexivity|]. pose proof ib_range.
  pose proof (kept_range _ (owns_slot _ _ _ Hin Hz)). lia.
Qed.

Lemma stored_owns k : owns L2 d2 k <-> owns L1 d1 k.
Proof.
  split; intros (Hk & y & Hy & Hs); (split; [exact Hk|]); exists y; (split; [exact Hy|]);
    [rewrite <- stored_slot by exact Hy; exact Hs|rewrite stored_slot by exact Hy; exact Hs].
Qed.

Lemma stored_marked c : 0 <= c < BPB -> marked L2 sb c = marked L1 sb c.
Proof.
  intros Hc. apply (marked_frame R); [apply (fs_disk _ _ Hfs)|exact Hc|]. apply stored_ne. pose proof ib_range. lia.
Qed.

(** *** The other files *)

Lemma other_same j k : allocated L sb j -> j <> inum -> owns L (disk_inode L sb j) k -> L2 k = L k.
Proof.
  intros Hj Hne Ho. destruct (kept_other j k Hj Hne Ho) as (_ & _ & <-). apply stored_ne.
  pose proof ib_range. destruct Ho as (Hk & y & Hy & Hs).
  destruct (wf_data _ _ _ (fs_files _ _ Hfs j Hj) y Hy); [congruence|lia].
Qed.

Lemma other_slot j x : allocated L sb j -> j <> inum -> baddr L2 (disk_inode L sb j) x = baddr L (disk_inode L sb j) x.
Proof.
  intros Hj Hne. set (dj := disk_inode L sb j). unfold baddr, block_addr.
  destruct (x <? 0); [reflexivity|]. destruct (x <? NDIRECT); [reflexivity|].
  destruct (Z.eqb_spec (indirect dj) 0) as [|Hi]; [reflexivity|]. unfold block.
  rewrite (other_same j (indirect dj) Hj Hne); [reflexivity|]. split; [exact Hi|].
  exists (-1). split; [unfold in_file; easy|reflexivity].
Qed.

Lemma other_byte j x : allocated L sb j -> j <> inum -> 0 <= x -> x / BSIZE < MAXFILE ->
  file_byte L2 (disk_inode L sb j) x = file_byte L (disk_inode L sb j) x.
Proof.
  intros Hj Hne Hx Hb. assert (0 <= x / BSIZE) by (unfold BSIZE in *; mlia).
  assert (in_file (x / BSIZE)) as Hin by (unfold in_file; lia).
  unfold file_byte. rewrite <- !slot_block, other_slot by assumption.
  destruct (Z.eqb_spec (baddr L (disk_inode L sb j) (x / BSIZE)) 0) as [|Hz]; [reflexivity|].
  unfold block. rewrite (other_same j _ Hj Hne); [reflexivity|]. now apply owns_slot.
Qed.

Lemma other_owns j k : allocated L sb j -> j <> inum ->
  owns L2 (disk_inode L sb j) k <-> owns L (disk_inode L sb j) k.
Proof.
  intros Hj Hne. split; intros (Hk & y & Hy & Hs); (split; [exact Hk|]); exists y; (split; [exact Hy|]);
    [rewrite <- other_slot by assumption; exact Hs|rewrite other_slot by assumption; exact Hs].
Qed.

(** *** The file system again *)

Hypothesis Htype : di_type d2 = di_type di.
Hypothesis Hnlink : di_nlink d2 = di_nlink di.
Hypothesis Hsize : 0 <= di_size d2 <= MAXFILE * BSIZE.
Hypothesis Hnotdir : di_type di <> T_DIR.

Lemma stored_allocated j : allocated L2 sb j <-> allocated L sb j.
Proof.
  unfold allocated. split; intros [Hj Ht]; (split; [exact Hj|]).
  - rewrite stored_disk_inode in Ht by exact Hj. destruct (Z.eqb_spec j inum) as [->|]; [congruence|exact Ht].
  - rewrite stored_disk_inode by exact Hj. destruct (Z.eqb_spec j inum) as [->|]; [congruence|exact Ht].
Qed.

Lemma stored_inode_of j : allocated L sb j ->
  j = inum /\ disk_inode L2 sb j = d2 \/ j <> inum /\ disk_inode L2 sb j = disk_inode L sb j.
Proof.
  intros [Hj _]. rewrite stored_disk_inode by exact Hj. destruct (Z.eqb_spec j inum); auto.
Qed.

Lemma stored_wfile : wfile L2 R d2.
Proof.
  pose proof (dg_size _ (fs_disk _ _ Hfs)) as Hsz. pose proof ib_range as Hib. split.
  - destruct (wf_ok _ _ _ Hw1) as [H1 _ H3 H4]. split; [now rewrite Hd2|exact Hsize| |].
    + unfold indirect. rewrite Hd2. exact H3.
    + intros bn Hbn. rewrite <- slot_block, stored_slot, slot_block by (unfold in_file; lia). now apply H4.
  - intros x Hx. rewrite stored_slot by exact Hx. intros Hz. destruct (wf_data _ _ _ Hw1 x Hx Hz) as [Hr Hm].
    split; [exact Hr|]. rewrite stored_marked by lia. exact Hm.
  - intros x y Hx Hy. rewrite !stored_slot by assumption. now apply (wf_sep _ _ _ Hw1).
Qed.

Lemma other_wfile j : allocated L sb j -> j <> inum -> wfile L2 R (disk_inode L sb j).
Proof.
  intros Hj Hne. pose proof (fs_files _ _ Hfs j Hj) as Hwj. pose proof (dg_size _ (fs_disk _ _ Hfs)) as Hsz.
  pose proof ib_range as Hib. split.
  - destruct (wf_ok _ _ _ Hwj) as [H1 H2 H3 H4]. split; [exact H1|exact H2|exact H3|].
    intros bn Hbn. rewrite <- slot_block, other_slot, slot_block by (assumption || lia). now apply H4.
  - intros x Hx. rewrite other_slot by assumption. intros Hz. destruct (wf_data _ _ _ Hwj x Hx Hz) as [Hr Hm].
    split; [exact Hr|]. rewrite stored_marked by lia. apply (gr_marks _ _ _ _ _ Hg); [lia|]. now left.
  - intros x y Hx Hy. rewrite !other_slot by assumption. now apply (wf_sep _ _ _ Hwj).
Qed.

Lemma stored_owner j b : allocated L sb j ->
  owns L2 (disk_inode L2 sb j) b <-> j = inum /\ owns L1 d1 b \/ j <> inum /\ owns L (disk_inode L sb j) b.
Proof.
  intros Hj. destruct (stored_inode_of j Hj) as [[E ->]|[E ->]].
  - rewrite stored_owns. tauto.
  - rewrite other_owns by assumption. tauto.
Qed.

Lemma stored_bitmap : bitmap_ok L2 sb.
Proof.
  pose proof ib_range as Hib. pose proof (dg_size _ (fs_disk _ _ Hfs)) as Hsz. intros b Hb.
  assert (marked L sb b = true <-> owned L sb b) as Hbm by exact (fs_bitmap _ _ Hfs b Hb).
  rewrite stored_marked, (gr_marks _ _ _ _ _ Hg), Hbm, !owned_owns by lia. split.
  - intros [[Hd|(j & Hj & Ho)]|Ho]; [now left|right..].
    + exists j. rewrite stored_allocated. split; [exact Hj|]. apply stored_owner; [exact Hj|].
      destruct (decide (j = inum)) as [->|Hne]; [left|right; auto]. split; [reflexivity|].
      eapply grows_owns; [exact Hg|exact Ho].
    + exists inum. rewrite stored_allocated. split; [exact Ha|]. apply stored_owner; auto.
  - intros [Hd|(j & Hj%stored_allocated & Ho)]; [auto|]. apply stored_owner in Ho as [[_ Ho]|[_ Ho]]; [auto| |exact Hj].
    left. right. eauto.
Qed.

Lemma other_dir j : allocated L sb j -> j <> inum -> dir_ok L sb (disk_inode L sb j) -> dir_ok L2 sb (disk_inode L sb j).
Proof.
  intros Hj Hne [H1 H2]. split; [exact H1|]. intros k de Hk Hde. apply stored_allocated, (H2 k de); [|exact Hde].
  rewrite <- Hk. unfold dirents. f_equal. apply map_ext_in. intros e He. f_equal.
  apply list_elem_of_In, elem_of_upto in He.
  pose proof (fo_size _ _ _ (wf_ok _ _ _ (fs_files _ _ Hfs j Hj))) as Hs.
  unfold file_bytes. apply map_ext_in. intros t Ht. apply list_elem_of_In, elem_of_upto in Ht.
  symmetry. unfold SIZEOF_DIRENT in *.
  assert (e * 16 + t < di_size (disk_inode L sb j)) by mlia.
  apply other_byte; [exact Hj|exact Hne|lia|]. change (MAXFILE * BSIZE) with 274432 in Hs.
  change MAXFILE with 268. unfold BSIZE. mlia.
Qed.

Lemma stored_fs_ok : fs_ok L2 R.
Proof.
  pose proof (fs_tree _ _ Hfs) as [T1 T2 T3 T4 T5]. split.
  - split.
    + now apply stored_allocated.
    + intros j Hj%stored_allocated. now apply T2.
    + intros j Hj%stored_allocated. destruct (stored_inode_of j Hj) as [[-> ->]|[E ->]].
      * apply wf_ok, stored_wfile.
      * apply wf_ok, other_wfile; assumption.
    + intros j Hj%stored_allocated. destruct (stored_inode_of j Hj) as [[-> ->]|[E ->]]; [|now apply T4].
      rewrite Hnlink. now apply T4.
    + intros j Hj%stored_allocated. destruct (stored_inode_of j Hj) as [[-> ->]|[E ->]].
      * rewrite Htype. contradiction.
      * intros Ht. apply other_dir; auto.
  - exact stored_bitmap.
  - apply (fs_disk _ _ Hfs).
  - apply (fs_inodes _ _ Hfs).
  - intros j Hj%stored_allocated. destruct (stored_inode_of j Hj) as [[-> ->]|[E ->]];
      [exact stored_wfile|now apply other_wfile].
  - intros j k b Hj%stored_allocated Hk%stored_allocated Hob Hkb.
    apply stored_owner in Hob; [|exact Hj]. apply stored_owner in Hkb; [|exact Hk].
    destruct Hob as [[-> Hob]|[Hne Hob]], Hkb as [[-> Hkb]|[Hne' Hkb]]; [reflexivity|..].
    + destruct (kept_other k b Hk Hne' Hkb) as (_ & Hno & _). contradiction.
    + destruct (kept_other j b Hj Hne Hob) as (_ & Hno & _). contradiction.
    + exact (fs_owner _ _ Hfs j k b Hj Hk Hob Hkb).
Qed.
End kept.

(** [fs_ok] depends on the superblock, the disk and the place of the log. *)
Lemma fs_ok_moves L R R' :
  ks_sb R' = ks_sb R -> (forall k, is_Some (ks_disk R !! k) -> is_Some (ks_disk R' !! k)) -> (forall k, loggable R k -> loggable R' k) -> fs_ok L R -> fs_ok L R'.
Proof.
  intros Hs Hd Hl [[T1 T2 T3 T4 T5] H2 H3 [I1 I2 I3] H5 H6].
  assert (forall k, usable R k -> usable R' k) as Hu by (intros k [Hk1 Hk2]; split; [exact Hk1|now apply Hd]).
  assert (forall di, file_ok L R di -> file_ok L R' di) as Hf.
  { intros di [F1 F2 F3 F4]. split; [exact F1|exact F2|destruct F3; auto|]. intros bn Hbn. destruct (F4 bn Hbn); auto. }
  split; rewrite ?Hs; try assumption.
  - split; auto.
  - now apply (disk_geo_same R).
  - split; rewrite Hs; auto.
  - intros j Hj. destruct (H5 j Hj) as [W1 W2 W3]. split; [now apply Hf|now rewrite Hs|exact W3].
Qed.

Lemma fs_ok_same L R R' :
  ks_sb R' = ks_sb R -> ks_disk R' = ks_disk R -> (forall k, loggable R k -> loggable R' k) -> fs_ok L R -> fs_ok L R'.
Proof. intros Hs Hd. apply fs_ok_moves; [exact Hs|]. now rewrite Hd. Qed.

(** ** Deciding it for an image *)

Lemma NoDup_filter_map {A} (f : A -> Z) (l : list A) :
  NoDup (filter (fun b => b <> 0) (map f l)) -> forall x y, x ∈ l -> y ∈ l -> f x <> 0 -> f x = f y -> x = y.
Proof.
  induction l as [|a l IH]; intros Hnd x y Hx Hy Hz E; [now apply elem_of_nil in Hx|].
  cbn [map] in Hnd. rewrite filter_cons in Hnd.
  assert (forall z, z ∈ l -> f a <> 0 -> f a = f z -> f a ∈ filter (fun b => b <> 0) (map f l)) as Hin.
  { intros z Hzl H0 E0. apply list_elem_of_filter. split; [exact H0|]. rewrite E0. now apply list_elem_of_fmap_2. }
  apply elem_of_cons in Hx as [->|Hx], Hy as [->|Hy]; [reflexivity|..].
  - rewrite decide_True in Hnd by exact Hz. apply NoDup_cons in Hnd as [Hno _]. destruct (Hno (Hin y Hy Hz E)).
  - rewrite decide_True in Hnd by congruence. apply NoDup_cons in Hnd as [Hno _].
    destruct Hno. apply (Hin x); congruence.
  - case_decide; [apply NoDup_cons in Hnd as [_ Hnd]|]; now apply IH.
Qed.

Lemma NoDup_flat_map {A B} (g : A -> list B) (l : list A) :
  NoDup (flat_map g l) ->
  (forall x, x ∈ l -> NoDup (g x)) /\ forall x y b, x ∈ l -> y ∈ l -> b ∈ g x -> b ∈ g y -> x = y.
Proof.
  induction l as [|a l IH]; intros Hnd.
  - split; [intros x Hx; now apply elem_of_nil in Hx|intros x y b Hx; now apply elem_of_nil in Hx].
  - cbn [flat_map] in Hnd. apply NoDup_app in Hnd as (Ha & Hdis & Hl). destruct (IH Hl) as [IH1 IH2].
    assert (forall x b, x ∈ l -> b ∈ g x -> b ∈ flat_map g l) as Hin.
    { intros x b Hx Hb. apply list_elem_of_In, in_flat_map. exists x. split; now apply list_elem_of_In. }
    split.
    + intros x [->|Hx]%elem_of_cons; [exact Ha|now apply IH1].
    + intros x y b [->|Hx]%elem_of_cons [->|Hy]%elem_of_cons Hbx Hby; [reflexivity|..|now apply (IH2 x y b)].
      * destruct (Hdis b Hbx (Hin y b Hy Hby)).
      * destruct (Hdis b Hby (Hin x b Hx Hbx)).
Qed.

Section check.
Context (L : blockmap) (sb : superblock).

Definition file_slots : list Z := map (fun k => k - 1) (upto (MAXFILE + 1)).
Definition file_blocks (di : dinode) : list Z := filter (fun b => b <> 0) (map (baddr L di) file_slots).
Definition inode_blocks (inum : Z) : list Z :=
  if allocated_check L sb inum then file_blocks (disk_inode L sb inum) else [].
Definition owner_check : bool :=
  let l := flat_map inode_blocks (upto (sb_ninodes sb)) in
  bool_decide (NoDup l) && forallb (fun b => (data_start sb <=? b) && (b <? sb_size sb) && marked L sb b) l.

Lemma elem_of_slots x : x ∈ file_slots <-> in_file x.
Proof.
  unfold file_slots, in_file. rewrite list_elem_of_fmap. split.
  - intros (k & -> & Hk%elem_of_upto). lia.
  - intros Hx. exists (x + 1). split; [lia|]. apply elem_of_upto. lia.
Qed.

Lemma elem_of_file_blocks di b : b ∈ file_blocks di <-> owns L di b.
Proof.
  unfold file_blocks, owns. rewrite list_elem_of_filter, list_elem_of_fmap. split.
  - intros (Hb & x & -> & Hx%elem_of_slots). split; [exact Hb|]. now exists x.
  - intros (Hb & x & Hx%elem_of_slots & <-). split; [exact Hb|]. now exists x.
Qed.

Lemma allocated_inum inum : allocated L sb inum -> inum ∈ upto (sb_ninodes sb).
Proof. intros [Hr _]. apply elem_of_upto. lia. Qed.

Lemma inode_blocks_allocated inum : allocated L sb inum -> inode_blocks inum = file_blocks (disk_inode L sb inum).
Proof. intros Ha. unfold inode_blocks. now rewrite (proj2 (allocated_check_ok _ _ _) Ha). Qed.

Lemma owner_check_ok R : ks_sb R = sb -> owner_check = true ->
  (forall inum, allocated L sb inum -> file_ok L R (disk_inode L sb inum)) ->
  (forall inum, allocated L sb inum -> wfile L R (disk_inode L sb inum)) /\
  (forall j k b, allocated L sb j -> allocated L sb k ->
    owns L (disk_inode L sb j) b -> owns L (disk_inode L sb k) b -> j = k).
Proof.
  intros Hsb Hc Hok. unfold owner_check in Hc. apply andb_true_iff in Hc as [Hnd%bool_decide_eq_true Hall].
  destruct (NoDup_flat_map _ _ Hnd) as [Hnd1 Huniq]. split.
  - intros inum Ha. pose proof (allocated_inum _ Ha) as Hin. split; [now apply Hok| |].
    + intros x Hx Hz. rewrite forallb_forall in Hall. specialize (Hall (baddr L (disk_inode L sb inum) x)).
      rewrite Hsb. apply and_comm. rewrite andb_true_iff, andb_true_iff, Z.leb_le, Z.ltb_lt in Hall.
      destruct Hall as [? ?]; [|tauto]. apply in_flat_map. exists inum.
      split; [now apply list_elem_of_In|]. rewrite inode_blocks_allocated by exact Ha.
      apply list_elem_of_In, elem_of_file_blocks. now apply owns_slot.
    + intros x y Hx Hy Hz E. specialize (Hnd1 inum Hin). rewrite inode_blocks_allocated in Hnd1 by exact Ha.
      apply (NoDup_filter_map _ _ Hnd1); [now apply elem_of_slots|now apply elem_of_slots|exact Hz|exact E].
  - intros j k b Hj Hk Hjb Hkb. apply (Huniq j k b); [now apply allocated_inum|now apply allocated_inum|..].
    + rewrite inode_blocks_allocated by exact Hj. now apply elem_of_file_blocks.
    + rewrite inode_blocks_allocated by exact Hk. now apply elem_of_file_blocks.
Qed.
End check.

(** ** Writing through an inode *)

Definition grown (size : Z) (di : dinode) : dinode := if di_size di <? size then set_di_size size di else di.

(** File [inum] after [n] bytes of [src] have been stored at [off]. *)
Record updated (sb : superblock) (inum : Z) (src : list Z) (off n : Z) (L L' : blockmap) : Prop := {
  up_allocated : forall j, allocated L' sb j <-> allocated L sb j;
  up_size : di_size (disk_inode L' sb inum) = Z.max (di_size (disk_inode L sb inum)) (off + n);
  up_type : di_type (disk_inode L' sb inum) = di_type (disk_inode L sb inum);
  up_bytes : forall x, 0 <= x < MAXFILE * BSIZE ->
    file_byte L' (disk_inode L' sb inum) x = stored src off n (file_byte L (disk_inode L sb inum)) x;
  up_inodes : forall j, allocated L sb j -> j <> inum -> disk_inode L' sb j = disk_inode L sb j;
  up_others : forall j x, allocated L sb j -> j <> inum -> 0 <= x < MAXFILE * BSIZE ->
    file_byte L' (disk_inode L' sb j) x = file_byte L (disk_inode L sb j) x }.

(** The blocks that a write of [n] bytes at [off] touches. *)
Definition nblocks (off n : Z) : Z := (off mod BSIZE + n + BSIZE - 1) / BSIZE.

Lemma in_file_byte x : 0 <= x < MAXFILE * BSIZE -> 0 <= x /\ x / BSIZE < MAXFILE.
Proof. change (MAXFILE * BSIZE) with 274432. change MAXFILE with 268. unfold BSIZE. intros. split; mlia. Qed.

(** The blocks, the inode and the other files after the inode has been written. *)
Lemma written_back R L inum L1 d1 src off m :
  let sb := ks_sb R in
  let di := disk_inode L sb inum in
  let d2 := grown (off + m) d1 in
  let L2 := stored_inode R inum L1 d2 in
  fs_ok L R -> allocated L sb inum -> di_type di <> T_DIR -> wfile L1 R d1 -> grows R L di L1 d1 ->
  di_size d1 = di_size di ->
  (forall x, 0 <= x -> x / BSIZE < MAXFILE -> file_byte L1 d1 x = stored src off m (file_byte L di) x) ->
  0 <= off + m -> off + m <= MAXFILE * BSIZE -> length (block L (IBLOCK inum sb)) = Z.to_nat BSIZE ->
  fs_ok L2 R /\ updated sb inum src off m L L2 /\ disk_inode L2 sb inum = d2.
Proof.
  intros sb di d2 L2 Hfs Ha Hfile Hw1 Hg Hsz Hb H0 Hend Hlen.
  assert (di_addrs d2 = di_addrs d1 /\ di_type d2 = di_type d1 /\ di_nlink d2 = di_nlink d1 /\
          di_major d2 = di_major d1 /\ di_minor d2 = di_minor d1 /\ di_size d2 = Z.max (di_size d1) (off + m))
    as (E1 & E2 & E3 & E4 & E5 & E6).
  { unfold d2, grown. destruct (Z.ltb_spec (di_size d1) (off + m)); fields; repeat split; lia. }
  pose proof (gr_type _ _ _ _ _ Hg) as G1. pose proof (gr_nlink _ _ _ _ _ Hg) as G2.
  destruct (gr_dev _ _ _ _ _ Hg) as [G3 G4]. pose proof (wf_ok _ _ _ Hw1) as [F1 F2 F3 F4].
  assert (typed d2) as Ht2.
  { destruct (disk_inode_short R L inum) as (S1 & S2 & S3 & S4).
    apply (file_typed R L1); [|rewrite E2, G1; exact S1|rewrite E4, G3; exact S2|rewrite E5, G4; exact S3|rewrite E3, G2; exact S4].
    split; [now rewrite E1|rewrite E6; lia| |].
    - unfold indirect. rewrite E1. exact F3.
    - unfold block_addr, indirect. rewrite E1. exact F4. }
  assert (di_type d2 = di_type di) as Et by (rewrite E2; exact G1).
  pose proof (stored_disk_inode R L inum Hfs Ha L1 d1 Hw1 Hg d2 Ht2 Hlen) as Hdi.
  assert (disk_inode L2 sb inum = d2) as Ed2.
  { unfold L2. rewrite Hdi by apply Ha. now rewrite Z.eqb_refl. }
  split; [|split; [|exact Ed2]].
  - apply (stored_fs_ok R L inum Hfs Ha L1 d1 Hw1 Hg d2 E1 Ht2 Hlen Et);
      [rewrite E3; exact G2|rewrite E6; lia|exact Hfile].
  - split; rewrite ?Ed2.
    + intros j. now apply (stored_allocated R L inum Hfs Ha L1 d1 Hw1 Hg d2 Ht2 Hlen Et).
    + rewrite E6, Hsz. reflexivity.
    + exact Et.
    + intros x Hx. destruct (in_file_byte x Hx).
      unfold L2. rewrite (stored_byte R L inum Hfs Ha L1 d1 Hw1 d2 E1) by assumption. now apply Hb.
    + intros j Hj Hne. unfold L2. rewrite Hdi by apply Hj. now rewrite (proj2 (Z.eqb_neq _ _)).
    + intros j x Hj Hne Hx. destruct (in_file_byte x Hx). unfold L2. rewrite Hdi by apply Hj.
      rewrite (proj2 (Z.eqb_neq _ _)) by exact Hne.
      now apply (other_byte R L inum Hfs Ha L1 d1 Hg d2 Hlen j).
Qed.

Section writei.
Context {view : view_pred} `{HB : !BlockCache view}.
Context (R : kstate) (i : nat) (ip : inode) (L : blockmap) (inum : Z).
Hypothesis Hfs : fs_ok L R.
Hypothesis Hip : ks_icache R !! i = Some ip.
Hypothesis Hdev : ip_dev ip = 0.
Hypothesis Hinum : ip_inum ip = inum.
Hypothesis Ha : allocated L (ks_sb R) inum.
Hypothesis Hd : ip_d ip = disk_inode L (ks_sb R) inum.
Abbreviation sb := (ks_sb R).
Abbreviation di := (disk_inode L sb inum).
Abbreviation filing := (filing (view:=view) R i ip).

Lemma with_di_here : with_di R i ip di = R.
Proof.
  unfold with_di. rewrite <- Hd. replace (set_ip_d (ip_d ip) ip) with ip by now destruct ip.
  rewrite list_insert_id by exact Hip. now destruct R.
Qed.

Lemma filing_start n D s : in_op (view:=view) n [] L D R s -> filing n [] L D di s.
Proof. intros Ho. exists R. split; [rewrite with_di_here; apply relog_refl|exact Ho]. Qed.

Lemma ready_start r n D s :
  in_op (view:=view) n [] L D R s -> r + 3 <= n ->
  ready (view:=view) R i ip r (free_count L R - 1) L D di s.
Proof.
  intros Ho Hn. split.
  - apply (fs_files _ _ Hfs inum Ha).
  - intros b Hb Hs. apply (fs_bitmap _ _ Hfs); [lia|left; lia].
  - unfold ind_missing. destruct (_ =? 0); lia.
  - exists n, 1, 1. split; [now apply filing_start|]. split; [now left|]. split; [now left|lia].
Qed.

(** [iupdate] stores the inode in its block. *)
Lemma iupdate_stores n L1 D1 d2 s :
  filing n [] L1 D1 d2 s -> 1 <= n ->
  wp (iupdate i) (fun _ s' => filing (n - 1) [] (stored_inode R inum L1 d2) (mark (IBLOCK inum sb) D1) d2 s') s.
Proof.
  intros Hs Hn. pose proof (ig_log _ (fs_inodes _ _ Hfs) inum (proj1 Ha)) as Hlog.
  unfold iupdate. wstep. eapply wpx_of_Ok; [exact (filing_getinode R i ip Hip (fs_disk _ _ Hfs) _ _ _ _ _ _ Hs)|].
  wstep. eapply wpx_of_Ok.
  { unfold getsb, gets. destruct Hs as (R' & HR & Ho). rewrite (op_sb _ _ _ _ _ _ Ho).
    destruct (relog_di R i ip Hip (fs_disk _ _ Hfs) _ _ HR) as [-> _]. reflexivity. }
  fields. rewrite Hdev, Hinum.
  wcall (filing_bread R i ip Hip (fs_disk _ _ Hfs) n [] L1 D1 d2 s Hs) as bp s1 Hs1; [exact Hlog|cbn; lia|].
  apply wpx_assoc.
  wcall (filing_mod R i ip Hip (fs_disk _ _ Hfs) _ _ _ _ _ _ Hs1 1 (IBLOCK inum sb) bp (put_dinode (dinode_off inum) d2))
    as [] s2 Hs2; [left|exact Hlog| |now left|exact Hn|].
  { rewrite put_dinode_length; rewrite (filing_length R i ip Hip (fs_disk _ _ Hfs) _ _ _ _ _ _ Hs1 _ Hlog);
      [reflexivity|apply dinode_off_fits]. }
  eapply filing_brelse; [exact Hip|apply (fs_disk _ _ Hfs)|exact Hs2|left; now left].
Qed.

Context (Hfile : di_type di <> T_DIR).

Lemma writei_run n D s src off m :
  in_op (view:=view) n [] L D R s -> 0 <= off <= di_size di -> 0 < m -> off + m <= MAXFILE * BSIZE ->
  m <= Z.of_nat (length src) -> nblocks off m + 3 <= n -> nblocks off m + 1 <= free_count L R ->
  wp (writei i src off m) (fun r s' => r = m /\ exists n' L' D', fs_ok L' R /\ updated sb inum src off m L L' /\
      free_count L R - nblocks off m - 1 <= free_count L' R /\
      filing n' [] L' D' (disk_inode L' sb inum) s') s.
Proof.
  intros Ho Hoff Hm Hend Hsrc Hn Hf. pose proof (filing_start _ _ _ Ho) as Hs0.
  change (MAXFILE * BSIZE) with 274432 in Hend. unfold writei. wstep.
  eapply wpx_of_Ok; [exact (filing_getinode R i ip Hip (fs_disk _ _ Hfs) _ _ _ _ _ _ Hs0)|]. fields.
  rewrite (proj2 (Z.ltb_ge _ _)) by lia. rewrite u32_id by lia. rewrite (proj2 (Z.ltb_ge _ _)) by lia. cbn [orb].
  pose proof (ready_start _ _ _ _ Ho Hn) as Hr.
  assert (off mod BSIZE + m <= nblocks off m * BSIZE /\ off mod BSIZE + m <= (m / BSIZE + 2) * BSIZE) as [Hnb Hfu]
    by (unfold nblocks, BSIZE; split; mlia).
  wcall (writei_loop_run R i ip Hip Hdev (fs_disk _ _ Hfs) (Z.to_nat (m / BSIZE + 2)) (nblocks off m) (free_count L R - 1) off m 0 src L D di s Hr)
    as o s1 (-> & L1 & D1 & d1 & Hr1 & Hg & Hsz & Hb);
    [split; [unfold nblocks, BSIZE; mlia|lia]|lia|lia|lia|change (MAXFILE * BSIZE) with 274432; lia|lia|lia|unfold BSIZE in *; mlia|].
  rewrite !Z.sub_0_r in *. rewrite (proj2 (Z.ltb_lt 0 m)) by lia. cbn [when].
  destruct Hr1 as [Hw1 _ Hfree1 (n1 & cb & e & Hs1 & Hcb & He & Hn1)].
  pose proof (paid_cost _ _ _ Hcb). pose proof (ind_cost _ _ _ He).
  wstep. wstep. eapply wpx_of_Ok; [exact (filing_getinode R i ip Hip (fs_disk _ _ Hfs) _ _ _ _ _ _ Hs1)|]. fields.
  set (d2 := grown (off + m) d1).
  assert (wp (when (di_size d1 <? off + m) (modinode_d i (set_di_size (off + m))))
            (fun _ s' => filing n1 [] L1 D1 d2 s') s1) as Hgrow.
  { unfold d2, grown. destruct (di_size d1 <? off + m); cbn [when].
    - exact (filing_set_di R i ip Hip (fs_disk _ _ Hfs) _ _ _ _ _ _ Hs1 _).
    - apply wpx_ret. exact Hs1. }
  wcall Hgrow as [] s2 Hs2.
  eapply wpx_conseq; [apply (iupdate_stores _ _ _ _ _ Hs2); lia|].
  intros [] s3 Hs3. apply wpx_ret. rewrite i32_id by lia. split; [reflexivity|].
  pose proof (filing_length R i ip Hip (fs_disk _ _ Hfs) _ _ _ _ _ _ Hs0 _ (ig_log _ (fs_inodes _ _ Hfs) inum (proj1 Ha))) as Hlen.
  destruct (written_back R L inum L1 d1 src off m Hfs Ha Hfile Hw1 Hg Hsz Hb ltac:(lia)) as (Hfs2 & Hup & Ed2);
    [change (MAXFILE * BSIZE) with 274432; lia|exact Hlen|].
  exists (n1 - 1), (stored_inode R inum L1 d2), (mark (IBLOCK inum sb) D1). fold d2 in Hfs2, Hup, Ed2.
  split; [exact Hfs2|]. split; [exact Hup|]. split; [|rewrite Ed2; exact Hs3].
  rewrite (count_marks L1 (stored_inode R inum L1 d2) R (fs_disk _ _ Hfs)).
  - pose proof (ind_missing_nonneg d1). lia.
  - exact (stored_marked R L inum Hfs Ha L1 d2 Hlen).
Qed.

Lemma writei_past n D s src off m :
  in_op (view:=view) n [] L D R s -> 0 <= off <= di_size di -> MAXFILE * BSIZE < off + m < 2 ^ 32 ->
  m <= Z.of_nat (length src) -> nblocks off (MAXFILE * BSIZE - off) + 3 <= n ->
  nblocks off (MAXFILE * BSIZE - off) + 1 <= free_count L R ->
  wpx past_end (writei i src off m) (fun _ _ => False) s.
Proof.
  intros Ho Hoff Hend Hsrc Hn Hf. pose proof (filing_start _ _ _ Ho) as Hs0.
  pose proof (fo_size _ _ _ (wf_ok _ _ _ (fs_files _ _ Hfs inum Ha))) as Hsz.
  change (MAXFILE * BSIZE) with 274432 in *. unfold writei. apply wpx_bind.
  eapply wpx_of_Ok; [exact (filing_getinode R i ip Hip (fs_disk _ _ Hfs) _ _ _ _ _ _ Hs0)|]. fields.
  rewrite (proj2 (Z.ltb_ge _ _)) by lia. rewrite u32_id by lia. rewrite (proj2 (Z.ltb_ge _ _)) by lia. cbn [orb].
  pose proof (ready_start _ _ _ _ Ho Hn) as Hr. apply wpx_bind.
  assert (0 <= nblocks off (274432 - off)) as Hnn by (unfold nblocks, BSIZE; mlia).
  eapply wpx_mono; [eapply (writei_loop_past R i ip Hip Hdev (fs_disk _ _ Hfs) (Z.to_nat (m / BSIZE + 2))
    (nblocks off (274432 - off)) (free_count L R - 1) off m 0 src L D di s Hr)|auto|intros ? ? []];
    change (MAXFILE * BSIZE) with 274432; try lia; unfold nblocks, BSIZE; mlia.
Qed.
End writei.
