(* ===== verification/File.v ===== *)
(** * Open files: kernel/file.c

    [ks_ftable] is [ftable.file]; a [struct file *] is an index of it. *)
From S2P Require Import Prelude State Printf Bio Blocks Log Txn Update Fs Layout Inodes Icache Mkfs Tree Alloc Slots Writing Store Namei.

(** ** Model *)

Definition getfile (f : nat) : K file := s <- get;; of_opt (ks_ftable s !! f).
Definition modfile (f : nat) (g : file -> file) : K unit :=
  s <- get;;
  _ <- of_opt (ks_ftable s !! f);;
  modify (upd_ks_ftable (alter g f)).

Definition fileinit : K unit :=
  for_each (seq 0 (Z.to_nat NFILE)) (fun i =>
    _ <- modfile i (set_f_ref 0);;
    modfile i (set_f_type FD_NONE)).

Definition filealloc : K (option nat) :=
  for_find (seq 0 (Z.to_nat NFILE)) (fun i =>
    f <- getfile i;;
    if f_ref f =? 0 then _ <- modfile i (set_f_ref 1);; ret (Some i) else ret None).

Definition filedup (f : nat) : K nat :=
  fv <- getfile f;;
  _ <- when (f_ref fv <? 1) (panic (str "filedup"));;
  _ <- modfile f (upd_f_ref (fun n => i32 (n + 1)));;
  ret f.

Definition fileclose (f : nat) : K unit :=
  fv <- getfile f;;
  _ <- when (f_ref fv <? 1) (panic (str "fileclose"));;
  _ <- modfile f (upd_f_ref (fun n => i32 (n - 1)));;
  fv <- getfile f;;
  if 0 <? f_ref fv then ret tt
  else
    _ <- when (f_type fv =? FD_INODE) (iput (f_ip fv));;
    modfile f (set_f_type FD_NONE).

(** The result and the bytes stored at [addr]. *)
Definition fileread (f : nat) (n : Z) : K (Z * list Z) :=
  fv <- getfile f;;
  if f_readable fv =? 0 then ret (-1, [])
  else if f_type fv =? FD_INODE then
    _ <- ilock (f_ip fv);;
    ip <- of_opt (f_ip fv);;
    let! (r, bs) := readi ip (f_off fv) (u32 n) in
    _ <- when (0 <? r) (modfile f (upd_f_off (fun off => u32 (off + r))));;
    _ <- iunlock (f_ip fv);;
    ret (r, bs)
  else panic (str "fileread").

(** [src]: the bytes from [addr] on. *)
Definition filewrite (f : nat) (src : list Z) (n : Z) : K Z :=
  fv <- getfile f;;
  if f_writable fv =? 0 then ret (-1)
  else if f_type fv =? FD_INODE then
    _ <- ilock (f_ip fv);;
    ip <- of_opt (f_ip fv);;
    r <- writei ip src (f_off fv) (u32 n);;
    _ <- when (0 <? r) (modfile f (upd_f_off (fun off => u32 (off + r))));;
    _ <- iunlock (f_ip fv);;
    ret r
  else panic (str "filewrite").

(** ** Lemmas *)

Lemma getfile_run f fv s : ks_ftable s !! f = Some fv -> getfile f s = Ok fv s.
Proof. intros H. unfold getfile, bind, get. cbn. now rewrite H. Qed.

Lemma modfile_run f g fv s :
  ks_ftable s !! f = Some fv ->
  modfile f g s = Ok tt (set_ks_ftable (<[f := g fv]> (ks_ftable s)) s).
Proof.
  intros H. unfold modfile, bind, get, modify. cbn. rewrite H. cbn. f_equal.
  unfold upd_ks_ftable. f_equal. apply list_eq. intros j. destruct (decide (f = j)) as [<-|Hne].
  - rewrite list_lookup_alter_eq, list_lookup_insert_eq, H by eauto using lookup_lt_Some. reflexivity.
  - now rewrite list_lookup_alter_ne, list_lookup_insert_ne.
Qed.

Lemma fileread_run `{BlockCache view} L D R s f fv i inum n :
  let sb := ks_sb R in
  let size := di_size (disk_inode L sb inum) in
  let m := Z.min n (size - f_off fv) in
  view [] L D R s -> roomy [] D -> tree_ok L sb R ->
  icache_ok (ks_icache R) -> coherent L sb (ks_icache R) ->
  ks_ftable R !! f = Some fv -> f_readable fv <> 0 -> f_type fv = FD_INODE -> f_ip fv = Some i ->
  slot (ks_icache R) i inum -> 0 <= f_off fv <= size -> 0 <= n < 2 ^ 31 ->
  wp (fileread f n) (fun r s' => exists c,
    r = (m, file_bytes L (disk_inode L sb inum) (f_off fv) m) /\
    view [] L D (set_ks_ftable (<[f := set_f_off (f_off fv + m) fv]> (ks_ftable R)) (set_ks_icache c R)) s' /\
    icache_ok c /\ coherent L sb c /\ refs (ks_icache R) [] c) s.
Proof.
  intros sb size m Hv Hroom Htree Hok Hcoh Hf Hrd Hty Hip Hs Hoff Hn. unfold fileread.
  assert (ks_ftable s = ks_ftable R) as Hft by (destruct (view_rest _ _ _ _ _ Hv) as [bc ->]; reflexivity).
  wstep. eapply wpx_of_Ok; [apply getfile_run; rewrite Hft; exact Hf|].
  rewrite (proj2 (Z.eqb_neq _ _) Hrd), Hty, Z.eqb_refl, Hip.
  wcall ilock_walk as [] s1 (c & Hw & (ip & Hi & (Hp & Hd & _) & _ & Hdi) & _);
    [exact Hroom|exact Htree|exact (walking_start _ _ _ _ Hv Hok Hcoh)|exact Hs|].
  destruct Hs as (ip0 & Hi0 & (Hp0 & _ & Hn0)). destruct (Hcoh i ip0 Hi0 Hp0) as (_ & Ha & _). rewrite Hn0 in Ha.
  pose proof (tr_file _ _ _ Htree _ Ha) as Hfile. pose proof (fo_size _ _ _ Hfile) as Hsz.
  change (MAXFILE * BSIZE) with 274432 in Hsz. fold sb size in Hsz. fold sb in Hdi.
  cbn [of_opt]. wstep. wstep. rewrite u32_id by lia.
  wcall (readi_spec L D (set_ks_icache c R) Hroom i ip) as r s2 [-> Hv2];
    [exact Hi|exact Hd|rewrite Hdi; exact (file_ok_icache _ _ c _ Hfile)|apply Hw|lia|lia|].
  unfold read_result. rewrite Hdi. fold size m.
  rewrite (proj2 (Z.leb_le _ _)), (proj2 (Z.ltb_lt _ _)) by lia. cbn [andb].
  set (R2 := set_ks_icache c R) in *. set (fv' := set_f_off (f_off fv + m) fv).
  assert (ks_ftable s2 = ks_ftable R) as Hft2 by (destruct (view_rest _ _ _ _ _ Hv2) as [bc ->]; reflexivity).
  assert (wp (when (0 <? m) (modfile f (upd_f_off (fun off => u32 (off + m)))))
            (fun _ s' => view [] L D (set_ks_ftable (<[f := fv']> (ks_ftable R)) R2) s') s2) as Hmod.
  { assert (outside (set_ks_ftable (<[f := fv']> (ks_ftable R)))) as Ho by (intros s'; auto).
    destruct (Z.ltb_spec 0 m) as [Hm|Hm]; cbn [when].
    - eapply wpx_of_Ok; [apply modfile_run; rewrite Hft2; exact Hf|].
      apply (view_outside _ _ _ _ _ _ Ho) in Hv2. rewrite Hft2.
      unfold upd_f_off. rewrite u32_id by lia. exact Hv2.
    - apply wpx_ret. replace fv' with fv; [rewrite list_insert_id by exact Hf; exact Hv2|].
      unfold fv'. replace (f_off fv + m) with (f_off fv) by lia. now destruct fv. }
  wcall Hmod as [] s3 Hv3. unfold iunlock. wstep. wstep.
  eapply wpx_of_Ok; [apply getinode_run; destruct (view_rest _ _ _ _ _ Hv3) as [bc ->]; exact Hi|].
  rewrite (proj2 (Z.ltb_ge _ _)) by lia. apply wpx_ret, wpx_ret.
  destruct Hw as [_ Hok' Hcoh' Hrf']. exists c. auto 10.
Qed.

(** ** Theorem *)

(** ** Writing through an open file *)

(** A file system in use: an operation of the log runs on it, and the inode cache
    agrees with the disk. *)
Record fs_running {view : view_pred} (n : Z) (L : blockmap) (D : Z -> Prop) (R s : kstate) : Prop := {
  fr_op : in_op (view:=view) n [] L D R s;
  fr_fs : fs_ok L R;
  fr_cache : icache_ok (ks_icache R);
  fr_coherent : coherent L (ks_sb R) (ks_icache R) }.

(** File [f] is open on inode [inum], which is in slot [i] of the cache and is no directory. *)
Record open_file (L : blockmap) (R : kstate) (f : nat) (fv : file) (i : nat) (inum : Z) : Prop := {
  of_file : ks_ftable R !! f = Some fv;
  of_type : f_type fv = FD_INODE;
  of_ip : f_ip fv = Some i;
  of_slot : slot (ks_icache R) i inum;
  of_nodir : di_type (disk_inode L (ks_sb R) inum) <> T_DIR }.

(** Only the inode of [inum] changes on the disk, and the cache has its new value. *)
Lemma updated_coherent sb inum src off n L L' c i ip :
  updated sb inum src off n L L' -> icache_ok c -> coherent L sb c ->
  c !! i = Some ip -> holds 0 inum ip -> ip_valid ip <> 0 ->
  let c' := <[i := set_ip_d (disk_inode L' sb inum) ip]> c in icache_ok c' /\ coherent L' sb c'.
Proof.
  intros Hup Hok Hcoh Hi (Hp & Hd & Hn) Hv c'. split.
  - eapply release_ok; [exact Hok|exact Hi|reflexivity|reflexivity|]. cbn. lia.
  - intros j jp Hj Hjp. unfold c' in Hj. apply list_lookup_insert_Some in Hj as [(<- & <- & _)|[Hne Hj]].
    + cbn in *. destruct (Hcoh i ip Hi Hp) as (_ & Ha & _). split; [exact Hd|].
      split; [now apply (up_allocated _ _ _ _ _ _ _ Hup)|]. now rewrite Hn.
    + destruct (Hcoh j jp Hj Hjp) as (H1 & H2 & H3). split; [exact H1|].
      split; [now apply (up_allocated _ _ _ _ _ _ _ Hup)|]. intros Hjv. rewrite (H3 Hjv).
      symmetry. apply (up_inodes _ _ _ _ _ _ _ Hup); [exact H2|]. intros E. apply Hne.
      apply (ic_unique _ Hok i j ip jp Hi Hj Hp). split; [exact Hjp|]. split; congruence.
Qed.

Lemma filewrite_run {view : view_pred} `{!BlockCache view} n0 L D R s f fv i inum src n :
  let sb := ks_sb R in
  let off := f_off fv in
  fs_running (view:=view) n0 L D R s -> open_file L R f fv i inum -> f_writable fv <> 0 ->
  0 <= off <= di_size (disk_inode L sb inum) -> 0 < n < 2 ^ 31 -> off + n <= MAXFILE * BSIZE ->
  n <= Z.of_nat (length src) -> nblocks off n + 3 <= n0 -> nblocks off n + 1 <= free_count L R ->
  wp (filewrite f src n) (fun r s' => r = n /\ exists n' L' D' R',
    fs_running (view:=view) n' L' D' R' s' /\ updated sb inum src off n L L' /\
    free_count L R - nblocks off n - 1 <= free_count L' R' /\
    (exists l c, same_log (ks_log R) l /\
       R' = set_ks_ftable (<[f := set_f_off (off + n) fv]> (ks_ftable R)) (set_ks_icache c (set_ks_log l R))) /\
    forall j k, slot (ks_icache R) j k -> slot (ks_icache R') j k) s.
Proof.
  intros sb off [Ho Hfs Hok Hcoh] [Hf Hty Hip Hs Hnd] Hwr Hoff Hn Hend Hsrc Hroom Hfree.
  pose proof (op_view _ _ _ _ _ _ Ho) as Hv. pose proof (op_roomy _ _ _ _ _ _ Ho) as Hrm.
  change (MAXFILE * BSIZE) with 274432 in Hend. unfold filewrite.
  assert (ks_ftable s = ks_ftable R) as Hft by (destruct (view_rest _ _ _ _ _ Hv) as [bc ->]; reflexivity).
  wstep. eapply wpx_of_Ok; [apply getfile_run; rewrite Hft; exact Hf|].
  rewrite (proj2 (Z.eqb_neq _ _) Hwr), Hty, Z.eqb_refl, Hip.
  assert (0 <= nblocks off n) as Hnb by (unfold nblocks, BSIZE; mlia).
  wcall ilock_walk as [] s1 (c & Hw & (ip & Hi & (Hp & Hd & Hin) & Hval & Hdi) & Hsl);
    [apply Hrm; cbn; lia|exact (fs_tree _ _ Hfs)|exact (walking_start _ _ _ _ Hv Hok Hcoh)|exact Hs|].
  pose proof (wk_coh _ _ _ _ _ _ _ Hw i ip Hi Hp) as (_ & Ha & _). rewrite Hin in Ha.
  cbn [of_opt]. wstep. wstep. fold off. rewrite u32_id by lia.
  set (R1 := set_ks_icache c R).
  assert (in_op (view:=view) n0 [] L D R1 s1) as Ho1.
  { destruct Ho as [_ H2 H3 H4 H5 H6]. split; try assumption. exact (wk_view _ _ _ _ _ _ _ Hw). }
  assert (fs_ok L R1) as Hfs1 by (apply (fs_ok_same L R); try reflexivity; auto).
  wcall (writei_run R1 i ip L inum Hfs1 Hi Hd Hin Ha Hdi Hnd n0 D s1 src off n Ho1) as r s2
    (-> & n' & L' & D' & Hfs' & Hup & Hfc & R2 & HR2 & Ho2); [exact Hoff|lia|exact Hend|exact Hsrc|exact Hroom|exact Hfree|].
  change (ks_sb R1) with sb in *.
  destruct (relog_di R1 i ip Hi (fs_disk _ _ Hfs1) _ _ HR2) as (Esb & Edk & Eic & Elog & _).
  pose proof (updated_coherent _ _ _ _ _ _ _ c i ip Hup (wk_ok _ _ _ _ _ _ _ Hw) (wk_coh _ _ _ _ _ _ _ Hw) Hi
    (conj Hp (conj Hd Hin)) Hval) as [Hok' Hcoh']. set (c' := <[i := _]> c) in *.
  assert (ks_icache R2 = c' /\ ks_ftable R2 = ks_ftable R) as [Ec' Eft] by (destruct HR2 as (l & -> & _); split; reflexivity).
  rewrite (proj2 (Z.ltb_lt 0 n)) by lia. cbn [when].
  set (fv' := set_f_off (off + n) fv). set (ft' := <[f := fv']> (ks_ftable R)).
  assert (ks_ftable s2 = ks_ftable R) as Hft2.
  { destruct (view_rest _ _ _ _ _ (op_view _ _ _ _ _ _ Ho2)) as [bc ->]. exact Eft. }
  apply (op_outside (set_ks_ftable ft')) in Ho2; [|intros s'; auto|reflexivity]. set (R3 := set_ks_ftable ft' R2) in *.
  wstep. eapply wpx_of_Ok.
  { rewrite (modfile_run f _ fv) by (rewrite Hft2; exact Hf). rewrite Hft2. unfold upd_f_off.
    fold off. rewrite (u32_id (off + n)) by lia. reflexivity. }
  fold (set_f_off (off + n) fv) fv' ft'. unfold iunlock. wstep. wstep.
  assert (ks_icache R3 !! i = Some (set_ip_d (disk_inode L' sb inum) ip)) as Ei3 by exact Eic.
  eapply wpx_of_Ok.
  { apply getinode_run. destruct (view_rest _ _ _ _ _ (op_view _ _ _ _ _ _ Ho2)) as [bc ->]. exact Ei3. }
  fields. rewrite (proj2 (Z.ltb_ge _ _)) by lia. apply wpx_ret, wpx_ret. split; [reflexivity|].
  assert (free_count L' R3 = free_count L' R1) as Efc by (unfold free_count, free_blocks; change (ks_sb R3) with (ks_sb R2); now rewrite Esb).
  exists n', L', D', R3. split; [|split; [exact Hup|split; [rewrite Efc; exact Hfc|split]]].
  - split; [exact Ho2| | |].
    + apply (fs_ok_same L' R1); [exact Esb|exact Edk|exact Elog|exact Hfs'].
    + change (icache_ok (ks_icache R2)). rewrite Ec'. exact Hok'.
    + change (coherent L' (ks_sb R2) (ks_icache R2)). rewrite Ec', Esb. exact Hcoh'.
  - destruct HR2 as (l & E & Hl). exists l, c'. split; [exact Hl|]. unfold R3. rewrite E. reflexivity.
  - intros j k Hjk. change (slot (ks_icache R2) j k). rewrite Ec'. apply (slot_insert _ _ _ _ _ _ Hi); [|now apply Hsl].
    now intros (? & ? & ?).
Qed.

(** ** Theorems *)

(** C11: [fileread] returns the bytes of the file from the offset of the open file
    on, as many as asked for and as the file has, and advances the offset past
    them, so that successive reads return successive parts of the file; no block
    and no reference changes. *)
Theorem fileread_reads `{BlockCache view} L D R s f fv i inum n :
  let sb := ks_sb R in
  let size := di_size (disk_inode L sb inum) in
  let m := Z.min n (size - f_off fv) in
  view [] L D R s -> roomy [] D -> tree_ok L sb R ->
  icache_ok (ks_icache R) -> coherent L sb (ks_icache R) ->
  ks_ftable R !! f = Some fv -> f_readable fv <> 0 -> f_type fv = FD_INODE -> f_ip fv = Some i ->
  slot (ks_icache R) i inum -> 0 <= f_off fv <= size -> 0 <= n < 2 ^ 31 ->
  wp (fileread f n) (fun r s' => exists c,
    r = (m, file_bytes L (disk_inode L sb inum) (f_off fv) m) /\
    view [] L D (set_ks_ftable (<[f := set_f_off (f_off fv + m) fv]> (ks_ftable R)) (set_ks_icache c R)) s' /\
    icache_ok c /\ coherent L sb c /\ refs (ks_icache R) [] c) s.
Proof. exact (fileread_run L D R s f fv i inum n). Qed.

(** The root directory, open for reading at its second entry. *)
Definition demo_open (u : list Z -> list Z) : kstate :=
  set_ks_ftable [mkFile FD_INODE 1 1 0 (Some 0%nat) 16 0] (set_ks_icache demo_icache (upd_ks_uart u demo_start)).

Lemma demo_icache_coherent L sb : allocated L sb 1 -> coherent L sb demo_icache.
Proof.
  intros Ha [|i] ip H Hp; [injection H as <-; cbn; auto with lia|].
  apply lookup_replicate_1 in H as [-> _]. easy.
Qed.

Lemma opened_view `{BlockCache view} L D R s c ft :
  view [] L D R s -> view [] L D (set_ks_ftable ft (set_ks_icache c R)) (set_ks_ftable ft (set_ks_icache c s)).
Proof.
  intros Hv. apply (view_outside _ _ _ _ _ (fun s => set_ks_ftable ft (set_ks_icache c s))); [|exact Hv].
  intros s'. auto.
Qed.

Lemma tree_ok_frame L R c ft :
  tree_ok L (ks_sb R) R -> let R' := set_ks_ftable ft (set_ks_icache c R) in tree_ok L (ks_sb R') R'.
Proof.
  intros [H1 H2 H3 H4 H5]. split; [exact H1|exact H2| |exact H4|exact H5].
  intros inum Ha. destruct (H3 _ Ha) as [G1 G2 G3 G4]. split; [exact G1|exact G2|exact G3|exact G4].
Qed.

Lemma fileread_reads_witness :
  exists u s, bio_view [] image_blocks (fun _ => False) (demo_open u) s /\
    wp (fileread 0 100) (fun r _ => r = (16, [1; 0; 46; 46; 0; 0; 0; 0; 0; 0; 0; 0; 0; 0; 0; 0])) s.
Proof.
  destruct demo_view as (u & s0 & Hv0). pose proof (demo_tree u) as Ht0.
  set (ft := [mkFile FD_INODE 1 1 0 (Some 0%nat) 16 0]).
  pose proof (opened_view _ _ _ _ demo_icache ft Hv0) as Hv.
  pose proof (tree_ok_frame _ _ demo_icache ft Ht0) as Ht. cbv zeta in Ht.
  exists u, (set_ks_ftable ft (set_ks_icache demo_icache s0)). split; [exact Hv|].
  assert (di_size (disk_inode image_blocks image_sb 1) = 32) as Hsz by (vm_compute; reflexivity).
  assert (file_bytes image_blocks (disk_inode image_blocks image_sb 1) 16 16 =
          [1; 0; 46; 46; 0; 0; 0; 0; 0; 0; 0; 0; 0; 0; 0; 0]) as Hb by (vm_compute; reflexivity).
  eapply wpx_conseq.
  - apply (fileread_reads image_blocks _ (set_ks_ftable ft (set_ks_icache demo_icache (upd_ks_uart u demo_start))) _ 0 (mkFile FD_INODE 1 1 0 (Some 0%nat) 16 0) 0 1 100 Hv roomy_clean Ht
      demo_icache_ok (demo_icache_coherent _ _ (tr_root _ _ _ Ht)) eq_refl).
    + discriminate.
    + reflexivity.
    + reflexivity.
    + exists (mkInode 0 1 1 0 zero_dinode). split; [reflexivity|]. split; [reflexivity|split; reflexivity].
    + change (ks_sb (set_ks_ftable ft (set_ks_icache demo_icache (upd_ks_uart u demo_start)))) with image_sb.
      rewrite Hsz. split; discriminate.
    + split; [discriminate|reflexivity].
  - intros r s' (c & -> & _).
    change (ks_sb (set_ks_ftable ft (set_ks_icache demo_icache (upd_ks_uart u demo_start)))) with image_sb.
    cbn [f_off]. rewrite Hsz. change (Z.min 100 (32 - 16)) with 16. rewrite Hb. reflexivity.
Defined.

(** [filewrite] stores the bytes in the file from the offset of the open file on
    and advances the offset; it allocates the blocks that are missing, stores the
    inode, and leaves every other file as it was.  The file system stays well
    formed: tree, bitmap and the owners of the blocks agree. *)
Theorem filewrite_writes {view : view_pred} `{!BlockCache view} n0 L D R s f fv i inum src n :
  let sb := ks_sb R in
  let off := f_off fv in
  fs_running (view:=view) n0 L D R s -> open_file L R f fv i inum -> f_writable fv <> 0 ->
  0 <= off <= di_size (disk_inode L sb inum) -> 0 < n < 2 ^ 31 -> off + n <= MAXFILE * BSIZE ->
  n <= Z.of_nat (length src) -> nblocks off n + 3 <= n0 -> nblocks off n + 1 <= free_count L R ->
  wp (filewrite f src n) (fun r s' => r = n /\ exists n' L' D' R',
    fs_running (view:=view) n' L' D' R' s' /\ updated sb inum src off n L L' /\
    free_count L R - nblocks off n - 1 <= free_count L' R' /\
    (exists l c, same_log (ks_log R) l /\
       R' = set_ks_ftable (<[f := set_f_off (off + n) fv]> (ks_ftable R)) (set_ks_icache c (set_ks_log l R))) /\
    forall j k, slot (ks_icache R) j k -> slot (ks_icache R') j k) s.
Proof. exact (filewrite_run n0 L D R s f fv i inum src n). Qed.

(** C7: roundtrip.  What is written through one open file is read through another
    one of the same inode that stands at the same offset. *)
Theorem filewrite_fileread {view : view_pred} `{!BlockCache view} n0 L D R s f fv g gv i inum src n :
  let off := f_off fv in
  fs_running (view:=view) n0 L D R s -> open_file L R f fv i inum -> f_writable fv <> 0 ->
  open_file L R g gv i inum -> f_readable gv <> 0 -> f_off gv = off -> g <> f ->
  0 <= off <= di_size (disk_inode L (ks_sb R) inum) -> 0 < n < 2 ^ 31 -> off + n <= MAXFILE * BSIZE ->
  n <= Z.of_nat (length src) -> nblocks off n + 3 <= n0 -> nblocks off n + 1 <= free_count L R ->
  wp (_ <- filewrite f src n;; fileread g n) (fun r _ => r = (n, take (Z.to_nat n) src)) s.
Proof.
  intros off Hrun Hf Hwr [Hg Hgt Hgi Hgs _] Hrd Hgo Hgf Hoff Hn Hend Hsrc Hroom Hfree.
  wcall (filewrite_run n0 L D R s f fv i inum src n) as r s1 (_ & n' & L' & D' & R' & [Ho' Hfs' Hok' Hcoh'] & Hup & _ & (l & c & _ & ER) & Hsl);
    [exact Hrun|exact Hf|exact Hwr|exact Hoff|exact Hn|exact Hend|exact Hsrc|exact Hroom|exact Hfree|].
  assert (ks_sb R' = ks_sb R /\ ks_ftable R' = <[f := set_f_off (f_off fv + n) fv]> (ks_ftable R)) as [Hsb Hft]
    by (rewrite ER; split; reflexivity).
  pose proof (up_size _ _ _ _ _ _ _ Hup) as Hsize. fold off in Hup, Hsize. rewrite <- Hsb in Hup, Hsize.
  change (MAXFILE * BSIZE) with 274432 in Hend.
  eapply wpx_conseq; [eapply (fileread_run L' D' R' s1 g gv i inum n)|].
  - apply Ho'.
  - eapply op_roomy; [exact Ho'|]. apply (op_room _ _ _ _ _ _ Ho').
  - apply (fs_tree _ _ Hfs').
  - exact Hok'.
  - exact Hcoh'.
  - rewrite Hft, list_lookup_insert_ne by congruence. exact Hg.
  - exact Hrd.
  - exact Hgt.
  - exact Hgi.
  - now apply Hsl.
  - rewrite Hgo, Hsize. lia.
  - lia.
  - intros r' s' (c' & -> & _). rewrite Hgo, Hsize. replace (Z.min n _) with n by lia. f_equal.
    apply list_eq. intros k. unfold file_bytes. rewrite lookup_map_upto. case_decide as Hk.
    + rewrite lookup_take_lt by lia.
      rewrite (up_bytes _ _ _ _ _ _ _ Hup) by (change (MAXFILE * BSIZE) with 274432; lia).
      unfold stored. rewrite decide_True by lia. replace (Z.to_nat (off + Z.of_nat k - off)) with k by lia.
      destruct (lookup_lt_is_Some_2 src k) as [x ->]; [lia|reflexivity].
    + symmetry. apply lookup_ge_None. rewrite length_take. lia.
Qed.

(** C30: error.  [writei] does not check that the file stays within [MAXFILE] blocks:
    a write that starts in the file and reaches past this size panics the kernel,
    when the log and the disk have room for the blocks before the limit (without
    it, it panics earlier). *)
Theorem writei_past_end_panics {view : view_pred} `{!BlockCache view} n L D R s i ip inum src off m :
  let di := disk_inode L (ks_sb R) inum in
  fs_ok L R -> ks_icache R !! i = Some ip -> ip_dev ip = 0 -> ip_inum ip = inum -> allocated L (ks_sb R) inum ->
  ip_d ip = di -> in_op (view:=view) n [] L D R s ->
  0 <= off <= di_size di -> MAXFILE * BSIZE < off + m < 2 ^ 32 -> m <= Z.of_nat (length src) ->
  nblocks off (MAXFILE * BSIZE - off) + 3 <= n -> nblocks off (MAXFILE * BSIZE - off) + 1 <= free_count L R ->
  exists s', writei i src off m s = Panic (str "bmap: out of range") s'.
Proof.
  intros di Hfs Hip Hdev Hinum Ha Hd Ho Hoff Hend Hsrc Hn Hf.
  pose proof (writei_past R i ip L inum Hfs Hip Hdev Hinum Ha Hd n D s src off m Ho Hoff Hend Hsrc Hn Hf) as H.
  unfold wpx, past_end in H. destruct (writei i src off m s) as [| msg s'| | | |]; try contradiction. exists s'. now rewrite H.
Qed.

(** C40: roundtrip.  [ilock] of an inode in the cache reads it from its block into the
    slot, with every field in the range of its C type, and [iupdate] then writes it
    back as it was: no byte of any block changes. *)
Theorem ilock_iupdate_keeps {view : view_pred} `{!BlockCache view} n L D R s i inum :
  let sb := ks_sb R in
  fs_running (view:=view) n L D R s -> slot (ks_icache R) i inum -> Forall is_byte (block L (IBLOCK inum sb)) -> 1 <= n ->
  wp (_ <- ilock (Some i);; iupdate i) (fun _ s' => exists L' R' ip,
    in_op (view:=view) (n - 1) [] L' (mark (IBLOCK inum sb) D) R' s' /\ (forall k, L' k = L k) /\
    ks_icache R' !! i = Some ip /\ ip_valid ip <> 0 /\ ip_d ip = disk_inode L sb inum /\ typed (ip_d ip)) s.
Proof.
  intros sb [Ho Hfs Hok Hcoh] Hs Hb Hn. pose proof (op_view _ _ _ _ _ _ Ho) as Hv.
  wcall ilock_walk as [] s1 (c & Hw & (ip & Hi & (Hp & Hd & Hin) & Hval & Hdi) & _);
    [apply (op_roomy _ _ _ _ _ _ Ho); cbn; lia|exact (fs_tree _ _ Hfs)|exact (walking_start _ _ _ _ Hv Hok Hcoh)|exact Hs|].
  pose proof (wk_coh _ _ _ _ _ _ _ Hw i ip Hi Hp) as (_ & Ha & _). rewrite Hin in Ha.
  set (R1 := set_ks_icache c R).
  assert (in_op (view:=view) n [] L D R1 s1) as Ho1.
  { destruct Ho as [_ H2 H3 H4 H5 H6]. split; try assumption. exact (wk_view _ _ _ _ _ _ _ Hw). }
  assert (fs_ok L R1) as Hfs1 by (apply (fs_ok_same L R); try reflexivity; auto).
  pose proof (filing_start R1 i ip L inum Hfs1 Hi Hd Hin Ha Hdi n D s1 Ho1) as Hfil.
  pose proof (filing_length R1 i ip Hi (fs_disk _ _ Hfs1) _ _ _ _ _ _ Hfil _ (ig_log _ (fs_inodes _ _ Hfs1) inum (proj1 Ha))) as Hlen.
  eapply wpx_conseq; [apply (iupdate_stores R1 i ip L inum Hfs1 Hi Hd Hin Ha n L D _ s1 Hfil Hn)|].
  intros [] s2 (R2 & HR2 & Ho2). destruct (relog_di R1 i ip Hi (fs_disk _ _ Hfs1) _ _ HR2) as (_ & _ & Eic & _).
  exists (stored_inode R1 inum L (disk_inode L sb inum)), R2, (set_ip_d (disk_inode L sb inum) ip).
  split; [exact Ho2|]. split; [|split; [exact Eic|split; [exact Hval|split; [reflexivity|now apply dinode_at_typed]]]].
  intros k. unfold stored_inode, write. case_decide as Hk; [|reflexivity]. rewrite Hk. change (ks_sb R1) with sb in *.
  unfold disk_inode. rewrite put_dinode_same; [|exact Hb|rewrite Hlen; apply dinode_off_fits].
  unfold block in *. destruct (L (IBLOCK inum sb)); [reflexivity|discriminate Hlen].
Qed.

(** ** Examples: a file on the disk that mkfs makes *)

(** An empty file, inode 2, is added to the image. *)
Definition file_inode : dinode := mkDinode T_FILE 0 0 1 0 (replicate 13 0).
Definition image_with (di : dinode) : gmap Z (list Z) :=
  let b := IBLOCK 2 image_sb in
  <[b := put_dinode (dinode_off 2) di (block image_blocks b)]> mkfs_image.
Definition cache_with (di : dinode) : list inode := mkInode 0 2 1 1 di :: replicate 49 zero_inode.
Definition file_image : gmap Z (list Z) := image_with file_inode.
Definition file_cache : list inode := cache_with file_inode.
Definition two_files : list file := [mkFile FD_INODE 1 1 1 (Some 0%nat) 0 0; mkFile FD_INODE 1 1 0 (Some 0%nat) 0 0].
Definition file_state (u : list Z -> list Z) (img : gmap Z (list Z)) (c : list inode) (ft : list file) : kstate :=
  set_ks_ftable ft (set_ks_icache c (set_ks_log demo_log (upd_ks_uart u (set_ks_sb image_sb (disk_state img))))).

Section file_state.
Context (u : list Z -> list Z) (img : gmap Z (list Z)) (c : list inode) (ft : list file).
Abbreviation R := (file_state u img c ft).
Hypothesis Hsizes : forall k, 0 <= k < FSSIZE -> exists d, img !! k = Some d /\ length d = Z.to_nat BSIZE.
Hypothesis Htree : tree_check (blocks_of img) image_sb img = true.
Hypothesis Hbitmap : bitmap_check (blocks_of img) image_sb = true.
Hypothesis Howner : owner_check (blocks_of img) image_sb = true.

Lemma file_state_fields : ks_disk R = img /\ ks_sb R = image_sb /\ ks_log R = demo_log.
Proof. repeat split. Qed.

Lemma file_state_geo : disk_geo R /\ inode_geo R.
Proof.
  destruct file_state_fields as (Hd & Hs & Hl). rewrite <- Hd in Hsizes.
  pose proof (eq_trans Hs image_layout) as Hsb. split; [now apply sized_disk_geo|].
  split; rewrite Hsb; [|discriminate|reflexivity].
  change (sb_ninodes (fst mk_layout)) with 200. intros inum Hi. apply (sized_loggable R Hsizes Hl).
  unfold IBLOCK. change (sb_inodestart (fst mk_layout)) with 32. change IPB with 16. unfold FSSIZE.
  rewrite u32_id by mlia. mlia.
Qed.

Lemma file_state_fs_ok : fs_ok (blocks_of img) R.
Proof.
  destruct file_state_fields as (Hd & Hs & _). destruct file_state_geo as [Hg Hi].
  pose proof (tree_check_ok _ _ _ R Hd Htree) as Ht.
  destruct (owner_check_ok _ _ R Hs Howner (tr_file _ _ _ Ht)) as [Hw Ho].
  split; rewrite ?Hs; [exact Ht|exact (bitmap_check_ok _ _ Hbitmap)|exact Hg|exact Hi|exact Hw|exact Ho].
Qed.
End file_state.

Lemma file_state_running img c ft :
  blocks_sized img -> (forall k, 0 <= k < FSSIZE -> exists d, img !! k = Some d /\ length d = Z.to_nat BSIZE) ->
  tree_check (blocks_of img) image_sb img = true -> bitmap_check (blocks_of img) image_sb = true ->
  owner_check (blocks_of img) image_sb = true -> icache_ok c -> coherent (blocks_of img) image_sb c ->
  exists u s, fs_running (view:=bio_view) 29 (blocks_of img) (fun _ => False) (file_state u img c ft) s.
Proof.
  intros Hb Hsz Ht Hbm How Hok Hcoh. destruct (formatted_view image_sb img Hb) as (u & s & Hv).
  exists u, (set_ks_ftable ft (set_ks_icache c (set_ks_log demo_log s))).
  destruct (file_state_fields u img c ft) as (Hd & Hs & _). split.
  - apply (op_outside (fun s => set_ks_ftable ft (set_ks_icache c s))); [intros s'; auto|reflexivity|].
    apply (started_op demo_log); [exact Hv| |reflexivity|reflexivity|discriminate].
    rewrite formatted_disk. apply sized_geo, Hsz.
  - now apply file_state_fs_ok.
  - exact Hok.
  - rewrite Hs. exact Hcoh.
Qed.

Lemma file_disk_inode : disk_inode (blocks_of file_image) image_sb 2 = file_inode.
Proof. vm_compute. reflexivity. Qed.

Lemma cache_with_ok di : icache_ok (cache_with di).
Proof.
  split.
  - reflexivity.
  - intros [|i] ip H; [injection H as <-; discriminate|].
    apply lookup_replicate_1 in H as [-> _]. discriminate.
  - intros [|i] [|j] ip jp Hi Hj Hp Hh; [reflexivity|..].
    + apply lookup_replicate_1 in Hj as [-> _]. now destruct Hh.
    + apply lookup_replicate_1 in Hi as [-> _]. easy.
    + apply lookup_replicate_1 in Hi as [-> _]. easy.
Qed.

Lemma cache_with_coherent di L sb : allocated L sb 2 -> disk_inode L sb 2 = di -> coherent L sb (cache_with di).
Proof.
  intros Ha Hd [|i] ip H Hp; [injection H as <-; split; [reflexivity|]; split; [exact Ha|]; intros _; symmetry; exact Hd|].
  apply lookup_replicate_1 in H as [-> _]. easy.
Qed.

Lemma file_cache_ok : icache_ok file_cache.
Proof. apply cache_with_ok. Qed.

Lemma file_cache_coherent L sb :
  allocated L sb 2 -> disk_inode L sb 2 = file_inode -> coherent L sb file_cache.
Proof. apply cache_with_coherent. Qed.

Lemma file_running :
  exists u s, fs_running (view:=bio_view) 29 (blocks_of file_image) (fun _ => False) (file_state u file_image file_cache two_files) s.
Proof.
  apply file_state_running.
  - apply (bool_decide_unpack _). vm_compute. exact Logic.I.
  - apply sizes_check_ok. vm_compute. reflexivity.
  - vm_compute. reflexivity.
  - vm_compute. reflexivity.
  - vm_compute. reflexivity.
  - exact file_cache_ok.
  - apply file_cache_coherent; [|exact file_disk_inode]. apply allocated_check_ok. vm_compute. reflexivity.
Qed.

Lemma two_files_entry f fv : two_files !! f = Some fv -> f_type fv = FD_INODE /\ f_ip fv = Some 0%nat.
Proof.
  destruct f as [|[|f]]; intros Hf; [injection Hf as <-; now split|injection Hf as <-; now split|].
  destruct f; discriminate Hf.
Qed.

Lemma file_cache_slot : slot file_cache 0 2.
Proof. exists (mkInode 0 2 1 1 file_inode). split; [reflexivity|]. split; [easy|]. now split. Qed.

Lemma file_open_two u f fv :
  two_files !! f = Some fv -> open_file (blocks_of file_image) (file_state u file_image file_cache two_files) f fv 0 2.
Proof.
  intros Hf. destruct (two_files_entry f fv Hf) as [Ht Hi]. split; [exact Hf|exact Ht|exact Hi|exact file_cache_slot|].
  destruct (file_state_fields u file_image file_cache two_files) as (_ & -> & _). rewrite file_disk_inode.
  intros E. discriminate E.
Qed.

Lemma file_state_size u : di_size (disk_inode (blocks_of file_image) (ks_sb (file_state u file_image file_cache two_files)) 2) = 0.
Proof. destruct (file_state_fields u file_image file_cache two_files) as (_ & -> & _). now rewrite file_disk_inode. Qed.

Lemma file_state_free u : 100 <= free_count (blocks_of file_image) (file_state u file_image file_cache two_files).
Proof.
  unfold free_count, free_blocks. destruct (file_state_fields u file_image file_cache two_files) as (_ & -> & _).
  vm_compute. discriminate.
Qed.

Lemma filewrite_writes_witness :
  exists u s, fs_running (view:=bio_view) 29 (blocks_of file_image) (fun _ => False) (file_state u file_image file_cache two_files) s /\
    wp (filewrite 0 (str "hello") 5) (fun r _ => r = 5) s.
Proof.
  destruct file_running as (u & s & Hr). exists u, s. split; [exact Hr|].
  eapply wpx_conseq.
  - eapply (filewrite_writes (view:=bio_view) 29 _ _ _ s 0 _ 0 2 (str "hello") 5 Hr (file_open_two u 0 _ eq_refl)).
    + discriminate.
    + rewrite file_state_size. split; discriminate.
    + split; reflexivity.
    + discriminate.
    + discriminate.
    + discriminate.
    + exact (Z.le_trans 2 100 _ ltac:(discriminate) (file_state_free u)).
  - intros r s' [-> _]. reflexivity.
Defined.

Lemma filewrite_fileread_witness :
  exists u s, fs_running (view:=bio_view) 29 (blocks_of file_image) (fun _ => False) (file_state u file_image file_cache two_files) s /\
    wp (_ <- filewrite 0 (str "hello") 5;; fileread 1 5) (fun r _ => r = (5, str "hello")) s.
Proof.
  destruct file_running as (u & s & Hr). exists u, s. split; [exact Hr|].
  eapply (filewrite_fileread (view:=bio_view) 29 _ _ _ s 0 _ 1 _ 0 2 (str "hello") 5 Hr
    (file_open_two u 0 _ eq_refl) ltac:(discriminate) (file_open_two u 1 _ eq_refl)).
  - discriminate.
  - reflexivity.
  - discriminate.
  - rewrite file_state_size. split; discriminate.
  - split; reflexivity.
  - discriminate.
  - discriminate.
  - discriminate.
  - exact (Z.le_trans 2 100 _ ltac:(discriminate) (file_state_free u)).
Defined.

Lemma ilock_iupdate_keeps_witness :
  exists u s, wp (_ <- ilock (Some 0%nat);; iupdate 0) (fun _ s' => exists L' R' ip,
    in_op (view:=bio_view) 28 [] L' (mark (IBLOCK 2 (ks_sb (file_state u file_image file_cache two_files))) (fun _ => False)) R' s' /\
    (forall k, L' k = blocks_of file_image k) /\ ks_icache R' !! 0%nat = Some ip /\ di_type (ip_d ip) = T_FILE) s.
Proof.
  destruct file_running as (u & s & Hrun). exists u, s.
  destruct (file_state_fields u file_image file_cache two_files) as (_ & Es & _).
  eapply wpx_conseq; [apply (ilock_iupdate_keeps 29 _ _ _ s 0 2 Hrun file_cache_slot); [|lia]|].
  - rewrite Es. apply (bool_decide_unpack _). vm_compute. exact Logic.I.
  - intros [] s' (L' & R' & ip & Ho & HL & Hi & _ & Hd & _). exists L', R', ip. split; [exact Ho|]. split; [exact HL|].
    split; [exact Hi|]. rewrite Hd, Es, file_disk_inode. reflexivity.
Defined.

(** A file without blocks, one byte short of the largest size. *)
Definition full_inode : dinode := mkDinode T_FILE 0 0 1 (MAXFILE * BSIZE - 1) (replicate 13 0).

Lemma full_disk_inode : disk_inode (blocks_of (image_with full_inode)) image_sb 2 = full_inode.
Proof. vm_compute. reflexivity. Qed.

Lemma full_allocated : allocated (blocks_of (image_with full_inode)) image_sb 2.
Proof. apply allocated_check_ok. vm_compute. reflexivity. Qed.

Lemma full_running : exists u s, fs_running (view:=bio_view) 29 (blocks_of (image_with full_inode)) (fun _ => False)
  (file_state u (image_with full_inode) (cache_with full_inode) []) s.
Proof.
  apply file_state_running.
  - apply (bool_decide_unpack _). vm_compute. exact Logic.I.
  - apply sizes_check_ok. vm_compute. reflexivity.
  - vm_compute. reflexivity.
  - vm_compute. reflexivity.
  - vm_compute. reflexivity.
  - apply cache_with_ok.
  - apply cache_with_coherent; [exact full_allocated|exact full_disk_inode].
Qed.

Lemma full_free u : 100 <= free_count (blocks_of (image_with full_inode)) (file_state u (image_with full_inode) (cache_with full_inode) []).
Proof.
  unfold free_count, free_blocks. destruct (file_state_fields u (image_with full_inode) (cache_with full_inode) []) as (_ & -> & _).
  vm_compute. discriminate.
Qed.

Lemma writei_past_end_panics_witness :
  exists u s s', fs_running (view:=bio_view) 29 (blocks_of (image_with full_inode)) (fun _ => False)
    (file_state u (image_with full_inode) (cache_with full_inode) []) s /\
    writei 0 [65; 66] (MAXFILE * BSIZE - 1) 2 s = Panic (str "bmap: out of range") s'.
Proof.
  destruct full_running as (u & s & Hrun). pose proof (full_free u) as Hfree.
  destruct (file_state_fields u (image_with full_inode) (cache_with full_inode) []) as (_ & Es & _).
  destruct (writei_past_end_panics 29 (blocks_of (image_with full_inode)) (fun _ => False)
    (file_state u (image_with full_inode) (cache_with full_inode) []) s 0 (mkInode 0 2 1 1 full_inode) 2 [65; 66] (MAXFILE * BSIZE - 1) 2)
    as (s' & Hp).
  - apply Hrun.
  - reflexivity.
  - reflexivity.
  - reflexivity.
  - rewrite Es. exact full_allocated.
  - rewrite Es, full_disk_inode. reflexivity.
  - apply Hrun.
  - rewrite Es, full_disk_inode. split; [discriminate|apply Z.le_refl].
  - split; reflexivity.
  - apply Z.le_refl.
  - discriminate.
  - refine (Z.le_trans _ _ _ _ Hfree). discriminate.
  - exists u, s, s'. split; [exact Hrun|exact Hp].
Defined.
