(* ===== verification/Durable.v ===== *)
(** * Writes are transactions

    A write runs between [begin_op] and [end_op] (kernel/sysfile.c): when it
    returns, the disk holds the file system with the bytes in the file, and a
    crash at any moment leaves a disk from which the next boot recovers the file
    system with all of the bytes or with none of them. *)
From S2P Require Import Prelude State Printf Bio Blocks Sched Log Crash Txn Update Fs Layout Inodes Icache Paths Mkfs Tree.
From S2P Require Import Alloc Slots Writing Store Namei File.

(** ** Two views of the same blocks *)

(** [L'] shows the blocks outside of the log as [L] does. *)
Definition same_data (R : kstate) (L L' : blockmap) : Prop := forall k, loggable R k -> L' k = L k.

Section same.
Context (R : kstate) (L L' : blockmap).
Hypothesis Hfs : fs_ok L R.
Hypothesis Hsame : same_data R L L'.
Abbreviation sb := (ks_sb R).

Lemma same_inode j : 0 < j < sb_ninodes sb -> disk_inode L' sb j = disk_inode L sb j.
Proof.
  intros Hj. unfold disk_inode, block. now rewrite Hsame by (apply (ig_log _ (fs_inodes _ _ Hfs) j Hj)).
Qed.

Lemma same_allocated j : allocated L' sb j <-> allocated L sb j.
Proof. unfold allocated. split; intros [Hj Ht]; (split; [exact Hj|]); rewrite same_inode in *; assumption. Qed.

Lemma same_marked c : 0 <= c < BPB -> marked L' sb c = marked L sb c.
Proof.
  intros Hc. apply (marked_frame R); [apply (fs_disk _ _ Hfs)|exact Hc|].
  apply Hsame, (dg_bmap _ (fs_disk _ _ Hfs)).
Qed.

(** The file of an inode that is in use. *)
Section file.
Context (di : dinode) (Hw : wfile L R di).

Lemma same_block x : in_file x -> baddr L di x <> 0 -> L' (baddr L di x) = L (baddr L di x).
Proof. intros Hx Hz. apply Hsame, (dg_data _ (fs_disk _ _ Hfs)), (wf_data _ _ _ Hw x Hx Hz). Qed.

Lemma same_baddr x : baddr L' di x = baddr L di x.
Proof.
  unfold baddr, block_addr. destruct (x <? 0); [reflexivity|]. destruct (x <? NDIRECT); [reflexivity|].
  destruct (Z.eqb_spec (indirect di) 0) as [|Hi]; [reflexivity|]. unfold block.
  change (indirect di) with (baddr L di (-1)). now rewrite same_block by (exact Hi || (unfold in_file; easy)).
Qed.

Lemma same_byte x : 0 <= x < MAXFILE * BSIZE -> file_byte L' di x = file_byte L di x.
Proof.
  intros Hx. destruct (in_file_byte x Hx) as [H0 Hb]. assert (0 <= x / BSIZE) by (unfold BSIZE in *; mlia).
  unfold file_byte. rewrite <- !slot_block, same_baddr by lia.
  destruct (Z.eqb_spec (baddr L di (x / BSIZE)) 0) as [|Hz]; [reflexivity|].
  unfold block. now rewrite same_block by (exact Hz || (unfold in_file; lia)).
Qed.

Lemma same_owns k : owns L' di k <-> owns L di k.
Proof.
  split; intros (Hk & y & Hy & Hs); (split; [exact Hk|]); exists y; (split; [exact Hy|]);
    [rewrite <- same_baddr; exact Hs|rewrite same_baddr; exact Hs].
Qed.

Lemma same_wfile : wfile L' R di.
Proof.
  pose proof (dg_size _ (fs_disk _ _ Hfs)) as Hsz. pose proof (data_start_bmap _ (fs_disk _ _ Hfs)). split.
  - destruct (wf_ok _ _ _ Hw) as [H1 H2 H3 H4]. split; [exact H1|exact H2|exact H3|].
    intros bn Hbn. rewrite <- slot_block, same_baddr, slot_block by lia. now apply H4.
  - intros x Hx. rewrite same_baddr. intros Hz. destruct (wf_data _ _ _ Hw x Hx Hz) as [Hr Hm].
    split; [exact Hr|]. rewrite same_marked by lia. exact Hm.
  - intros x y. rewrite !same_baddr. apply (wf_sep _ _ _ Hw).
Qed.
End file.

Lemma same_file j : allocated L sb j -> disk_inode L' sb j = disk_inode L sb j /\ wfile L R (disk_inode L sb j).
Proof. intros Hj. split; [apply same_inode, Hj|now apply (fs_files _ _ Hfs)]. Qed.
Lemma same_dirents j : allocated L sb j -> dirents L' (disk_inode L sb j) = dirents L (disk_inode L sb j).
Proof.
  intros Hj. destruct (same_file j Hj) as [_ Hw]. pose proof (fo_size _ _ _ (wf_ok _ _ _ Hw)) as Hs.
  unfold dirents. apply map_ext_in. intros e He. apply list_elem_of_In, elem_of_upto in He. f_equal.
  unfold file_bytes. apply map_ext_in. intros t Ht. apply list_elem_of_In, elem_of_upto in Ht.
  apply same_byte; [exact Hw|]. change (MAXFILE * BSIZE) with 274432 in *. unfold SIZEOF_DIRENT in *. mlia.
Qed.

Lemma same_owned b : owned L' sb b <-> owned L sb b.
Proof.
  pose proof (data_start_bmap _ (fs_disk _ _ Hfs)) as Hds.
  rewrite !owned_owns by lia. split; (intros [Hb|(j & Hj & Ho)]; [now left|right; exists j]).
  - apply same_allocated in Hj. destruct (same_file j Hj) as [E Hw]. rewrite E in Ho. split; [exact Hj|].
    now apply same_owns in Ho.
  - destruct (same_file j Hj) as [E Hw]. split; [now apply same_allocated|]. rewrite E. now apply same_owns.
Qed.

Lemma same_fs_ok : fs_ok L' R.
Proof.
  pose proof (fs_tree _ _ Hfs) as [T1 T2 T3 T4 T5]. pose proof (dg_size _ (fs_disk _ _ Hfs)) as Hsz. split.
  - split.
    + now apply same_allocated.
    + intros j Hj%same_allocated. now apply T2.
    + intros j Hj%same_allocated. destruct (same_file j Hj) as [-> Hw]. now apply wf_ok, same_wfile.
    + intros j Hj%same_allocated. destruct (same_file j Hj) as [-> Hw]. now apply T4.
    + intros j Hj%same_allocated. destruct (same_file j Hj) as [-> Hw]. intros Ht.
      destruct (T5 j Hj Ht) as [D1 D2]. split; [exact D1|]. intros k de Hk Hde.
      rewrite same_dirents in Hk by exact Hj. apply same_allocated. now apply (D2 k de).
  - intros b Hb. rewrite same_marked by lia.
    assert (marked L sb b = true <-> owned L sb b) as -> by exact (fs_bitmap _ _ Hfs b Hb). symmetry. apply same_owned.
  - apply (fs_disk _ _ Hfs).
  - apply (fs_inodes _ _ Hfs).
  - intros j Hj%same_allocated. destruct (same_file j Hj) as [-> Hw]. now apply same_wfile.
  - intros j k b Hj%same_allocated Hk%same_allocated Hob Hkb.
    destruct (same_file j Hj) as [Ej Hwj], (same_file k Hk) as [Ek Hwk]. rewrite Ej in Hob. rewrite Ek in Hkb.
    apply same_owns in Hob; [|exact Hwj]. apply same_owns in Hkb; [|exact Hwk].
    exact (fs_owner _ _ Hfs j k b Hj Hk Hob Hkb).
Qed.

Lemma same_coherent c : coherent L sb c -> coherent L' sb c.
Proof.
  intros Hc i ip Hi Hp. destruct (Hc i ip Hi Hp) as (H1 & H2 & H3). split; [exact H1|].
  split; [now apply same_allocated|]. intros Hv. destruct (same_file _ H2) as [-> _]. now apply H3.
Qed.

Lemma same_updated inum src off n L0 : allocated L sb inum -> updated sb inum src off n L0 L -> updated sb inum src off n L0 L'.
Proof.
  intros Ha [U1 U2 U3 U4 U5 U6]. destruct (same_file _ Ha) as [E Hw]. split; rewrite ?E; try assumption.
  - intros j. rewrite same_allocated. apply U1.
  - intros x Hx. rewrite same_byte by assumption. now apply U4.
  - intros j Hj Hne. destruct (same_file j) as [-> _]; [now apply U1|]. now apply U5.
  - intros j x Hj Hne Hx. destruct (same_file j) as [Ej Hwj]; [now apply U1|].
    rewrite Ej, same_byte by assumption. now apply U6.
Qed.
End same.

(** ** A transaction *)

(** The file system between operations: the log is empty, nothing is dirty, and
    the inode cache agrees with the blocks. *)
Record fs_idle (s : kstate) : Prop := {
  id_log : log_inv s;
  id_out : log_outstanding (ks_log s) = 0;
  id_clean : forall k, ~ dirty s k;
  id_fs : fs_ok (lblk s) s;
  id_cache : icache_ok (ks_icache s);
  id_coherent : coherent (lblk s) (ks_sb s) (ks_icache s) }.

Lemma idle_empty s : fs_idle s -> lh_n (ks_log s) = 0.
Proof.
  intros Hid. pose proof (li_txn _ (id_log _ Hid)) as Htx. pose proof (li_geo _ (id_log _ Hid)) as Hgeo.
  destruct (txn_bounds _ _ Hgeo _ Htx) as (Hn & _).
  destruct (decide (lh_n (ks_log s) = 0)) as [|Hne]; [assumption|exfalso].
  destruct (lookup_home _ Hn 0) as [_ H0]; [lia|].
  apply (id_clean _ Hid (home (ks_log s) 0)), (tx_dirty _ _ Htx).
  apply elem_of_logged; [exact Hn|]. exists 0. split; [lia|reflexivity].
Qed.

(** After [begin_op]. *)
Definition opened (s : kstate) : kstate := upd_ks_log (upd_log_outstanding (fun n => i32 (n + 1))) s.

Lemma begin_idle s fuel :
  fs_idle s -> 10 <= log_size (ks_log s) -> begin_op (S fuel) s = Ok tt (opened s).
Proof.
  intros Hid Hsz. apply begin_op_goes; [apply (li_lock _ (id_log _ Hid))|].
  unfold must_wait. rewrite (li_committing _ (id_log _ Hid)), (id_out _ Hid), (idle_empty _ Hid). cbn [Z.eqb negb orb].
  apply Z.ltb_ge. lia.
Qed.

Lemma opened_inv s : fs_idle s -> log_inv (opened s) /\ log_outstanding (ks_log (opened s)) = 1.
Proof.
  intros Hid. destruct (id_log _ Hid) as [H1 [G1 G2 G3 G4 G5 G6] [T1 T2 T3 T4] H4 H5 H6 H7]. split.
  - split; [now apply (cache_ext [] [] s)| | |exact H4|exact H5|exact H6|exact H7]; split; assumption.
  - change (i32 (log_outstanding (ks_log s) + 1) = 1). now rewrite (id_out _ Hid).
Qed.

Lemma opened_running s :
  fs_idle s -> fs_running (view:=bio_view) (log_size (ks_log s) - 1) (lblk s) (dirty s) (opened s) (opened s).
Proof.
  intros Hid. destruct (opened_inv s Hid) as [[H1 H2 H3 H4 H5 H6 H7] Hout].
  pose proof (lg_size _ _ H2) as Hsz. change (log_size (ks_log (opened s))) with (log_size (ks_log s)) in Hsz. split.
  - split; [exact (self_view (opened s) H1)|exact H2|exact H3|exact H4|lia|].
    change (log_size (ks_log (opened s))) with (log_size (ks_log s)).
    change (lh_n (ks_log (opened s))) with (lh_n (ks_log s)). rewrite (idle_empty _ Hid). lia.
  - apply (fs_ok_same _ s); try reflexivity; [|apply (id_fs _ Hid)]. auto.
  - exact (id_cache _ Hid).
  - exact (id_coherent _ Hid).
Qed.

(** The state of an operation on the blocks of the cache itself. *)
Lemma running_inv n L D R s :
  fs_running (view:=bio_view) n L D R s -> log_committing (ks_log R) = 0 ->
  (exists h, ks_disk R !! log_start (ks_log R) = Some h /\ hdr_n h = 0) -> length (ks_proc R) = nproc ->
  log_inv s /\ (forall k, lblk s k = L k) /\ others s = others R /\
  ks_disk s = ks_disk R /\ ks_log s = ks_log R /\ ks_proc s = ks_proc R /\ ks_writes s = ks_writes R.
Proof.
  intros [[Hv Hgeo Htx Hlock Hout Hroom] _ _ _] Hcom Hhdr Hproc.
  destruct (view_rest _ _ _ _ _ Hv) as [bc Es].
  assert (others s = others R /\ ks_disk s = ks_disk R /\ ks_log s = ks_log R /\ ks_proc s = ks_proc R /\ ks_writes s = ks_writes R)
    as (E1 & E2 & E3 & E4 & E5) by (rewrite Es; repeat split; reflexivity).
  destruct Hv as [Hc _ Hl Hd _]. split; [|auto 10]. split; rewrite ?E2, ?E3, ?E4; try assumption.
  destruct Htx as [T1 T2 T3 T4]. split; [exact T1|exact T2|intros k; rewrite Hd; apply T3|exact T4].
Qed.

(** What two states share when only the blocks, the log and the processes differ. *)
Lemma others_fields s s' : others s' = others s ->
  ks_sb s' = ks_sb s /\ ks_icache s' = ks_icache s /\ ks_ftable s' = ks_ftable s /\ ks_mem s' = ks_mem s /\
  ks_current s' = ks_current s.
Proof.
  intros E. split; [exact (f_equal ks_sb E)|]. split; [exact (f_equal ks_icache E)|].
  split; [exact (f_equal ks_ftable E)|]. split; [exact (f_equal ks_mem E)|exact (f_equal ks_current E)].
Qed.

Lemma loggable_ext s s' k :
  (forall k, is_Some (ks_disk s !! k) -> is_Some (ks_disk s' !! k)) ->
  log_start (ks_log s') = log_start (ks_log s) -> log_size (ks_log s') = log_size (ks_log s) ->
  loggable s k -> loggable s' k.
Proof. intros Hd H1 H2 (G1 & G2 & G3). split; [exact G1|]. rewrite H1, H2. auto. Qed.

(** [end_op] makes the blocks of the operation those of the disk. *)
Lemma end_running n L D R s :
  fs_running (view:=bio_view) n L D R s -> log_committing (ks_log R) = 0 -> log_outstanding (ks_log R) = 1 ->
  (exists h, ks_disk R !! log_start (ks_log R) = Some h /\ hdr_n h = 0) -> length (ks_proc R) = nproc ->
  exists s', end_op s = Ok tt s' /\ fs_idle s' /\ same_data R L (lblk s') /\
    (forall k, home_block R k -> ks_disk s' !! k = L k) /\
    others s' = others R /\ ks_proc s' = map (wake ChanLog) (ks_proc R) /\
    ks_log s' = set_log_outstanding 0 (set_lh_n 0 (ks_log R)).
Proof.
  intros Hr Hcom Hout Hhdr Hproc. destruct (running_inv _ _ _ _ _ Hr Hcom Hhdr Hproc) as (Hinv & Hl & Eo & Ed & El & Ep & _).
  destruct (end_op_settles s Hinv) as (s' & Hrun & Hinv' & Hout' & Hcl & Hhome & Eo' & Ep' & El' & Hdom); [now rewrite El|].
  unfold home_block in Hhome. rewrite El in Hhome, El'. rewrite Eo in Eo'. rewrite Ep in Ep'. rewrite Ed in Hdom.
  assert (same_data R L (lblk s')) as Hsame.
  { intros k (_ & _ & Hk). rewrite <- Hl. now apply Hhome. }
  exists s'. split; [exact Hrun|]. split; [|split; [exact Hsame|split; [|split; [exact Eo'|split; [exact Ep'|exact El']]]]].
  2: { intros k Hk. rewrite <- Hl. now apply Hhome. }
  destruct Hr as [_ Hfs Hok Hcoh]. destruct (others_fields _ _ Eo') as (Esb & Eic & _).
  pose proof (same_fs_ok R L (lblk s') Hfs Hsame) as Hfs'.
  split; [exact Hinv'|exact Hout'|exact Hcl| |now rewrite Eic|].
  - apply (fs_ok_moves _ R); [exact Esb|exact Hdom| |exact Hfs'].
    intros k. apply loggable_ext; [exact Hdom|now rewrite El'|now rewrite El'].
  - rewrite Esb, Eic. now apply (same_coherent R L).
Qed.

(** *** A write as a transaction *)

(** What a write needs: the file is open, the range starts within it and fits, and
    there is room on the disk and in the log. *)
Record can_write (s : kstate) (f : nat) (fv : file) (i : nat) (inum : Z) (src : list Z) (n : Z) : Prop := {
  cw_file : open_file (lblk s) s f fv i inum;
  cw_writable : f_writable fv <> 0;
  cw_off : 0 <= f_off fv <= di_size (disk_inode (lblk s) (ks_sb s) inum);
  cw_n : 0 < n < 2 ^ 31;
  cw_end : f_off fv + n <= MAXFILE * BSIZE;
  cw_src : n <= Z.of_nat (length src);
  cw_log : 10 <= log_size (ks_log s) /\ nblocks (f_off fv) n + 4 <= log_size (ks_log s);
  cw_free : nblocks (f_off fv) n + 1 <= free_count (lblk s) s }.

Lemma filewrite_opened s f fv i inum src n :
  fs_idle s -> can_write s f fv i inum src n ->
  exists n' L' D' l c s', filewrite f src n (opened s) = Ok n s' /\
    let R' := set_ks_ftable (<[f := set_f_off (f_off fv + n) fv]> (ks_ftable s)) (set_ks_icache c (set_ks_log l s)) in
    fs_running (view:=bio_view) n' L' D' R' s' /\ same_log (ks_log (opened s)) l /\
    updated (ks_sb s) inum src (f_off fv) n (lblk s) L' /\
    free_count (lblk s) s - nblocks (f_off fv) n - 1 <= free_count L' R' /\
    forall j k, slot (ks_icache s) j k -> slot c j k.
Proof.
  intros Hid [[O1 O2 O3 O4 O5] Hwr Hoff Hn Hend Hsrc [Hsz Hlog] Hfree].
  assert (open_file (lblk s) (opened s) f fv i inum) as Hof by (split; assumption).
  destruct (proj1 (wp_Ok _ _ _) (filewrite_run (view:=bio_view) _ _ _ _ _ f fv i inum src n (opened_running s Hid) Hof Hwr Hoff Hn
      Hend Hsrc ltac:(lia) Hfree)) as (r & s' & Hrun & -> & n' & L' & D' & R' & Hr & Hup & Hfc & (l & c & Hl & ER) & Hsl).
  exists n', L', D', l, c, s'. split; [exact Hrun|].
  assert (R' = set_ks_ftable (<[f := set_f_off (f_off fv + n) fv]> (ks_ftable s)) (set_ks_icache c (set_ks_log l s))) as <-
    by (rewrite ER; reflexivity).
  split; [exact Hr|]. split; [exact Hl|]. split; [exact Hup|]. split; [exact Hfc|]. intros j k Hjk.
  assert (c = ks_icache R') as -> by (rewrite ER; reflexivity). now apply Hsl.
Qed.

(** The whole transaction: what it stores, and what else it changes. *)
Record saved (s : kstate) (f : nat) (fv : file) (inum : Z) (src : list Z) (n : Z) (s' : kstate) : Prop := {
  sv_idle : fs_idle s';
  sv_updated : updated (ks_sb s) inum src (f_off fv) n (lblk s) (lblk s');
  sv_free : free_count (lblk s) s - nblocks (f_off fv) n - 1 <= free_count (lblk s') s';
  sv_sb : ks_sb s' = ks_sb s;
  sv_ftable : ks_ftable s' = <[f := set_f_off (f_off fv + n) fv]> (ks_ftable s);
  sv_slots : forall j k, slot (ks_icache s) j k -> slot (ks_icache s') j k;
  sv_log : log_size (ks_log s') = log_size (ks_log s);
  sv_proc : ks_proc s' = map (wake ChanLog) (ks_proc s);
  sv_current : ks_current s' = ks_current s;
  sv_mem : ks_mem s' = ks_mem s }.

(** The state after the whole transaction. *)
Lemma write_txn_run s f fv i inum src n fuel :
  fs_idle s -> can_write s f fv i inum src n ->
  exists s1 s2, begin_op (S fuel) s = Ok tt (opened s) /\ filewrite f src n (opened s) = Ok n s1 /\
    end_op s1 = Ok tt s2 /\ log_inv s1 /\ log_outstanding (ks_log s1) = 1 /\
    ks_disk s1 = ks_disk s /\ ks_writes s1 = ks_writes s /\
    log_start (ks_log s1) = log_start (ks_log s) /\ log_size (ks_log s1) = log_size (ks_log s) /\
    (forall k, home_block s k -> lblk s2 k = lblk s1 k /\ ks_disk s2 !! k = lblk s1 k) /\
    fs_ok (lblk s1) s /\ updated (ks_sb s) inum src (f_off fv) n (lblk s) (lblk s1) /\
    saved s f fv inum src n s2.
Proof.
  intros Hid Hcw. destruct (filewrite_opened s f fv i inum src n Hid Hcw) as (n' & L' & D' & l & c & s1 & Hrun & Hr & Hl & Hup & Hfc & Hsl).
  cbv zeta in Hr, Hfc. set (R' := set_ks_ftable _ _) in *.
  destruct (opened_inv s Hid) as [Hio Hout1]. destruct Hl as [L1 L2 L3 L4].
  assert (log_committing (ks_log R') = 0) as Hcom by (change (log_committing l = 0); rewrite L4; apply (li_committing _ Hio)).
  assert (log_outstanding (ks_log R') = 1) as Hout by (change (log_outstanding l = 1); now rewrite L3).
  assert (exists h, ks_disk R' !! log_start (ks_log R') = Some h /\ hdr_n h = 0) as Hhdr.
  { change (exists h, ks_disk s !! log_start l = Some h /\ hdr_n h = 0). rewrite L1. apply (li_hdr _ Hio). }
  assert (length (ks_proc R') = nproc) as Hproc by exact (li_procs _ Hio).
  destruct (running_inv _ _ _ _ _ Hr Hcom Hhdr Hproc) as (Hinv & Hlb & Eo & Ed & El & Ep & Ew).
  destruct (end_running _ _ _ _ _ Hr Hcom Hout Hhdr Hproc) as (s2 & Hend & Hid2 & Hsame & Hdisk & Eo2 & Ep2 & El2).
  destruct (cw_file _ _ _ _ _ _ _ Hcw) as [_ _ _ (ip & Hi & (Hp & _ & Hinm)) _].
  destruct (id_coherent _ Hid i ip Hi Hp) as (_ & Ha & _). rewrite Hinm in Ha.
  assert (fs_ok L' s) as Hfs'.
  { apply (fs_ok_same L' R'); [reflexivity|reflexivity| |apply (fr_fs _ _ _ _ _ Hr)].
    intros k. apply loggable_ext; [auto|symmetry; exact L1|symmetry; exact L2]. }
  assert (allocated L' (ks_sb s) inum) as Ha' by now apply (up_allocated _ _ _ _ _ _ _ Hup).
  exists s1, s2. split; [apply begin_idle; [exact Hid|apply (cw_log _ _ _ _ _ _ _ Hcw)]|].
  split; [exact Hrun|]. split; [exact Hend|]. split; [exact Hinv|]. split; [now rewrite El|].
  split; [exact Ed|]. split; [exact Ew|]. split; [rewrite El; exact L1|]. split; [rewrite El; exact L2|].
  assert (same_data s L' (lblk s1)) as Hsd by (intros k _; apply Hlb).
  split; [|split; [exact (same_fs_ok s L' _ Hfs' Hsd)|split; [exact (same_updated s L' _ Hfs' Hsd _ _ _ _ _ Ha' Hup)|]]].
  - intros k Hk. destruct (end_op_settles s1 Hinv) as (s2' & Hend' & _ & _ & _ & Hhome & _); [now rewrite El|].
    assert (s2' = s2) as -> by congruence. apply Hhome. unfold home_block in *. rewrite El.
    change (~ in_log (log_start l) (log_size l) k). now rewrite L1, L2.
  - destruct (others_fields _ _ Eo2) as (Esb & Eic & Eft & Emem & Ecur).
    assert (same_data s L' (lblk s2)) as Hsame2.
    { intros k Hk. apply Hsame. revert Hk. apply loggable_ext; [auto|exact L1|exact L2]. }
    split; [exact Hid2|exact (same_updated s L' _ Hfs' Hsame2 _ _ _ _ _ Ha' Hup)| |exact Esb|exact Eft|now rewrite Eic| |exact Ep2|exact Ecur|exact Emem].
    + enough (free_count (lblk s2) s2 = free_count L' R') as -> by exact Hfc.
      transitivity (free_count (lblk s2) R'); [unfold free_count, free_blocks; now rewrite Esb|].
      apply count_marks; [exact (fs_disk _ _ (fr_fs _ _ _ _ _ Hr))|]. intros k. exact (same_marked s L' _ Hfs' Hsame2 k).
    + rewrite El2. exact L2.
Qed.

(** ** Theorem *)

(** C1: safety.  A write through an open file, as [sys_write] runs it, is atomic and
    durable.  When it returns, the disk holds a well-formed file system in which
    the bytes are in the file and every other file is as it was.  After a crash at
    any of its disk writes, the kernel that boots next finds a well-formed file
    system with all of the bytes in the file or with none of them. *)
Theorem write_crash_atomic s f fv i inum src n fuel :
  let sb := ks_sb s in
  let off := f_off fv in
  fs_idle s -> can_write s f fv i inum src n ->
  exists s' ws, (_ <- begin_op (S fuel);; r <- filewrite f src n;; _ <- end_op;; ret r) s = Ok n s' /\
    fs_idle s' /\ updated sb inum src off n (lblk s) (lblk s') /\
    (forall k, loggable s k -> ks_disk s' !! k = lblk s' k) /\
    ks_writes s' = ks_writes s ++ ws /\
    forall p sc, p `prefix_of` ws -> fresh sc -> describes sb (ks_log s) -> ks_disk sc = wr p (ks_disk s) ->
      exists sr, (_ <- binit;; init_log 0 sb) sc = Ok tt sr /\ fs_ok (lblk sr) s /\
        (same_data s (lblk s) (lblk sr) \/ updated sb inum src off n (lblk s) (lblk sr)).
Proof.
  intros sb off Hid Hcw.
  destruct (write_txn_run s f fv i inum src n fuel Hid Hcw)
    as (s1 & s2 & Hb & Hf & He & Hinv & Hout & Ed & Ew & Els & Elz & Hhome & Hfs1 & Hup1 & Hsv).
  pose proof (sv_idle _ _ _ _ _ _ _ Hsv) as Hid2. pose proof (sv_updated _ _ _ _ _ _ _ Hsv) as Hup2.
  destruct (end_op_crash s1 Hinv Hout) as (s2' & ws & He' & Hws & _ & Hcrash).
  assert (s2' = s2) as -> by congruence. exists s2, ws.
  split; [rewrite (bind_Ok _ _ _ _ _ Hb), (bind_Ok _ _ _ _ _ Hf), (bind_Ok _ _ _ _ _ He); reflexivity|].
  split; [exact Hid2|]. split; [exact Hup2|]. split.
  { intros k (_ & _ & Hk). destruct (Hhome k Hk) as [-> ->]. reflexivity. }
  split; [now rewrite Hws, Ew|]. intros p sc Hp Hfr [D1 D2] Hd.
  destruct (Hcrash p sc sb Hp Hfr) as (sr & Hboot & _ & Hcase).
  { split; [now rewrite Els|now rewrite Elz]. }
  { now rewrite Ed. }
  exists sr. split; [exact Hboot|]. unfold home_block in Hcase. rewrite Els, Elz in Hcase.
  destruct Hcase as [Hold|Hnew].
  - assert (same_data s (lblk s) (lblk sr)) as Hsame.
    { intros k (_ & _ & Hk). rewrite (Hold k Hk), Ed. symmetry.
      eapply view_clean; [apply self_view, (li_cache _ (id_log _ Hid))|apply not_elem_of_nil|apply (id_clean _ Hid)]. }
    split; [exact (same_fs_ok s _ _ (id_fs _ Hid) Hsame)|now left].
  - assert (same_data s (lblk s1) (lblk sr)) as Hsame by (intros k (_ & _ & Hk); now apply Hnew).
    split; [exact (same_fs_ok s _ _ Hfs1 Hsame)|right].
    apply (same_updated s (lblk s1)); [exact Hfs1|exact Hsame| |exact Hup1].
    destruct (cw_file _ _ _ _ _ _ _ Hcw) as [_ _ _ (ip & Hi & (Hpos & _ & Hinm)) _].
    destruct (id_coherent _ Hid i ip Hi Hpos) as (_ & Ha & _). rewrite Hinm in Ha.
    now apply (up_allocated _ _ _ _ _ _ _ Hup1).
Qed.

(** ** Example *)

(** A state whose cache shows the blocks [L]. *)
Lemma view_idle L R s :
  bio_view [] L (fun _ => False) R s -> log_geo (ks_log R) (ks_disk R) -> lh_n (ks_log R) = 0 ->
  log_lock (ks_log R) = 0 -> log_committing (ks_log R) = 0 -> log_outstanding (ks_log R) = 0 ->
  (exists h, ks_disk R !! log_start (ks_log R) = Some h /\ hdr_n h = 0) -> length (ks_proc R) = nproc ->
  fs_ok L R -> icache_ok (ks_icache R) -> coherent L (ks_sb R) (ks_icache R) ->
  fs_idle s /\ same_data R L (lblk s).
Proof.
  intros Hv Hgeo Hn Hlock Hcom Hout Hhdr Hproc Hfs Hok Hcoh. pose proof (view_rest _ _ _ _ _ Hv) as [bc Es].
  assert (ks_log s = ks_log R /\ ks_disk s = ks_disk R /\ ks_proc s = ks_proc R /\ ks_sb s = ks_sb R /\ ks_icache s = ks_icache R)
    as (E1 & E2 & E3 & E4 & E5) by (rewrite Es; repeat split; reflexivity).
  destruct Hv as [Hc _ Hl Hd _]. assert (same_data R L (lblk s)) as Hsame by (intros k _; apply Hl).
  assert (logged (ks_log R) = []) as Hlg by (unfold logged; now rewrite Hn).
  split; [|exact Hsame]. split.
  - split; rewrite ?E1, ?E2, ?E3; try assumption. split; rewrite ?Hlg; [|apply NoDup_nil_2| |].
    + pose proof (lg_size _ _ Hgeo). lia.
    + intros k. rewrite Hd. split; [intros []|apply not_elem_of_nil].
    + intros k Hk. now apply not_elem_of_nil in Hk.
  - now rewrite E1.
  - intros k Hk. now apply Hd in Hk.
  - apply (fs_ok_same _ R); [exact E4|exact E2| |exact (same_fs_ok R L _ Hfs Hsame)].
    intros k. apply loggable_ext; [now rewrite E2|now rewrite E1|now rewrite E1].
  - now rewrite E5.
  - rewrite E4, E5. exact (same_coherent R L _ Hfs Hsame _ Hcoh).
Qed.

Lemma view_free L R s : bio_view [] L (fun _ => False) R s -> fs_ok L R -> free_count (lblk s) s = free_count L R.
Proof.
  intros Hv Hfs. pose proof (view_rest _ _ _ _ _ Hv) as [bc Es].
  transitivity (free_count (lblk s) R); [unfold free_count, free_blocks; now rewrite Es|].
  apply count_marks; [apply (fs_disk _ _ Hfs)|]. intros c. apply (same_marked R L); [exact Hfs|].
  intros k _. apply (bv_lblk _ _ _ _ _ Hv).
Qed.

Lemma view_can_write L R s f fv i inum src n :
  bio_view [] L (fun _ => False) R s -> fs_ok L R -> allocated L (ks_sb R) inum ->
  open_file L R f fv i inum -> f_writable fv <> 0 ->
  0 <= f_off fv <= di_size (disk_inode L (ks_sb R) inum) -> 0 < n < 2 ^ 31 -> f_off fv + n <= MAXFILE * BSIZE ->
  n <= Z.of_nat (length src) -> 10 <= log_size (ks_log R) /\ nblocks (f_off fv) n + 4 <= log_size (ks_log R) ->
  nblocks (f_off fv) n + 1 <= free_count L R ->
  can_write s f fv i inum src n.
Proof.
  intros Hv Hfs Ha [O1 O2 O3 O4 O5] Hwr Hoff Hn Hend Hsrc Hlog Hfree. pose proof (view_rest _ _ _ _ _ Hv) as [bc Es].
  assert (ks_log s = ks_log R /\ ks_sb s = ks_sb R /\ ks_icache s = ks_icache R /\ ks_ftable s = ks_ftable R)
    as (E1 & E2 & E3 & E4) by (rewrite Es; repeat split; reflexivity).
  assert (same_data R L (lblk s)) as Hsame by (intros k _; apply (bv_lblk _ _ _ _ _ Hv)).
  destruct (same_file R L (lblk s) Hfs Hsame inum Ha) as [Ed _].
  split; rewrite ?E1; try assumption.
  - split; [now rewrite E4|exact O2|exact O3|now rewrite E3|now rewrite E2, Ed].
  - now rewrite E2, Ed.
  - rewrite (view_free L R s Hv Hfs). exact Hfree.
Qed.

(** The disk of mkfs with an empty file, which is open for writing, between two
    operations. *)
Definition idle_state (u : list Z -> list Z) : kstate :=
  upd_ks_log (set_log_outstanding 0) (file_state u file_image file_cache two_files).

Section closed.
Context (R : kstate).
Abbreviation closed := (upd_ks_log (set_log_outstanding 0) R).

Lemma closed_fs_ok L : fs_ok L R -> fs_ok L closed.
Proof. apply fs_ok_same; [reflexivity|reflexivity|auto]. Qed.

Lemma closed_geo : log_geo (ks_log R) (ks_disk R) -> log_geo (ks_log closed) (ks_disk closed).
Proof. intros [G1 G2 G3 G4 G5 G6]. split; assumption. Qed.

Lemma closed_open L f fv i inum : open_file L R f fv i inum -> open_file L closed f fv i inum.
Proof. intros [O1 O2 O3 O4 O5]. split; assumption. Qed.

Lemma closed_view L s : bio_view [] L (fun _ => False) R s -> bio_view [] L (fun _ => False) closed (upd_ks_log (set_log_outstanding 0) s).
Proof.
  intros Hv. apply (view_outside _ _ _ _ _ (upd_ks_log (set_log_outstanding 0))); [intros s'; auto|exact Hv].
Qed.

Lemma closed_sb : ks_sb closed = ks_sb R.
Proof. reflexivity. Qed.

Lemma closed_free L : free_count L closed = free_count L R.
Proof. reflexivity. Qed.
End closed.

Lemma idle_fields u :
  ks_disk (idle_state u) = file_image /\ ks_sb (idle_state u) = image_sb /\
  ks_log (idle_state u) = set_log_outstanding 0 demo_log /\ ks_icache (idle_state u) = file_cache.
Proof. repeat split. Qed.

Lemma file_hdr : exists h, file_image !! 2 = Some h /\ hdr_n h = 0.
Proof.
  assert (match file_image !! 2 with Some h => hdr_n h =? 0 | None => false end = true) as H by (vm_compute; reflexivity).
  destruct (file_image !! 2) as [h|]; [|discriminate H]. exists h. split; [reflexivity|now apply Z.eqb_eq].
Qed.

Lemma idle_ready : exists u s,
  bio_view [] (blocks_of file_image) (fun _ => False) (idle_state u) s /\
  fs_ok (blocks_of file_image) (idle_state u) /\ fs_idle s.
Proof.
  destruct file_running as (u & s & [Ho Hfs _ _]). exists u, (upd_ks_log (set_log_outstanding 0) s).
  pose proof (closed_view _ _ s (op_view _ _ _ _ _ _ Ho)) as Hv. pose proof (closed_fs_ok _ _ Hfs) as Hfs'.
  destruct (idle_fields u) as (Ed & Es & El & Ec).
  split; [exact Hv|]. split; [exact Hfs'|].
  apply (view_idle (blocks_of file_image) (idle_state u) _ Hv (closed_geo _ (op_geo _ _ _ _ _ _ Ho))); rewrite ?El; try reflexivity; try exact Hfs'.
  - rewrite Ed. exact file_hdr.
  - rewrite Ec. exact file_cache_ok.
  - rewrite Ec, Es. apply file_cache_coherent; [|exact file_disk_inode]. apply (allocated_check_ok (blocks_of file_image)).
    vm_compute. reflexivity.
Qed.

Lemma idle_open u f fv : two_files !! f = Some fv -> open_file (blocks_of file_image) (idle_state u) f fv 0 2.
Proof. intros Hf. apply closed_open, file_open_two, Hf. Qed.

Lemma idle_allocated u : allocated (blocks_of file_image) (ks_sb (idle_state u)) 2.
Proof.
  destruct (idle_fields u) as (_ & -> & _). apply (allocated_check_ok (blocks_of file_image)). vm_compute. reflexivity.
Qed.

Lemma idle_size u : di_size (disk_inode (blocks_of file_image) (ks_sb (idle_state u)) 2) = 0.
Proof. unfold idle_state. rewrite closed_sb. apply file_state_size. Qed.

Lemma idle_free u : 100 <= free_count (blocks_of file_image) (idle_state u).
Proof. unfold idle_state. rewrite closed_free. apply file_state_free. Qed.

Lemma idle_log u : 10 <= log_size (ks_log (idle_state u)) /\ nblocks 0 5 + 4 <= log_size (ks_log (idle_state u)).
Proof. destruct (idle_fields u) as (_ & _ & -> & _). split; vm_compute; discriminate. Qed.

(** The file can be written. *)
Lemma idle_can_write : exists s,
  fs_idle s /\ can_write s 0 (mkFile FD_INODE 1 1 1 (Some 0%nat) 0 0) 0 2 (str "hello") 5 /\ 100 <= free_count (lblk s) s.
Proof.
  destruct idle_ready as (u & s & Hv & Hfs & Hid). exists s. split; [exact Hid|]. split.
  - apply (view_can_write _ _ _ _ _ _ _ _ _ Hv Hfs (idle_allocated u) (idle_open u 0 _ eq_refl)).
    + discriminate.
    + rewrite idle_size. split; discriminate.
    + split; reflexivity.
    + discriminate.
    + discriminate.
    + exact (idle_log u).
    + exact (Z.le_trans 2 100 _ ltac:(discriminate) (idle_free u)).
  - rewrite (view_free _ _ _ Hv Hfs). exact (idle_free u).
Qed.

Lemma write_crash_atomic_witness :
  exists s, fs_idle s /\ exists s', (_ <- begin_op 1;; r <- filewrite 0 (str "hello") 5;; _ <- end_op;; ret r) s = Ok 5 s'.
Proof.
  destruct idle_can_write as (s & Hid & Hcw & _). exists s. split; [exact Hid|].
  destruct (write_crash_atomic s 0 _ 0 2 (str "hello") 5 0 Hid Hcw) as (s' & ws & Hrun & _).
  exists s'. exact Hrun.
Defined.
