(* ===== verification/Mount.v ===== *)
(** * Starting the file system: [binit], [fsinit] and [fileinit]

    What [kmain] does to mount a disk (kernel/main.c), on a kernel whose globals
    are clear: it recovers the log and leaves the file system in the state in which
    the operations of Durable.v start. *)
From S2P Require Import Prelude State Printf Klog Bio Blocks Sched Log Crash Txn Update Fs Layout Inodes Icache Paths Mkfs Tree.
From S2P Require Import Alloc Slots Writing Store Namei File Durable.

(** ** The steps *)

Section steps.
Context {view : view_pred} `{!BlockCache view}.

Lemma readsb_run L R s d :
  view [] L (fun _ => False) R s -> L 1 = Some d ->
  wp (readsb 0) (fun _ s' => view [] L (fun _ => False) (set_ks_sb (superblock_of d) R) s') s.
Proof.
  intros Hv Hd. assert (L 1 = ks_disk R !! 1) as Hc.
  { eapply view_clean; [exact Hv|apply not_elem_of_nil|auto]. }
  assert (is_Some (ks_disk R !! 1)) as Hd1 by (rewrite <- Hc; eauto).
  unfold readsb. change (u32 0) with 0.
  wcall (view_bread [] L (fun _ => False) R s 1 Hv) as i s1 Hv1;
    [lia|exact Hd1|cbn; lia|left; apply roomy_empty|].
  wcall (view_bdata _ _ _ _ _ 1 i Hv1) as d' s2 (-> & Hd' & _); [apply list_elem_of_here|].
  rewrite Hd in Hd'. injection Hd' as <-. wstep. apply wpx_modify.
  eapply wpx_conseq; [apply (view_brelse [] L (fun _ => False) (set_ks_sb (superblock_of d) R) _ 1 i)|auto].
  - apply (view_outside _ _ _ _ _ (set_ks_sb (superblock_of d))); [|exact Hv1]. intros s'. auto.
  - right. exact Hc.
Qed.

(** A loop over a table that the block layer does not look at. *)
Lemma view_table {A} (get : kstate -> list A) (set : list A -> kstate -> kstate) (body : nat -> K unit) (f : A -> A)
    L D R s :
  (forall l, outside (set l)) -> (forall s, set (get s) s = s) -> (forall l s, get (set l s) = l) ->
  (forall l l' s, set l (set l' s) = set l s) ->
  (forall i x s, get s !! i = Some x -> body i s = Ok tt (set (alter f i (get s)) s)) ->
  (forall bc s, get (set_ks_bcache bc s) = get s) ->
  view [] L D R s ->
  wp (for_each (seq 0 (length (get R))) body) (fun _ s' => view [] L D (set (map f (get R)) R) s') s.
Proof.
  intros Hout Hsg Hgs Hss Hbody Hbc Hv.
  enough (forall m k s, (k + m = length (get R))%nat ->
    view [] L D (set (map f (take k (get R)) ++ drop k (get R)) R) s ->
    wp (for_each (seq k m) body) (fun _ s' => view [] L D (set (map f (get R)) R) s') s) as H.
  { apply H; [reflexivity|]. change (map f (take 0 (get R)) ++ drop 0 (get R)) with (get R). now rewrite Hsg. }
  clear Hv s. induction m as [|m IH]; intros k s Hk Hv; cbn [seq for_each].
  - apply wpx_ret. rewrite Nat.add_0_r in Hk. rewrite Hk, firstn_all, drop_all, app_nil_r in Hv. exact Hv.
  - destruct (lookup_lt_is_Some_2 (get R) k) as [x Hx]; [lia|].
    set (l := map f (take k (get R)) ++ drop k (get R)) in *.
    assert (l !! k = Some x) as Hl.
    { unfold l. rewrite lookup_app_r; rewrite length_map, length_take_le by lia; [|lia].
      now rewrite lookup_drop, Nat.sub_diag, Nat.add_0_r. }
    destruct (view_rest _ _ _ _ _ Hv) as [bc Es].
    assert (get s = l) as Eg by (rewrite Es, Hbc; apply Hgs).
    wstep. eapply wpx_of_Ok; [apply (Hbody k x); now rewrite Eg|]. rewrite Eg. apply IH; [lia|].
    assert (alter f k l = map f (take (S k) (get R)) ++ drop (S k) (get R)) as ->.
    { unfold l. rewrite (take_S_r _ _ x Hx), map_app, <- app_assoc, (drop_S _ x k Hx). cbn [map app].
      rewrite alter_app_r_alt by (rewrite length_map, length_take; lia).
      rewrite length_map, length_take_le, Nat.sub_diag by lia. reflexivity. }
    pose proof (view_outside _ _ _ _ _ (set (map f (take (S k) (get R)) ++ drop (S k) (get R))) (Hout _) Hv) as Hv'.
    now rewrite Hss in Hv'.
Qed.
End steps.

(** ** Mounting a disk *)

(** The kernel's globals are clear, and the disk holds a superblock [sb], a log with
    the header [h] and, once the log is installed, the file system. *)
Record mountable (s : kstate) (sb : superblock) (h : list Z) : Prop := {
  mo_fresh : fresh s;
  mo_procs : length (ks_proc s) = nproc;
  mo_idle : log_committing (ks_log s) = 0 /\ log_outstanding (ks_log s) = 0;
  mo_inodes : length (ks_icache s) = Z.to_nat NINODE;
  mo_files : length (ks_ftable s) = Z.to_nat NFILE;
  mo_super : exists d, ks_disk s !! 1 = Some d /\ superblock_of d = sb /\ sb_magic sb = FSMAGIC;
  mo_geo : log_geo (log_at sb s) (ks_disk s);
  mo_hdr : ks_disk s !! log_start (log_at sb s) = Some h;
  mo_wf : hdr_wf (log_at sb s) (ks_disk s) h;
  mo_fs : let M := recovered (log_start (log_at sb s)) (ks_disk s) in
    fs_ok (fun k => M !! k) (set_ks_disk M (set_ks_sb sb (set_ks_log (log_at sb s) s))) }.

(** [fsinit] frees every slot of the inode cache, [fileinit] every file. *)
Definition free_inode (ip : inode) : inode := set_ip_valid 0 (set_ip_ref 0 ip).
Definition free_file (f : file) : file := set_f_type FD_NONE (set_f_ref 0 f).

Lemma alter_twice {A} (f g : A -> A) (i : nat) (l : list A) : alter g i (alter f i l) = alter (fun x => g (f x)) i l.
Proof. revert i. induction l as [|x l IH]; intros [|i]; cbn; [reflexivity..|]. f_equal. apply IH. Qed.

Lemma inode_body i ip s : ks_icache s !! i = Some ip ->
  (_ <- modinode i (set_ip_ref 0);; modinode i (set_ip_valid 0)) s = Ok tt (set_ks_icache (alter free_inode i (ks_icache s)) s).
Proof.
  intros Hi. unfold modinode, bind, get, of_opt. cbn [obind]. rewrite Hi. unfold ret, modify. cbn [obind].
  fields. rewrite list_lookup_alter_eq, Hi. cbn [fmap option_fmap option_map obind]. unfold upd_ks_icache. fields.
  now rewrite alter_twice.
Qed.

Lemma file_body i f s : ks_ftable s !! i = Some f ->
  (_ <- modfile i (set_f_ref 0);; modfile i (set_f_type FD_NONE)) s = Ok tt (set_ks_ftable (alter free_file i (ks_ftable s)) s).
Proof.
  intros Hi. unfold modfile, bind, get, of_opt. cbn [obind]. rewrite Hi. unfold ret, modify. cbn [obind].
  fields. rewrite list_lookup_alter_eq, Hi. cbn [fmap option_fmap option_map obind]. unfold upd_ks_ftable. fields.
  now rewrite alter_twice.
Qed.

Lemma outer_tables s s' : outer s' = outer s ->
  ks_icache s' = ks_icache s /\ ks_ftable s' = ks_ftable s /\ ks_sb s' = ks_sb s.
Proof.
  intros E. split; [exact (f_equal ks_icache E)|]. split; [exact (f_equal ks_ftable E)|exact (f_equal ks_sb E)].
Qed.

(** [fsinit] up to the recovery of the log. *)
Lemma superblock_run s sb h :
  mountable s sb h -> exists u s1 R1,
    (_ <- binit;; readsb 0) s = Ok tt s1 /\ R1 = set_ks_sb sb (upd_ks_uart u s) /\
    bio_view [] (fun k => ks_disk s !! k) (fun _ => False) R1 s1.
Proof.
  intros Hm. destruct (mo_fresh _ _ _ Hm) as [Hz _ _]. destruct (mo_super _ _ _ Hm) as (d & Hd & <- & _).
  destruct (booted_view s Hz) as (u & Hb). destruct (proj1 (wp_Ok _ _ _) Hb) as ([] & s0 & Hrun0 & Hv0).
  destruct (proj1 (wp_Ok _ _ _) (readsb_run (view:=bio_view) _ _ s0 d Hv0 Hd)) as ([] & s1 & Hrun1 & Hv1).
  exists u, s1, (set_ks_sb (superblock_of d) (upd_ks_uart u s)).
  split; [now rewrite (bind_Ok _ _ _ _ _ Hrun0)|]. split; [reflexivity|exact Hv1].
Qed.

(** The whole of [fsinit] and [fileinit] after it. *)
Lemma fsinit_run s1 s sb h u :
  mountable s sb h -> bio_view [] (fun k => ks_disk s !! k) (fun _ => False) (set_ks_sb sb (upd_ks_uart u s)) s1 ->
  let l := log_at sb s in
  let ws := recovery_writes (log_start l) h (fun k => ks_disk s !! k) in
  wp (_ <- (if negb (sb_magic sb =? FSMAGIC) then
              _ <- LOG_E (str "Invalid magic number %x (expected %x)" ++ [10]) [AInt (sb_magic sb); AInt FSMAGIC];;
              panic (str "invalid fs magic")
            else
              LOG_I (str "File system mounted: %d blocks, %d inodes" ++ [10]) [AInt (sb_size sb); AInt (sb_ninodes sb)]);;
      _ <- init_log 0 sb;;
      for_each (seq 0 (Z.to_nat NINODE)) (fun i =>
        _ <- modinode i (set_ip_ref 0);; modinode i (set_ip_valid 0)))
   (fun _ => wp fileinit (fun _ s' => exists R',
        bio_view [] (overlay ws (fun k => ks_disk s !! k)) (fun _ => False) R' s' /\
        ks_disk R' = wr ws (ks_disk s) /\ ks_sb R' = sb /\ ks_proc R' = ks_proc s /\
        log_same l (ks_log R') /\ lh_n (ks_log R') = 0 /\ length (lh_block (ks_log R')) = Z.to_nat LOGBLOCKS /\
        ks_icache R' = map free_inode (ks_icache s) /\ ks_ftable R' = map free_file (ks_ftable s))) s1.
Proof.
  intros Hm Hv l ws. destruct (mo_fresh _ _ _ Hm) as [(_ & _ & Hsz) Hkl Hlen].
  destruct (mo_super _ _ _ Hm) as (d & Hd & Hsb & Hmg). rewrite Hmg. cbn [negb Z.eqb FSMAGIC Pos.eqb].
  set (R1 := set_ks_sb sb (upd_ks_uart u s)) in *.
  wcall (klog_view [] _ _ R1 _ _ _ Hv) as [] s2 (R2 & Hlo & Hkl2 & Hv2); [exact Hkl|now eexists|].
  assert (ks_log R2 = ks_log s /\ ks_disk R2 = ks_disk s /\ ks_proc R2 = ks_proc s) as (El & Ed & Ep) by now rewrite Hlo.
  assert (outer R2 = outer R1) as Ho2 by exact (outer_logging _ _ Hlo).
  assert (log_at sb R2 = l) as Ela by (unfold log_at; now rewrite El).
  wcall (init_log_spec _ R2 s2 h sb Hv2) as [] s3 (R3 & Hd3 & _ & _ & Hp3 & Hsm & Hn & Hbl & Ho3 & Hv3);
    fold (log_at sb R2); rewrite ?Ela, ?Ed.
  { exact (mo_geo _ _ _ Hm). }
  { exact Hkl2. }
  { exact (mo_hdr _ _ _ Hm). }
  { eapply Hsz, (mo_hdr _ _ _ Hm). }
  { exact (mo_wf _ _ _ Hm). }
  fold (log_at sb R2) in Hd3, Hsm, Hv3. rewrite Ela in Hd3, Hsm, Hv3. fold ws in Hd3, Hv3.
  destruct (outer_tables _ _ (eq_trans Ho3 Ho2)) as (Ei & Ef & Es).
  change (ks_icache R1) with (ks_icache s) in Ei. change (ks_ftable R1) with (ks_ftable s) in Ef.
  rewrite <- (mo_inodes _ _ _ Hm), <- Ei.
  eapply wpx_conseq; [apply (view_table ks_icache (fun c => set_ks_icache c) _ free_inode (overlay ws (fun k => ks_disk s !! k))
      (fun _ => False) R3 s3)|];
    [intros c s'; auto|now intros []|reflexivity|reflexivity|exact inode_body|reflexivity|exact Hv3|].
  intros [] s4 Hv4.
  unfold fileinit. rewrite <- (mo_files _ _ _ Hm), <- Ef.
  change (ks_ftable R3) with (ks_ftable (set_ks_icache (map free_inode (ks_icache R3)) R3)).
  eapply wpx_conseq; [apply (view_table ks_ftable (fun c => set_ks_ftable c) _ free_file (overlay ws (fun k => ks_disk s !! k))
      (fun _ => False) (set_ks_icache (map free_inode (ks_icache R3)) R3) s4)|];
    [intros c s'; auto|now intros []|reflexivity|reflexivity|exact file_body|reflexivity|exact Hv4|].
  intros [] s5 Hv5. eexists. split; [exact Hv5|]. fields.
  rewrite Hd3, Ed, Hp3, Ep. rewrite Es. auto 10.
Qed.

Lemma free_inodes_ok c L sb : length c = Z.to_nat NINODE ->
  icache_ok (map free_inode c) /\ coherent L sb (map free_inode c).
Proof.
  intros Hl. assert (forall i ip, map free_inode c !! i = Some ip -> ip_ref ip = 0) as H0.
  { intros i ip Hi. rewrite list_lookup_fmap in Hi. destruct (c !! i); [|discriminate Hi]. now injection Hi as <-. }
  split; [split|].
  - now rewrite length_map.
  - intros i ip Hi. rewrite (H0 i ip Hi). lia.
  - intros i j ip jp Hi _ Hr. rewrite (H0 i ip Hi) in Hr. lia.
  - intros i ip Hi Hr. rewrite (H0 i ip Hi) in Hr. lia.
Qed.

(** C3: invariant.  Mounting a disk recovers its log and establishes the invariant
    between two operations ([fs_idle], where [write_crash_atomic] starts): the
    kernel shows the recovered blocks, and no inode and no file is in use. *)
Theorem fsinit_mounts s sb h :
  mountable s sb h ->
  exists s', (_ <- binit;; _ <- fsinit 0;; fileinit) s = Ok tt s' /\ fs_idle s' /\ ks_sb s' = sb /\
    (forall k, lblk s' k = recovered (log_start (log_at sb s)) (ks_disk s) !! k) /\
    (forall i ip, ks_icache s' !! i = Some ip -> ip_ref ip = 0 /\ ip_valid ip = 0) /\
    (forall i f, ks_ftable s' !! i = Some f -> f_ref f = 0 /\ f_type f = FD_NONE).
Proof.
  intros Hm. destruct (superblock_run s sb h Hm) as (u & s1 & R1 & Hrun1 & -> & Hv1).
  destruct (bind_Ok_inv _ _ _ _ _ Hrun1) as ([] & s0 & Hb & Hr).
  pose proof (fsinit_run s1 s sb h u Hm Hv1) as Hwp. cbv zeta in Hwp. pose proof (mo_hdr _ _ _ Hm) as Hh.
  set (l := log_at sb s) in *. set (ws := recovery_writes _ _ _) in *. set (M := recovered (log_start l) (ks_disk s)).
  assert (M = wr ws (ks_disk s)) as EM by (unfold M, recovered; now rewrite Hh).
  enough (wp (_ <- binit;; _ <- fsinit 0;; fileinit) (fun _ s' => fs_idle s' /\ ks_sb s' = sb /\
    (forall k, lblk s' k = M !! k) /\
    (forall i ip, ks_icache s' !! i = Some ip -> ip_ref ip = 0 /\ ip_valid ip = 0) /\
    (forall i f, ks_ftable s' !! i = Some f -> f_ref f = 0 /\ f_type f = FD_NONE)) s) as Hgoal.
  { destruct (proj1 (wp_Ok _ _ _) Hgoal) as ([] & s' & Hrun & Hpost). exists s'. split; [exact Hrun|exact Hpost]. }
  apply wpx_bind. apply (wpx_of_Ok _ _ _ _ _ _ Hb). apply wpx_bind. unfold fsinit.
  apply wpx_bind. apply (wpx_of_Ok _ _ _ _ _ _ Hr). apply wpx_bind. unfold getsb. apply wpx_gets.
  assert (ks_sb s1 = sb) as -> by (destruct (view_rest (view:=bio_view) _ _ _ _ _ Hv1) as [bc ->]; reflexivity).
  eapply wpx_conseq; [exact Hwp|]. intros [] s2 Hwp2. eapply wpx_conseq; [exact Hwp2|]. clear Hwp Hwp2.
  intros [] s' (R' & Hv & Ed & Es & Ep & Hsm & Hn & Hbl & Ei & Ef).
  assert (log_start (ks_log R') = log_start l /\ log_size (ks_log R') = log_size l /\ log_lock (ks_log R') = 0 /\
          log_dev (ks_log R') = 0 /\ log_committing (ks_log R') = log_committing (ks_log s) /\
          log_outstanding (ks_log R') = log_outstanding (ks_log s)) as (E1 & E2 & E3 & E4 & E5 & E6) by (rewrite Hsm; auto 10).
  destruct (mo_idle _ _ _ Hm) as [Hc Ho]. pose proof (mo_geo _ _ _ Hm) as [G1 G2 G3 G4 G5 G6]. fold l in G1, G2, G3, G4, G5, G6.
  assert (length h = Z.to_nat BSIZE) as Hlh by (destruct (mo_fresh _ _ _ Hm) as [(_ & _ & Hd) _ _]; eapply Hd, Hh).
  destruct (free_inodes_ok (ks_icache s) (overlay ws (fun k => ks_disk s !! k)) sb (mo_inodes _ _ _ Hm)) as [Hok Hcoh].
  assert (fs_ok (overlay ws (fun k => ks_disk s !! k)) R') as Hfs.
  { pose proof (mo_fs _ _ _ Hm) as Hfs. cbv zeta in Hfs. fold l M in Hfs.
    apply (fs_ok_same _ (set_ks_disk M (set_ks_sb sb (set_ks_log l s))) R') in Hfs; [|exact Es|exact (eq_trans Ed (eq_sym EM))|].
    - refine (same_fs_ok R' _ _ Hfs _). intros k _. rewrite EM. apply overlay_wr.
    - intros k. apply loggable_ext; [|exact E1|exact E2]. intros j Hj. rewrite Ed, <- EM. exact Hj. }
  destruct (view_idle _ R' s' Hv) as [Hid Hsame]; rewrite ?E1, ?E2, ?E3, ?E5, ?E6, ?Ed, ?Ep, ?Ei, ?Es; try assumption.
  - split; rewrite ?E1, ?E2, ?E4; try assumption. intros k Hk. apply wr_is_Some. auto.
  - rewrite <- EM. apply (recovered_header l (ks_disk s) h); [exact (mo_wf _ _ _ Hm)|exact (mo_hdr _ _ _ Hm)|exact Hlh].
  - exact (mo_procs _ _ _ Hm).
  - destruct (view_rest (view:=bio_view) _ _ _ _ _ Hv) as [bc Hs']. split; [exact Hid|].
    assert (ks_sb s' = ks_sb R' /\ ks_icache s' = ks_icache R' /\ ks_ftable s' = ks_ftable R') as (F1 & F2 & F3)
      by (rewrite Hs'; repeat split; reflexivity).
    split; [now rewrite F1|]. split; [|split].
    + intros k. rewrite (bv_lblk _ _ _ _ _ Hv), EM. apply overlay_wr.
    + intros i ip. rewrite F2, Ei, list_lookup_fmap. destruct (ks_icache s !! i); [|intros E; discriminate E].
      intros E. injection E as <-. split; reflexivity.
    + intros i f. rewrite F3, Ef, list_lookup_fmap. destruct (ks_ftable s !! i); [|intros E; discriminate E].
      intros E. injection E as <-. split; reflexivity.
Qed.

(** ** Example: the disk that mkfs makes, with an empty file *)

Section mounting.
Context (img : gmap Z (list Z)) (h d : list Z).
Abbreviation s := (disk_state img).
Hypothesis Hsized : blocks_sized img.
Hypothesis Hsizes : forall k, 0 <= k < FSSIZE -> exists d, img !! k = Some d /\ length d = Z.to_nat BSIZE.
Hypothesis Htree : tree_check (blocks_of img) image_sb img = true.
Hypothesis Hbitmap : bitmap_check (blocks_of img) image_sb = true.
Hypothesis Howner : owner_check (blocks_of img) image_sb = true.
Hypothesis Hsuper : img !! 1 = Some d /\ superblock_of d = image_sb.
Hypothesis Hhdr : img !! 2 = Some h /\ hdr_n h = 0.

Lemma disk_state_fields :
  ks_disk s = img /\ ks_klog s = ks_klog demo_state /\ ks_log s = zero_log /\ ks_proc s = ks_proc demo_state /\
  ks_icache s = ks_icache demo_state /\ ks_ftable s = ks_ftable demo_state.
Proof. repeat split. Qed.

Lemma mount_log : log_at image_sb s = set_log_outstanding 0 demo_log.
Proof. unfold log_at. destruct disk_state_fields as (_ & _ & -> & _). rewrite image_layout. reflexivity. Qed.

Lemma image_mountable : mountable s image_sb h.
Proof.
  destruct disk_state_fields as (Ed & Ek & El & Ep & Ei & Ef). destruct Hhdr as [Hh Hn].
  pose proof (sized_geo img Hsizes) as [G1 G2 G3 G4 G5 G6].
  split; rewrite ?Ed, ?mount_log, ?Ep, ?El, ?Ei, ?Ef; try reflexivity.
  - split; rewrite ?Ek, ?El; [now apply disk_state_zeroed| |reflexivity].
    unfold kl_ok. cbn. split; [reflexivity|split; lia || (unfold LOG_BUFSIZE; lia)].
  - split; reflexivity.
  - exists d. destruct Hsuper as [H1 H2]. split; [exact H1|]. split; [exact H2|]. rewrite image_layout. reflexivity.
  - split; assumption.
  - exact Hh.
  - assert (hdr_blocks h = []) as Eb by (unfold hdr_blocks; now rewrite Hn).
    split; rewrite ?Hn, ?Eb; [split; discriminate|constructor|intros k Hk; now apply elem_of_nil in Hk].
  - cbv zeta. change (log_start (set_log_outstanding 0 demo_log)) with 2. pose proof (recovered_empty demo_log img h Hh Hn) as Er. change (log_start demo_log) with 2 in Er. rewrite Er.
    pose proof (file_state_fs_ok (fun x => x) img [] [] Hsizes Htree Hbitmap Howner) as Hfs.
    apply (fs_ok_same (blocks_of img) (file_state (fun x => x) img [] [])); [reflexivity|reflexivity| |exact Hfs].
    intros k. apply loggable_ext; [|reflexivity|reflexivity]. intros j Hj. exact Hj.
Qed.
End mounting.

Lemma file_super : exists d, file_image !! 1 = Some d /\ superblock_of d = image_sb.
Proof. eexists. split; vm_compute; reflexivity. Qed.

Lemma file_mountable : exists h, mountable (disk_state file_image) image_sb h.
Proof.
  destruct file_hdr as (h & Hh), file_super as (d & Hd). exists h. apply (image_mountable file_image h d).
  - apply (bool_decide_unpack _). vm_compute. exact Logic.I.
  - apply sizes_check_ok. vm_compute. reflexivity.
  - vm_compute. reflexivity.
  - vm_compute. reflexivity.
  - vm_compute. reflexivity.
  - exact Hd.
  - exact Hh.
Qed.

Lemma fsinit_mounts_witness :
  exists h, mountable (disk_state file_image) image_sb h /\
  exists s', (_ <- binit;; _ <- fsinit 0;; fileinit) (disk_state file_image) = Ok tt s' /\ fs_idle s'.
Proof.
  destruct file_mountable as [h Hm]. exists h. split; [exact Hm|].
  destruct (fsinit_mounts _ _ _ Hm) as (s' & Hrun & Hid & _). exists s'. split; [exact Hrun|exact Hid].
Defined.
