(* ===== verification/Sysfile.v ===== *)
(** * System calls: kernel/syscall.c, kernel/sysfile.c and kernel/sysproc.c

    The arguments of a system call are in the trap frame of the running process.
    [fuel] is the fuel of [begin_op] and of [wait_process], which sleep: it bounds
    how often they are woken for nothing. *)
From S2P Require Import Prelude State Mem Pmm Printf Klog Vm UserMem Sched Proc Bio Log Fs File.

Section model.
Context `{Symbols}.

(** ** Arguments (kernel/syscall.c) *)

(** The running process, which the code dereferences. *)
Definition curproc : K nat := o <- myproc;; of_opt o.

(** Argument register [a_n]; [None] is the result -1. *)
Definition argaddr (n : Z) : K (option Z) :=
  o <- myproc;;
  if decide (0 <= n <= 5) then
    p <- of_opt o;;
    pr <- getproc p;;
    v <- load64 (p_trapframe pr + TF_a n);;
    ret (Some v)
  else ret None.

Definition argint (n : Z) : K (option Z) :=
  o <- argaddr n;;
  ret (i32 <$> o).

(** The result and the bytes stored in [buf]. *)
Definition argstr (n max : Z) : K (Z * list Z) :=
  o <- argaddr n;;
  match o with
  | None => ret (-1, [])
  | Some addr =>
      p <- curproc;;
      pr <- getproc p;;
      copyinstr (p_pagetable pr) addr max
  end.

(** The C string at the start of an array. *)
Fixpoint cstr (l : list Z) : list Z :=
  match l with
  | [] => []
  | c :: l' => if c =? 0 then [] else c :: cstr l'
  end.

(** ** Files (kernel/sysfile.c) *)

(** The open file [fd] of process [p]. *)
Definition getofile (p : nat) (fd : Z) : K (option nat) :=
  pr <- getproc p;; of_opt (lget fd (p_ofile pr)).
Definition setofile (p : nat) (fd : Z) (f : option nat) : K unit :=
  pr <- getproc p;;
  l <- of_opt (lset fd f (p_ofile pr));;
  modproc p (set_p_ofile l).

Definition fdalloc (f : nat) : K Z :=
  p <- curproc;;
  r <- for_find (map (fun k => k + 3) (upto (NOFILE - 3))) (fun fd =>
         o <- getofile p fd;;
         match o with
         | None => _ <- setofile p fd (Some f);; ret (Some fd)
         | Some _ => ret None
         end);;
  match r with
  | Some fd => ret fd
  | None => ret (-1)
  end.

Definition omode_has (omode flag : Z) : bool := negb (Z.land omode flag =? 0).
Definition b2z (b : bool) : Z := if b then 1 else 0.

(** [sys_open] up to the inode: [inl] is the result of an early return. *)
Definition open_create (path : list Z) (omode : Z) : K (Z + nat) :=
  let! (o, name) := nameiparent path stack_junk in
  match o with
  | None => _ <- end_op;; ret (inl (-1))
  | Some dp =>
      _ <- ilock (Some dp);;
      found <- dirlookup dp name;;
      match found with
      | Some (ip, _) =>
          _ <- iunlockput (Some dp);;
          _ <- ilock (Some ip);;
          ipv <- getinode ip;;
          if (di_type (ip_d ipv) =? T_DIR) && (omode_has omode O_RDWR || omode_has omode O_WRONLY) then
            _ <- iunlockput (Some ip);;
            _ <- end_op;;
            ret (inl (-1))
          else ret (inr ip)
      | None =>
          dpv <- getinode dp;;
          n <- ialloc (ip_dev dpv) T_FILE;;
          match n with
          | None =>
              _ <- iunlockput (Some dp);;
              _ <- end_op;;
              ret (inl (-1))
          | Some ip =>
              _ <- ilock (Some ip);;
              _ <- modinode_d ip (set_di_nlink 1);;
              _ <- iupdate ip;;
              ipv <- getinode ip;;
              r <- dirlink dp name (ip_inum ipv);;
              if r <? 0 then
                _ <- iunlockput (Some ip);;
                _ <- iunlockput (Some dp);;
                _ <- end_op;;
                ret (inl (-1))
              else
                _ <- iunlockput (Some dp);;
                ret (inr ip)
          end
      end
  end.

Definition open_existing (path : list Z) (omode : Z) : K (Z + nat) :=
  o <- namei stack_junk path;;
  match o with
  | None => _ <- end_op;; ret (inl (-1))
  | Some ip =>
      _ <- ilock (Some ip);;
      ipv <- getinode ip;;
      if (di_type (ip_d ipv) =? T_DIR) && negb (omode =? O_RDONLY) then
        _ <- iunlockput (Some ip);;
        _ <- end_op;;
        ret (inl (-1))
      else ret (inr ip)
  end.

(** The rest of [sys_open]. *)
Definition open_file (ip : nat) (omode : Z) : K Z :=
  o <- filealloc;;
  match o with
  | None =>
      _ <- iunlockput (Some ip);;
      _ <- end_op;;
      ret (-1)
  | Some f =>
      fd <- fdalloc f;;
      if fd <? 0 then
        _ <- fileclose f;;
        _ <- iunlockput (Some ip);;
        _ <- end_op;;
        ret (-1)
      else
        _ <- modfile f (set_f_type FD_INODE);;
        _ <- modfile f (set_f_ip (Some ip));;
        _ <- modfile f (set_f_off 0);;
        _ <- modfile f (set_f_readable (b2z (negb (omode_has omode O_WRONLY))));;
        _ <- modfile f (set_f_writable (b2z (omode_has omode O_WRONLY || omode_has omode O_RDWR)));;
        _ <- iunlock (Some ip);;
        _ <- end_op;;
        ret fd
  end.

Definition sys_open (fuel : nat) : K Z :=
  _ <- begin_op fuel;;
  let! (r, path) := argstr 0 128 in
  if r <? 0 then _ <- end_op;; ret (-1)
  else
    o <- argint 1;;
    match o with
    | None => _ <- end_op;; ret (-1)
    | Some omode =>
        r <- (if omode_has omode O_CREATE then open_create (cstr path) omode
              else open_existing (cstr path) omode);;
        match r with
        | inl e => ret e
        | inr ip => open_file ip omode
        end
    end.

Definition sys_close : K Z :=
  p <- curproc;;
  o <- argint 0;;
  match o with
  | None => ret (-1)
  | Some fd =>
      if (fd <? 0) || (NOFILE <=? fd) then ret (-1)
      else
        f <- getofile p fd;;
        match f with
        | None => ret (-1)
        | Some f =>
            _ <- setofile p fd None;;
            _ <- fileclose f;;
            ret 0
        end
  end.

(** The three arguments of the calls that read and write, and the process. *)
Definition rw_args : K (option (Z * Z * Z)) :=
  o1 <- argint 0;;
  match o1 with
  | None => ret None
  | Some fd =>
      o2 <- argaddr 1;;
      match o2 with
      | None => ret None
      | Some addr =>
          o3 <- argint 2;;
          match o3 with
          | None => ret None
          | Some n => ret (Some (fd, addr, n))
          end
      end
  end.

(** The open file of [fd], [None] when the code returns -1. *)
Definition fd_file (p : nat) (fd : Z) : K (option nat) :=
  if (fd <? 0) || (NOFILE <=? fd) then ret None else getofile p fd.

(** The loop of [sys_fread] and of [sys_read]. *)
Fixpoint read_loop (fuel : nat) (p f : nat) (addr n total : Z) : K Z :=
  if 0 <? n then
    match fuel with
    | O => out_of_fuel
    | S fuel' =>
        let m := if 512 <? n then 512 else n in
        let! (r, buf) := fileread f m in
        if r <=? 0 then ret total
        else
          pr <- getproc p;;
          e <- copyout (p_pagetable pr) addr buf r;;
          if e <? 0 then ret (-1)
          else
            let total := i32 (total + r) in
            let n := n - r in
            if r <? m then ret total else read_loop fuel' p f (u64 (addr + r)) n total
    end
  else ret total.

Definition sys_fread : K Z :=
  p <- curproc;;
  a <- rw_args;;
  match a with
  | None => ret (-1)
  | Some (fd, addr, n) =>
      o <- fd_file p fd;;
      match o with
      | None => ret (-1)
      | Some f => read_loop (Z.to_nat n) p f addr n 0
      end
  end.

Fixpoint fwrite_loop (fuel sleeps : nat) (p f : nat) (addr n total : Z) : K Z :=
  if 0 <? n then
    match fuel with
    | O => out_of_fuel
    | S fuel' =>
        let m := if 512 <? n then 512 else n in
        _ <- begin_op sleeps;;
        fv <- getfile f;;
        _ <- ilock (f_ip fv);;
        pr <- getproc p;;
        let! (e, buf) := copyin (p_pagetable pr) addr m in
        if e <? 0 then
          _ <- iunlock (f_ip fv);;
          _ <- end_op;;
          ret (-1)
        else
          r <- filewrite f buf m;;
          _ <- iunlock (f_ip fv);;
          _ <- end_op;;
          if r <=? 0 then ret total
          else fwrite_loop fuel' sleeps p f (u64 (addr + r)) (n - r) (i32 (total + r))
    end
  else ret total.

Definition sys_fwrite (fuel : nat) : K Z :=
  p <- curproc;;
  a <- rw_args;;
  match a with
  | None => ret (-1)
  | Some (fd, addr, n) =>
      o <- fd_file p fd;;
      match o with
      | None => ret (-1)
      | Some f => fwrite_loop (Z.to_nat n) fuel p f addr n 0
      end
  end.

Definition dot : Z := 46.

(** [name[0] == '.' && (name[1] == 0 || (name[1] == '.' && name[2] == 0))]. *)
Definition is_dots (name : list Z) : bool :=
  match name with
  | a :: b :: c :: _ => (a =? dot) && ((b =? 0) || ((b =? dot) && (c =? 0)))
  | _ => false
  end.

(** [sys_unlink] from the entry it found on. *)
Definition unlink_entry (dp ip : nat) (off : Z) : K Z :=
  _ <- ilock (Some ip);;
  ipv <- getinode ip;;
  _ <- when (di_nlink (ip_d ipv) <? 1) (panic (str "unlink: nlink < 1"));;
  if di_type (ip_d ipv) =? T_DIR then
    _ <- iunlockput (Some ip);;
    _ <- iunlockput (Some dp);;
    _ <- end_op;;
    ret (-1)
  else
    n <- writei dp (replicate (Z.to_nat SIZEOF_DIRENT) 0) off SIZEOF_DIRENT;;
    _ <- when (negb (n =? SIZEOF_DIRENT)) (panic (str "unlink: writei"));;
    _ <- modinode_d ip (upd_di_nlink (fun n => i16 (n - 1)));;
    _ <- iupdate ip;;
    _ <- iunlockput (Some dp);;
    ipv <- getinode ip;;
    _ <- when (di_nlink (ip_d ipv) =? 0)
           (_ <- itrunc ip;;
            _ <- modinode_d ip (set_di_type 0);;
            iupdate ip);;
    _ <- iunlockput (Some ip);;
    _ <- end_op;;
    ret 0.

Definition sys_unlink (fuel : nat) : K Z :=
  _ <- begin_op fuel;;
  let! (r, path) := argstr 0 128 in
  if r <? 0 then _ <- end_op;; ret (-1)
  else
    let! (o, name) := nameiparent (cstr path) stack_junk in
    match o with
    | None => _ <- end_op;; ret (-1)
    | Some dp =>
        _ <- ilock (Some dp);;
        if is_dots name then
          _ <- iunlockput (Some dp);;
          _ <- end_op;;
          ret (-1)
        else
          found <- dirlookup dp name;;
          match found with
          | None =>
              _ <- iunlockput (Some dp);;
              _ <- end_op;;
              ret (-1)
          | Some (ip, off) => unlink_entry dp ip off
          end
    end.

(** ** Processes and the console (kernel/sysproc.c) *)

Definition sys_fork : K Z := fork.

(** An argument that [argint] does not set would be uninitialised; number 0 is
    always set. *)
Definition sys_exit : K Z :=
  o <- argint 0;;
  n <- of_opt o;;
  _ <- exit_process n;;
  ret 0.

Definition sys_wait (fuel : nat) : K Z :=
  o <- argaddr 0;;
  match o with
  | None => ret (-1)
  | Some addr =>
      let! (pid, status) := wait_process fuel in
      _ <- when ((0 <? pid) && negb (addr =? 0))
             (p <- curproc;;
              pr <- getproc p;;
              pte <- walk_lookup (p_pagetable pr) addr;;
              bad <- no_user_page pte;;
              when (negb bad)
                (v <- load64 pte;;
                 status <- of_opt status;;
                 store_le 4 (PTE_PA v + Z.land addr (PGSIZE - 1)) status));;
      ret pid
  end.

Definition sys_kill : K Z :=
  o <- argint 0;;
  match o with
  | None => ret (-1)
  | Some pid => kill pid
  end.

Definition sys_getpid : K Z := p <- curproc;; pr <- getproc p;; ret (p_pid pr).

(** The [uint64_t] of [sbrk] is returned as an [int]. *)
Definition sys_sbrk : K Z :=
  o <- argint 0;;
  match o with
  | None => ret (-1)
  | Some n => r <- sbrk n;; ret (i32 r)
  end.

Fixpoint console_loop (fuel : nat) (p : nat) (addr n total : Z) : K Z :=
  if 0 <? n then
    match fuel with
    | O => out_of_fuel
    | S fuel' =>
        let len := if 128 <? n then 128 else n in
        pr <- getproc p;;
        let! (e, buf) := copyin (p_pagetable pr) addr len in
        if e <? 0 then ret (-1)
        else
          _ <- for_each buf console_putc;;
          console_loop fuel' p (u64 (addr + len)) (n - len) (i32 (total + len))
    end
  else ret total.

Fixpoint write_loop (fuel sleeps : nat) (p f : nat) (addr n total : Z) : K Z :=
  if 0 <? n then
    match fuel with
    | O => out_of_fuel
    | S fuel' =>
        let m := if 512 <? n then 512 else n in
        _ <- begin_op sleeps;;
        pr <- getproc p;;
        let! (e, buf) := copyin (p_pagetable pr) addr m in
        if e <? 0 then _ <- end_op;; ret (-1)
        else
          r <- filewrite f buf m;;
          _ <- end_op;;
          if r <=? 0 then ret total
          else write_loop fuel' sleeps p f (u64 (addr + r)) (n - r) (i32 (total + r))
    end
  else ret total.

Definition sys_write (fuel : nat) : K Z :=
  p <- curproc;;
  a <- rw_args;;
  match a with
  | None => ret (-1)
  | Some (fd, addr, n) =>
      if n <? 0 then ret (-1)
      else if (fd =? 1) || (fd =? 2) then console_loop (Z.to_nat n) p addr n 0
      else
        o <- fd_file p fd;;
        match o with
        | None => ret (-1)
        | Some f => write_loop (Z.to_nat n) fuel p f addr n 0
        end
  end.

Definition sys_read : K Z :=
  p <- curproc;;
  a <- rw_args;;
  match a with
  | None => ret (-1)
  | Some (fd, addr, n) =>
      if n <? 0 then ret (-1)
      else if fd =? 0 then ret 0
      else
        o <- fd_file p fd;;
        match o with
        | None => ret (-1)
        | Some f => read_loop (Z.to_nat n) p f addr n 0
        end
  end.

Definition sys_uptime : K Z := t <- get_time;; ret (i32 t).
Definition sys_logdump : K Z := _ <- log_dump;; ret 0.
Definition sys_logstat : K Z := _ <- log_stats;; ret 0.

(** ** Dispatch (kernel/syscall.c) *)

(** The table [syscalls], at the numbers of include/syscall.h. *)
Definition syscalls (fuel : nat) (num : Z) : option (K Z) :=
  match num with
  | 1 => Some sys_fork
  | 2 => Some sys_exit
  | 3 => Some (sys_wait fuel)
  | 5 => Some sys_read
  | 6 => Some sys_kill
  | 11 => Some sys_getpid
  | 12 => Some sys_sbrk
  | 14 => Some sys_uptime
  | 15 => Some (sys_open fuel)
  | 16 => Some (sys_write fuel)
  | 18 => Some (sys_unlink fuel)
  | 21 => Some sys_close
  | 22 => Some sys_logdump
  | 23 => Some sys_logstat
  | _ => None
  end.

Definition TF_a7 : Z := 168.
Definition NSYSCALLS : Z := 24.

Definition syscall (fuel : nat) : K unit :=
  p <- curproc;;
  pr <- getproc p;;
  a7 <- load64 (p_trapframe pr + TF_a7);;
  let num := i32 a7 in
  match (if (0 <? num) && (num <? NSYSCALLS) then syscalls fuel num else None) with
  | Some f =>
      r <- f;;
      pr <- getproc p;;
      store64 (p_trapframe pr + TF_a 0) (u64 r)
  | None =>
      _ <- printf (str "Unknown syscall %d" ++ [10]) [AInt num];;
      store64 (p_trapframe pr + TF_a 0) (u64 (-1))
  end.
End model.
