(* ===== verification/Calls.v ===== *)
(** * System calls of a process

    What a user program gets from a system call: [syscall] of kernel/syscall.c
    finds the handler at the number in [a7], the handler its arguments in the trap
    frame, and the result goes to [a0].  [calling s p pr root l] is a state in
    which process [p] has trapped into the kernel. *)
From S2P Require Import Prelude State Mem Pmm Printf Vm UserMem Sched Proc Sysfile.

Section calls.
Context `{Symbols} (Hpos : 0 < mem_start).

(** [p] is the running process, its page table an address space (over the free
    pages [l]), and its trap frame a page that belongs neither to the table nor to
    user memory. *)
Record calling (s : kstate) (p : nat) (pr : proc) (l : list Z) : Prop := {
  cl_current : ks_current s = Some p;
  cl_proc : ks_proc s !! p = Some pr;
  cl_space : space_ok s (p_pagetable pr) l;
  cl_frame : is_page (p_trapframe pr);
  cl_apart : forall k, p_trapframe pr <= k < p_trapframe pr + PGSIZE ->
    ~ in_tables s (p_pagetable pr) k /\ forall va, user_at s (p_pagetable pr) va <> Some k }.

(** The registers of the process in its trap frame. *)
Definition reg (s : kstate) (pr : proc) (off : Z) : Z := word s (p_trapframe pr + off).
Definition areg (s : kstate) (pr : proc) (n : Z) : Z := reg s pr (TF_a n).

(** The state with the result [r] in [a0]. *)
Definition returning (pr : proc) (r : Z) (s : kstate) : kstate :=
  upd_ks_mem (put_bytes (p_trapframe pr + TF_a 0) (le_bytes 8 (u64 r))) s.

Lemma frame_ram s p pr l off :
  calling s p pr l -> 0 <= off -> off + 8 <= PGSIZE -> in_ram (p_trapframe pr + off) 8 = true.
Proof. intros Hc H1 H2. apply (is_page_ram _ _ _ (cl_frame _ _ _ _ Hc)); lia. Qed.

Lemma load_reg s p pr l off :
  calling s p pr l -> 0 <= off -> off + 8 <= PGSIZE -> load64 (p_trapframe pr + off) s = Ok (reg s pr off) s.
Proof. intros Hc H1 H2. apply load64_run. eapply frame_ram; eassumption. Qed.

Lemma curproc_run s p : ks_current s = Some p -> curproc s = Ok p s.
Proof. intros Hp. unfold curproc, myproc, bind, gets. cbn [obind]. now rewrite Hp. Qed.

Lemma argaddr_run s p pr l n : calling s p pr l -> 0 <= n <= 5 -> argaddr n s = Ok (Some (areg s pr n)) s.
Proof.
  intros Hc Hn. unfold argaddr. rewrite (bind_Ok _ _ _ (Some p) s) by (unfold myproc, gets; now rewrite (cl_current _ _ _ _ Hc)).
  rewrite decide_True by exact Hn. rewrite (bind_Ok _ _ _ p s) by reflexivity.
  rewrite (bind_Ok _ _ _ _ _ (getproc_run _ _ _ (cl_proc _ _ _ _ Hc))).
  rewrite (bind_Ok _ _ _ (areg s pr n) s); [reflexivity|].
  apply (load_reg s p pr l); [exact Hc|unfold TF_a; lia|unfold TF_a, PGSIZE; lia].
Qed.

Lemma argint_run s p pr l n : calling s p pr l -> 0 <= n <= 5 -> argint n s = Ok (Some (i32 (areg s pr n))) s.
Proof. intros Hc Hn. unfold argint. now rewrite (bind_Ok _ _ _ _ _ (argaddr_run s p pr l n Hc Hn)). Qed.

Lemma rw_args_run s p pr l : calling s p pr l ->
  rw_args s = Ok (Some (i32 (areg s pr 0), areg s pr 1, i32 (areg s pr 2))) s.
Proof.
  intros Hc. unfold rw_args. rewrite (bind_Ok _ _ _ _ _ (argint_run s p pr l 0 Hc ltac:(lia))).
  rewrite (bind_Ok _ _ _ _ _ (argaddr_run s p pr l 1 Hc ltac:(lia))).
  now rewrite (bind_Ok _ _ _ _ _ (argint_run s p pr l 2 Hc ltac:(lia))).
Qed.

(** A change of the memory that leaves the tables alone, and of the rest of the
    state that leaves the process alone. *)
Lemma calling_moves s s' p pr l P :
  calling s p pr l -> ks_current s' = Some p -> ks_proc s' !! p = Some pr ->
  same_bytes P s s' -> (forall k, P k -> ~ in_tables s (p_pagetable pr) k) -> calling s' p pr l.
Proof.
  intros [Hcur Hp Hsp Hf Ha] Hcur' Hp' Hs HP.
  destruct (same_tables s s' _ l P (sp_wf _ _ _ Hsp) Hs HP) as [Ht Htr].
  split; [exact Hcur'|exact Hp'|eapply space_same; eassumption|exact Hf|].
  intros k Hk. destruct (Ha k Hk) as [H1 H2]. split.
  - intros (q & b & Hq & Hb & Hin). rewrite Ht in Hb by exact Hq. apply H1. exists q, b. auto.
  - intros va. rewrite (user_at_same s s') by exact Htr. apply H2.
Qed.

Lemma calling_uart s p pr l f : calling s p pr l -> calling (upd_ks_uart f s) p pr l.
Proof.
  intros Hc. apply (calling_moves s _ p pr l (fun _ => False) Hc); try apply Hc; [|intros k []].
  intros k _. reflexivity.
Qed.

Lemma in_frame pr k :
  p_trapframe pr + TF_a 0 <= k < p_trapframe pr + TF_a 0 + 8 -> p_trapframe pr <= k < p_trapframe pr + PGSIZE.
Proof. unfold TF_a, PGSIZE. lia. Qed.

Lemma returning_same pr r s :
  same_bytes (fun k => p_trapframe pr + TF_a 0 <= k < p_trapframe pr + TF_a 0 + 8) s (returning pr r s).
Proof.
  intros k Hk. unfold returning. rewrite byte_put. rewrite decide_False; [reflexivity|].
  rewrite length_le_bytes. lia.
Qed.

Lemma calling_returning s p pr l r : calling s p pr l -> calling (returning pr r s) p pr l.
Proof.
  intros Hc. eapply calling_moves; [exact Hc|apply Hc|apply Hc|apply returning_same|].
  intros k Hk. apply (cl_apart _ _ _ _ Hc k (in_frame pr k Hk)).
Qed.

Lemma returned pr r s : areg (returning pr r s) pr 0 = u64 r.
Proof. unfold areg, reg, returning. apply word_put, u64_range. Qed.

(** The dispatcher: the handler of number [n] and its result. *)
Lemma syscall_run fuel s p pr l f r s' :
  calling s p pr l -> 0 < i32 (reg s pr TF_a7) < NSYSCALLS -> syscalls fuel (i32 (reg s pr TF_a7)) = Some f ->
  f s = Ok r s' -> calling s' p pr l -> syscall fuel s = Ok tt (returning pr r s').
Proof.
  intros Hc Hn Hf Hrun Hc'. unfold syscall. rewrite (bind_Ok _ _ _ _ _ (curproc_run _ _ (cl_current _ _ _ _ Hc))).
  rewrite (bind_Ok _ _ _ _ _ (getproc_run _ _ _ (cl_proc _ _ _ _ Hc))).
  rewrite (bind_Ok _ _ _ _ _ (load_reg s p pr l TF_a7 Hc ltac:(unfold TF_a7; lia) ltac:(unfold TF_a7, PGSIZE; lia))).
  replace ((0 <? i32 (reg s pr TF_a7)) && (i32 (reg s pr TF_a7) <? NSYSCALLS)) with true by (symmetry; apply andb_true_iff; lia).
  cbv zeta. rewrite Hf, (bind_Ok _ _ _ _ _ Hrun), (bind_Ok _ _ _ _ _ (getproc_run _ _ _ (cl_proc _ _ _ _ Hc'))).
  apply store64_run. apply (frame_ram s' p pr l); [exact Hc'|unfold TF_a; lia|unfold TF_a, PGSIZE; lia].
Qed.

(** ** Output *)

Lemma putcs_emit t s : for_each t console_putc s = Ok tt (upd_ks_uart (fun u => u ++ emit t) s).
Proof.
  revert s. induction t as [|c t IH]; intros s; cbn [for_each].
  - now rewrite upd_uart_nil.
  - rewrite (bind_Ok _ _ _ _ _ (console_putc_emit c s)), IH, upd_uart_app, <- emit_app. reflexivity.
Qed.

#[export] Instance user_mapped_dec s root va n : Decision (user_mapped s root va n).
Proof.
  refine (cast_if (decide (Forall (fun i => is_Some (user_at s root (va + i))) (upto n))));
    unfold user_mapped; rewrite Forall_forall in *.
  - intros i Hi. now apply f, elem_of_upto.
  - intros Hm. apply n0. intros i Hi%elem_of_upto. auto.
Defined.

(** [t] is what the pieces of 128 bytes hold that come before the first piece of the
    range that is not all user memory; the last piece ends with the range. *)
Definition pieces_before (s : kstate) (root va n : Z) (t : list Z) : Prop :=
  exists k, 0 <= 128 * k < n /\ user_mapped s root va (128 * k) /\
    ~ user_mapped s root (va + 128 * k) (Z.min 128 (n - 128 * k)) /\ t = user_bytes s root va (128 * k).

Lemma pieces_mem s s' root va n t : ks_mem s' = ks_mem s -> pieces_before s' root va n t -> pieces_before s root va n t.
Proof.
  intros Em (k & Hk & Hp & Hno & ->). exists k. rewrite (user_mapped_mem s s'), (user_bytes_mem s s') in * by exact Em. auto.
Qed.

(** The first piece is mapped: the others follow. *)
Lemma pieces_next s root va n t :
  0 <= va -> va + n <= 2 ^ 64 -> 128 <= n -> user_mapped s root va 128 -> pieces_before s root (va + 128) (n - 128) t ->
  pieces_before s root va n (user_bytes s root va 128 ++ t).
Proof.
  intros Hva Hend Hn Hm (k & Hk & Hp & Hno & ->). exists (k + 1). split; [lia|]. split; [|split].
  - intros i Hi. destruct (decide (i < 128)); [apply Hm; lia|].
    replace (va + i) with (va + 128 + (i - 128)) by lia. apply Hp. lia.
  - replace (va + 128 * (k + 1)) with (va + 128 + 128 * k) by lia.
    now replace (n - 128 * (k + 1)) with (n - 128 - 128 * k) by lia.
  - replace (128 * (k + 1)) with (128 + 128 * k) by lia. now rewrite user_bytes_app by lia.
Qed.

(** The loop of [sys_write] for the console: pieces of 128 bytes. *)
Lemma console_loop_run p pr l fuel : forall va n total s,
  calling s p pr l -> 0 <= va -> 0 <= n -> va + n <= 2 ^ 64 -> 0 <= total -> total + n < 2 ^ 31 ->
  (Z.to_nat n <= fuel)%nat ->
  exists r t, console_loop fuel p va n total s = Ok r (upd_ks_uart (fun u => u ++ emit t) s) /\
    (user_mapped s (p_pagetable pr) va n -> r = total + n /\ t = user_bytes s (p_pagetable pr) va n) /\
    (~ user_mapped s (p_pagetable pr) va n -> r = -1 /\ pieces_before s (p_pagetable pr) va n t).
Proof.
  assert (forall va s, user_mapped s (p_pagetable pr) va 0) as Hnone by (intros va s i Hi; lia).
  induction fuel as [|fuel IH]; intros va n total s Hc Hva Hn Hend Ht Htn Hfuel; cbn [console_loop];
    (destruct (Z.ltb_spec 0 n) as [Hn0|Hz]; [try lia|
      assert (n = 0) as -> by lia; exists total, []; rewrite upd_uart_nil, Z.add_0_r; split; [reflexivity|];
      split; [split; reflexivity|]; intros Hm; destruct (Hm (Hnone va s))]).
  set (len := if 128 <? n then 128 else n).
  assert (0 < len <= n /\ (len = n \/ len = 128)) as (Hlen & Hcase) by (unfold len; destruct (Z.ltb_spec 128 n); lia).
  cbv zeta. rewrite (bind_Ok _ _ _ _ _ (getproc_run _ _ _ (cl_proc _ _ _ _ Hc))).
  destruct (copyin_loop_run Hpos s (p_pagetable pr) l (Z.to_nat len) va len [] (cl_space _ _ _ _ Hc) Hva)
    as (e & bs & Hin & H1 & H2); [lia..|]. cbn [app] in H1.
  rewrite (bind_Ok _ _ _ _ _ (Hin : copyin (p_pagetable pr) va len s = _)). cbn beta iota.
  destruct (decide (user_mapped s (p_pagetable pr) va len)) as [Hm|Hm].
  - destruct (H1 Hm) as [-> ->]. change (0 <? 0) with false. cbv iota.
    rewrite (bind_Ok _ _ _ _ _ (putcs_emit _ s)).
    set (s1 := upd_ks_uart _ s). rewrite i32_id by lia.
    assert (u64 (va + len) = va + len \/ n - len = 0) as Hnext.
    { destruct (decide (n = len)); [lia|left]. apply u64_id. lia. }
    destruct (IH (u64 (va + len)) (n - len) (total + len) s1) as (r & t & Hrun & K1 & K2);
      [apply calling_uart, Hc|apply u64_range|lia| |lia|lia|lia|].
    { destruct Hnext as [E|E]; rewrite E; [lia|]. pose proof (u64_range (va + len)). lia. }
    rewrite (user_mapped_mem s s1) in K1, K2 by reflexivity. rewrite (user_bytes_mem s s1) in K1 by reflexivity.
    assert (user_mapped s (p_pagetable pr) va n <-> user_mapped s (p_pagetable pr) (u64 (va + len)) (n - len)) as Hiff.
    { split; intros Hmp i Hi.
      - destruct Hnext as [->|E]; [|lia]. rewrite <- Z.add_assoc. apply Hmp. lia.
      - destruct (decide (i < len)); [apply Hm; lia|]. destruct Hnext as [E|E]; [|lia].
        replace (va + i) with (va + len + (i - len)) by lia. rewrite <- E. apply Hmp. lia. }
    exists r, (user_bytes s (p_pagetable pr) va len ++ t). rewrite Hrun. unfold s1. rewrite upd_uart_app, <- emit_app.
    split; [reflexivity|]. rewrite Hiff. split.
    + intros Hmp. destruct (K1 Hmp) as [-> ->]. split; [lia|].
      replace n with (len + (n - len)) at 2 by lia. rewrite user_bytes_app by lia.
      destruct Hnext as [->|E]; [reflexivity|]. now rewrite E.
    + intros Hmp. destruct (K2 Hmp) as (-> & Hpb). split; [reflexivity|].
      destruct (decide (n = len)) as [Enl|Hnl]; [destruct Hmp; intros j Hj; lia|]. destruct Hnext as [E|E]; [|lia]. rewrite E in Hpb.
      assert (len = 128) as E128 by lia. clearbody len. subst len. apply pieces_next; [exact Hva|exact Hend|lia|exact Hm|].
      now apply (pieces_mem s s1).
  - rewrite (H2 Hm). exists (-1), []. rewrite upd_uart_nil. split; [reflexivity|]. split.
    + intros Hmp. destruct Hm. intros i Hi. apply Hmp. lia.
    + intros _. split; [reflexivity|]. exists 0. split; [lia|]. split; [intros i Hi; lia|].
      rewrite Z.mul_0_r, Z.add_0_r, Z.sub_0_r. split; [|reflexivity].
      replace (Z.min 128 n) with len by (unfold len; destruct (Z.ltb_spec 128 n); lia). exact Hm.
Qed.

(** The process has made system call [num] with the arguments [a0], [a1], [a2]. *)
Definition asks (s : kstate) (pr : proc) (num a0 a1 a2 : Z) : Prop :=
  i32 (reg s pr TF_a7) = num /\ i32 (areg s pr 0) = a0 /\ areg s pr 1 = a1 /\ i32 (areg s pr 2) = a2.

Lemma write_console_run fuel s p pr l fd va n :
  calling s p pr l -> asks s pr 16 fd va n -> fd = 1 \/ fd = 2 -> 0 <= va -> 0 <= n < 2 ^ 31 -> va + n <= 2 ^ 64 ->
  exists r t, syscall fuel s = Ok tt (returning pr r (upd_ks_uart (fun u => u ++ emit t) s)) /\
    (user_mapped s (p_pagetable pr) va n -> r = n /\ t = user_bytes s (p_pagetable pr) va n) /\
    (~ user_mapped s (p_pagetable pr) va n -> r = -1 /\ pieces_before s (p_pagetable pr) va n t).
Proof.
  intros Hc (H7 & H0 & H1 & H2) Hfd Hva Hn Hend.
  destruct (console_loop_run p pr l (Z.to_nat n) va n 0 s Hc Hva) as (r & t & Hrun & K1 & K2); [lia..|].
  exists r, t. split; [|split; assumption].
  apply (syscall_run fuel s p pr l (sys_write fuel)); [exact Hc|rewrite H7; split; reflexivity|now rewrite H7| |apply calling_uart, Hc].
  unfold sys_write. rewrite (bind_Ok _ _ _ _ _ (curproc_run _ _ (cl_current _ _ _ _ Hc))).
  rewrite (bind_Ok _ _ _ _ _ (rw_args_run s p pr l Hc)), H0, H1, H2. cbn beta iota.
  destruct (Z.ltb_spec n 0); [lia|].
  replace ((fd =? 1) || (fd =? 2)) with true by (symmetry; apply orb_true_iff; lia). exact Hrun.
Qed.

(** A process whose trap frame is none of the pages in use. *)
Lemma calling_example s pr l bs :
  space_ok s (p_pagetable pr) l -> p_trapframe pr ∈ l -> is_page (p_trapframe pr) -> Z.of_nat (length bs) <= PGSIZE ->
  calling (upd_ks_mem (put_bytes (p_trapframe pr) bs) (set_ks_current (Some 0%nat) (set_ks_proc [pr] s))) 0 pr l.
Proof.
  intros Hsp Hin Hpg Hlen. set (root := p_pagetable pr) in *.
  set (s0 := set_ks_current (Some 0%nat) (set_ks_proc [pr] s)).
  assert (calling s0 0 pr l) as Hc.
  { split; [reflexivity|reflexivity| |exact Hpg|].
    - apply (space_same s s0 root l (fun _ => False) Hsp); [intros k _; reflexivity|intros k []].
    - intros k Hk. split.
      + intros (q & b & Hq & Hb & Hkb). rewrite (table_mem s s0) in Hb by reflexivity.
        destruct (pw_page _ _ _ (sp_wf _ _ _ Hsp) q b Hq Hb) as [Hpb Hnb].
        destruct (decide (b = p_trapframe pr)) as [E|Hne]; [subst b; exact (Hnb Hin)|].
        destruct (pages_apart b (p_trapframe pr) Hpb Hpg Hne); lia.
      + intros va. rewrite (user_at_mem s s0) by reflexivity. intros Hu.
        destruct (user_at_page s root l va k Hsp Hu) as (pte & Et & HU & -> & Hpa).
        destruct (sp_page _ _ _ Hsp va pte Et HU) as (_ & Hn & _).
        pose proof (Z.mod_pos_bound va PGSIZE ltac:(reflexivity)).
        destruct (decide (PTE_PA pte = p_trapframe pr)) as [E|Hne]; [rewrite E in Hn; exact (Hn Hin)|].
        destruct (pages_apart (PTE_PA pte) (p_trapframe pr) Hpa Hpg Hne); lia. }
  eapply (calling_moves s0 _ 0 pr l _ Hc); [reflexivity|reflexivity|apply same_bytes_put|].
  intros k Hk. cbn beta in Hk. apply (cl_apart _ _ _ _ Hc k). lia.
Qed.
End calls.

(** ** Properties *)

(** C10: functional.  The system call [write] on descriptor 1 or 2 sends the bytes of
    user memory to the console, in order, and returns their number; when the range
    is not all user memory it returns -1, having printed the pieces of 128 bytes
    before the one that is not mapped. *)
Theorem write_prints `{Symbols} fuel s p pr l fd va n :
  0 < mem_start -> calling s p pr l -> asks s pr 16 fd va n -> fd = 1 \/ fd = 2 ->
  0 <= va -> 0 <= n < 2 ^ 31 -> va + n <= 2 ^ 64 ->
  exists r t s', syscall fuel s = Ok tt s' /\ calling s' p pr l /\
    areg s' pr 0 = u64 r /\ ks_uart s' = ks_uart s ++ emit t /\
    (user_mapped s (p_pagetable pr) va n -> r = n /\ t = user_bytes s (p_pagetable pr) va n) /\
    (~ user_mapped s (p_pagetable pr) va n -> r = -1 /\ pieces_before s (p_pagetable pr) va n t).
Proof.
  intros Hpos Hc Ha Hfd Hva Hn Hend.
  destruct (write_console_run Hpos fuel s p pr l fd va n Hc Ha Hfd Hva Hn Hend) as (r & t & Hrun & K1 & K2).
  exists r, t, (returning pr r (upd_ks_uart (fun u => u ++ emit t) s)). split; [exact Hrun|].
  split; [apply calling_returning, calling_uart, Hc|]. split; [apply returned|]. split; [reflexivity|]. auto.
Qed.

(** ** Examples: a process with a page of memory and a trap frame *)

Definition demo_tf : Z := PHYSTOP - 6 * PGSIZE.
Definition demo_proc : proc := set_p_pagetable demo_top (set_p_trapframe demo_tf zero_proc).

(** A trap frame with the number and three arguments of a system call. *)
Definition frame_bytes (num a0 a1 a2 : Z) : list Z :=
  replicate 112 0 ++ le_bytes 8 a0 ++ le_bytes 8 a1 ++ le_bytes 8 a2 ++ replicate 32 0 ++ le_bytes 8 num.

Definition demo_call (num a0 a1 a2 : Z) : kstate :=
  upd_ks_mem (put_bytes demo_tf (frame_bytes num a0 a1 a2))
    (set_ks_current (Some 0%nat) (set_ks_proc [demo_proc] demo_user)).

Lemma demo_tf_page : @is_page demo_symbols demo_tf.
Proof. split; [reflexivity|split; vm_compute; discriminate]. Qed.

Lemma demo_calling num a0 a1 a2 :
  @calling demo_symbols (demo_call num a0 a1 a2) 0 demo_proc (drop 4 (rev (@all_pages demo_symbols))).
Proof.
  destruct demo_user_space as (_ & Hsp & _).
  assert (demo_tf ∈ drop 4 (rev (@all_pages demo_symbols))) as Hin
    by (apply (list_elem_of_lookup_2 _ 1%nat); vm_compute; reflexivity).
  apply (@calling_example demo_symbols demo_user demo_proc _ (frame_bytes num a0 a1 a2) Hsp Hin demo_tf_page).
  unfold frame_bytes. rewrite !length_app, !length_replicate, !length_le_bytes. unfold PGSIZE. lia.
Qed.

Lemma write_prints_witness :
  exists s', @syscall demo_symbols 0 (demo_call 16 1 0 3) = Ok tt s' /\
    areg s' demo_proc 0 = 3 /\ ks_uart s' = [0; 0xd0; 0xff].
Proof.
  destruct (@write_prints demo_symbols 0 (demo_call 16 1 0 3) 0 demo_proc _ 1 0 3 demo_mem_start
    (demo_calling 16 1 0 3)) as (r & t & s' & Hrun & _ & Hr & Hu & H1 & _).
  - repeat split; vm_compute; reflexivity.
  - now left.
  - lia.
  - lia.
  - lia.
  - exists s'. split; [exact Hrun|]. rewrite Hr, Hu. destruct H1 as [-> ->].
    + apply (bool_decide_unpack _). vm_compute. exact I.
    + split; vm_compute; reflexivity.
Defined.
