(* ===== verification/Saving.v ===== *)
(** * Writing a file by a system call

    [sys_write] of kernel/sysfile.c copies a range of user memory to a file in
    pieces of 512 bytes, each in a transaction of its own.  Here the parts meet: the
    arguments (Calls.v), user memory (UserMem.v) and the transaction (Durable.v). *)
From S2P Require Import Prelude State Mem Pmm Printf Vm UserMem Bio Blocks Sched Proc Log Txn Update Fs Layout Inodes Icache Paths.
From S2P Require Import Mkfs Tree Alloc Slots Writing Store Namei File Durable Sysfile Calls.

(** ** Successive writes *)

Lemma updated_none sb inum off L :
  off <= di_size (disk_inode L sb inum) -> updated sb inum [] off 0 L L.
Proof.
  intros Hoff. split; [reflexivity|lia|reflexivity| |reflexivity|reflexivity].
  intros x _. unfold stored. rewrite decide_False by lia. reflexivity.
Qed.

Lemma updated_app sb inum src1 src2 off n1 n2 L L1 L2 :
  Z.of_nat (length src1) = n1 -> 0 <= n2 ->
  updated sb inum src1 off n1 L L1 -> updated sb inum src2 (off + n1) n2 L1 L2 ->
  updated sb inum (src1 ++ src2) off (n1 + n2) L L2.
Proof.
  intros Hl Hn [U1 U2 U3 U4 U5 U6] [V1 V2 V3 V4 V5 V6]. split.
  - intros j. rewrite V1. apply U1.
  - rewrite V2, U2. lia.
  - rewrite V3. exact U3.
  - intros x Hx. rewrite V4 by exact Hx. rewrite <- stored_app by assumption. apply stored_ext, U4, Hx.
  - intros j Hj Hne. rewrite V5; [now apply U5|now apply U1|exact Hne].
  - intros j x Hj Hne Hx. rewrite V6; [now apply U6|now apply U1|exact Hne|exact Hx].
Qed.

(** ** Between two operations *)

(** The disk holds what the cache shows. *)
Lemma idle_disk s k : fs_idle s -> ks_disk s !! k = lblk s k.
Proof.
  intros Hid. symmetry. eapply view_clean; [apply self_view, (li_cache _ (id_log _ Hid))|apply not_elem_of_nil|].
  apply (id_clean _ Hid).
Qed.

(** Changes that concern neither the file system nor the table of processes. *)
Lemma log_inv_ext s s' :
  ks_bcache s' = ks_bcache s -> ks_disk s' = ks_disk s -> ks_log s' = ks_log s ->
  length (ks_proc s') = length (ks_proc s) -> log_inv s ->
  log_inv s' /\ (forall k, lblk s' k = lblk s k) /\ (forall k, dirty s' k <-> dirty s k).
Proof.
  intros Eb Ed El Ep [G1 G2 [T1 T2 T3 T4] G4 G5 G6 G7].
  assert (forall k, dirty s' k <-> dirty s k) as Hd by (intros k; unfold dirty; now rewrite Eb).
  split; [|split; [intros k; now apply lblk_ext|exact Hd]].
  split; rewrite ?El, ?Ed, ?Ep; try assumption; [now apply (cache_ext [] [] s)|].
  split; [exact T1|exact T2|intros k; rewrite Hd; apply T3|exact T4].
Qed.

Lemma idle_ext s s' :
  ks_bcache s' = ks_bcache s -> ks_disk s' = ks_disk s -> ks_log s' = ks_log s -> ks_sb s' = ks_sb s ->
  ks_icache s' = ks_icache s -> length (ks_proc s') = length (ks_proc s) -> fs_idle s ->
  fs_idle s' /\ forall k, lblk s' k = lblk s k.
Proof.
  intros Eb Ed El Es Ei Ep [H1 H2 H3 H4 H5 H6].
  destruct (log_inv_ext s s' Eb Ed El Ep H1) as (Hinv & Hl & Hd).
  assert (same_data s (lblk s) (lblk s')) as Hsame by (intros k _; apply Hl).
  split; [|exact Hl]. split.
  - exact Hinv.
  - now rewrite El.
  - intros k. rewrite Hd. apply H3.
  - apply (fs_ok_same _ s); [exact Es|exact Ed| |now apply (same_fs_ok s (lblk s))].
    intros k. apply loggable_ext; [now rewrite Ed|now rewrite El|now rewrite El].
  - now rewrite Ei.
  - rewrite Es, Ei. now apply (same_coherent s (lblk s)).
Qed.

(** A file that is open for writing, with room for [n] bytes at its offset: each
    piece of 512 bytes may take two blocks of data and one indirect block. *)
Record file_room (s : kstate) (f : nat) (fv : file) (i : nat) (inum n : Z) : Prop := {
  fm_file : File.open_file (lblk s) s f fv i inum;
  fm_writable : f_writable fv <> 0;
  fm_off : 0 <= f_off fv <= di_size (disk_inode (lblk s) (ks_sb s) inum);
  fm_end : f_off fv + n <= MAXFILE * BSIZE;
  fm_log : 10 <= log_size (ks_log s);
  fm_free : 3 * ((n + 511) / 512) <= free_count (lblk s) s }.

Section room.
Context (s : kstate) (f : nat) (fv : file) (i : nat) (inum n m : Z) (src : list Z).
Hypothesis Hroom : file_room s f fv i inum n.
Hypothesis Hm : 0 < m <= 512 /\ (m = n \/ m = 512 /\ m < n).

Lemma piece_blocks off : nblocks off m <= 2.
Proof. unfold nblocks, BSIZE. mlia. Qed.

Lemma can_write_piece : Z.of_nat (length src) = m -> can_write s f fv i inum src m.
Proof.
  destruct Hroom as [H1 H2 H3 H4 H5 H6]. intros Hl. pose proof (piece_blocks (f_off fv)).
  split; try assumption; try lia. assert (1 <= (n + 511) / 512) by mlia. lia.
Qed.

Lemma room_after s' :
  saved s f fv inum src m s' -> file_room s' f (set_f_off (f_off fv + m) fv) i inum (n - m).
Proof.
  destruct Hroom as [[O1 O2 O3 O4 O5] H2 H3 H4 H5 H6]. intros [S1 S2 S3 S4 S5 S6 S7 S8 S9 S10].
  pose proof (piece_blocks (f_off fv)). split; fields; try assumption.
  - split; fields; try assumption.
    + rewrite S5. apply list_lookup_insert_eq, (lookup_lt_Some _ _ _ O1).
    + now apply S6.
    + rewrite S4, (up_type _ _ _ _ _ _ _ S2). exact O5.
  - rewrite S4, (up_size _ _ _ _ _ _ _ S2). lia.
  - lia.
  - now rewrite S7.
  - assert (3 * ((n - m + 511) / 512) + 3 <= 3 * ((n + 511) / 512)) by mlia. lia.
Qed.
End room.

(** ** The loop *)

Section saving.
Context `{Symbols} (Hpos : 0 < mem_start).

(** Changes that leave the memory alone and do not touch a running process. *)
Lemma calling_saved s s' p pr l :
  calling s p pr l -> ks_mem s' = ks_mem s -> ks_current s' = ks_current s -> ks_proc s' !! p = Some pr ->
  calling s' p pr l.
Proof.
  intros Hc Em Ec Ep. eapply (calling_moves s s' p pr l (fun _ => False) Hc); [|exact Ep| |intros k []].
  - rewrite Ec. apply Hc.
  - intros k _. unfold byte. now rewrite Em.
Qed.

Lemma wake_running c pr : p_state pr = RUNNING -> wake c pr = pr.
Proof. intros E. unfold wake. apply decide_False. intros [E' _]. rewrite E in E'. discriminate E'. Qed.

(** One piece: the whole transaction. *)
Lemma write_loop_step fuel k p pr l s f fv i inum va n total :
  let m := if 512 <? n then 512 else n in
  let src := user_bytes s (p_pagetable pr) va m in
  calling s p pr l -> p_state pr = RUNNING -> fs_idle s -> file_room s f fv i inum n ->
  0 < n -> 0 <= va -> va + n <= 2 ^ 64 -> user_mapped s (p_pagetable pr) va m ->
  exists s', saved s f fv inum src m s' /\ calling s' p pr l /\
    write_loop (S fuel) (S k) p f va n total s =
    write_loop fuel (S k) p f (u64 (va + m)) (n - m) (i32 (total + m)) s'.
Proof.
  intros m src Hc Hrun Hid Hroom Hn Hva Hend Hmap.
  assert (0 < m <= 512 /\ (m = n \/ m = 512 /\ m < n)) as Hm by (unfold m; destruct (Z.ltb_spec 512 n); lia).
  assert (Z.of_nat (length src) = m) as Hlen by (unfold src, user_bytes; rewrite length_map, length_upto; lia).
  destruct (write_txn_run s f fv i inum src m k Hid (can_write_piece _ _ _ _ _ _ _ _ Hroom Hm Hlen))
    as (s1 & s2 & Hb & Hf & He & _ & _ & _ & _ & _ & _ & _ & _ & _ & Hsv).
  exists s2. split; [exact Hsv|].
  assert (ks_proc s2 !! p = Some pr) as Hp2.
  { rewrite (sv_proc _ _ _ _ _ _ _ Hsv), list_lookup_fmap, (cl_proc _ _ _ _ Hc). cbn. now rewrite wake_running. }
  split; [exact (calling_saved s s2 p pr l Hc (sv_mem _ _ _ _ _ _ _ Hsv) (sv_current _ _ _ _ _ _ _ Hsv) Hp2)|].
  cbn [write_loop]. rewrite (proj2 (Z.ltb_lt 0 n)) by exact Hn. fold m. cbv zeta.
  rewrite (bind_Ok _ _ _ _ _ Hb). assert (calling (opened s) p pr l) as Hc1.
  { apply (calling_saved s); [exact Hc|reflexivity|reflexivity|exact (cl_proc _ _ _ _ Hc)]. }
  rewrite (bind_Ok _ _ _ _ _ (getproc_run _ _ _ (cl_proc _ _ _ _ Hc1))).
  destruct (copyin_loop_run Hpos (opened s) (p_pagetable pr) l (Z.to_nat m) va m [] (cl_space _ _ _ _ Hc1) Hva)
    as (e & bs & Hin & H1 & _); [lia..|]. cbn [app] in H1.
  rewrite (user_mapped_mem s (opened s)) in H1 by reflexivity. rewrite (user_bytes_mem s (opened s)) in H1 by reflexivity.
  destruct (H1 Hmap) as [-> ->]. rewrite (bind_Ok _ _ _ _ _ (Hin : copyin (p_pagetable pr) va m (opened s) = _)).
  cbn beta iota. change (0 <? 0) with false. cbv iota. fold src.
  rewrite (bind_Ok _ _ _ _ _ Hf), (bind_Ok _ _ _ _ _ He). rewrite (proj2 (Z.leb_gt m 0)) by lia. reflexivity.
Qed.

Lemma write_loop_run k p pr l f i inum fuel : forall va n total s fv,
  calling s p pr l -> p_state pr = RUNNING -> fs_idle s -> file_room s f fv i inum n ->
  0 <= n -> 0 <= va -> va + n <= 2 ^ 64 -> user_mapped s (p_pagetable pr) va n ->
  0 <= total -> total + n < 2 ^ 31 -> (Z.to_nat n <= fuel)%nat ->
  exists s', write_loop fuel (S k) p f va n total s = Ok (total + n) s' /\ calling s' p pr l /\ fs_idle s' /\
    ks_sb s' = ks_sb s /\ ks_ftable s' !! f = Some (set_f_off (f_off fv + n) fv) /\
    updated (ks_sb s) inum (user_bytes s (p_pagetable pr) va n) (f_off fv) n (lblk s) (lblk s').
Proof.
  induction fuel as [|fuel IH]; intros va n total s fv Hc Hrun Hid Hroom Hn Hva Hend Hmap Ht Htn Hfuel;
    (destruct (decide (n = 0)) as [->|Hn0]; [|try lia]).
  1, 2: exists s; cbn [write_loop]; rewrite Z.ltb_irrefl, Z.add_0_r; split; [reflexivity|]; split; [exact Hc|];
    split; [exact Hid|]; split; [reflexivity|]; split;
    [rewrite (of_file _ _ _ _ _ _ (fm_file _ _ _ _ _ _ Hroom)), Z.add_0_r; now destruct fv|
     apply updated_none, (fm_off _ _ _ _ _ _ Hroom)].
  set (m := if 512 <? n then 512 else n).
  assert (0 < m <= 512 /\ (m = n \/ m = 512 /\ m < n)) as Hm by (unfold m; destruct (Z.ltb_spec 512 n); lia).
  assert (user_mapped s (p_pagetable pr) va m) as Hmap1 by (intros j Hj; apply Hmap; lia).
  destruct (write_loop_step fuel k p pr l s f fv i inum va n total Hc Hrun Hid Hroom ltac:(lia) Hva Hend Hmap1)
    as (s1 & Hsv & Hc1 & ->). fold m in Hsv |- *. rewrite i32_id by lia.
  assert (u64 (va + m) = va + m \/ n - m = 0) as Hnext.
  { destruct (decide (n = m)); [lia|left]. apply u64_id. lia. }
  pose proof (room_after _ _ _ _ _ _ _ _ Hroom Hm s1 Hsv) as Hroom1.
  pose proof (sv_mem _ _ _ _ _ _ _ Hsv) as Em.
  destruct (IH (u64 (va + m)) (n - m) (total + m) s1 _ Hc1 Hrun (sv_idle _ _ _ _ _ _ _ Hsv) Hroom1)
    as (s2 & Hrun2 & Hc2 & Hid2 & Esb & Eft & Hup); [lia|apply u64_range| | |lia|lia|lia|].
  { destruct Hnext as [E|E]; rewrite E; [lia|]. pose proof (u64_range (va + m)). lia. }
  { apply (user_mapped_mem s s1); [exact Em|]. intros j Hj. destruct Hnext as [->|E]; [|lia].
    rewrite <- Z.add_assoc. apply Hmap. lia. }
  exists s2. rewrite Hrun2. split; [f_equal; lia|]. split; [exact Hc2|]. split; [exact Hid2|].
  rewrite (sv_sb _ _ _ _ _ _ _ Hsv) in Esb, Hup. split; [exact Esb|]. split.
  - rewrite Eft. fields. replace (f_off fv + m + (n - m)) with (f_off fv + n) by lia. reflexivity.
  - rewrite (user_bytes_mem s s1) in Hup by exact Em. fields.
    assert (user_bytes s (p_pagetable pr) va n =
            user_bytes s (p_pagetable pr) va m ++ user_bytes s (p_pagetable pr) (u64 (va + m)) (n - m)) as Eb.
    { replace n with (m + (n - m)) at 1 by lia. rewrite user_bytes_app by lia.
      destruct Hnext as [->|E]; [reflexivity|]. now rewrite E. }
    rewrite Eb. replace n with (m + (n - m)) at 2 by lia.
    eapply updated_app; [|lia|exact (sv_updated _ _ _ _ _ _ _ Hsv)|exact Hup].
    unfold user_bytes. rewrite length_map, length_upto. lia.
Qed.

(** The system call. *)
Lemma sys_write_run k s p pr l fd va n f fv i inum :
  calling s p pr l -> asks s pr 16 fd va n -> p_state pr = RUNNING -> 3 <= fd < NOFILE ->
  lget fd (p_ofile pr) = Some (Some f) ->
  fs_idle s -> file_room s f fv i inum n ->
  0 <= va -> 0 <= n < 2 ^ 31 -> va + n <= 2 ^ 64 -> user_mapped s (p_pagetable pr) va n ->
  exists s', syscall (S k) s = Ok tt (returning pr n s') /\ calling s' p pr l /\ fs_idle s' /\
    ks_sb s' = ks_sb s /\ ks_ftable s' !! f = Some (set_f_off (f_off fv + n) fv) /\
    updated (ks_sb s) inum (user_bytes s (p_pagetable pr) va n) (f_off fv) n (lblk s) (lblk s').
Proof.
  intros Hc (H7 & H0 & H1 & H2) Hrun Hfd Hf Hid Hroom Hva Hn Hend Hmap.
  destruct (write_loop_run k p pr l f i inum (Z.to_nat n) va n 0 s fv Hc Hrun Hid Hroom ltac:(lia) Hva Hend Hmap)
    as (s' & Hloop & Hc' & Hrest); [lia..|]. exists s'. split; [|split; [exact Hc'|exact Hrest]].
  apply (syscall_run (S k) s p pr l (sys_write (S k))); [exact Hc|rewrite H7; split; reflexivity|now rewrite H7| |exact Hc'].
  unfold sys_write. rewrite (bind_Ok _ _ _ _ _ (curproc_run _ _ (cl_current _ _ _ _ Hc))).
  rewrite (bind_Ok _ _ _ _ _ (rw_args_run s p pr l Hc)), H0, H1, H2. cbn beta iota.
  destruct (Z.ltb_spec n 0); [lia|].
  replace ((fd =? 1) || (fd =? 2)) with false by (symmetry; apply orb_false_iff; lia).
  unfold fd_file. replace ((fd <? 0) || (NOFILE <=? fd)) with false by (symmetry; apply orb_false_iff; lia).
  unfold getofile. rewrite (bind_Ok _ _ _ (Some f) s); [exact Hloop|].
  rewrite (bind_Ok _ _ _ _ _ (getproc_run _ _ _ (cl_proc _ _ _ _ Hc))), Hf. reflexivity.
Qed.
End saving.

(** ** Theorem *)

(** C2: functional.  The system call [write] on a file stores the bytes of user memory
    in the file, whatever their number: when it returns, it returns their number, the
    offset of the file is behind them, and the disk holds a well-formed file system
    in which the file has them and every other file is as it was. *)
Theorem write_saves `{Symbols} k s p pr l fd va n f fv i inum :
  0 < mem_start -> calling s p pr l -> asks s pr 16 fd va n -> p_state pr = RUNNING -> 3 <= fd < NOFILE ->
  lget fd (p_ofile pr) = Some (Some f) -> fs_idle s -> file_room s f fv i inum n ->
  0 <= va -> 0 <= n < 2 ^ 31 -> va + n <= 2 ^ 64 -> user_mapped s (p_pagetable pr) va n ->
  exists s', syscall (S k) s = Ok tt s' /\ calling s' p pr l /\ areg s' pr 0 = u64 n /\ fs_idle s' /\
    updated (ks_sb s) inum (user_bytes s (p_pagetable pr) va n) (f_off fv) n (lblk s) (lblk s') /\
    (forall b, ks_disk s' !! b = lblk s' b) /\
    ks_ftable s' !! f = Some (set_f_off (f_off fv + n) fv).
Proof.
  intros Hpos Hc Ha Hrun Hfd Hf Hid Hroom Hva Hn Hend Hmap.
  destruct (sys_write_run Hpos k s p pr l fd va n f fv i inum Hc Ha Hrun Hfd Hf Hid Hroom Hva Hn Hend Hmap)
    as (s1 & Hsys & Hc1 & Hid1 & Esb & Eft & Hup).
  destruct (idle_ext s1 (returning pr n s1)) as [Hid2 Hl]; [reflexivity..|exact Hid1|].
  exists (returning pr n s1). split; [exact Hsys|]. split; [apply calling_returning, Hc1|]. split; [apply returned|].
  split; [exact Hid2|]. split; [|split; [|exact Eft]].
  - destruct (of_slot _ _ _ _ _ _ (fm_file _ _ _ _ _ _ Hroom)) as (ip & Hi & (Hp & _ & Hin)).
    destruct (id_coherent _ Hid i ip Hi Hp) as (_ & Hal & _). rewrite Hin in Hal.
    rewrite <- Esb in Hup, Hal |- *. apply (same_updated s1 (lblk s1)); [apply (id_fs _ Hid1)|intros b _; apply Hl| |exact Hup].
    now apply (up_allocated _ _ _ _ _ _ _ Hup).
  - intros b. apply idle_disk, Hid2.
Qed.

(** ** Example: a process with an open file *)

Definition demo_writer : proc :=
  set_p_ofile (replicate 3 None ++ Some 0%nat :: replicate 12 None) (set_p_state RUNNING demo_proc).

(** The memory and the process of a call, on top of a file system. *)
Definition on_file_system (m s : kstate) : kstate :=
  set_ks_mem (ks_mem m) (set_ks_current (Some 0%nat) (set_ks_proc (demo_writer :: replicate 63 zero_proc) s)).

Lemma on_fs_calling `{Symbols} m s l : calling m 0 demo_proc l -> calling (on_file_system m s) 0 demo_writer l.
Proof.
  intros [_ _ Hsp Hf Ha]. assert (ks_mem (on_file_system m s) = ks_mem m) as Em by reflexivity.
  split; [reflexivity|reflexivity| |exact Hf|].
  - apply (space_same m _ (p_pagetable demo_proc) l (fun _ => False) Hsp); [|intros k []].
    intros k _. unfold byte. now rewrite Em.
  - intros k Hk. destruct (Ha k Hk) as [H1 H2]. change (p_pagetable demo_writer) with (p_pagetable demo_proc). split.
    + intros (q & b & Hq & Hb & Hin). apply H1. exists q, b. rewrite (table_mem m) in Hb by exact Em. auto.
    + intros va. rewrite (user_at_mem m) by exact Em. apply H2.
Qed.

Lemma on_fs_asks m s num a0 a1 a2 : asks m demo_proc num a0 a1 a2 -> asks (on_file_system m s) demo_writer num a0 a1 a2.
Proof. intros H. exact H. Qed.

Lemma on_fs_idle m s : length (ks_proc s) = 64%nat -> fs_idle s ->
  fs_idle (on_file_system m s) /\ forall k, lblk (on_file_system m s) k = lblk s k.
Proof. intros Hp. apply idle_ext; [reflexivity..|]. now rewrite Hp. Qed.

(** The room that a small write needs. *)
Lemma small_room s f fv i inum src n s' :
  can_write s f fv i inum src n -> n <= 512 -> 100 <= free_count (lblk s) s ->
  (forall k, lblk s' k = lblk s k) -> fs_ok (lblk s) s -> allocated (lblk s) (ks_sb s) inum ->
  ks_sb s' = ks_sb s -> ks_icache s' = ks_icache s -> ks_ftable s' = ks_ftable s -> ks_log s' = ks_log s ->
  file_room s' f fv i inum n.
Proof.
  intros [[O1 O2 O3 O4 O5] H2 H3 H4 H5 H6 [H7 _] _] Hn Hfree Hl Hfs Ha Es Ei Ef El.
  assert (same_data s (lblk s) (lblk s')) as Hsame by (intros k _; apply Hl).
  destruct (same_file s (lblk s) (lblk s') Hfs Hsame inum Ha) as [Ed _]. split; try assumption.
  - split; rewrite ?Ef, ?Ei, ?Es, ?Ed; assumption.
  - rewrite Es, Ed. exact H3.
  - now rewrite El.
  - enough (free_count (lblk s') s' = free_count (lblk s) s) as -> by mlia.
    transitivity (free_count (lblk s') s); [unfold free_count, free_blocks; now rewrite Es|].
    apply count_marks; [apply (fs_disk _ _ Hfs)|]. intros c. now apply (same_marked s (lblk s)).
Qed.

Lemma write_saves_witness :
  exists s s', @calling demo_symbols s 0 demo_writer (drop 4 (rev (@all_pages demo_symbols))) /\ fs_idle s /\
    @syscall demo_symbols 1 s = Ok tt s' /\ areg s' demo_writer 0 = 5 /\ fs_idle s'.
Proof.
  destruct idle_can_write as (s0 & Hid0 & Hcw & Hfree). set (m := demo_call 16 3 0 5). set (s := on_file_system m s0).
  assert (@calling demo_symbols s 0 demo_writer (drop 4 (rev (@all_pages demo_symbols)))) as Hc
    by exact (@on_fs_calling demo_symbols m s0 _ (demo_calling 16 3 0 5)).
  destruct (on_fs_idle m s0 (li_procs _ (id_log _ Hid0)) Hid0) as [Hid Hl].
  destruct (of_slot _ _ _ _ _ _ (cw_file _ _ _ _ _ _ _ Hcw)) as (ip & Hi & (Hp & _ & Hin)).
  destruct (id_coherent _ Hid0 0%nat ip Hi Hp) as (_ & Hal & _). rewrite Hin in Hal.
  exists s. destruct (@write_saves demo_symbols 0 s 0 demo_writer _ 3 0 5 0 (mkFile FD_INODE 1 1 1 (Some 0%nat) 0 0) 0 2 demo_mem_start Hc)
    as (s' & Hrun & _ & Hr & Hid' & _).
  - apply on_fs_asks. repeat split; vm_compute; reflexivity.
  - reflexivity.
  - split; [discriminate|reflexivity].
  - reflexivity.
  - exact Hid.
  - apply (small_room s0 _ _ _ _ _ _ _ Hcw ltac:(discriminate) Hfree Hl (id_fs _ Hid0) Hal); reflexivity.
  - discriminate.
  - split; [discriminate|reflexivity].
  - discriminate.
  - apply (user_mapped_mem m); [reflexivity|]. apply (bool_decide_unpack _). vm_compute. exact Logic.I.
  - exists s'. split; [exact Hc|]. split; [exact Hid|]. split; [exact Hrun|]. split; [exact Hr|exact Hid'].
Defined.
