(* ===== verification/Closing.v ===== *)
(** * Closing an unlinked file

    [unlink] leaves an inode that is open in the cache, with no links, for the last
    [close] to free.  But [sys_close] of kernel/sysfile.c starts no operation of the
    log, and freeing the inode writes it. *)
From S2P Require Import Prelude State Mem Pmm Printf Vm UserMem Bio Blocks Sched Proc Log Txn Update Fs Layout Inodes Icache Paths.
From S2P Require Import Mkfs Tree Alloc Slots Writing Store Namei File Durable Mount Sysfile Calls Saving.

(** ** Panics *)

Definition panics {A} (msg : list Z) (m : K A) (s : kstate) : Prop := exists s', m s = Panic msg s'.

Lemma panics_here {A B} msg (m : K A) (f : A -> K B) s : panics msg m s -> panics msg (bind m f) s.
Proof. intros [s' H]. exists s'. unfold bind. now rewrite H. Qed.

Lemma panics_after {A B} msg (m : K A) (f : A -> K B) s a s1 :
  m s = Ok a s1 -> panics msg (f a) s1 -> panics msg (bind m f) s.
Proof. intros Hm [s' H]. exists s'. now rewrite (bind_Ok _ _ _ _ _ Hm). Qed.

(** Logging a block while no operation runs. *)
Lemma log_write_outside b s :
  log_lock (ks_log s) = 0 -> log_outstanding (ks_log s) = 0 -> lh_n (ks_log s) < log_size (ks_log s) - 1 ->
  panics (str "log: outside of trans") (log_write b) s.
Proof.
  intros Hlock Hout Hn. destruct (log_write_panics s b Hlock) as (msg & s' & Hp & ->); [right; lia|].
  exists s'. now rewrite Hp, (proj2 (Z.leb_gt _ _)).
Qed.

(** [iupdate] of an inode whose block can be read. *)
Lemma iupdate_outside i ip s :
  log_inv s -> log_outstanding (ks_log s) = 0 -> (forall k, ~ dirty s k) -> 2 <= log_size (ks_log s) ->
  ks_icache s !! i = Some ip -> ip_dev ip = 0 -> loggable s (IBLOCK (ip_inum ip) (ks_sb s)) ->
  panics (str "log: outside of trans") (iupdate i) s.
Proof.
  intros Hinv Hout Hcl Hsz Hi Hdev (Hr & Hd & _). set (b := IBLOCK _ _) in *.
  assert (lh_n (ks_log s) = 0) as Hn.
  { pose proof (li_txn _ Hinv) as Htx. destruct (txn_bounds _ _ (li_geo _ Hinv) _ Htx) as (Hn & _).
    destruct (decide (lh_n (ks_log s) = 0)) as [|Hne]; [assumption|exfalso].
    destruct (lookup_home _ Hn 0) as [_ H0]; [lia|].
    apply (Hcl (home (ks_log s) 0)), (tx_dirty _ _ Htx), elem_of_logged; [exact Hn|]. exists 0. split; [lia|reflexivity]. }
  unfold iupdate. eapply panics_after; [exact (getinode_run _ _ _ Hi)|].
  eapply panics_after; [reflexivity|]. cbn beta. rewrite Hdev. fold b.
  assert (wp (bread 0 b) (fun bp s1 => bio_view [(b, bp)] (lblk s) (dirty s) s s1) s) as Hread.
  { apply view_bread; [exact (self_view s (li_cache _ Hinv))|exact Hr|exact Hd|cbn; lia|].
    left. exists []. split; [cbn; unfold NBUF; lia|]. intros k [Hk|Hk]; [exact Hk|now destruct (Hcl k)]. }
  destruct (proj1 (wp_Ok _ _ _) Hread) as (bp & s1 & Hrun1 & Hv1). eapply panics_after; [exact Hrun1|].
  assert (wp (mod_bdata bp (put_dinode (dinode_off (ip_inum ip)) (ip_d ip))) (fun _ s2 => ks_log s2 = ks_log s) s1) as Hmod.
  { unfold mod_bdata. wcall (view_bdata _ _ _ _ _ b bp Hv1) as d s1' (-> & _ & Hl); [apply list_elem_of_here|].
    wcall (view_set_bdata _ _ _ _ _ b bp _ Hv1) as [] s2 Hv2; [apply list_elem_of_here| |].
    - rewrite put_dinode_length; [exact Hl|]. rewrite Hl. apply dinode_off_fits.
    - destruct (view_rest _ _ _ _ _ Hv2) as [bc ->]. reflexivity. }
  destruct (proj1 (wp_Ok _ _ _) Hmod) as ([] & s2 & Hrun2 & El). eapply panics_after; [exact Hrun2|].
  apply panics_here, log_write_outside; rewrite El; [apply (li_lock _ Hinv)|exact Hout|lia].
Qed.

(** ** The last close *)

(** File [f] is the last reference to an inode that no directory names any more. *)
Record unlinked_open (s : kstate) (f i : nat) (ip : inode) : Prop := {
  uo_file : exists fv, ks_ftable s !! f = Some fv /\ f_ref fv = 1 /\ f_type fv = FD_INODE /\ f_ip fv = Some i;
  uo_inode : ks_icache s !! i = Some ip;
  uo_ref : ip_ref ip = 1 /\ ip_valid ip <> 0 /\ di_nlink (ip_d ip) = 0;
  uo_block : ip_dev ip = 0 /\ loggable s (IBLOCK (ip_inum ip) (ks_sb s)) }.

(** No operation of the log runs, and nothing waits to be written. *)
Record settled (s : kstate) : Prop := {
  st_log : log_inv s;
  st_out : log_outstanding (ks_log s) = 0;
  st_clean : forall k, ~ dirty s k;
  st_size : 2 <= log_size (ks_log s) }.

Lemma settled_ext s s' :
  ks_bcache s' = ks_bcache s -> ks_disk s' = ks_disk s -> ks_log s' = ks_log s ->
  length (ks_proc s') = length (ks_proc s) -> settled s -> settled s'.
Proof.
  intros Eb Ed El Ep [H1 H2 H3 H4]. destruct (log_inv_ext s s' Eb Ed El Ep H1) as (Hinv & _ & Hd).
  split; [exact Hinv|now rewrite El|intros k; rewrite Hd; apply H3|now rewrite El].
Qed.

Lemma iput_unlinked s i ip :
  settled s -> ks_icache s !! i = Some ip -> ip_ref ip = 1 -> ip_valid ip <> 0 -> di_nlink (ip_d ip) = 0 ->
  ip_dev ip = 0 -> loggable s (IBLOCK (ip_inum ip) (ks_sb s)) ->
  panics (str "log: outside of trans") (iput (Some i)) s.
Proof.
  intros Hst Hi Hr Hv Hn Hdev Hlog. unfold iput. eapply panics_after; [reflexivity|]. cbn beta.
  eapply panics_after; [exact (getinode_run _ _ _ Hi)|]. rewrite Hr, Hn, (proj2 (Z.eqb_neq _ _) Hv). cbn [Z.eqb negb andb Pos.eqb when].
  apply panics_here. eapply panics_after; [exact (modinode_run _ _ _ _ Hi)|]. apply panics_here.
  set (s1 := set_ks_icache _ s).
  destruct (settled_ext s s1 eq_refl eq_refl eq_refl eq_refl Hst) as [H1 H2 H3 H4].
  apply (iupdate_outside i (upd_ip_d (set_di_type 0) ip)); try assumption.
  unfold s1. fields. apply list_lookup_insert_eq, (lookup_lt_Some _ _ _ Hi).
Qed.

Lemma fileclose_unlinked s f i ip :
  settled s -> unlinked_open s f i ip -> panics (str "log: outside of trans") (fileclose f) s.
Proof.
  intros Hst [(fv & Hf & Hr & Ht & Hip) Hi (Hir & Hiv & Hin) [Hdev Hlog]]. unfold fileclose.
  eapply panics_after; [exact (getfile_run _ _ _ Hf)|]. rewrite Hr. eapply panics_after; [reflexivity|]. cbn beta.
  eapply panics_after; [exact (modfile_run _ _ _ _ Hf)|]. unfold upd_f_ref. rewrite Hr. change (i32 (1 - 1)) with 0.
  set (s1 := set_ks_ftable _ s). assert (ks_ftable s1 !! f = Some (set_f_ref 0 fv)) as Hf1.
  { unfold s1. fields. apply list_lookup_insert_eq, (lookup_lt_Some _ _ _ Hf). }
  eapply panics_after; [exact (getfile_run _ _ _ Hf1)|]. fields. rewrite Ht, Hip. cbn [Z.ltb Z.compare Z.eqb when FD_INODE Pos.eqb].
  apply panics_here, (iput_unlinked s1 i ip); try assumption.
  apply (settled_ext s); [reflexivity..|exact Hst].
Qed.

(** ** Theorem *)

(** C31: error.  Closing the last descriptor of a file that has been unlinked panics the
    kernel: the inode has no links any more, so [iput] frees it on the disk, and
    [log_write] finds that [sys_close] has not begun an operation. *)
Theorem close_unlinked_panics `{Symbols} fuel s p pr l fd a1 a2 f i ip :
  calling s p pr l -> asks s pr 21 fd a1 a2 -> 0 <= fd < NOFILE -> length (p_ofile pr) = Z.to_nat NOFILE ->
  lget fd (p_ofile pr) = Some (Some f) -> settled s -> unlinked_open s f i ip ->
  exists s', syscall fuel s = Panic (str "log: outside of trans") s'.
Proof.
  intros Hc (H7 & H0 & _ & _) Hfd Hlen Hf Hst Huo. pose proof (cl_proc _ _ _ _ Hc) as Hp. unfold syscall.
  eapply panics_after; [exact (curproc_run _ _ (cl_current _ _ _ _ Hc))|].
  eapply panics_after; [exact (getproc_run _ _ _ Hp)|].
  eapply panics_after; [exact (load_reg s p pr l TF_a7 Hc ltac:(unfold TF_a7; lia) ltac:(unfold TF_a7, PGSIZE; lia))|].
  cbv zeta. rewrite H7. change (syscalls fuel 21) with (Some sys_close). cbn [Z.ltb Z.compare andb NSYSCALLS Pos.compare Pos.compare_cont].
  apply panics_here. unfold sys_close.
  eapply panics_after; [exact (curproc_run _ _ (cl_current _ _ _ _ Hc))|].
  eapply panics_after; [exact (argint_run s p pr l 0 Hc ltac:(lia))|]. rewrite H0.
  replace ((fd <? 0) || (NOFILE <=? fd)) with false by (symmetry; apply orb_false_iff; lia).
  eapply panics_after.
  { unfold getofile. rewrite (bind_Ok _ _ _ _ _ (getproc_run _ _ _ Hp)), Hf. reflexivity. }
  cbn beta iota. eapply panics_after.
  { unfold setofile, lset. rewrite (bind_Ok _ _ _ _ _ (getproc_run _ _ _ Hp)).
    rewrite decide_True by (rewrite Hlen; unfold NOFILE in *; lia). unfold bind at 1. cbn [obind of_opt ret].
    exact (modproc_run s p _ pr Hp). }
  apply panics_here. eapply fileclose_unlinked; [eapply settled_ext; [..|exact Hst]; try reflexivity|].
  - fields. apply length_alter.
  - destruct Huo as [U1 U2 U3 U4]. split; [exact U1|exact U2|exact U3|exact U4].
Qed.

(** ** Examples *)

(** The inode of the open file, without its link. *)
Definition without_link (s : kstate) : kstate :=
  set_ks_icache [mkInode 0 2 1 1 (set_di_nlink 0 file_inode)] s.

Lemma without_link_open m s fv :
  fs_idle s -> can_write s 0 fv 0 2 (str "hello") 5 -> f_ref fv = 1 ->
  settled (without_link (on_file_system m s)) /\
  unlinked_open (without_link (on_file_system m s)) 0 0 (mkInode 0 2 1 1 (set_di_nlink 0 file_inode)).
Proof.
  intros Hid Hcw Hr. pose proof (cw_file _ _ _ _ _ _ _ Hcw) as [Hf Ht Hip (ip & Hi & (Hp & _ & Hin)) _].
  destruct (id_coherent _ Hid 0%nat ip Hi Hp) as (_ & [Hnum _] & _). rewrite Hin in Hnum. split.
  - apply (settled_ext s); [reflexivity..| |].
    + symmetry. exact (li_procs _ (id_log _ Hid)).
    + split; [exact (id_log _ Hid)|exact (id_out _ Hid)|exact (id_clean _ Hid)|].
      pose proof (proj1 (cw_log _ _ _ _ _ _ _ Hcw)). lia.
  - split; [exists fv; split; [exact Hf|split; [exact Hr|split; [exact Ht|exact Hip]]]|reflexivity| |].
    + split; [reflexivity|split; [discriminate|reflexivity]].
    + split; [reflexivity|]. apply (loggable_ext s); [auto|reflexivity|reflexivity|].
      exact (ig_log _ (fs_inodes _ _ (id_fs _ Hid)) 2 Hnum).
Qed.

Lemma without_link_calling `{Symbols} m s l :
  calling m 0 demo_proc l -> calling (without_link (on_file_system m s)) 0 demo_writer l.
Proof. intros Hc. apply (calling_saved (on_file_system m s)); [now apply on_fs_calling|reflexivity..]. Qed.

Lemma without_link_asks m s num a0 a1 a2 :
  asks m demo_proc num a0 a1 a2 -> asks (without_link (on_file_system m s)) demo_writer num a0 a1 a2.
Proof. intros H. exact H. Qed.

Lemma close_unlinked_panics_witness :
  exists s s', settled s /\ unlinked_open s 0 0 (mkInode 0 2 1 1 (set_di_nlink 0 file_inode)) /\
    @syscall demo_symbols 0 s = Panic (str "log: outside of trans") s'.
Proof.
  destruct idle_can_write as (s0 & Hid & Hcw & _).
  destruct (without_link_open (demo_call 21 3 0 0) s0 _ Hid Hcw eq_refl) as [Hst Huo].
  pose proof (@without_link_calling demo_symbols _ s0 _ (demo_calling 21 3 0 0)) as Hc.
  assert (asks (without_link (on_file_system (demo_call 21 3 0 0) s0)) demo_writer 21 3 0 0) as Ha
    by (apply without_link_asks; repeat split; vm_compute; reflexivity).
  set (s := without_link _) in *.
  destruct (@close_unlinked_panics demo_symbols 0 s 0 demo_writer _ 3 0 0 0 0 (mkInode 0 2 1 1 (set_di_nlink 0 file_inode)) Hc Ha) as (s' & Hrun).
  - split; [discriminate|reflexivity].
  - reflexivity.
  - reflexivity.
  - exact Hst.
  - exact Huo.
  - exists s, s'. split; [exact Hst|]. split; [exact Huo|exact Hrun].
Defined.

(** The same from the start: the kernel mounts the disk of mkfs, and the process
    opens a new file, writes to it, unlinks it and closes it. *)
Definition demo_machine : kstate :=
  set_ks_mem (ks_mem demo_user) (set_ks_current (Some 0%nat)
    (set_ks_proc (set_p_ofile (replicate 16 None) (set_p_state RUNNING demo_proc) :: replicate 63 zero_proc)
      (disk_state mkfs_image))).

(** A system call, and its result. *)
Definition call (num a0 a1 a2 : Z) : K Z :=
  _ <- modify (upd_ks_mem (put_bytes demo_tf (frame_bytes num a0 a1 a2)));;
  _ <- @syscall demo_symbols 1;;
  gets (fun s => areg s demo_proc 0).

Definition unlinked_session : K (list Z) :=
  _ <- binit;; _ <- fsinit 0;; _ <- fileinit;;
  _ <- modify (upd_ks_mem (put_bytes demo_page [97; 0]));;
  fd <- call 15 0 (O_CREATE + O_RDWR) 0;;
  n <- call 16 fd 0 1;;
  r <- call 18 0 0 0;;
  ret [fd; n; r].

Definition outcome {A} (m : K A) (s : kstate) : option (A + list Z) :=
  match m s with Ok a _ => Some (inl a) | Panic msg _ => Some (inr msg) | _ => None end.

Example unlinked_runs : outcome unlinked_session demo_machine = Some (inl [3; 1; 0]).
Proof. vm_compute. reflexivity. Qed.

Example unlinked_close : outcome (_ <- unlinked_session;; call 21 3 0 0) demo_machine = Some (inr (str "log: outside of trans")).
Proof. vm_compute. reflexivity. Qed.
