(* ===== verification/Trap.v ===== *)
(** * Traps: kernel/trap.c and kernel/exception.c

    The handlers of traps from the kernel and from user mode, and the return to
    user mode, which ends in a jump into the trampoline page. *)
From S2P Require Import Prelude State Mem Pmm Printf Vm UserMem Sched Proc Sysfile.

(** ** Model *)

Definition r_csr (f : csrs -> Z) : K Z := gets (fun s => f (ks_csr s)).
Definition w_stvec (x : Z) : K unit := modify (upd_ks_csr (set_csr_stvec x)).
Definition w_sepc (x : Z) : K unit := modify (upd_ks_csr (set_csr_sepc x)).
Definition w_sstatus (x : Z) : K unit := modify (upd_ks_csr (set_csr_sstatus x)).

Section model.
Context `{Symbols}.

Definition trap_init : K unit := w_stvec sym_kernelvec.

(** [(scause & 0x8000000000000000L) && (scause & 0xff) == 5]. *)
Definition is_timer (scause : Z) : bool :=
  negb (Z.land scause 0x8000000000000000 =? 0) && (Z.land scause 0xff =? 5).

Definition kerneltrap : K unit :=
  sepc <- r_csr csr_sepc;;
  sstatus <- r_csr csr_sstatus;;
  scause <- r_csr csr_scause;;
  _ <- (if is_timer scause then ret tt
        else
          stval <- r_csr csr_stval;;
          _ <- printf (str "kerneltrap: scause %p sepc %p stval %p" ++ [10]) [AInt scause; AInt sepc; AInt stval];;
          panic (str "kerneltrap"));;
  _ <- w_sepc sepc;;
  w_sstatus sstatus.

(** The jump that ends [usertrapret]: the address and the two arguments. *)
Record user_jump := mkJump { uj_fn : Z; uj_trapframe : Z; uj_satp : Z }.

Definition usertrapret : K user_jump :=
  p <- curproc;;
  _ <- intr_off;;
  _ <- w_stvec (u64 (TRAMPOLINE + (sym_uservec - sym_trampoline)));;
  pr <- getproc p;;
  satp <- r_csr csr_satp;;
  _ <- store64 (p_trapframe pr + TF_kernel_satp) satp;;
  _ <- store64 (p_trapframe pr + TF_kernel_sp) (u64 (p_kstack pr + PGSIZE));;
  _ <- store64 (p_trapframe pr + TF_kernel_trap) sym_usertrap;;
  _ <- store64 (p_trapframe pr + TF_kernel_hartid) 0;;
  x <- r_csr csr_sstatus;;
  let x := Z.land x (u64 (- 2 ^ 8)) in
  let x := Z.lor x (2 ^ 5) in
  _ <- w_sstatus x;;
  epc <- load64 (p_trapframe pr + TF_epc);;
  _ <- w_sepc epc;;
  let satp := Z.lor (Z.shiftl 8 60) (Z.shiftr (p_pagetable pr) 12) in
  let fn := u64 (TRAMPOLINE + (sym_userret - sym_trampoline)) in
  ret (mkJump fn TRAPFRAME satp).

(** The part of [usertrap] before the last check of [killed]. *)
Definition usertrap_cause (fuel : nat) (p : nat) : K unit :=
  pr <- getproc p;;
  scause <- r_csr csr_scause;;
  if scause =? 8 then
    _ <- when (negb (p_killed pr =? 0)) (exit_process (-1));;
    epc <- load64 (p_trapframe pr + TF_epc);;
    _ <- store64 (p_trapframe pr + TF_epc) (u64 (epc + 4));;
    _ <- intr_on;;
    syscall fuel
  else if is_timer scause then yield
  else
    _ <- printf (str "usertrap(): unexpected scause %p pid=%d" ++ [10]) [AInt scause; AInt (p_pid pr)];;
    sepc <- r_csr csr_sepc;;
    stval <- r_csr csr_stval;;
    _ <- printf (str "            sepc=%p stval=%p" ++ [10]) [AInt sepc; AInt stval];;
    modproc p (set_p_killed 1).

Definition usertrap (fuel : nat) : K user_jump :=
  o <- myproc;;
  sstatus <- r_csr csr_sstatus;;
  _ <- when (negb (Z.land sstatus 0x100 =? 0)) (panic (str "usertrap: not from user mode"));;
  _ <- w_stvec sym_kernelvec;;
  p <- of_opt o;;
  pr <- getproc p;;
  sepc <- r_csr csr_sepc;;
  _ <- store64 (p_trapframe pr + TF_epc) sepc;;
  _ <- usertrap_cause fuel p;;
  pr <- getproc p;;
  _ <- when (negb (p_killed pr =? 0)) (exit_process (-1));;
  usertrapret.

(** kernel/exception.c; nothing calls it. *)
Definition handle_exception : K unit :=
  scause <- r_csr csr_scause;;
  sepc <- r_csr csr_sepc;;
  stval <- r_csr csr_stval;;
  _ <- printf (str "[exception] scause=0x%x, sepc=0x%x, stval=0x%x" ++ [10]) [AInt scause; AInt sepc; AInt stval];;
  _ <- match scause with
       | 8 => printf (str "[exception] Environment call from U-mode at sepc=0x%x" ++ [10]) [AInt sepc]
       | 9 => printf (str "[exception] Environment call from S-mode at sepc=0x%x" ++ [10]) [AInt sepc]
       | 12 => printf (str "[exception] Instruction page fault at va=0x%x" ++ [10]) [AInt stval]
       | 13 => printf (str "[exception] Load page fault at va=0x%x" ++ [10]) [AInt stval]
       | 15 => printf (str "[exception] Store/AMO page fault at va=0x%x" ++ [10]) [AInt stval]
       | _ => printf (str "[exception] Unknown exception scause=0x%x at sepc=0x%x" ++ [10]) [AInt scause; AInt sepc]
       end;;
  hang.
End model.

(** ** Lemmas *)

(** The bits of the mask [-(1 << 8)]: all but the low eight. *)
Lemma mask_bit n : 0 <= n < 64 -> Z.testbit (u64 (- 2 ^ 8)) n = (8 <=? n).
Proof.
  intros Hn. change (u64 (- 2 ^ 8)) with (Z.shiftl (Z.ones 56) 8).
  rewrite Z.shiftl_spec by lia. destruct (Z.leb_spec 8 n).
  - rewrite Z.ones_spec_low by lia. reflexivity.
  - rewrite Z.testbit_neg_r by lia. reflexivity.
Qed.

(** What [usertrapret] makes of [sstatus]. *)
Definition user_sstatus (x : Z) : Z := Z.lor (Z.land (Z.ldiff x 2) (u64 (- 2 ^ 8))) (2 ^ 5).

Lemma user_sstatus_bit x n :
  0 <= n < 64 -> Z.testbit (user_sstatus x) n = (n =? 5) || ((8 <=? n) && Z.testbit x n).
Proof.
  intros Hn. unfold user_sstatus. rewrite Z.lor_spec, Z.land_spec, mask_bit, Z.ldiff_spec by lia.
  change 2 with (2 ^ 1) at 1. rewrite !Z.pow2_bits_eqb by lia. rewrite (Z.eqb_sym 5 n), (Z.eqb_sym 1 n).
  rewrite orb_comm. f_equal. destruct (Z.leb_spec 8 n); [|now rewrite andb_false_r].
  rewrite (proj2 (Z.eqb_neq n 1)) by lia. cbn. now rewrite !andb_true_r.
Qed.

(** What [usertrapret] writes to the trap frame at [tf]. *)
Definition put_word (a v : Z) (s : kstate) : kstate := upd_ks_mem (put_bytes a (le_bytes 8 v)) s.
Definition return_frame (tf satp sp trap : Z) (s : kstate) : kstate :=
  put_word (tf + TF_kernel_hartid) 0 (put_word (tf + TF_kernel_trap) trap
    (put_word (tf + TF_kernel_sp) sp (put_word (tf + TF_kernel_satp) satp s))).

Lemma return_frame_words tf satp sp trap s :
  0 <= satp < 2 ^ 64 -> 0 <= sp < 2 ^ 64 -> 0 <= trap < 2 ^ 64 ->
  let s' := return_frame tf satp sp trap s in
  word s' (tf + TF_kernel_satp) = satp /\ word s' (tf + TF_kernel_sp) = sp /\
  word s' (tf + TF_kernel_trap) = trap /\ word s' (tf + TF_kernel_hartid) = 0 /\
  same_bytes (fun a => tf <= a < tf + 24 \/ tf + 32 <= a < tf + 40) s s' /\ word s' (tf + TF_epc) = word s (tf + TF_epc).
Proof.
  intros H1 H2 H3 s'. unfold s', return_frame, TF_kernel_satp, TF_kernel_sp, TF_kernel_trap, TF_kernel_hartid, TF_epc.
  assert (forall o v s, 0 <= v < 2 ^ 64 -> word (put_word (tf + o) v s) (tf + o) = v) as Heq by (intros; now apply word_put).
  assert (forall o v s o', (o' + 8 <= o \/ o + 8 <= o') -> word (put_word (tf + o) v s) (tf + o') = word s (tf + o')) as Hne
    by (intros; apply word_put_ne; lia).
  split; [now rewrite !Hne, Heq by lia|]. split; [now rewrite !Hne, Heq by lia|].
  split; [now rewrite Hne, Heq by lia|]. split; [now rewrite Heq by lia|]. split; [|now rewrite !Hne by lia].
  intros a Ha. unfold put_word. rewrite !byte_put, !length_le_bytes, !decide_False by lia. reflexivity.
Qed.

Lemma usertrapret_run `{Symbols} s i p :
  0 < mem_start -> ks_current s = Some i -> ks_proc s !! i = Some p -> is_page (p_trapframe p) ->
  let s' := return_frame (p_trapframe p) (csr_satp (ks_csr s)) (u64 (p_kstack p + PGSIZE)) sym_usertrap s in
  usertrapret s =
    Ok (mkJump (u64 (TRAMPOLINE + (sym_userret - sym_trampoline))) TRAPFRAME
          (Z.lor (Z.shiftl 8 60) (Z.shiftr (p_pagetable p) 12)))
       (upd_ks_csr (fun c => set_csr_sepc (word s' (p_trapframe p + TF_epc))
          (set_csr_sstatus (user_sstatus (csr_sstatus c)) (set_csr_stvec (u64 (TRAMPOLINE + (sym_uservec - sym_trampoline))) c))) s').
Proof.
  intros Hpos Hcur Hp Htf s'. set (tf := p_trapframe p) in *.
  assert (forall o, 0 <= o <= 32 -> in_ram (tf + o) 8 = true) as Hram.
  { intros o Ho. apply (is_page_ram tf); [exact Htf|lia|unfold PGSIZE; lia]. }
  assert (curproc s = Ok i s) as Hcp by (unfold curproc, myproc, gets, bind; cbn [obind]; now rewrite Hcur).
  assert (forall o v s, 0 <= o <= 32 -> store64 (tf + o) v s = Ok tt (put_word (tf + o) v s)) as Hput
    by (intros; apply store64_run; auto).
  unfold usertrapret. rewrite (bind_Ok _ _ _ _ _ Hcp).
  unfold bind at 1. unfold intr_off at 1. unfold modify at 1. cbn [obind].
  unfold bind at 1. unfold w_stvec at 1. unfold modify at 1. cbn [obind].
  set (s0 := upd_ks_csr _ (upd_ks_csr _ s)). rewrite (bind_Ok _ _ _ _ _ (getproc_run s0 i p Hp)).
  unfold bind at 1. unfold r_csr at 1. unfold gets at 1. cbn [obind]. fold tf.
  change (csr_satp (ks_csr s0)) with (csr_satp (ks_csr s)).
  rewrite (bind_Ok _ _ _ _ _ (Hput TF_kernel_satp _ s0 ltac:(easy))).
  rewrite (bind_Ok _ _ _ _ _ (Hput TF_kernel_sp _ _ ltac:(easy))).
  rewrite (bind_Ok _ _ _ _ _ (Hput TF_kernel_trap _ _ ltac:(easy))).
  rewrite (bind_Ok _ _ _ _ _ (Hput TF_kernel_hartid _ _ ltac:(easy))).
  unfold bind at 1. unfold r_csr at 1. unfold gets at 1. cbn [obind].
  unfold bind at 1. unfold w_sstatus at 1. unfold modify at 1. cbn [obind].
  rewrite (bind_Ok _ _ _ _ _ (load64_run (tf + TF_epc) _ (Hram 24 ltac:(lia)))). reflexivity.
Qed.

(** ** Theorem *)

(** C28: [usertrapret] prepares the return to user mode: the trap frame gets what
    the trampoline needs to come back to [usertrap] on the process's kernel stack,
    [sepc] the saved program counter, and the jump goes to [userret] with the
    process's page table; no other memory changes.  Of [sstatus] it sets SPIE and
    clears the other bits below 8, but it leaves bit 8 (SPP), which it means to
    clear, as it was: [-(1 << 8)] is not the complement of [1 << 8]. *)
Theorem usertrapret_prepares `{Symbols} s i p :
  0 < mem_start -> ks_current s = Some i -> ks_proc s !! i = Some p -> is_page (p_trapframe p) ->
  0 <= csr_satp (ks_csr s) < 2 ^ 64 -> 0 <= sym_usertrap < 2 ^ 64 ->
  let tf := p_trapframe p in
  exists s',
    usertrapret s =
      Ok (mkJump (u64 (TRAMPOLINE + (sym_userret - sym_trampoline))) TRAPFRAME
            (Z.lor (Z.shiftl 8 60) (Z.shiftr (p_pagetable p) 12))) s' /\
    word s' (tf + TF_kernel_satp) = csr_satp (ks_csr s) /\
    word s' (tf + TF_kernel_sp) = u64 (p_kstack p + PGSIZE) /\
    word s' (tf + TF_kernel_trap) = sym_usertrap /\
    word s' (tf + TF_kernel_hartid) = 0 /\
    same_bytes (fun a => tf <= a < tf + 24 \/ tf + 32 <= a < tf + 40) s s' /\
    csr_stvec (ks_csr s') = u64 (TRAMPOLINE + (sym_uservec - sym_trampoline)) /\
    csr_sepc (ks_csr s') = word s (tf + TF_epc) /\
    (forall n, 0 <= n < 64 -> Z.testbit (csr_sstatus (ks_csr s')) n =
       (n =? 5) || ((8 <=? n) && Z.testbit (csr_sstatus (ks_csr s)) n)) /\
    Z.testbit (csr_sstatus (ks_csr s')) 8 = Z.testbit (csr_sstatus (ks_csr s)) 8.
Proof.
  intros Hpos Hcur Hp Htf Hsatp Htrap tf. set (sp := u64 (p_kstack p + PGSIZE)).
  set (s4 := return_frame tf (csr_satp (ks_csr s)) sp sym_usertrap s).
  destruct (return_frame_words tf (csr_satp (ks_csr s)) sp sym_usertrap s Hsatp ltac:(apply u64_range) Htrap)
    as (H1 & H2 & H3 & H4 & H5 & H6). fold s4 in H1, H2, H3, H4, H5, H6.
  eexists. split; [exact (usertrapret_run s i p Hpos Hcur Hp Htf)|]. fold tf sp s4.
  assert (forall g o, word (upd_ks_csr g s4) (tf + o) = word s4 (tf + o)) as Hw by reflexivity. rewrite !Hw.
  split; [exact H1|]. split; [exact H2|]. split; [exact H3|]. split; [exact H4|]. split; [exact H5|].
  split; [reflexivity|]. split; [exact H6|].
  assert (forall n, 0 <= n < 64 -> Z.testbit (user_sstatus (csr_sstatus (ks_csr s))) n =
     (n =? 5) || ((8 <=? n) && Z.testbit (csr_sstatus (ks_csr s)) n)) as Hbit
    by (intros; now apply user_sstatus_bit).
  split; [exact Hbit|exact (Hbit 8 ltac:(lia))].
Qed.

(** A process whose trap frame is the last page but one; the last trap came from
    supervisor mode. *)
Definition demo_trap : kstate :=
  set_ks_csr (mkCsrs 0 0x122 0 0 0 (2 ^ 63) 0)
    (set_ks_current (Some 0%nat) (set_ks_proc [set_p_trapframe demo_page zero_proc] demo_state)).

Lemma usertrapret_prepares_witness :
  exists j s', @usertrapret demo_symbols demo_trap = Ok j s' /\
    Z.testbit (csr_sstatus (ks_csr s')) 8 = true /\ Z.testbit (csr_sstatus (ks_csr s')) 1 = false.
Proof.
  assert (@is_page demo_symbols demo_page) as Hpg by (split; [reflexivity|split; vm_compute; discriminate]).
  destruct (@usertrapret_prepares demo_symbols demo_trap 0 (set_p_trapframe demo_page zero_proc) demo_mem_start
    eq_refl eq_refl Hpg) as (s' & Hrun & _ & _ & _ & _ & _ & _ & _ & Hbits & H8).
  - split; [discriminate|reflexivity].
  - split; [discriminate|reflexivity].
  - eexists _, s'. split; [exact Hrun|]. split; [rewrite H8; reflexivity|].
    rewrite (Hbits 1 ltac:(split; [discriminate|reflexivity])). reflexivity.
Defined.
