(* ===== verification/Main.v ===== *)
(** * Starting the kernel: kernel/main.c

    [clear_bss] makes the globals those of [bss_state]; [kmain] initialises every
    component in turn and enters the scheduler. *)
From S2P Require Import Prelude State Mem Pmm Printf Klog Vm Kvm Sched Proc Bio Virtio Log Fs File Sysfile Trap.

Section model.
Context `{Symbols} (pages : Z) (dev_reg : vstate -> Z -> Z).

Definition LOG_line (msg : string) : V unit := lift (LOG_I (str msg ++ [10]) []).

(** [rounds] and [run]: see [scheduler]. *)
Definition kmain (rounds : nat) (run : nat -> K unit) : V unit :=
  _ <- lift (printf (str "=== Lab 7 & 8: File System + Kernel Log ===" ++ [10]) []);;
  _ <- lift log_init;;
  _ <- LOG_line "Initializing physical memory manager...";;
  _ <- lift pmm_init;;
  _ <- LOG_line "Setting up kernel page table...";;
  _ <- lift kvminit;;
  _ <- lift kvminithart;;
  _ <- LOG_line "Initializing trap handlers...";;
  _ <- lift trap_init;;
  _ <- LOG_line "Initializing process table...";;
  _ <- lift proc_init;;
  _ <- LOG_line "Initializing disk driver...";;
  _ <- virtio_disk_init pages dev_reg;;
  _ <- LOG_line "Initializing buffer cache...";;
  _ <- lift binit;;
  _ <- LOG_line "Mounting file system...";;
  _ <- lift (fsinit 0);;
  _ <- LOG_line "Initializing file table...";;
  _ <- lift fileinit;;
  _ <- LOG_line "Creating init process...";;
  _ <- lift user_init;;
  _ <- lift log_stats;;
  _ <- LOG_line "Starting scheduler...";;
  lift (scheduler rounds run).
End model.
