(* ===== verification/User.v ===== *)
(** * User programs: user/ulib.c and user/init.c

    A user program is an interaction tree over the system calls: it makes a call,
    and goes on with whatever the kernel answers.  The bytes a call reads from user
    memory are part of the call, and the bytes the kernel stores there are part of
    its answer.  A [char *] is the list of the bytes from there to the end of its
    object; a string literal ends with its NUL.  [User.v] holds the code,
    [Programs.v] what is proved about it. *)
From ITree Require Import Core.ITreeDefinition.
From S2P Require Import Prelude State Printf.

(** ** System calls (user/user.h, user/usys.S)

    [Undefined] is not a call: it is reached where C leaves the behaviour of the
    program undefined. *)
Variant sysE : Type -> Type :=
| SysFork : sysE Z
| SysExit (status : Z) : sysE Empty_set
| SysWait : sysE (Z * option Z)
| SysWrite (fd : Z) (src : list Z) : sysE Z
| SysRead (fd n : Z) : sysE (Z * list Z)
| SysOpen (path : list Z) (omode : Z) : sysE Z
| SysClose (fd : Z) : sysE Z
| SysUnlink (path : list Z) : sysE Z
| SysLogdump : sysE Z
| SysLogstat : sysE Z
| Undefined : sysE Empty_set.

Definition U (A : Type) : Type := itree sysE A.
Definition uret {A} (a : A) : U A := Ret a.
Definition call {A} (e : sysE A) : U A := ITree.trigger e.
Definition never {A} (x : Empty_set) : U A := match x with end.

Declare Scope user_scope.
Delimit Scope user_scope with user.
Notation "x <- m ;; k" := (ITree.bind m (fun x => k))
  (at level 100, m at next level, k at level 200, right associativity) : user_scope.
Notation "'let!' p ':=' m 'in' k" := (ITree.bind m (fun x => match x with p => k end))
  (at level 10, p pattern, m at level 200, k at level 200) : user_scope.
#[local] Open Scope user_scope.

Definition undefined {A} : U A := x <- call Undefined;; never x.
Definition defined {A} (o : option A) : U A :=
  match o with Some a => uret a | None => undefined end.

(** Signed arithmetic: a result that does not fit in [w] bits is undefined. *)
Definition signed (w n : Z) : U Z := if decide (- 2 ^ (w - 1) <= n < 2 ^ (w - 1)) then uret n else undefined.

(** What the local variables hold that a function does not initialise. *)
Class Garbage := {
  garbage : nat -> list Z;
  length_garbage n : length (garbage n) = n;
  garbage_int : Z }.

(** Literals: the bytes and the NUL, also with a newline before the NUL. *)
Definition lit (s : string) : list Z := str s ++ [0].
Definition ln (s : string) : list Z := str s ++ [10; 0].

(** [for(int i in l) body]: the body goes on with [inl], returns from the function
    with [inr]. *)
Fixpoint for_in {A R} (l : list Z) (body : Z -> A -> U (A + R)) (a : A) : U (A + R) :=
  match l with
  | [] => uret (inl a)
  | i :: l' =>
      o <- body i a;;
      match o with
      | inl a' => for_in l' body a'
      | inr r => uret (inr r)
      end
  end.

(** The same for a body that always goes on. *)
Fixpoint for_all_in {A} (l : list Z) (body : Z -> A -> U A) (a : A) : U A :=
  match l with
  | [] => uret a
  | i :: l' => a' <- body i a;; for_all_in l' body a'
  end.

(** The stubs of usys.S. *)
Definition fork : U Z := call SysFork.
Definition exit {A} (status : Z) : U A := x <- call (SysExit status);; never x.
Definition close (fd : Z) : U Z := call (SysClose fd).
Definition logdump : U Z := call SysLogdump.
Definition logstat : U Z := call SysLogstat.

(** [wait(&status)] where [status] holds [old]. *)
Definition wait (old : Z) : U (Z * Z) :=
  let! (pid, st) := call SysWait in uret (pid, default old st).

(** The [n] bytes at [buf] have to be there. *)
Definition write (fd : Z) (buf : list Z) (n : Z) : U Z :=
  if decide (0 <= n <= Z.of_nat (length buf)) then call (SysWrite fd (take (Z.to_nat n) buf))
  else undefined.

(** The kernel stores at most [n] bytes in [buf]. *)
Definition read (fd : Z) (buf : list Z) (n : Z) : U (Z * list Z) :=
  if decide (0 <= n <= Z.of_nat (length buf)) then
    let! (r, bs) := call (SysRead fd n) in
    uret (r, splice 0 (take (Z.to_nat n) bs) buf)
  else undefined.

(** The bytes of a C string before its NUL. *)
Fixpoint c_string (s : list Z) : option (list Z) :=
  match s with
  | [] => None
  | c :: s' => if c =? 0 then Some [] else cons c <$> c_string s'
  end.

Definition open (path : list Z) (omode : Z) : U Z :=
  p <- defined (c_string path);; call (SysOpen p omode).
Definition unlink (path : list Z) : U Z :=
  p <- defined (c_string path);; call (SysUnlink p).

(** ** The library: user/ulib.c *)

Fixpoint strlen_loop (s : list Z) (n : Z) : U Z :=
  match s with
  | [] => undefined
  | c :: s' => if c =? 0 then uret n else n <- signed 32 (n + 1);; strlen_loop s' n
  end.

Definition strlen (s : list Z) : U Z := strlen_loop s 0.

Definition memset (dst : list Z) (c n : Z) : U (list Z) :=
  for_all_in (upto n) (fun i d => defined (lset i (u8 c) d)) dst.

Definition puts (s : list Z) : U unit :=
  n <- strlen s;;
  _ <- write 1 s n;;
  uret tt.

Definition putc (c : Z) : U unit := _ <- write 1 [c] 1;; uret tt.

Definition print_str (s : option (list Z)) : U unit :=
  let s := match s with Some s => s | None => lit "(null)" end in
  n <- strlen s;;
  _ <- write 1 s n;;
  uret tt.

(** [while(x > 0)]: [buf] has room for [room] more digits; it is the digits
    written so far, the last one first, as the second loop takes them. *)
Fixpoint uint_loop (room : nat) (x base : Z) (buf : list Z) : U (list Z) :=
  if 0 <? x then
    match room with
    | O => undefined
    | S room' =>
        let d := i32 (x mod u64 base) in
        uint_loop room' (x / u64 base) base (u8 (if d <? 10 then 48 + d else 97 + d - 10) :: buf)
    end
  else uret buf.

Definition print_uint (x base : Z) : U unit :=
  if x =? 0 then putc 48
  else
    buf <- uint_loop 32 x base [];;
    for_all_in buf (fun c _ => putc c) tt.

Definition print_int (x : Z) : U unit :=
  if x <? 0 then
    _ <- putc 45;;
    x <- signed 64 (- x);;
    print_uint (u64 x) 10
  else print_uint (u64 x) 10.

(** [va_arg] at an integer type and at [char *]; a string argument is its bytes
    up to the end of its object. *)
Definition arg_int (ap : list arg) : U (Z * list arg) :=
  match ap with AInt z :: ap' => uret (z, ap') | _ => undefined end.
Definition arg_str (ap : list arg) : U (option (list Z) * list arg) :=
  match ap with AStr p :: ap' => uret (p, ap') | _ => undefined end.

(** The [switch] on the conversion character. *)
Definition user_conv (f : Z) (ap : list arg) : U (list arg) :=
  if f =? 100 (* 'd' *) then
    let! (z, ap') := arg_int ap in _ <- print_int (i32 z);; uret ap'
  else if f =? 120 (* 'x' *) then
    let! (z, ap') := arg_int ap in _ <- print_uint (u32 z) 16;; uret ap'
  else if f =? 112 (* 'p' *) then
    let! (z, ap') := arg_int ap in
    _ <- print_str (Some (lit "0x"));;
    _ <- print_uint (u64 z) 16;;
    uret ap'
  else if f =? 115 (* 's' *) then
    let! (p, ap') := arg_str ap in _ <- print_str p;; uret ap'
  else if f =? 99 (* 'c' *) then
    let! (z, ap') := arg_int ap in _ <- putc (u8 z);; uret ap'
  else if f =? 37 (* '%' *) then
    _ <- putc 37;; uret ap
  else
    _ <- putc 37;;
    _ <- putc f;;
    uret ap.

Fixpoint user_printf_loop (fmt : list Z) (ap : list arg) (count : Z) : U Z :=
  match fmt with
  | [] => undefined
  | c :: fmt1 =>
      if c =? 0 then uret count
      else if negb (c =? 37) then
        _ <- putc c;;
        count <- signed 32 (count + 1);;
        user_printf_loop fmt1 ap count
      else
        match fmt1 with
        | [] => undefined
        | f :: fmt2 =>
            if f =? 0 then uret count
            else
              ap' <- user_conv f ap;;
              count <- signed 32 (count + 1);;
              user_printf_loop fmt2 ap' count
        end
  end.

Definition user_printf (fmt : list Z) (ap : list arg) : U Z := user_printf_loop fmt ap 0.
