(* ===== verification/Init.v ===== *)
(** * The init program: user/init.c

    The first user program is a suite of tests of the file system and of the
    kernel log, on top of User.v. *)
From ITree Require Import Core.ITreeDefinition.
From S2P Require Import Prelude State Printf User.
#[local] Open Scope user_scope.

(** user/user.h *)
Definition U_O_RDONLY : Z := 0x000.
Definition U_O_RDWR : Z := 0x002.
Definition U_O_CREATE : Z := 0x200.

(** Both strings are walked to the first difference or the end of the first;
    reading behind the end of an object is undefined.  [char] is unsigned. *)
Fixpoint strcmp (s1 s2 : list Z) : U Z :=
  match s1, s2 with
  | c1 :: s1', c2 :: s2' =>
      if negb (c1 =? 0) && (c1 =? c2) then strcmp s1' s2' else uret (c1 - c2)
  | _, _ => undefined
  end.

(** The assignments [a[i] = c0; a[i+1] = c1; ...]. *)
Fixpoint assign (i : Z) (cs a : list Z) : option (list Z) :=
  match cs with
  | [] => Some a
  | c :: cs' => a' ← lset i c a; assign (i + 1) cs' a'
  end.

(** The global [buffer]. *)
Definition buffer : list Z := lit "Hello, filesystem!".

Definition say (fmt : list Z) (ap : list arg) : U unit := _ <- user_printf fmt ap;; uret tt.

Section model.
Context `{Garbage}.

(** ** The file system *)

(** [test_fs_integrity] from the comparison on. *)
Definition integrity_compare (read_buf : list Z) (len bytes : Z) : U unit :=
  c <- strcmp buffer read_buf;;
  if c =? 0 then say (ln "[PASS] Data verified: %s") [AStr (Some read_buf)]
  else
    _ <- say (ln "[FAIL] Data mismatch.") [];;
    _ <- say (ln "       Expected: '%s' (len=%d)") [AStr (Some buffer); AInt len];;
    _ <- say (ln "       Got:      '%s' (len=%d)") [AStr (Some read_buf); AInt bytes];;
    if 0 <? bytes then
      x <- defined (lget 0 read_buf);;
      say (ln "       First byte hex: 0x%x") [AInt (u8 x)]
    else uret tt.

Definition integrity_cleanup : U unit :=
  r <- unlink (lit "testfile");;
  _ <- (if r =? 0 then say (ln "[PASS] File deleted") []
        else say (ln "[FAIL] Unlink failed") []);;
  fd <- open (lit "testfile") U_O_RDONLY;;
  if fd <? 0 then say (ln "[PASS] File no longer exists") []
  else
    _ <- say (ln "[FAIL] File still exists after unlink") [];;
    _ <- close fd;;
    uret tt.

(** [test_fs_integrity] from the second [open] on. *)
Definition integrity_reread (len : Z) : U unit :=
  fd <- open (lit "testfile") U_O_RDONLY;;
  if fd <? 0 then say (ln "[FAIL] Cannot reopen file") []
  else
    read_buf <- memset (garbage 64) 0 64;;
    let! (bytes, read_buf) := read fd read_buf (64 - 1) in
    if bytes <? 0 then
      _ <- say (ln "[FAIL] Read failed") [];;
      _ <- close fd;;
      uret tt
    else
      read_buf <- defined (lset bytes 0 read_buf);;
      _ <- integrity_compare read_buf len bytes;;
      _ <- close fd;;
      integrity_cleanup.

Definition test_fs_integrity : U unit :=
  _ <- say (10 :: ln "=== FS Test 1: File Integrity ===") [];;
  fd <- open (lit "testfile") (Z.lor U_O_CREATE U_O_RDWR);;
  if fd <? 0 then say (ln "[FAIL] Cannot create file") []
  else
    _ <- say (ln "[PASS] File created, fd=%d") [AInt fd];;
    len <- strlen buffer;;
    bytes <- write fd buffer len;;
    if negb (bytes =? len) then
      _ <- say (ln "[FAIL] Write failed, wrote %d expected %d") [AInt bytes; AInt len];;
      _ <- close fd;;
      uret tt
    else
      _ <- say (ln "[PASS] Wrote %d bytes") [AInt bytes];;
      _ <- close fd;;
      integrity_reread len.

(** The child of [test_fs_concurrent]. *)
Definition concurrent_child (i : Z) : U unit :=
  filename <- defined (assign 0 [116; 101; 115; 116; 95; u8 (48 + i); 0] (garbage 16));;
  _ <- for_all_in (upto 5) (fun _ _ =>
         fd <- open filename (Z.lor U_O_CREATE U_O_RDWR);;
         if 0 <=? fd then
           _ <- write fd (lit "data") 4;;
           _ <- close fd;;
           _ <- unlink filename;;
           uret tt
         else uret tt) tt;;
  _ <- say (ln "[INFO] Child %d completed") [AInt i];;
  exit 0.

Definition test_fs_concurrent : U unit :=
  _ <- say (10 :: ln "=== FS Test 2: Concurrent Access ===") [];;
  let num_procs := 3 in
  _ <- for_all_in (upto num_procs) (fun i _ =>
         pid <- fork;;
         if pid =? 0 then concurrent_child i else uret tt) tt;;
  _ <- for_all_in (upto num_procs) (fun _ _ =>
         _ <- wait garbage_int;; uret tt) tt;;
  say (ln "[PASS] Concurrent access test completed") [].

(** The assignments of "file<i>" to [filename]. *)
Definition file_i (i : Z) (filename : list Z) : U (list Z) :=
  defined (assign 0 [102; 105; 108; 101; u8 (48 + i); 0] filename).

(** The first loop of [test_fs_multiple_files]: [inr] when the test returns. *)
Definition multiple_create (num_files : Z) (filename : list Z) : U (list Z + unit) :=
  for_in (upto num_files) (fun i filename =>
    filename <- file_i i filename;;
    fd <- open filename (Z.lor U_O_CREATE U_O_RDWR);;
    if fd <? 0 then
      _ <- say (ln "[FAIL] Cannot create %s") [AStr (Some filename)];;
      uret (inr tt)
    else
      _ <- for_all_in (upto (i + 1)) (fun _ _ => _ <- write fd (lit "ABCD") 4;; uret tt) tt;;
      _ <- close fd;;
      uret (inl filename)) filename.

(** The second loop, with [all_ok]. *)
Definition multiple_verify (num_files : Z) (filename : list Z) : U (list Z * Z) :=
  for_all_in (upto num_files) (fun i '(filename, all_ok) =>
    filename <- file_i i filename;;
    fd <- open filename U_O_RDONLY;;
    if fd <? 0 then
      _ <- say (ln "[FAIL] Cannot open %s") [AStr (Some filename)];;
      uret (filename, 0)
    else
      let! (n, _) := read fd (garbage 64) 64 in
      let expected := (i + 1) * 4 in
      all_ok <- (if negb (n =? expected) then
                   _ <- say (ln "[FAIL] %s: expected %d bytes, got %d")
                          [AStr (Some filename); AInt expected; AInt n];;
                   uret 0
                 else uret all_ok);;
      _ <- close fd;;
      uret (filename, all_ok)) (filename, 1).

Definition test_fs_multiple_files : U unit :=
  _ <- say (10 :: ln "=== FS Test 3: Multiple Files ===") [];;
  let num_files := 5 in
  _ <- say (ln "[INFO] Creating %d files...") [AInt num_files];;
  o <- multiple_create num_files (garbage 16);;
  match o with
  | inr _ => uret tt
  | inl filename =>
      _ <- say (ln "[PASS] Created %d files") [AInt num_files];;
      _ <- say (ln "[INFO] Verifying files...") [];;
      let! (filename, all_ok) := multiple_verify num_files filename in
      _ <- (if negb (all_ok =? 0) then say (ln "[PASS] All files verified") [] else uret tt);;
      _ <- say (ln "[INFO] Cleaning up...") [];;
      _ <- for_all_in (upto num_files) (fun i filename =>
             filename <- file_i i filename;; _ <- unlink filename;; uret filename) filename;;
      say (ln "[PASS] Multiple files test completed") []
  end.

(** The loop that writes [blocks] blocks and adds up [total]: [inr] when the test
    returns. *)
Definition large_write (fd blocks : Z) (buf : list Z) : U (Z + unit) :=
  for_in (upto blocks) (fun i total =>
    n <- write fd buf 512;;
    if negb (n =? 512) then
      _ <- say (ln "[FAIL] Write failed at block %d") [AInt i];;
      _ <- close fd;;
      uret (inr tt)
    else total <- signed 32 (total + n);; uret (inl total)) 0.

(** [while((n = read(fd, buf, 512)) > 0) read_total += n]: it ends when the kernel
    says so. *)
Definition read_all (fd : Z) (buf : list Z) : U Z :=
  ITree.iter (fun '(buf, read_total) =>
    let! (n, buf) := read fd buf 512 in
    if 0 <? n then read_total <- signed 32 (read_total + n);; uret (inl (buf, read_total))
    else uret (inr read_total)) (buf, 0).

Definition test_fs_large_file : U unit :=
  _ <- say (10 :: ln "=== FS Test 4: Large File ===") [];;
  fd <- open (lit "largefile") (Z.lor U_O_CREATE U_O_RDWR);;
  if fd <? 0 then say (ln "[FAIL] Cannot create large file") []
  else
    buf <- for_all_in (upto 512) (fun i buf => defined (lset i (u8 (65 + i mod 26)) buf)) (garbage 512);;
    let blocks := 10 in
    _ <- say (ln "[INFO] Writing %d blocks...") [AInt blocks];;
    o <- large_write fd blocks buf;;
    match o with
    | inr _ => uret tt
    | inl total =>
        _ <- say (ln "[PASS] Wrote %d bytes") [AInt total];;
        _ <- close fd;;
        fd <- open (lit "largefile") U_O_RDONLY;;
        if fd <? 0 then say (ln "[FAIL] Cannot reopen large file") []
        else
          read_total <- read_all fd buf;;
          _ <- (if read_total =? total then say (ln "[PASS] Read back %d bytes") [AInt read_total]
                else say (ln "[FAIL] Read %d bytes, expected %d") [AInt read_total; AInt total]);;
          _ <- close fd;;
          _ <- unlink (lit "largefile");;
          say (ln "[PASS] Large file test completed") []
    end.

(** ** The kernel log *)

Definition test_log_basic : U unit :=
  _ <- say (10 :: ln "=== Log Test 1: Basic Functionality ===") [];;
  _ <- say (ln "[INFO] Displaying kernel log statistics...") [];;
  _ <- logstat;;
  say (ln "[PASS] Log statistics displayed") [].

Definition test_log_dump : U unit :=
  _ <- say (10 :: ln "=== Log Test 2: Log Buffer Dump ===") [];;
  _ <- say (ln "[INFO] Dumping kernel log buffer...") [];;
  _ <- logdump;;
  say (ln "[PASS] Log buffer dumped") [].

Definition test_log_with_activity : U unit :=
  _ <- say (10 :: ln "=== Log Test 3: Log with Process Activity ===") [];;
  _ <- say (ln "[INFO] Creating child process to generate log entries...") [];;
  pid <- fork;;
  _ <- (if pid =? 0 then
          fd <- open (lit "logtest") (Z.lor U_O_CREATE U_O_RDWR);;
          _ <- (if 0 <=? fd then
                  _ <- write fd (lit "test") 4;;
                  _ <- close fd;;
                  _ <- unlink (lit "logtest");;
                  uret tt
                else uret tt);;
          exit 0
        else
          let! (_, status) := wait garbage_int in
          say (ln "[INFO] Child exited with status %d") [AInt status]);;
  _ <- say (ln "[INFO] Checking log after activity...") [];;
  _ <- logstat;;
  say (ln "[PASS] Log with activity test completed") [].

(** ** The main function *)

Definition banner : U unit :=
  _ <- say (ln "============================================================") [];;
  _ <- say (ln "          Lab 7 & 8: Combined Acceptance Tests") [];;
  say (ln "============================================================") [].

Definition heading (title : list Z) : U unit :=
  _ <- say (10 :: ln "############################################################") [];;
  _ <- say title [];;
  say (ln "############################################################") [].

Definition summary : U unit :=
  _ <- say (10 :: ln "============================================================") [];;
  _ <- say (ln "               All Tests Completed Successfully!") [];;
  _ <- say (ln "============================================================") [];;
  _ <- say (10 :: ln "[SUMMARY] Lab 7 - File System:") [];;
  _ <- say (ln "  - File creation, read, write, delete: PASS") [];;
  _ <- say (ln "  - Concurrent file access: PASS") [];;
  _ <- say (ln "  - Multiple files handling: PASS") [];;
  _ <- say (ln "  - Large file support: PASS") [];;
  _ <- say (10 :: ln "[SUMMARY] Lab 8 - Kernel Log System:") [];;
  _ <- say (ln "  - Log statistics: PASS") [];;
  _ <- say (ln "  - Log buffer dump: PASS") [];;
  _ <- say (ln "  - Log with process activity: PASS") [];;
  say (10 :: ln "============================================================") [].

Definition main : U Z :=
  _ <- banner;;
  _ <- heading (ln "#                  Lab 7: File System                      #");;
  _ <- test_fs_integrity;;
  _ <- test_fs_concurrent;;
  _ <- test_fs_multiple_files;;
  _ <- test_fs_large_file;;
  _ <- heading (ln "#              Lab 8: Kernel Log System                    #");;
  _ <- test_log_basic;;
  _ <- test_log_dump;;
  _ <- test_log_with_activity;;
  _ <- summary;;
  exit 0.

(** user/entry.S: [main], then [exit] with its result. *)
Definition start : U Empty_set := r <- main;; exit r.
End model.
