(* ===== verification/Programs.v ===== *)
(** * Reasoning about user programs

    A world says which system calls a program may make in a state, and which
    answers, with the state after them, the kernel may give.  [returns] is total
    correctness of a program in a world.  [Console] is a world in
    which writing to descriptor 1 shows text; the library of user/ulib.c is proved
    once, for every console. *)
From ITree Require Import Core.ITreeDefinition.
From S2P Require Import Prelude State Printf User.
#[local] Open Scope user_scope.

(** ** Worlds *)

Class World (G : Type) := {
  allowed : forall {X}, G -> sysE X -> Prop;
  answers : forall {X}, G -> sysE X -> X -> G -> Prop }.

Section logic.
Context {G : Type} `{!World G}.

(** Whatever the kernel answers, the program makes allowed calls only, and
    returns with [Q]. *)
Inductive returns {A} (t : U A) (g : G) (Q : A -> G -> Prop) : Prop :=
| returns_ret a : observe t = RetF a -> Q a g -> returns t g Q
| returns_tau t' : observe t = TauF t' -> returns t' g Q -> returns t g Q
| returns_vis X (e : sysE X) k : observe t = VisF e k -> allowed g e ->
    (forall x g', answers g e x g' -> returns (k x) g' Q) -> returns t g Q.

Lemma returns_uret {A} (a : A) g (Q : A -> G -> Prop) : Q a g -> returns (uret a) g Q.
Proof. intros H. eapply returns_ret; [reflexivity|exact H]. Qed.

Lemma returns_mono {A} (t : U A) g (Q Q' : A -> G -> Prop) :
  returns t g Q -> (forall a g', Q a g' -> Q' a g') -> returns t g Q'.
Proof.
  intros H. revert Q'. induction H as [t g Q a E H|t g Q t' E _ IH|t g Q X e k E Ha _ IH]; intros Q' HQ.
  - eapply returns_ret; [exact E|auto].
  - eapply returns_tau; [exact E|auto].
  - eapply returns_vis; [exact E|exact Ha|auto].
Qed.

(** Only the first layer of a tree matters. *)
Lemma returns_observe {A} (t u : U A) g (Q : A -> G -> Prop) :
  observe t = observe u -> returns u g Q -> returns t g Q.
Proof.
  intros E H. destruct H as [a E' H|t' E' H|X e k E' Ha H]; rewrite E' in E.
  - eapply returns_ret; [exact E|exact H].
  - eapply returns_tau; [exact E|exact H].
  - eapply returns_vis; [exact E|exact Ha|exact H].
Qed.

Lemma observe_bind {A B} (t : U A) (k : A -> U B) :
  observe (ITree.bind t k) =
    match observe t with
    | RetF a => observe (k a)
    | TauF t' => TauF (ITree.bind t' k)
    | VisF e h => VisF e (fun x => ITree.bind (h x) k)
    end.
Proof.
  transitivity (observe (match observe t with
    | RetF a => k a
    | TauF t' => Tau (ITree.bind t' k)
    | VisF e h => Vis e (fun x => ITree.bind (h x) k)
    end)); [reflexivity|]. now destruct (observe t).
Qed.

Lemma returns_bind {A B} (t : U A) (k : A -> U B) g (Q : B -> G -> Prop) :
  returns t g (fun a g' => returns (k a) g' Q) -> returns (ITree.bind t k) g Q.
Proof.
  intros H. remember (fun a g' => returns (k a) g' Q) as P eqn:EP.
  induction H as [t g P a E H|t g P t' E _ IH|t g P X e h E Ha _ IH]; subst P;
    pose proof (observe_bind t k) as Eb; rewrite E in Eb.
  - eapply returns_observe; [exact Eb|exact H].
  - eapply returns_tau; [exact Eb|exact (IH eq_refl)].
  - eapply returns_vis; [exact Eb|exact Ha|]. intros x g' Hx. exact (IH x g' Hx eq_refl).
Qed.

Lemma returns_call {X} (e : sysE X) g (Q : X -> G -> Prop) :
  allowed g e -> (forall x g', answers g e x g' -> Q x g') -> returns (call e) g Q.
Proof.
  intros Ha HQ. eapply returns_vis; [reflexivity|exact Ha|].
  intros x g' Hx. apply returns_uret. auto.
Qed.

Lemma returns_defined {A} (o : option A) a g (Q : A -> G -> Prop) :
  o = Some a -> Q a g -> returns (defined o) g Q.
Proof. intros -> H. now apply returns_uret. Qed.

Lemma returns_signed w n g (Q : Z -> G -> Prop) :
  - 2 ^ (w - 1) <= n < 2 ^ (w - 1) -> Q n g -> returns (signed w n) g Q.
Proof. intros Hn HQ. unfold signed. rewrite decide_True by exact Hn. now apply returns_uret. Qed.

(** A loop: an invariant of the values it goes on with, and a measure that
    decreases. *)
Lemma returns_iter {A B} (body : A -> U (A + B)) (I : A -> G -> Prop) (mu : A -> G -> nat) (Q : B -> G -> Prop) :
  (forall a g, I a g -> returns (body a) g (fun r g' =>
     match r with inl a' => I a' g' /\ (mu a' g' < mu a g)%nat | inr b => Q b g' end)) ->
  forall a g, I a g -> returns (ITree.iter body a) g Q.
Proof.
  intros Hb. enough (forall n a g, (mu a g < n)%nat -> I a g -> returns (ITree.iter body a) g Q) as Hn
    by (intros a g; apply (Hn (S (mu a g))); lia).
  induction n as [|n IH]; intros a g Hm Hi; [lia|].
  apply (returns_observe _ (ITree.bind (body a)
    (fun r => match r with inl a' => Tau (ITree.iter body a') | inr b => Ret b end))); [reflexivity|].
  apply returns_bind. eapply returns_mono; [apply (Hb a g Hi)|]. intros [a'|b] g'.
  - intros [Hi' Hlt]. eapply returns_tau; [reflexivity|]. apply IH; [lia|exact Hi'].
  - intros HQ. eapply returns_ret; [reflexivity|exact HQ].
Qed.

(** Loops over a list. *)
Lemma returns_for_all {A} (body : Z -> A -> U A) (P : A -> G -> Prop) l : forall a g,
  (forall i a g, i ∈ l -> P a g -> returns (body i a) g P) -> P a g -> returns (for_all_in l body a) g P.
Proof.
  induction l as [|i l IH]; intros a g Hb Ha; cbn [for_all_in]; [now apply returns_uret|].
  apply returns_bind. eapply returns_mono; [apply Hb; [left|exact Ha]|]. intros a' g' Ha'. apply IH; [|exact Ha'].
  intros j b h Hj. apply Hb. now right.
Qed.

(** [P m]: the invariant when [m] rounds are left. *)
Lemma returns_for_in {A R} (body : Z -> A -> U (A + R)) (P : nat -> A -> G -> Prop) (E : R -> G -> Prop) l : forall a g,
  (forall i m a g, i ∈ l -> P (S m) a g ->
     returns (body i a) g (fun r g' => match r with inl a' => P m a' g' | inr e => E e g' end)) ->
  P (length l) a g -> returns (for_in l body a) g (fun r g' => match r with inl a' => P O a' g' | inr e => E e g' end).
Proof.
  induction l as [|i l IH]; intros a g Hb Ha; cbn [for_in]; [now apply returns_uret|].
  apply returns_bind. eapply returns_mono; [apply Hb; [left|exact Ha]|].
  intros [a'|e] g' Hr; [apply IH; [|exact Hr]|now apply returns_uret].
  intros j m b h Hj. apply Hb. now right.
Qed.
End logic.

(** Steps through a program. *)
Ltac ustep := first [apply returns_bind | apply returns_uret]; cbn beta iota zeta.
Tactic Notation "ucall" uconstr(H) "as" simple_intropattern(x) ident(g) simple_intropattern(p) :=
  first [apply returns_bind | idtac];
  eapply returns_mono; [eapply H|intros x g; cbn beta; intros p].

(** ** Strings *)

Lemma c_string_take s : forall p, c_string s = Some p -> take (length p) s = p /\ (length p < length s)%nat.
Proof.
  induction s as [|c s IH]; intros p Hp; cbn [c_string] in Hp; [discriminate|].
  destruct (c =? 0); [injection Hp as <-; cbn; split; [reflexivity|lia]|].
  destruct (c_string s) as [p'|]; [|discriminate]. injection Hp as <-.
  destruct (IH p' eq_refl) as [E Hl]. cbn [length take]. rewrite E. split; [reflexivity|lia].
Qed.

Lemma c_string_app p s : Forall (fun c => c <> 0) p -> c_string (p ++ 0 :: s) = Some p.
Proof.
  induction 1 as [|c p Hc _ IH]; [reflexivity|]. cbn [app c_string].
  destruct (Z.eqb_spec c 0); [contradiction|]. now rewrite IH.
Qed.

(** What an argument stands for: a string is read up to its NUL. *)
Inductive reads_as : arg -> arg -> Prop :=
| reads_int z : reads_as (AInt z) (AInt z)
| reads_null : reads_as (AStr None) (AStr None)
| reads_str s p : c_string s = Some p -> Z.of_nat (length p) < 2 ^ 31 ->
    reads_as (AStr (Some s)) (AStr (Some p)).

(** What [printf] counts: a character or a conversion is one. *)
Fixpoint fmt_count (fmt : list Z) : Z :=
  match fmt with
  | [] => 0
  | c :: fmt1 =>
      if negb (c =? 37) then 1 + fmt_count fmt1
      else match fmt1 with [] => 0 | _ :: fmt2 => 1 + fmt_count fmt2 end
  end.

(** The format is a string and the arguments are of the types it asks for. *)
Fixpoint fits (fmt : list Z) (ap : list arg) : bool :=
  match fmt with
  | [] => false
  | c :: fmt1 =>
      if c =? 0 then true
      else if negb (c =? 37) then fits fmt1 ap
      else match fmt1 with
           | [] => false
           | f :: fmt2 =>
               if f =? 0 then true
               else if (f =? 100) || (f =? 120) || (f =? 112) || (f =? 99) then
                 match ap with AInt _ :: ap' => fits fmt2 ap' | _ => false end
               else if f =? 115 then
                 match ap with AStr _ :: ap' => fits fmt2 ap' | _ => false end
               else fits fmt2 ap
           end
  end.

Lemma fits_text fmt : forall ap ap', fits fmt ap = true -> Forall2 reads_as ap ap' ->
  exists f t, c_string fmt = Some f /\ fmt_text f ap' = Some t.
Proof.
  induction fmt as [fmt IH] using (induction_ltof1 _ (@length Z)). unfold ltof in IH.
  intros ap ap' Hf Hr. destruct fmt as [|c fmt]; [discriminate Hf|]. cbn [fits c_string] in *.
  destruct (c =? 0); [exists [], []; split; reflexivity|]. destruct (negb (c =? 37)) eqn:Ec.
  - destruct (IH fmt ltac:(cbn; lia) ap ap' Hf Hr) as (f & t & -> & Ht).
    exists (c :: f), (c :: t). split; [reflexivity|]. cbn [fmt_text]. now rewrite Ec, Ht.
  - destruct fmt as [|d fmt]; [discriminate Hf|]. cbn [c_string].
    destruct (d =? 0); [exists [c], []; split; [reflexivity|]; cbn [fmt_text]; now rewrite Ec|].
    assert (exists f t t1 rest, c_string fmt = Some f /\ conv_text d ap' = Some (t1, rest) /\
              fmt_text f rest = Some t) as (f & t & t1 & rest & -> & Hcv & Ht).
    { unfold conv_text. assert (forall l l', fits fmt l = true -> Forall2 reads_as l l' ->
        exists f t, c_string fmt = Some f /\ fmt_text f l' = Some t) as IH' by (apply IH; cbn; lia).
      repeat match goal with |- context [d =? ?n] => destruct (Z.eqb_spec d n) as [->|_] end; cbn in Hf;
        try (destruct Hr as [|a a' l l' Ha Hl]; [discriminate Hf|]; destruct Ha; try discriminate Hf;
             destruct (IH' _ _ Hf Hl) as (f & t & Ef & Et); eexists f, t, _, _;
             (split; [exact Ef|]; split; [reflexivity|exact Et]));
        destruct (IH' _ _ Hf Hr) as (f & t & Ef & Et); eexists f, t, _, _;
        (split; [exact Ef|]; split; [reflexivity|exact Et]). }
    exists (c :: d :: f), (t1 ++ t). split; [reflexivity|]. cbn [fmt_text]. rewrite Ec, Hcv.
    cbn [mbind option_bind]. now rewrite Ht.
Qed.

(** ** The library on a console *)

(** In a world that is [ready], writing to descriptor 1 [shows] the bytes. *)
Class Console (G : Type) `{!World G} := {
  ready : G -> Prop;
  shows : list Z -> G -> G -> Prop;
  console_write bs g : ready g -> Z.of_nat (length bs) < 2 ^ 31 ->
    allowed g (SysWrite 1 bs) /\
    forall x g', answers g (SysWrite 1 bs) x g' -> ready g' /\ shows bs g g';
  shows_nil g : shows [] g g;
  shows_app t1 t2 g1 g2 g3 : shows t1 g1 g2 -> shows t2 g2 g3 -> shows (t1 ++ t2) g1 g3 }.

Section console.
Context `{Console G}.

(** The program shows [t] and returns a result with [P]. *)
Definition prints {A} (m : U A) (P : A -> Prop) (t : list Z) : Prop :=
  forall g, ready g -> returns m g (fun a g' => P a /\ ready g' /\ shows t g g').

Lemma prints_bind {A B} (m : U A) (k : A -> U B) P Q t1 t2 :
  prints m P t1 -> (forall a, P a -> prints (k a) Q t2) -> prints (ITree.bind m k) Q (t1 ++ t2).
Proof.
  intros H1 H2 g Hg. apply returns_bind. eapply returns_mono; [apply (H1 g Hg)|].
  intros a g1 (Ha & Hg1 & Hs1). eapply returns_mono; [apply (H2 a Ha g1 Hg1)|].
  intros b g2 (Hb & Hg2 & Hs2). split; [exact Hb|]. split; [exact Hg2|]. eapply shows_app; eassumption.
Qed.

Lemma prints_uret {A} (a : A) (P : A -> Prop) : P a -> prints (uret a) P [].
Proof. intros Ha g Hg. apply returns_uret. auto using shows_nil. Qed.

Lemma prints_mono {A} (m : U A) (P Q : A -> Prop) t : prints m P t -> (forall a, P a -> Q a) -> prints m Q t.
Proof. intros Hm HQ g Hg. eapply returns_mono; [apply (Hm g Hg)|]. intros a g' (Ha & Hr). auto. Qed.

(** A last step that shows nothing. *)
Lemma prints_last {A B} (m : U A) (k : A -> U B) P Q t :
  prints m P t -> (forall a, P a -> prints (k a) Q []) -> prints (ITree.bind m k) Q t.
Proof. intros H1 H2. rewrite <- (app_nil_r t). eapply prints_bind; eassumption. Qed.

(** A first step that shows nothing. *)
Lemma prints_first {A B} (m : U A) (k : A -> U B) P Q t :
  prints m P [] -> (forall a, P a -> prints (k a) Q t) -> prints (ITree.bind m k) Q t.
Proof. intros H1 H2. rewrite <- (app_nil_l t). eapply prints_bind; eassumption. Qed.

Lemma prints_signed w n (P : Z -> Prop) : - 2 ^ (w - 1) <= n < 2 ^ (w - 1) -> P n -> prints (signed w n) P [].
Proof. intros Hn HP g Hg. apply returns_signed; [exact Hn|]. auto using shows_nil. Qed.

Definition any {A} : A -> Prop := fun _ => True.

Lemma prints_done {A} (a : A) : prints (uret a) any [].
Proof. now apply prints_uret. Qed.

Lemma write_shows s n :
  0 <= n < 2 ^ 31 -> (Z.to_nat n <= length s)%nat -> prints (write 1 s n) any (take (Z.to_nat n) s).
Proof.
  intros Hn Hl g Hg. unfold write. rewrite decide_True by lia.
  destruct (console_write (take (Z.to_nat n) s) g Hg) as [Ha Hs]; [rewrite length_take; lia|].
  apply returns_call; [exact Ha|]. intros x g' Hx. split; [exact I|]. exact (Hs x g' Hx).
Qed.

Lemma strlen_prints s p :
  c_string s = Some p -> Z.of_nat (length p) < 2 ^ 31 -> prints (strlen s) (fun n => n = Z.of_nat (length p)) [].
Proof.
  unfold strlen. enough (forall n, 0 <= n -> n + Z.of_nat (length p) < 2 ^ 31 -> c_string s = Some p ->
    prints (strlen_loop s n) (fun r => r = n + Z.of_nat (length p)) []) as Hl by (intros; apply Hl; [lia|lia|assumption]).
  revert p. induction s as [|c s IH]; intros p n Hn Hlt Hp; cbn [c_string strlen_loop] in *; [discriminate|].
  destruct (c =? 0).
  - injection Hp as <-. apply prints_uret. cbn. lia.
  - destruct (c_string s) as [p'|]; [|discriminate]. injection Hp as <-. cbn [length] in *.
    eapply prints_first; [apply (prints_signed 32 _ (eq (n + 1))); [cbn; lia|reflexivity]|]. intros ? <-.
    eapply prints_mono; [apply (IH p' (n + 1)); [lia|lia|reflexivity]|]. cbn. lia.
Qed.

(** [strlen] and [write], as [puts] and [print_str] use them. *)
Lemma write_string_prints s p :
  c_string s = Some p -> Z.of_nat (length p) < 2 ^ 31 ->
  prints (n <- strlen s;; _ <- write 1 s n;; uret tt) any p.
Proof.
  intros Hp Hlt. destruct (c_string_take s p Hp) as [E Hl].
  eapply prints_first; [exact (strlen_prints s p Hp Hlt)|]. cbn. intros n ->.
  eapply prints_last; [|intros; apply prints_done].
  pose proof (write_shows s (Z.of_nat (length p))) as Hw. rewrite Nat2Z.id, E in Hw. apply Hw; lia.
Qed.

Lemma putc_prints c : prints (putc c) any [c].
Proof.
  eapply prints_last; [|intros; apply prints_done].
  apply (write_shows [c] 1); [lia|cbn; lia].
Qed.

Lemma print_str_prints s p :
  reads_as (AStr s) (AStr p) ->
  prints (print_str s) any (match p with Some p => p | None => str "(null)" end).
Proof.
  intros Hr. inversion Hr as [| |s' p' Hp Hlt]; subst; unfold print_str.
  - apply (write_string_prints (lit "(null)") (str "(null)")); reflexivity.
  - now apply write_string_prints.
Qed.

Lemma putcs_print buf : prints (for_all_in buf (fun c _ => putc c) tt) any buf.
Proof.
  induction buf as [|c buf IH]; [apply prints_done|]. cbn [for_all_in].
  apply (prints_bind (putc c) (fun a => for_all_in buf (fun c _ => putc c) a) any any [c] buf).
  - apply putc_prints.
  - intros [] _. exact IH.
Qed.

Lemma uint_loop_prints room fuel : forall x base buf,
  10 <= base <= 16 -> 0 <= x < base ^ Z.of_nat fuel -> (length (digits fuel x base) <= room)%nat ->
  uint_loop room x base buf = uret (rev (digits fuel x base) ++ buf).
Proof.
  revert room. induction fuel as [|fuel IH]; intros room x base buf Hb Hx Hl.
  - cbn in Hx. assert (x = 0) as -> by lia. now destruct room.
  - cbn [digits] in *. rewrite Nat2Z.inj_succ, Z.pow_succ_r in Hx by lia.
    destruct (Z.eqb_spec x 0) as [->|Hne]; [now destruct room|].
    cbn [length] in Hl. destruct room as [|room]; [lia|]. cbn [uint_loop].
    destruct (Z.ltb_spec 0 x); [|lia]. rewrite u64_id by lia.
    pose proof (Z.mod_pos_bound x base). rewrite i32_id by lia.
    assert (u8 (if x mod base <? 10 then 48 + x mod base else 97 + x mod base - 10) = digit (x mod base)) as ->.
    { unfold digit, u8. destruct (Z.ltb_spec (x mod base) 10); rewrite Z.mod_small; lia. }
    rewrite IH.
    + cbn [rev]. now rewrite <- app_assoc.
    + exact Hb.
    + split; [apply Z.div_pos; lia|apply Z.div_lt_upper_bound; lia].
    + lia.
Qed.

Lemma print_uint_prints x base :
  10 <= base <= 16 -> 0 <= x < 2 ^ 64 -> prints (print_uint x base) any (numeral base x).
Proof.
  intros Hb Hx. unfold print_uint, numeral. destruct (Z.eqb_spec x 0); [apply putc_prints|].
  pose proof (u64_numeral_fits x base ltac:(lia) Hx).
  rewrite (uint_loop_prints 32 64); [| lia | | lia].
  - eapply prints_first; [apply (prints_uret _ (eq (rev (digits 64 x base) ++ []))); reflexivity|].
    intros a <-. rewrite app_nil_r. apply putcs_print.
  - split; [lia|]. apply Z.lt_le_trans with (2 ^ 64); [lia|]. apply Z.pow_le_mono_l. lia.
Qed.

Lemma print_int_prints x : - 2 ^ 31 <= x < 2 ^ 31 -> prints (print_int x) any (int_text x).
Proof.
  intros Hx. unfold print_int, int_text. destruct (Z.ltb_spec x 0).
  - apply (prints_bind (putc 45) _ any any [45]); [apply putc_prints|]. intros _ _.
    eapply prints_first; [apply (prints_signed 64 _ (eq (- x))); [cbn; lia|reflexivity]|]. intros ? <-.
    rewrite u64_id by lia. apply print_uint_prints; lia.
  - rewrite u64_id by lia. apply print_uint_prints; lia.
Qed.

Lemma prints_text {A} (m : U A) P t t' : t = t' -> prints m P t -> prints m P t'.
Proof. now intros ->. Qed.

(** One conversion that takes an argument and goes on with the rest. *)
Lemma conv_prints {A} (m : U A) (rest rest' : list arg) t :
  prints m any t -> Forall2 reads_as rest rest' ->
  prints (_ <- m;; uret rest) (fun r => Forall2 reads_as r rest') t.
Proof. intros Hm Hr. eapply prints_last; [exact Hm|]. intros _ _. now apply prints_uret. Qed.

(** The argument that a conversion takes. *)
Lemma takes_int ap ap' (F : Z -> list Z) t rest :
  Forall2 reads_as ap ap' ->
  match ap' with AInt z :: l => Some (F z, l) | _ => None end = Some (t, rest) ->
  exists z l, ap = AInt z :: l /\ t = F z /\ Forall2 reads_as l rest.
Proof.
  intros Hr Ht. destruct Hr as [|a a' l l' Ha Hl]; [discriminate Ht|].
  destruct Ha; try discriminate Ht. injection Ht as <- <-. eauto.
Qed.

Lemma takes_str ap ap' (F : option (list Z) -> list Z) t rest :
  Forall2 reads_as ap ap' ->
  match ap' with AStr p :: l => Some (F p, l) | _ => None end = Some (t, rest) ->
  exists s p l, ap = AStr s :: l /\ reads_as (AStr s) (AStr p) /\ t = F p /\ Forall2 reads_as l rest.
Proof.
  intros Hr Ht. destruct Hr as [|a a' l l' Ha Hl]; [discriminate Ht|].
  destruct Ha; try discriminate Ht; injection Ht as <- <-; eexists _, _, _; eauto using reads_null, reads_str.
Qed.

Lemma prints_arg {A B} (a : A) (k : A -> U B) P t : prints (k a) P t -> prints (ITree.bind (uret a) k) P t.
Proof.
  intros Hk. apply prints_first with (P := eq a); [now apply prints_uret|]. now intros ? <-.
Qed.

Lemma user_conv_prints f ap ap' t rest :
  Forall2 reads_as ap ap' -> conv_text f ap' = Some (t, rest) ->
  prints (user_conv f ap) (fun r => Forall2 reads_as r rest) t.
Proof.
  intros Hr Ht. unfold user_conv, conv_text in *.
  repeat match goal with |- context [f =? ?n] => destruct (Z.eqb_spec f n) as [->|_] end.
  - destruct (takes_int _ _ _ _ _ Hr Ht) as (z & l & -> & -> & Hl). apply prints_arg.
    apply conv_prints; [|exact Hl]. apply print_int_prints, i32_range.
  - destruct (takes_int _ _ _ _ _ Hr Ht) as (z & l & -> & -> & Hl). apply prints_arg.
    apply conv_prints; [|exact Hl]. apply print_uint_prints; [lia|]. pose proof (u32_range z). lia.
  - destruct (takes_int _ _ _ _ _ Hr Ht) as (z & l & -> & -> & Hl). apply prints_arg.
    apply (prints_bind _ _ any _ (str "0x")).
    + apply (print_str_prints _ (Some (str "0x"))). now apply reads_str.
    + intros _ _. apply conv_prints; [|exact Hl]. apply print_uint_prints; [lia|apply u64_range].
  - destruct (takes_str _ _ _ _ _ Hr Ht) as (s & p & l & -> & Hs & -> & Hl). apply prints_arg.
    apply conv_prints; [|exact Hl]. now apply print_str_prints.
  - destruct (takes_int _ _ (fun z => [u8 z]) _ _ Hr Ht) as (z & l & -> & -> & Hl). apply prints_arg.
    apply conv_prints; [|exact Hl]. apply putc_prints.
  - injection Ht as <- <-. apply conv_prints; [|exact Hr]. apply putc_prints.
  - injection Ht as <- <-. apply (prints_bind _ _ any _ [37] [f]); [apply putc_prints|].
    intros _ _. apply conv_prints; [|exact Hr]. apply putc_prints.
Qed.

Lemma fmt_count_bounds fmt : 0 <= fmt_count fmt <= Z.of_nat (length fmt).
Proof.
  induction fmt as [fmt IH] using (induction_ltof1 _ (@length Z)). unfold ltof in IH.
  destruct fmt as [|c fmt]; [cbn; lia|]. cbn [fmt_count length]. destruct (negb (c =? 37)).
  - specialize (IH fmt ltac:(cbn; lia)). lia.
  - destruct fmt as [|d fmt]; [lia|]. specialize (IH fmt ltac:(cbn; lia)). cbn [length]. lia.
Qed.

(** Counting one more character or conversion. *)
Lemma counted {A} n m (k : Z -> U A) Q t :
  0 <= n -> 0 <= m -> n + (1 + m) < 2 ^ 31 -> prints (k (n + 1)) Q t -> prints (ITree.bind (signed 32 (n + 1)) k) Q t.
Proof.
  intros Hn Hm Hb Hk. eapply prints_first; [apply (prints_signed 32 _ (eq (n + 1))); [cbn; lia|reflexivity]|].
  now intros ? <-.
Qed.

Lemma user_printf_loop_prints fmt : forall f ap ap' t n,
  c_string fmt = Some f -> Forall2 reads_as ap ap' -> fmt_text f ap' = Some t -> 0 <= n -> n + fmt_count f < 2 ^ 31 ->
  prints (user_printf_loop fmt ap n) (fun r => r = n + fmt_count f) t.
Proof.
  induction fmt as [fmt IH] using (induction_ltof1 _ (@length Z)). unfold ltof in IH.
  intros f ap ap' t n Hf Hr Ht Hn Hb. destruct fmt as [|c fmt]; [discriminate Hf|].
  cbn [c_string user_printf_loop] in *. destruct (Z.eqb_spec c 0) as [->|Hc].
  { injection Hf as <-. injection Ht as <-. apply prints_uret. cbn. now rewrite Z.add_0_r. }
  destruct (c_string fmt) as [f1|] eqn:Hf1; [|discriminate Hf]. injection Hf as <-.
  cbn [fmt_text fmt_count] in *. destruct (negb (c =? 37)).
  - pose proof (fmt_count_bounds f1).
    destruct (fmt_text f1 ap') as [t1|] eqn:Ht1; [|discriminate Ht]. injection Ht as <-.
    apply (prints_bind _ _ any _ [c] t1); [apply putc_prints|]. intros _ _.
    apply (counted n (fmt_count f1)); [lia|lia|lia|]. rewrite Z.add_assoc.
    eapply IH; [cbn; lia|exact Hf1|exact Hr|exact Ht1|lia|lia].
  - destruct fmt as [|d fmt]; [discriminate Hf1|]. cbn [c_string] in Hf1. destruct (d =? 0).
    { injection Hf1 as <-. injection Ht as <-. apply prints_uret. now rewrite Z.add_0_r. }
    destruct (c_string fmt) as [f2|] eqn:Hf2; [|discriminate Hf1]. injection Hf1 as <-. pose proof (fmt_count_bounds f2).
    destruct (conv_text d ap') as [[t1 rest]|] eqn:Hcv; [|discriminate Ht]. cbn [mbind option_bind] in Ht.
    destruct (fmt_text f2 rest) as [t2|] eqn:Ht2; [|discriminate Ht]. injection Ht as <-.
    eapply prints_bind; [exact (user_conv_prints d ap ap' t1 rest Hr Hcv)|]. cbn beta. intros r Hr'.
    apply (counted n (fmt_count f2)); [lia|lia|lia|]. rewrite Z.add_assoc.
    eapply IH; [cbn; lia|exact Hf2|exact Hr'|exact Ht2|lia|lia].
Qed.

Lemma user_printf_prints fmt f ap ap' t :
  c_string fmt = Some f -> Forall2 reads_as ap ap' -> fmt_text f ap' = Some t -> fmt_count f < 2 ^ 31 ->
  prints (user_printf fmt ap) (fun r => r = fmt_count f) t.
Proof. intros Hf Hr Ht Hb. exact (user_printf_loop_prints fmt f ap ap' t 0 Hf Hr Ht (Z.le_refl 0) Hb). Qed.
End console.
