(* ===== verification/Suite.v ===== *)
(** * The init program on any kernel

    [watch] is a world with no file system in it: the kernel may answer what it
    likes, as long as a new descriptor is new and [read] returns no more than it was
    asked for, and from one descriptor no more than the largest file holds: the
    offset of an open file only grows, and files have at most [MAXFILE] blocks.
    The program is watched: which descriptors it has open, and what it has
    printed.  It ends whatever the answers are. *)
From ITree Require Import Core.ITreeDefinition.
From S2P Require Import Prelude State Printf User Init Programs.
#[local] Open Scope user_scope.

(** ** The watched program *)

(** The open descriptors with the number of bytes that can still be read from each,
    the text printed, and whether this is a child that the program has forked. *)
Record watch := mkWatch { w_fds : gmap Z Z; w_out : list Z; w_child : bool }.

Definition LARGEST_FILE : Z := MAXFILE * BSIZE.

Definition w_says (t : list Z) (g : watch) : watch := mkWatch (w_fds g) (w_out g ++ t) (w_child g).
Definition w_opens (fd : Z) (g : watch) : watch := mkWatch (<[fd := LARGEST_FILE]> (w_fds g)) (w_out g) (w_child g).
Definition w_reads (fd n : Z) (g : watch) : watch :=
  mkWatch (alter (fun left => left - Z.max 0 n) fd (w_fds g)) (w_out g) (w_child g).
Definition w_closes (fd : Z) (g : watch) : watch := mkWatch (delete fd (w_fds g)) (w_out g) (w_child g).
Definition w_forks (x : Z) (g : watch) : watch := mkWatch (w_fds g) (w_out g) (w_child g || (x =? 0)).

(** The last words of the program. *)
Definition line (s : string) : list Z := str s ++ [10].
Definition summary_text : list Z := concat
  [10 :: line "============================================================";
   line "               All Tests Completed Successfully!";
   line "============================================================";
   10 :: line "[SUMMARY] Lab 7 - File System:";
   line "  - File creation, read, write, delete: PASS";
   line "  - Concurrent file access: PASS";
   line "  - Multiple files handling: PASS";
   line "  - Large file support: PASS";
   10 :: line "[SUMMARY] Lab 8 - Kernel Log System:";
   line "  - Log statistics: PASS";
   line "  - Log buffer dump: PASS";
   line "  - Log with process activity: PASS";
   10 :: line "============================================================"].

Section watch.
Context (at_exit : Z -> watch -> Prop).

(** The program uses open descriptors only, has no undefined behaviour, and exits
    with [at_exit]. *)
Definition may {X} (g : watch) (e : sysE X) : Prop :=
  match e with
  | Undefined => False
  | SysExit status => at_exit status g
  | SysWrite fd _ => fd = 1 \/ is_Some (w_fds g !! fd)
  | SysRead fd _ | SysClose fd => is_Some (w_fds g !! fd)
  | _ => True
  end.

Definition gets_answer {X} (g : watch) (e : sysE X) : X -> watch -> Prop :=
  match e with
  | SysOpen _ _ => fun fd g' => (fd < 0 /\ g' = g) \/ (3 <= fd /\ w_fds g !! fd = None /\ g' = w_opens fd g)
  | SysRead fd n => fun x g' =>
      exists left, w_fds g !! fd = Some left /\ fst x <= Z.min n left /\ g' = w_reads fd (fst x) g
  | SysClose fd => fun _ g' => g' = w_closes fd g
  | SysFork => fun x g' => g' = w_forks x g
  | SysWrite fd bs => fun _ g' => g' = (if fd =? 1 then w_says bs g else g)
  | _ => fun _ g' => g' = g
  end.

#[local] Instance watch_world : World watch := {| allowed := @may; answers := @gets_answer |}.

#[local] Program Instance watch_console : Console watch := {|
  ready _ := True; shows t g g' := g' = w_says t g |}.
Next Obligation. intros bs g _ _. split; [now left|]. intros x g' E. exact (conj I E). Qed.
Next Obligation. intros [fds out c]. unfold w_says. cbn. now rewrite app_nil_r. Qed.
Next Obligation. intros t1 t2 g1 g2 g3 -> ->. unfold w_says. cbn. now rewrite app_assoc. Qed.

(** ** Steps

    The tests have at most one file open: [holds o g0 g] says that since [g0] the
    program has opened [o] and nothing else. *)
Definition holds_left (fd left : Z) (g0 g : watch) : Prop :=
  3 <= fd /\ w_fds g0 !! fd = None /\ 0 <= left <= LARGEST_FILE /\ w_fds g = <[fd := left]> (w_fds g0).
Definition holds (o : option Z) (g0 g : watch) : Prop :=
  w_child g = w_child g0 /\
  match o with
  | None => w_fds g = w_fds g0
  | Some fd => exists left, holds_left fd left g0 g
  end.

Lemma holds_refl g : holds None g g.
Proof. split; reflexivity. Qed.

Lemma holds_says o g0 g t : holds o g0 g -> holds o g0 (w_says t g).
Proof. exact (fun H => H). Qed.

Lemma holds_in fd g0 g : holds (Some fd) g0 g -> is_Some (w_fds g !! fd) /\ fd <> 1.
Proof. intros (_ & left & H3 & _ & _ & ->). rewrite lookup_insert_eq. split; [eauto|lia]. Qed.

Lemma returns_sys {X} (e : sysE X) g (Q : X -> watch -> Prop) :
  may g e -> (forall x g', gets_answer g e x g' -> Q x g') -> returns (call e) g Q.
Proof. intros Ha HQ. apply returns_call; assumption. Qed.

(** The format is shorter than the largest [int]. *)
Lemma fmt_counts fmt f : c_string fmt = Some f -> Z.of_nat (length fmt) < 2 ^ 31 -> fmt_count f < 2 ^ 31.
Proof. intros Hf Hl. pose proof (fmt_count_bounds f). destruct (c_string_take fmt f Hf) as [_ ?]. lia. Qed.

Lemma returns_say o g0 fmt ap ap' g (Q : unit -> watch -> Prop) :
  holds o g0 g -> fits fmt ap = true -> Z.of_nat (length fmt) < 2 ^ 31 -> Forall2 reads_as ap ap' ->
  (forall g', holds o g0 g' -> Q tt g') -> returns (say fmt ap) g Q.
Proof.
  intros Hh Hfit Hl Hr HQ. destruct (fits_text fmt ap ap' Hfit Hr) as (f & t & Hf & Ht). apply returns_bind.
  eapply returns_mono; [exact (user_printf_prints fmt f ap ap' t Hf Hr Ht (fmt_counts fmt f Hf Hl) g I)|].
  intros n g' (_ & _ & ->). apply returns_uret, HQ, holds_says, Hh.
Qed.

Lemma returns_open g0 path p omode g (Q : Z -> watch -> Prop) :
  holds None g0 g -> c_string path = Some p ->
  (forall fd, fd < 0 -> Q fd g) ->
  (forall fd g', 0 <= fd -> holds (Some fd) g0 g' -> Q fd g') -> returns (open path omode) g Q.
Proof.
  intros [Hc Hf] Hp H1 H2. apply returns_bind, (returns_defined _ p); [exact Hp|]. apply returns_sys; [exact I|].
  intros fd g' [(Hfd & ->)|(Hfd & Hn & ->)]; [now apply H1|]. apply H2; [lia|].
  rewrite Hf in Hn. split; [exact Hc|]. exists LARGEST_FILE. split; [exact Hfd|]. split; [exact Hn|].
  split; [split; [discriminate|apply Z.le_refl]|]. cbn. now rewrite Hf.
Qed.

Lemma returns_unlink o g0 path p g (Q : Z -> watch -> Prop) :
  holds o g0 g -> c_string path = Some p -> (forall r g', holds o g0 g' -> Q r g') -> returns (unlink path) g Q.
Proof.
  intros Hh Hp HQ. apply returns_bind, (returns_defined _ p); [exact Hp|]. apply returns_sys; [exact I|].
  intros r g' ->. auto.
Qed.

Lemma returns_close fd g0 g (Q : Z -> watch -> Prop) :
  holds (Some fd) g0 g -> (forall r g', holds None g0 g' -> Q r g') -> returns (close fd) g Q.
Proof.
  intros Hh HQ. destruct (holds_in _ _ _ Hh) as [Hin _]. apply returns_sys; [exact Hin|].
  intros r g' ->. apply HQ. destruct Hh as (Hc & left & _ & Hn & _ & Hf). split; [exact Hc|].
  cbn. rewrite Hf. now apply delete_insert_id.
Qed.

Lemma returns_write fd g0 buf n g (Q : Z -> watch -> Prop) :
  holds (Some fd) g0 g -> 0 <= n <= Z.of_nat (length buf) ->
  (forall r, Q r g) -> returns (write fd buf n) g Q.
Proof.
  intros Hh Hn HQ. destruct (holds_in _ _ _ Hh) as [Hin H1].
  unfold write. rewrite decide_True by exact Hn. apply returns_sys; [now right|].
  intros r g' E. cbn in E. destruct (Z.eqb_spec fd 1); [contradiction|]. subst. auto.
Qed.

Lemma returns_read_left fd left g0 buf n g (Q : Z * list Z -> watch -> Prop) :
  w_child g = w_child g0 -> holds_left fd left g0 g -> 0 <= n <= Z.of_nat (length buf) ->
  (forall r bs g', r <= Z.min n left -> (length bs <= Z.to_nat n)%nat ->
     w_child g' = w_child g0 -> holds_left fd (left - Z.max 0 r) g0 g' -> Q (r, splice 0 bs buf) g') ->
  returns (read fd buf n) g Q.
Proof.
  intros Hc (H3 & Hn0 & Hl & Hf) Hn HQ. assert (w_fds g !! fd = Some left) as Hg by (rewrite Hf; apply lookup_insert_eq).
  unfold read. rewrite decide_True by exact Hn. apply returns_bind, returns_sys; [now exists left|].
  intros [r bs] g' (left' & Hg' & Hr & ->). rewrite Hg in Hg'. injection Hg' as <-. cbn [fst] in *.
  apply returns_uret, HQ; [exact Hr|rewrite length_take; lia|exact Hc|]. split; [exact H3|]. split; [exact Hn0|]. split; [lia|].
  cbn. rewrite Hf. exact (alter_insert_eq _ _ _ _).
Qed.

Lemma returns_read fd g0 buf n g (Q : Z * list Z -> watch -> Prop) :
  holds (Some fd) g0 g -> 0 <= n <= Z.of_nat (length buf) ->
  (forall r bs g', r <= n -> (length bs <= Z.to_nat n)%nat -> holds (Some fd) g0 g' -> Q (r, splice 0 bs buf) g') ->
  returns (read fd buf n) g Q.
Proof.
  intros (Hc & left & Hl) Hn HQ. eapply returns_read_left; [exact Hc|exact Hl|exact Hn|].
  intros r bs g' Hr Hbs Hc' Hl'. apply HQ; [lia|exact Hbs|]. split; [exact Hc'|eauto].
Qed.

Lemma returns_strlen s p g (Q : Z -> watch -> Prop) :
  c_string s = Some p -> Z.of_nat (length p) < 2 ^ 31 -> Q (Z.of_nat (length p)) g -> returns (strlen s) g Q.
Proof.
  intros Hp Hl HQ. eapply returns_mono; [exact (strlen_prints s p Hp Hl g I)|].
  intros n g' (-> & _ & ->). destruct g as [fds out c]. unfold w_says in *. cbn. rewrite app_nil_r. exact HQ.
Qed.

Lemma returns_strcmp g (Q : Z -> watch -> Prop) s1 : forall s2 p1 p2,
  c_string s1 = Some p1 -> c_string s2 = Some p2 -> (forall c, Q c g) -> returns (strcmp s1 s2) g Q.
Proof.
  induction s1 as [|c1 s1 IH]; intros s2 p1 p2 H1 H2 HQ; [discriminate H1|].
  destruct s2 as [|c2 s2]; [discriminate H2|]. cbn [strcmp c_string] in *.
  destruct (Z.eqb_spec c1 0) as [->|]; cbn [negb andb]; [now apply returns_uret|].
  destruct (Z.eqb_spec c1 c2) as [<-|]; [|now apply returns_uret].
  destruct (Z.eqb_spec c1 0); [contradiction|].
  destruct (c_string s1) as [q1|] eqn:E1; [|discriminate H1]. destruct (c_string s2) as [q2|] eqn:E2; [|discriminate H2].
  exact (IH s2 q1 q2 eq_refl E2 HQ).
Qed.

(** ** Local arrays *)

Lemma assign_run cs : forall i a, (Z.to_nat i + length cs <= length a)%nat -> 0 <= i ->
  assign i cs a = Some (splice (Z.to_nat i) cs a).
Proof.
  induction cs as [|c cs IH]; intros i a Hl Hi; cbn [assign length] in *.
  - unfold splice. cbn. now rewrite Nat.add_0_r, take_drop.
  - rewrite lset_Some by lia. cbn [mbind option_bind].
    rewrite IH by (rewrite ?length_insert; lia). f_equal. unfold splice. cbn [length app].
    replace (Z.to_nat (i + 1)) with (S (Z.to_nat i)) by lia.
    rewrite (take_S_r _ _ c) by (apply list_lookup_insert_eq; lia).
    rewrite take_insert_ge by lia. rewrite <- app_assoc. cbn [app]. do 3 f_equal.
    rewrite drop_insert_lt by lia. f_equal. lia.
Qed.

Lemma filename_run cs a : (length cs < length a)%nat -> Forall (fun c => c <> 0) cs ->
  exists a', assign 0 (cs ++ [0]) a = Some a' /\ length a' = length a /\ c_string a' = Some cs.
Proof.
  intros Hl Hc. rewrite assign_run by (rewrite ?length_app; cbn; lia). eexists. split; [reflexivity|].
  split; [apply length_splice; rewrite length_app; cbn; lia|].
  unfold splice. cbn [Z.to_nat take app]. rewrite <- app_assoc. now apply c_string_app.
Qed.

Lemma c_string_ends a : forall i, a !! i = Some 0 -> exists p, c_string a = Some p /\ (length p <= i)%nat.
Proof.
  induction a as [|c a IH]; intros i Hi; [discriminate Hi|]. cbn [c_string].
  destruct (Z.eqb_spec c 0) as [->|Hc]; [exists []; cbn; split; [reflexivity|lia]|].
  destruct i as [|i]; [injection Hi as Hi; contradiction|]. destruct (IH i Hi) as (p & -> & Hl).
  exists (c :: p). cbn. split; [reflexivity|lia].
Qed.

Lemma returns_fill (f : Z -> Z) n (d : list Z) g (Q : list Z -> watch -> Prop) :
  n = Z.of_nat (length d) -> (forall d', length d' = length d -> Q d' g) ->
  returns (for_all_in (upto n) (fun i d => defined (lset i (f i) d)) d) g Q.
Proof.
  intros -> HQ. eapply returns_mono; [apply (returns_for_all _ (fun d' g' => length d' = length d /\ g' = g))|].
  - intros i a h Hi%elem_of_upto [Hl ->]. eapply returns_defined; [apply lset_Some; lia|].
    rewrite length_insert. auto.
  - auto.
  - intros d' g' [Hl ->]. auto.
Qed.

(** A fresh test: from the state [g], with nothing open since. *)
Ltac args := repeat match goal with
  | |- Forall2 _ _ _ => constructor
  | |- reads_as (AInt _) _ => apply reads_int
  | |- reads_as (AStr _) _ => eassumption
  end.
Ltac say := eapply returns_say; [eassumption|vm_compute; reflexivity|vm_compute; reflexivity|solve [args]|intros ? ?].

Lemma integrity_compare_returns fd g0 g read_buf p len bytes :
  holds (Some fd) g0 g -> c_string read_buf = Some p -> length read_buf = 64%nat -> (length p < 64)%nat ->
  returns (integrity_compare read_buf len bytes) g (fun _ => holds (Some fd) g0).
Proof.
  intros Hh Hp Hl Hlt.
  assert (reads_as (AStr (Some read_buf)) (AStr (Some p))) as Hr by (apply reads_str; [exact Hp|lia]).
  assert (reads_as (AStr (Some buffer)) (AStr (Some (str "Hello, filesystem!")))) as Hb by now apply reads_str.
  apply returns_bind. eapply (returns_strcmp _ _ buffer); [reflexivity|exact Hp|]. intros c.
  destruct (c =? 0); [say; assumption|].
  apply returns_bind. say. apply returns_bind. say.
  apply returns_bind. say.
  destruct (0 <? bytes); [|now apply returns_uret].
  destruct (lget_lt 0 read_buf) as [x Hx]; [lia|].
  eapply returns_bind, returns_defined; [exact Hx|]. say. assumption.
Qed.

Lemma integrity_cleanup_returns g0 g : holds None g0 g -> returns integrity_cleanup g (fun _ => holds None g0).
Proof.
  intros Hh. apply returns_bind. eapply returns_unlink; [exact Hh|reflexivity|]. intros r g1 H1. apply returns_bind.
  assert (forall h, holds None g0 h -> returns
    (fd <- open (lit "testfile") U_O_RDONLY;;
     if fd <? 0 then say (ln "[PASS] File no longer exists") []
     else _ <- say (ln "[FAIL] File still exists after unlink") [];; _ <- close fd;; uret tt) h
    (fun _ => holds None g0)) as Hrest.
  { intros h Hhh. apply returns_bind. eapply returns_open; [exact Hhh|reflexivity|intros fd Hfd|intros fd h' Hfd H'].
    - destruct (Z.ltb_spec fd 0); [|lia]. say. assumption.
    - destruct (Z.ltb_spec fd 0); [lia|]. apply returns_bind. say. apply returns_bind.
      eapply returns_close; [eassumption|]. intros r' h2 H2. now apply returns_uret. }
  destruct (r =? 0); say; now apply Hrest.
Qed.

(** Both branches of a test of the descriptor that [open] has returned. *)
Lemma if_neg {A} fd (m1 m2 : U A) g Q : fd < 0 -> returns m1 g Q -> returns (if fd <? 0 then m1 else m2) g Q.
Proof. intros H Hs. destruct (Z.ltb_spec fd 0); [exact Hs|lia]. Qed.
Lemma if_pos {A} fd (m1 m2 : U A) g Q : 0 <= fd -> returns m2 g Q -> returns (if fd <? 0 then m1 else m2) g Q.
Proof. intros H Hs. destruct (Z.ltb_spec fd 0); [lia|exact Hs]. Qed.

(** [open] followed by the test of its result; the first goal is the failure. *)
Ltac open_file :=
  apply returns_bind; eapply returns_open;
  [eassumption|first [eassumption|reflexivity]|intros ? ?; apply if_neg; [assumption|]|intros ? ? ? ?; apply if_pos; [assumption|]].
Ltac close_file := apply returns_bind; eapply returns_close; [eassumption|intros ? ? ?].
Ltac done_test := apply returns_uret; assumption.

Lemma integrity_reread_returns `{Garbage} len g0 g :
  holds None g0 g -> returns (integrity_reread len) g (fun _ => holds None g0).
Proof.
  intros Hh. open_file; [say; assumption|].
  apply returns_bind, returns_fill; [now rewrite length_garbage|]. intros d Hd. rewrite length_garbage in Hd.
  apply returns_bind. eapply returns_read; [eassumption|lia|]. intros r bs g3 Hr Hbs H3.
  assert (length (splice 0 bs d) = 64%nat) as Hl by (rewrite length_splice; lia).
  destruct (Z.ltb_spec r 0); [apply returns_bind; say; close_file; done_test|].
  apply returns_bind. eapply returns_defined; [apply lset_Some; lia|].
  destruct (c_string_ends (<[Z.to_nat r:=0]> (splice 0 bs d)) (Z.to_nat r)) as (p & Hp & Hlt);
    [apply list_lookup_insert_eq; lia|].
  apply returns_bind. eapply returns_mono; [eapply integrity_compare_returns; [eassumption|exact Hp| |lia]|].
  - now rewrite length_insert.
  - intros [] ? ?. close_file. now apply integrity_cleanup_returns.
Qed.

Lemma integrity_returns `{Garbage} g : returns test_fs_integrity g (fun _ => holds None g).
Proof.
  pose proof (holds_refl g). apply returns_bind. say.
  open_file; [say; assumption|]. apply returns_bind. say.
  apply returns_bind. eapply returns_strlen; [reflexivity|reflexivity|].
  apply returns_bind. eapply returns_write; [eassumption|split; vm_compute; discriminate|]. intros bytes.
  destruct (negb _).
  - apply returns_bind. say. close_file. done_test.
  - apply returns_bind. say. close_file. now apply integrity_reread_returns.
Qed.

Lemma returns_exit {A} status g (Q : A -> watch -> Prop) : at_exit status g -> returns (exit status) g Q.
Proof. intros He. apply returns_bind, returns_sys; [exact He|]. intros []. Qed.

(** [fork]: the child goes on as [child] and exits, the parent is as before. *)
Lemma returns_fork {A} g0 g (child parent : U A) (Q : A -> watch -> Prop) :
  holds None g0 g ->
  returns child (w_forks 0 g) Q -> (forall g', holds None g0 g' -> returns parent g' Q) ->
  returns (pid <- fork;; if pid =? 0 then child else parent) g Q.
Proof.
  intros [Hc Hf] H1 H2. apply returns_bind, returns_sys; [exact I|]. intros x g' ->.
  destruct (Z.eqb_spec x 0) as [->|Hx]; [exact H1|]. apply H2. split; [|exact Hf].
  cbn. destruct (Z.eqb_spec x 0); [contradiction|]. now rewrite orb_false_r.
Qed.

(** The file that the children of the tests create, write and remove. *)
Lemma scratch_returns {A} path p data n g0 g (rest : U A) Q :
  holds None g0 g -> c_string path = Some p -> 0 <= n <= Z.of_nat (length data) ->
  (forall g', holds None g0 g' -> returns rest g' Q) ->
  returns (fd <- open path (Z.lor U_O_CREATE U_O_RDWR);;
        _ <- (if 0 <=? fd then _ <- write fd data n;; _ <- close fd;; _ <- unlink path;; uret tt else uret tt);;
        rest) g Q.
Proof.
  intros Hh Hp Hn Hrest. apply returns_bind. eapply returns_open; [exact Hh|exact Hp|intros fd Hfd|intros fd g' Hfd H'];
    apply returns_bind; (destruct (Z.leb_spec 0 fd); [|try lia]); try lia.
  - apply returns_uret. auto.
  - apply returns_bind. eapply returns_write; [exact H'|exact Hn|]. intros _. close_file. apply returns_bind.
    eapply returns_unlink; [eassumption|exact Hp|]. intros. apply returns_uret. auto.
Qed.

Context `{Garbage} (child_exit : forall g, w_child g = true -> w_fds g = ∅ -> at_exit 0 g).

(** A child of a program without open files exits as it should. *)
Lemma child_done {A} g0 g g' (Q : A -> watch -> Prop) :
  w_fds g0 = ∅ -> holds None g0 g -> holds None (w_forks 0 g) g' -> returns (exit 0) g' Q.
Proof.
  intros H0 [_ Hf] [Hc Hf']. apply returns_exit, child_exit.
  - rewrite Hc. apply orb_true_r.
  - rewrite Hf'. cbn. now rewrite Hf.
Qed.

Lemma concurrent_child_returns g0 g i Q :
  w_fds g0 = ∅ -> holds None g0 g -> 0 <= i < 3 -> returns (concurrent_child i) (w_forks 0 g) Q.
Proof.
  intros H0 Hh Hi.
  destruct (filename_run [116; 101; 115; 116; 95; u8 (48 + i)] (garbage 16)) as (a & Ha & _ & Hp).
  { rewrite length_garbage. cbn. lia. }
  { repeat constructor; try discriminate. unfold u8. rewrite Z.mod_small; lia. }
  apply returns_bind. eapply returns_defined; [exact Ha|]. apply returns_bind.
  eapply returns_mono; [apply (returns_for_all _ (fun _ => holds None (w_forks 0 g)))|].
  - intros j [] g1 _ H1. apply returns_bind.
    eapply returns_open; [exact H1|exact Hp|intros fd Hfd|intros fd g2 Hfd H2]; (destruct (Z.leb_spec 0 fd); try lia).
    + now apply returns_uret.
    + apply returns_bind. eapply returns_write; [exact H2|split; vm_compute; discriminate|]. intros _. close_file.
      apply returns_bind. eapply returns_unlink; [eassumption|exact Hp|]. intros. now apply returns_uret.
  - apply holds_refl.
  - intros [] g1 H1. apply returns_bind. say. eapply child_done; eassumption.
Qed.

Lemma returns_wait old g0 g (Q : Z * Z -> watch -> Prop) :
  holds None g0 g -> (forall pid st g', holds None g0 g' -> Q (pid, st) g') -> returns (wait old) g Q.
Proof.
  intros Hh HQ. apply returns_bind, returns_sys; [exact I|]. intros [pid st] g' ->. apply returns_uret. auto.
Qed.

Lemma concurrent_returns g : w_fds g = ∅ -> returns test_fs_concurrent g (fun _ => holds None g).
Proof.
  intros H0. pose proof (holds_refl g). apply returns_bind. say. apply returns_bind.
  eapply returns_mono; [apply (returns_for_all _ (fun _ => holds None g)); [|assumption]|].
  - intros i [] g1 Hi%elem_of_upto K1. eapply returns_fork; [exact K1| |].
    + eapply concurrent_child_returns; eassumption.
    + intros. now apply returns_uret.
  - intros [] g1 K1. apply returns_bind. eapply returns_mono; [apply (returns_for_all _ (fun _ => holds None g)); [|assumption]|].
    + intros i [] g2 _ K2. apply returns_bind. eapply returns_wait; [exact K2|]. intros. now apply returns_uret.
    + intros [] g2 K2. say. assumption.
Qed.

(** [file_i] names the file in an array of 16 bytes. *)
Lemma returns_file_i i filename g (Q : list Z -> watch -> Prop) :
  0 <= i < 5 -> length filename = 16%nat ->
  (forall a p, length a = 16%nat -> c_string a = Some p -> reads_as (AStr (Some a)) (AStr (Some p)) -> Q a g) ->
  returns (file_i i filename) g Q.
Proof.
  intros Hi Hl HQ. destruct (filename_run [102; 105; 108; 101; u8 (48 + i)] filename) as (a & Ha & Hla & Hp).
  { cbn. lia. }
  { repeat constructor; try discriminate. unfold u8. rewrite Z.mod_small; lia. }
  eapply returns_defined; [exact Ha|]. eapply HQ; [lia|exact Hp|]. now apply reads_str.
Qed.

Lemma multiple_create_returns filename g0 g :
  length filename = 16%nat -> holds None g0 g ->
  returns (multiple_create 5 filename) g (fun r g' =>
    match r with inl a => length a = 16%nat /\ holds None g0 g' | inr _ => holds None g0 g' end).
Proof.
  intros Hl Hh. apply (returns_for_in _ (fun _ a g' => length a = 16%nat /\ holds None g0 g') (fun _ => holds None g0)); [|auto].
  intros i m a g1 Hi%elem_of_upto [Ha K1]. apply returns_bind, returns_file_i; [exact Hi|exact Ha|].
  intros a' p Ha' Hp Hr. open_file; [apply returns_bind; say; done_test|].
  apply returns_bind. eapply returns_mono; [apply (returns_for_all _ (fun _ => holds (Some fd) g0))|].
  - intros j [] g2 _ K2. apply returns_bind. eapply returns_write; [exact K2|split; vm_compute; discriminate|].
    intros _. now apply returns_uret.
  - assumption.
  - intros [] g2 K2. close_file. apply returns_uret. auto.
Qed.

Lemma multiple_verify_returns filename g0 g :
  length filename = 16%nat -> holds None g0 g ->
  returns (multiple_verify 5 filename) g (fun r g' => length r.1 = 16%nat /\ holds None g0 g').
Proof.
  intros Hl Hh. apply (returns_for_all _ (fun (r : list Z * Z) g' => length r.1 = 16%nat /\ holds None g0 g')); [|auto].
  intros i [a ok] g1 Hi%elem_of_upto [Ha K1]. apply returns_bind, returns_file_i; [exact Hi|exact Ha|].
  intros a' p Ha' Hp Hr. open_file; [apply returns_bind; say; apply returns_uret; auto|].
  apply returns_bind. eapply returns_read; [eassumption|rewrite length_garbage; lia|]. intros n bs g3 _ _ H3.
  apply returns_bind. destruct (negb _).
  - apply returns_bind. say. apply returns_uret. close_file. apply returns_uret. auto.
  - apply returns_uret. close_file. apply returns_uret. auto.
Qed.

Lemma multiple_files_returns g : returns test_fs_multiple_files g (fun _ => holds None g).
Proof.
  pose proof (holds_refl g). apply returns_bind. say. apply returns_bind. say.
  apply returns_bind. eapply returns_mono; [apply multiple_create_returns; [apply length_garbage|eassumption]|].
  intros [a|[]] g1; [|intros; done_test]. intros [Ha K1]. apply returns_bind. say. apply returns_bind. say.
  apply returns_bind. eapply returns_mono; [apply multiple_verify_returns; [exact Ha|eassumption]|].
  intros [a' ok] g2 [Ha' K2]. apply returns_bind.
  assert (forall h, holds None g h -> returns (_ <- say (ln "[INFO] Cleaning up...") [];;
    _ <- for_all_in (upto 5) (fun i filename => filename <- file_i i filename;; _ <- unlink filename;; uret filename) a';;
    say (ln "[PASS] Multiple files test completed") []) h (fun _ => holds None g)) as Hrest.
  { intros h Hh. apply returns_bind. say. apply returns_bind.
    eapply returns_mono; [apply (returns_for_all _ (fun a h' => length a = 16%nat /\ holds None g h')); [|auto]|].
    - intros i b h1 Hi%elem_of_upto [Hb K3]. apply returns_bind, returns_file_i; [exact Hi|exact Hb|].
      intros b' p Hb' Hp _. apply returns_bind. eapply returns_unlink; [exact K3|exact Hp|]. intros.
      apply returns_uret. auto.
    - intros b h1 [_ K3]. say. assumption. }
  destruct (negb _); [say; now apply Hrest|apply returns_uret; now apply Hrest].
Qed.

Lemma large_write_returns fd buf g0 g :
  length buf = 512%nat -> holds (Some fd) g0 g ->
  returns (large_write fd 10 buf) g (fun r g' =>
    match r with inl _ => holds (Some fd) g0 g' | inr _ => holds None g0 g' end).
Proof.
  intros Hl Hh. eapply returns_mono; [apply (returns_for_in _ (fun m total g' => 0 <= total /\ total + 512 * Z.of_nat m <= 5120 /\ holds (Some fd) g0 g')
    (fun _ => holds None g0)); [|split; [lia|split; [vm_compute; discriminate|exact Hh]]]|intros [r|e] g'; [now intros (_ & _ & K)|auto]].
  intros i m total g1 _ (Ht & Hm & K1). apply returns_bind. eapply returns_write; [exact K1|lia|]. intros n.
  destruct (Z.eqb_spec n 512) as [->|Hn]; cbn [negb].
  - apply returns_bind, returns_signed; [cbn; lia|]. apply returns_uret. split; [lia|]. split; [lia|exact K1].
  - apply returns_bind. say. close_file. done_test.
Qed.

(** The loop of reads: what is left to read goes down. *)
Definition read_measure (fd : Z) (_ : list Z * Z) (g : watch) : nat := Z.to_nat (default 0 (w_fds g !! fd)).

Lemma read_measure_left fd left g0 x g : holds_left fd left g0 g -> read_measure fd x g = Z.to_nat left.
Proof. intros (_ & _ & _ & E). unfold read_measure. now rewrite E, lookup_insert_eq. Qed.

Lemma read_all_returns fd buf g0 g :
  length buf = 512%nat -> holds (Some fd) g0 g -> returns (read_all fd buf) g (fun _ => holds (Some fd) g0).
Proof.
  intros Hl (Hc & left & Hh).
  apply (returns_iter _ (fun (x : list Z * Z) g' => length x.1 = 512%nat /\ w_child g' = w_child g0 /\
    exists left, holds_left fd left g0 g' /\ 0 <= x.2 /\ x.2 + left <= LARGEST_FILE) (read_measure fd)).
  - intros [b total] g1 (Hb & Hc1 & lf & K1 & Ht & Htl). cbn [fst snd] in Hb, Ht, Htl.
    pose proof K1 as (_ & _ & Hlf & _). change LARGEST_FILE with 274432 in *.
    apply returns_bind. eapply returns_read_left; [exact Hc1|exact K1|lia|].
    intros n bs g2 Hn Hbs Hc2 K2. destruct (Z.ltb_spec 0 n).
    + apply returns_bind, returns_signed; [cbn; lia|]. apply returns_uret. cbn [fst snd].
      split; [|rewrite (read_measure_left _ _ _ _ _ K1), (read_measure_left _ _ _ _ _ K2); lia].
      split; [rewrite length_splice; lia|]. split; [exact Hc2|]. eexists. split; [exact K2|lia].
    + apply returns_uret. split; [exact Hc2|eauto].
  - pose proof Hh as (_ & _ & Hlf & _). cbn [fst snd]. split; [exact Hl|]. split; [exact Hc|]. exists left. split; [exact Hh|lia].
Qed.

Lemma large_file_returns g : returns test_fs_large_file g (fun _ => holds None g).
Proof.
  pose proof (holds_refl g). apply returns_bind. say. open_file; [say; assumption|].
  apply returns_bind, returns_fill; [now rewrite length_garbage|]. intros buf Hl. rewrite length_garbage in Hl.
  apply returns_bind. say. apply returns_bind.
  eapply returns_mono; [apply large_write_returns; [exact Hl|eassumption]|].
  intros [total|[]] g1 K1; [|done_test]. apply returns_bind. say. close_file.
  open_file; [say; assumption|]. apply returns_bind.
  eapply returns_mono; [apply read_all_returns; [exact Hl|eassumption]|]. intros rt g2 K2. cbn beta in K2. apply returns_bind.
  assert (forall fd h, holds (Some fd) g h -> returns (_ <- close fd;; _ <- unlink (lit "largefile");;
    say (ln "[PASS] Large file test completed") []) h (fun _ => holds None g)) as Hrest.
  { intros fd' h Hh. close_file. apply returns_bind. eapply returns_unlink; [eassumption|reflexivity|]. intros.
    say. assumption. }
  destruct (rt =? total); say; now apply Hrest.
Qed.

Lemma log_basic_returns g : returns test_log_basic g (fun _ => holds None g).
Proof.
  pose proof (holds_refl g). apply returns_bind. say. apply returns_bind. say. apply returns_bind, returns_sys; [exact I|].
  intros r ? ->. say. assumption.
Qed.

Lemma log_dump_returns g : returns test_log_dump g (fun _ => holds None g).
Proof.
  pose proof (holds_refl g). apply returns_bind. say. apply returns_bind. say. apply returns_bind, returns_sys; [exact I|].
  intros r ? ->. say. assumption.
Qed.

Lemma log_activity_returns g : w_fds g = ∅ -> returns test_log_with_activity g (fun _ => holds None g).
Proof.
  intros H0. pose proof (holds_refl g). apply returns_bind. say. apply returns_bind. say.
  apply returns_bind, returns_sys; [exact I|]. intros pid ? ->. apply returns_bind.
  match goal with Hh : holds None g ?h |- returns _ (w_forks pid ?h) _ => rename Hh into Hg; rename h into g1 end.
  destruct (Z.eqb_spec pid 0) as [->|Hp].
  - eapply (scratch_returns _ (str "logtest")); [apply holds_refl|reflexivity|split; vm_compute; discriminate|].
    intros g2 K2. eapply child_done; eassumption.
  - assert (holds None g (w_forks pid g1)) as Hg'.
    { destruct Hg as [Hc Hf]. split; [|exact Hf]. cbn. destruct (Z.eqb_spec pid 0); [contradiction|].
      now rewrite orb_false_r. }
    apply returns_bind. eapply returns_wait; [exact Hg'|]. intros p st g2 K2. say. apply returns_bind. say.
    apply returns_bind, returns_sys; [exact I|]. intros r ? ->. say. assumption.
Qed.

(** ** The program *)

Lemma kept_trans g0 g1 g2 : holds None g0 g1 -> holds None g1 g2 -> holds None g0 g2.
Proof. intros [Hc1 Hf1] [Hc2 Hf2]. split; congruence. Qed.

(** A test that leaves nothing open, in the middle of a program. *)
Lemma returns_then {A} (m : U unit) (k : U A) g0 g Q :
  holds None g0 g -> returns m g (fun _ => holds None g) -> (forall g', holds None g0 g' -> returns k g' Q) ->
  returns (_ <- m;; k) g Q.
Proof.
  intros Hh Hm Hk. apply returns_bind. eapply returns_mono; [exact Hm|]. intros [] g' Hg'. apply Hk.
  eapply kept_trans; eassumption.
Qed.

Lemma banner_returns g : returns banner g (fun _ => holds None g).
Proof. pose proof (holds_refl g). apply returns_bind. say. apply returns_bind. say. say. assumption. Qed.

Lemma heading_returns title g :
  fits title [] = true -> Z.of_nat (length title) < 2 ^ 31 -> returns (heading title) g (fun _ => holds None g).
Proof.
  intros Ht Hl. pose proof (holds_refl g). apply returns_bind. say. apply returns_bind.
  eapply returns_say; [eassumption|exact Ht|exact Hl|constructor|intros ? ?]. say. assumption.
Qed.

(** A text without conversions. *)
Lemma plain_text t : forallb (fun c => negb (c =? 37)) t = true -> fmt_text t [] = Some t.
Proof.
  induction t as [|c t IH]; [reflexivity|]. cbn [forallb fmt_text]. intros [Hc Ht]%andb_true_iff.
  now rewrite Hc, IH.
Qed.

Lemma returns_text fmt t g (Q : unit -> watch -> Prop) :
  c_string fmt = Some t -> forallb (fun c => negb (c =? 37)) t = true -> Z.of_nat (length fmt) < 2 ^ 31 ->
  Q tt (w_says t g) -> returns (say fmt []) g Q.
Proof.
  intros Hf Ht Hl HQ. apply returns_bind.
  eapply returns_mono; [exact (user_printf_prints fmt t [] [] t Hf (List.Forall2_nil _) (plain_text t Ht) (fmt_counts fmt t Hf Hl) g I)|].
  intros n g' (_ & _ & ->). apply returns_uret. exact HQ.
Qed.

(** A line of plain text, also after an empty line. *)
Definition plain (t : list Z) : bool := forallb (fun c => negb (c =? 0) && negb (c =? 37)) t.

Lemma plain_string t s : plain t = true -> c_string (t ++ 0 :: s) = Some t.
Proof.
  intros Ht. apply c_string_app, Forall_forall. intros c Hc E. unfold plain in Ht. rewrite forallb_forall in Ht.
  specialize (Ht c (proj1 (list_elem_of_In _ _) Hc)). subst c. discriminate Ht.
Qed.

Lemma plain_plain t : plain t = true -> forallb (fun c => negb (c =? 37)) t = true.
Proof. unfold plain. rewrite !forallb_forall. intros Ht c Hc. now apply Ht, andb_true_iff in Hc. Qed.

Lemma ln_line s : ln s = line s ++ [0].
Proof. unfold ln, line. now rewrite <- app_assoc. Qed.

Lemma returns_line s g (Q : unit -> watch -> Prop) :
  plain (line s) = true -> Z.of_nat (length (ln s)) < 2 ^ 31 -> Q tt (w_says (line s) g) -> returns (say (ln s) []) g Q.
Proof.
  intros Hp Hl HQ. rewrite ln_line in *. eapply returns_text; [now apply plain_string|now apply plain_plain|exact Hl|exact HQ].
Qed.

Lemma returns_nl_line s g (Q : unit -> watch -> Prop) :
  plain (10 :: line s) = true -> Z.of_nat (length (10 :: ln s)) < 2 ^ 31 ->
  Q tt (w_says (10 :: line s) g) -> returns (say (10 :: ln s) []) g Q.
Proof.
  intros Hp Hl HQ. rewrite ln_line, app_comm_cons in *.
  eapply returns_text; [now apply plain_string|now apply plain_plain|exact Hl|exact HQ].
Qed.

Lemma says_app t1 t2 g : w_says t2 (w_says t1 g) = w_says (t1 ++ t2) g.
Proof. unfold w_says. cbn [w_fds w_out w_child]. now rewrite <- app_assoc. Qed.

Lemma summary_returns g : returns summary g (fun _ g' => g' = w_says summary_text g).
Proof.
  repeat (apply returns_bind; first [apply returns_line | apply returns_nl_line]; [vm_compute; reflexivity..|]).
  apply returns_nl_line; [vm_compute; reflexivity..|]. rewrite !says_app. unfold summary_text. cbn [concat].
  now rewrite app_nil_r.
Qed.

(** The program runs to its [exit] with no file open and the summary as its last
    words. *)
Lemma start_returns out :
  (forall out', at_exit 0 (mkWatch ∅ (out' ++ summary_text) false)) ->
  returns start (mkWatch ∅ out false) (fun _ _ => False).
Proof.
  intros He. set (g0 := mkWatch ∅ out false). apply returns_bind.
  assert (forall g, holds None g0 g -> w_fds g = ∅) as H0 by (intros g [_ Hf]; exact Hf).
  eapply returns_then; [apply holds_refl|apply banner_returns|intros g1 K1].
  eapply returns_then; [exact K1|now apply heading_returns|clear g1 K1; intros g1 K1].
  eapply returns_then; [exact K1|apply integrity_returns|clear g1 K1; intros g1 K1].
  eapply returns_then; [exact K1|apply concurrent_returns; auto|clear g1 K1; intros g1 K1].
  eapply returns_then; [exact K1|apply multiple_files_returns|clear g1 K1; intros g1 K1].
  eapply returns_then; [exact K1|apply large_file_returns|clear g1 K1; intros g1 K1].
  eapply returns_then; [exact K1|now apply heading_returns|clear g1 K1; intros g1 K1].
  eapply returns_then; [exact K1|apply log_basic_returns|clear g1 K1; intros g1 K1].
  eapply returns_then; [exact K1|apply log_dump_returns|clear g1 K1; intros g1 K1].
  eapply returns_then; [exact K1|apply log_activity_returns; auto|clear g1 K1; intros g1 K1].
  apply returns_bind. eapply returns_mono; [apply summary_returns|]. intros [] g2 ->. apply returns_exit.
  destruct g1 as [fds o c], K1 as [Hc Hf]. cbn in Hc, Hf. subst. apply He.
Qed.
End watch.

(** ** Properties *)

(** C23: safety.  For every kernel whose [open] gives descriptors from 3 on that are
    not in use, and whose [read] returns no more than it was asked for and from one
    descriptor no more in all than the largest file holds, and whatever it answers
    otherwise: the init program has no undefined behaviour, reads, writes and closes
    open descriptors only, and it ends, as each of its children does, by [exit] with
    status 0 after it has closed what it opened. *)
Theorem init_program_safe `{Garbage} out :
  returns (World0 := watch_world (fun status g => status = 0 /\ w_fds g = ∅))
    start (mkWatch ∅ out false) (fun _ _ => False).
Proof. apply start_returns; auto. Qed.

(** C32: error.  The program ends with the report that all tests have passed,
    whatever the kernel has answered to them (within the bounds on [open] and
    [read] of [gets_answer]). *)
Theorem init_reports_success `{Garbage} out :
  returns (World0 := watch_world (fun _ g => w_child g = false -> exists t, w_out g = t ++ summary_text))
    start (mkWatch ∅ out false) (fun _ _ => False).
Proof.
  apply start_returns.
  - intros g Hc _ Hc'. congruence.
  - intros out' _. now exists out'.
Qed.
