(* ===== verification/Terminal.v ===== *)
(** * The user library on the kernel

    The two halves of the system meet at the system calls: here the world of a user
    program is the kernel itself.  A program that prints runs in user mode, where
    it changes its own memory and registers, and traps into [syscall], which runs
    on the kernel's state. *)
From ITree Require Import Core.ITreeDefinition.
From S2P Require Import Prelude State Mem Pmm Printf Vm UserMem Sched Proc Sysfile Calls User Programs.

Section terminal.
Context `{Symbols} (Hpos : 0 < mem_start) (p : nat) (pr : proc) (l : list Z) (fuel : nat).

(** User mode: only the memory of the process and its trap frame change. *)
Definition user_runs (s s1 : kstate) : Prop :=
  s1 = set_ks_mem (ks_mem s1) s /\
  same_bytes (fun k => (exists va, user_at s (p_pagetable pr) va = Some k) \/
                       p_trapframe pr <= k < p_trapframe pr + PGSIZE) s s1.

Lemma user_runs_refl s : user_runs s s.
Proof. split; [now destruct s|]. intros k _. reflexivity. Qed.

(** The process traps with a [write] of the bytes [bs] of its memory. *)
Definition enters (fd : Z) (bs : list Z) (s s1 : kstate) : Prop :=
  let n := Z.of_nat (length bs) in
  user_runs s s1 /\ exists va, asks s1 pr 16 fd va n /\ 0 <= va /\ va + n <= 2 ^ 64 /\
    user_mapped s1 (p_pagetable pr) va n /\ user_bytes s1 (p_pagetable pr) va n = bs.

(** The world of a program that only writes: a call is allowed when the kernel
    returns from it, and it returns what is in [a0]. *)
#[local] Instance kernel_world : World kstate := {|
  allowed X s e := match e with
    | SysWrite fd bs => forall s1, enters fd bs s s1 -> exists s', syscall fuel s1 = Ok tt s'
    | _ => False
    end;
  answers X s e := match e in sysE X return X -> kstate -> Prop with
    | SysWrite fd bs => fun x s' => exists s1, enters fd bs s s1 /\ syscall fuel s1 = Ok tt s' /\ x = i32 (areg s' pr 0)
    | _ => fun _ _ => False
    end |}.

Lemma user_runs_calling s s1 : calling s p pr l -> user_runs s s1 -> calling s1 p pr l.
Proof.
  intros Hc [E Hs]. eapply calling_moves; [exact Hc|rewrite E; apply Hc|rewrite E; apply Hc|exact Hs|].
  intros k [[va Hu]|Hk].
  - eapply user_not_table; [apply Hc|exact Hu].
  - now apply (cl_apart _ _ _ _ Hc).
Qed.

Lemma enters_run bs s s1 :
  calling s p pr l -> Z.of_nat (length bs) < 2 ^ 31 -> enters 1 bs s s1 ->
  exists s', syscall fuel s1 = Ok tt s' /\ calling s' p pr l /\ ks_uart s' = ks_uart s ++ emit bs.
Proof.
  intros Hc Hlen (Hu & va & Ha & Hva & Hend & Hm & Hb).
  pose proof (user_runs_calling s s1 Hc Hu) as Hc1.
  destruct (write_console_run Hpos fuel s1 p pr l 1 va (Z.of_nat (length bs)) Hc1 Ha) as (r & t & Hrun & K & _);
    [now left|exact Hva|lia|exact Hend|]. destruct (K Hm) as [-> ->]. rewrite Hb in Hrun.
  eexists. split; [exact Hrun|]. split; [apply calling_returning, calling_uart, Hc1|].
  destruct Hu as [-> _]. reflexivity.
Qed.

#[local] Program Instance kernel_console : Console kstate := {|
  ready s := calling s p pr l; shows t s s' := ks_uart s' = ks_uart s ++ emit t |}.
Next Obligation.
  intros bs s Hc Hlen. split.
  - intros s1 He. destruct (enters_run bs s s1 Hc Hlen He) as (s' & Hrun & _). eauto.
  - intros x s' (s1 & He & Hrun & _). destruct (enters_run bs s s1 Hc Hlen He) as (s2 & Hrun2 & Hc2 & Hu).
    rewrite Hrun in Hrun2. injection Hrun2 as <-. auto.
Qed.
Next Obligation. intros s. cbn. unfold emit. now rewrite app_nil_r. Qed.
Next Obligation. intros t1 t2 s1 s2 s3. cbn beta. intros E1 E2. now rewrite E2, E1, emit_app, <- app_assoc. Qed.

Lemma printf_on_kernel fmt f ap ap' t s :
  calling s p pr l -> c_string fmt = Some f -> Forall2 reads_as ap ap' -> fmt_text f ap' = Some t -> fmt_count f < 2 ^ 31 ->
  returns (user_printf fmt ap) s (fun n s' =>
    n = fmt_count f /\ calling s' p pr l /\ ks_uart s' = ks_uart s ++ emit t).
Proof. intros Hc Hf Hr Ht Hb. exact (user_printf_prints fmt f ap ap' t Hf Hr Ht Hb s Hc). Qed.
End terminal.

(** ** Properties *)

(** C13: equivalence.  The [printf] of user programs, character by character through
    the system call [write], puts on the UART what the kernel's own [printf] puts
    there for the same format and arguments; it returns the number of characters
    and conversions of its format, which an [int] has to hold. *)
Theorem user_printf_prints_as_kernel `{Symbols} p pr l fuel fmt f ap ap' s k n k' :
  0 < mem_start -> calling s p pr l ->
  c_string fmt = Some f -> fmt_count f < 2 ^ 31 -> Forall2 reads_as ap ap' -> printf f ap' k = Ok n k' ->
  exists t, ks_uart k' = ks_uart k ++ t /\
    returns (World0 := kernel_world pr fuel) (user_printf fmt ap) s (fun n s' =>
      n = fmt_count f /\ calling s' p pr l /\ ks_uart s' = ks_uart s ++ t).
Proof.
  intros Hpos Hc Hf Hb Hr Hk. unfold printf in Hk. change 0 with (i32 0) in Hk. rewrite printf_loop_emit in Hk.
  destruct (fmt_text f ap') as [t|] eqn:Ht; [|discriminate Hk]. injection Hk as _ <-.
  exists (emit t). split; [reflexivity|]. exact (printf_on_kernel Hpos p pr l fuel fmt f ap ap' t s Hc Hf Hr Ht Hb).
Qed.

(** ** Examples *)

(** A process that prints "pid=7" and a newline. *)
Lemma user_printf_prints_as_kernel_witness :
  returns (World0 := @kernel_world demo_symbols demo_proc 0) (user_printf (ln "pid=%d") [AInt 7])
    (demo_call 0 0 0 0) (fun n s' => n = 6 /\ ks_uart s' = str "pid=7" ++ [13; 10]).
Proof.
  destruct (@user_printf_prints_as_kernel demo_symbols 0 demo_proc _ 0 (ln "pid=%d") (str "pid=%d" ++ [10]) [AInt 7] [AInt 7]
    (demo_call 0 0 0 0) demo_state 6 (upd_ks_uart (fun u => u ++ str "pid=7" ++ [13; 10]) demo_state)
    demo_mem_start (demo_calling 0 0 0 0)) as (t & Ht & Hret).
  - reflexivity.
  - reflexivity.
  - repeat constructor.
  - vm_compute. reflexivity.
  - eapply returns_mono; [exact Hret|]. intros n s' (-> & _ & Hu). split; [reflexivity|]. rewrite Hu.
    assert (t = str "pid=7" ++ [13; 10]) as ->.
    { change (ks_uart demo_state) with (@nil Z) in Ht. symmetry. exact Ht. }
    reflexivity.
Defined.

(** The process of the example can trap with a [write]. *)
Lemma enters_demo :
  enters demo_proc 1 [0; 0xd0; 0xff] (demo_call 16 1 0 3) (demo_call 16 1 0 3).
Proof.
  split; [apply user_runs_refl|]. exists 0.
  split; [repeat split; vm_compute; reflexivity|]. split; [lia|]. split; [vm_compute; discriminate|].
  split; [|vm_compute; reflexivity]. apply (bool_decide_unpack _). vm_compute. exact I.
Qed.
